(* ===== verification/_CoqProject ===== *)
-Q . S2P
Prelude.v
GoStr.v
GoNum.v
GoNet.v
Proto.v
ApiV1.v
K8s.v
Kernel.v
SimKernel.v
Qdisc.v
LinkUtil.v
Vxlan.v
Decode.v
Wire.v
Metrics.v
Daemon.v
Handler.v
HandlerProps.v
Invariant.v
Alive.v
LinkLock.v
Plugin.v
Controller.v
Bpf.v
DeepCopy.v
Startup.v
Network.v
Batch.v
Concurrent.v
EndToEnd.v
WireNet.v
PluginRun.v
Rpc.v
