(* ===== verification/Prelude.v ===== *)
(** * KubeDTN: a verification library (root file)

    KubeDTN builds network topologies between Kubernetes pods.  A [Topology]
    resource describes the links of one pod; this library models the program
    that turns it into interfaces on the nodes, and proves what it does.

    ** The program and its parts

    - The _controller_ (controllers/topology_controller.go) compares the links
      of a topology's spec with those of its status and asks the daemon of the
      pod's node to delete, add and update links over gRPC.
    - The _daemon_ (daemon/kubedtn) runs on every node.  It sets up and
      destroys pods, makes links (veth pairs on one node, VXLAN tunnels
      between nodes, macvlan), shapes them with queueing disciplines, and asks
      the peer's daemon for the other end.  Handlers run concurrently; a mutex
      per link protects the making of an end.
    - Below the handlers: common/qdisc.go (shaping), common/veth.go and
      common/utils.go (veth pairs, VNIs, remote updates), daemon/vxlan,
      daemon/grpcwire (frames carried over gRPC) and daemon/metrics.
    - The _CNI plugin_ (plugin/kube_dtn.go) is called by the container runtime
      and calls the daemon; daemon/cni installs it on the node; cmd/main.go is
      a tool that makes a physical host's end of a link.
    - bpf/ loads two eBPF programs that let TCP connections between pods of a
      node bypass the stack; main.go and daemon/main.go start the controller
      and the daemon.

    ** How code is modelled

    Code with effects is a computation of the monad [go S A] below: it takes a
    state and ends with a value, a panic or an exit of the process, and a
    state.  Errors that Go returns are values ([option error], [result]).
    Machine integers are [Z] with the wrap-around written out ([int32],
    [uint64], ...).  Loops are structural recursion over the list they range
    over.  What the program gets from libraries, the kernel or the network is
    a type class over an abstract state, with a second class for the laws a
    theorem needs; each such class has an instance that evaluates, which the
    witnesses run.  Pointers are modelled where they are shared: topologies of
    the informer's cache ([Metrics.Heap]), the namespaces the VXLAN manager
    points to ([Vxlan.VxlanManager]), channels of wires ([Wire.WireState]).

    ** Files

    - [Prelude]: this file; integers, errors, the monad, total ([wp]) and
      partial ([wlp]) correctness rules and the tactics of the library.
    - [GoStr], [GoNum], [GoNet]: the parts of Go's strings, strconv, fmt, time
      and net packages the code relies on, with the lemmas used later.
    - [Proto] (proto/v1), [ApiV1] (api/v1, api/clientset requests in [K8s]):
      messages, client stubs, resource types and their conversion.
    - [K8s]: REST requests of api/clientset/v1beta1, the controller's client,
      [RetryOnConflict] (class [Retry]; instance with the five attempts of
      [retry.DefaultRetry]) and the laws of the stored objects and of the cache
      that answers the controller's reads, which may lag behind the store.
    - [Kernel]: class of the netlink, koko, ns and tc calls, and [KernelLaws],
      which describes them by a view of the node's interfaces and traffic
      control (a root discipline and the filters of clsact, which are
      independent).  The laws leave open whether a call succeeds.  [KernelWorks]
      says that calls fail only for cause; a theorem that needs it says so in
      its statement, since the code goes on after many errors.  [SimKernel]: a
      simulated node that satisfies both.
    - [Qdisc]: common/qdisc.go and common/context.go.  [ParseRate] and
      [ParseDuration] are correct on every number and unit, [SetVethQdiscs]
      installs the requested shaping and clears what is not requested, bounds
      of [getTbfBurst].
    - [LinkUtil]: common/constants.go, utils.go, veth.go.  VNI/UID round trip,
      exclusive mutexes, [SetupVeth] connects both ends and shapes them.
    - [Vxlan]: daemon/vxlan.  [SetupVxLan] establishes a shaped tunnel end
      whatever was there before, is idempotent, [RemoveLinkWithVni] removes;
      the aliasing of [VxlanManager.Init].
    - [Decode], [Wire]: daemon/grpcwire.  Frame decoding ends; names are
      unique; a wire is registered; the receive thread forwards in order; and
      where they fail: slices out of range, removal of wires.
    - [Metrics]: daemon/metrics; [Daemon]: daemon/kubedtn/kubedtn.go and the
      queries of handler.go; [Handler]: the handlers, with the lemmas behind
      [HandlerProps], which states what they promise: both ends of a link
      over two nodes, what [addLink] and [delLink] leave, [SetupPod],
      [UpdateLinks], start-up, delivery over a wire, the order of locks and
      calls, and what [DestroyPod] leaves behind.  The collector of metrics
      exposes the counters of every interface of every live pod that can be
      listed, and nothing else.
    - [Invariant]: requests of a daemon as a step relation.  In every state
      reachable from start-up pointers are allocated ([reachable_typed]) and
      the wires are consistent, with threads that only removals tell to stop
      ([reachable_wires]);
      the VXLAN manager with its pointers implements a map from VNIs to
      namespaces (class [VniMap], [vxlan_records_refine]).
    - [Alive]: what [SetAlive] leaves in the API server and in the manager,
      with the laws of the API server and of the informer's cache.
    - [LinkLock]: the locks of concurrent handlers of several daemons as a step
      relation; the discipline proved of the handlers excludes deadlocks.
    - [Plugin]: plugin/kube_dtn.go, daemon/cni/cni.go, cmd/main.go, each with
      its [main] ([plugin_main], [cmd_main]).
    - [Controller]: the reconciler.  [CalcDiff] refines the change of a map
      from link identities to properties; [Reconcile] converges, sends nothing
      more once the cache shows what it wrote, and keeps the status when it
      fails.
    - [Bpf]: bpf/, the generated loaders included, over a class for the ebpf
      library with its laws: what is loaded, pinned and attached after
      [LoadProgram], and what [CloseProgram] leaves, when its calls fail too.
    - [DeepCopy]: api/v1/zz_generated.deepcopy.go on a store of slices and
      maps: a copy equals its source and shares no cell with it, so that
      writing to one never shows in the other.
    - [Startup]: main.go, daemon/main.go, [New], [Serve] and [Stop] of
      daemon/kubedtn/kubedtn.go, the metrics registry and the constructors of
      api/clientset, with Go's [defer]: which files and programs are left on
      each way out of the daemon, that installing again changes nothing, and
      what [New] starts from.
    - [Network]: several nodes.  The gRPC client of a daemon runs the [Update]
      handler of the node it dials, so that one [addLink] is proved to make
      and shape both ends of a link; an end made for a remote daemon is the
      end the node would make itself; and a link that two pods lose when both
      read each other from a stale cache.
    - [Batch]: the links of a batch together.  Frame lemmas say which tunnels
      [Update] and [addLink] leave alone, with their shaping, and an induction
      over the loop of [AddLinks] that all its links between nodes stand at
      both ends at once, next to links that stood before; [SetupPod] ends in
      such a batch.
    - [Concurrent]: handlers that add links at the same time, as a step relation
      over any number of nodes and links ([addLink_remote] cut where it releases
      the lock; a step waits for the link's lock): in every interleaving the
      finished links stand at both ends, no handler waits for ever, and every
      run ends.
    - [EndToEnd]: the controller over running daemons: when [Reconcile] succeeds
      the links the spec adds stand at both ends, those it keeps still stand,
      and changed links carry their new properties.
    - [WireNet]: the receive threads and [SendToOnce] of two daemons: a gRPC wire
      carries the frames of its pods both ways, in order.
    - [PluginRun]: the CNI plugin over the daemon of its node: when ADD returns
      without an error the links of the pod stand.
    - [Rpc]: proto/v1/kube_dtn_grpc.pb.go: the tables and handlers of the three
      services, the servers that implement nothing, the other stubs and the
      stream types, over classes for the codec and for gRPC's routing.  A stub
      runs the daemon's method of its name on the request that was sent
      ([stubs_reach_handlers]); the stream of packets is refused.

    ** Bounds and fuel

    [Decode.DecodePkt] and [Decode.frame_loop] take fuel; [DecodeFrame] gives
    one more than the length of the frame, and [DecodeFrame_terminates] proves
    that this is enough: each level of VLAN tags and each packet of a frame
    consumes bytes.  [GoNum.duration_loop] takes the length of its string, of
    which each item consumes at least one byte.  [K8s.retry_steps] counts the
    attempts of the library's default back-off.  Nothing else is bounded.

    ** What is not modelled

    The protobuf runtime of the generated message code, proto/v1/kube_dtn.pb.go
    (the message types and the getters that are called are modelled; resetting,
    printing and reflection of messages, their descriptors and the other getters
    are not); the eBPF programs, which are C; logging; license headers, imports
    and interfaces of Go that only name types.  Libraries (netlink, koko, pcap,
    gopacket, gRPC, client-go, controller-runtime, cilium/ebpf, Prometheus, the
    CNI libraries) are parameters.  A handler runs without interleaving in
    [Handler], [Invariant], [Network] and [Batch]; [LinkLock] interleaves the
    locking, and [Concurrent] the critical sections of the handlers that add
    links between nodes, which are atomic there.  Clocks are an arbitrary
    sequence of readings.

    ** Left open

    Veth pairs in [Batch], deletions in [Concurrent]; two triggers of one gRPC
    wire at the same time; round trips of addresses in [GoNet]. *)

From stdpp Require Import base strings gmap list.
From Stdlib Require Import ZArith Lia.

(** ** Machine integers

    Go's fixed-width integers are [Z] with the wrap-around written out at each
    operation that can overflow. *)

Definition wrapU (w : Z) (x : Z) : Z := x mod 2 ^ w.

Definition wrapS (w : Z) (x : Z) : Z := (x + 2 ^ (w - 1)) mod 2 ^ w - 2 ^ (w - 1).

Abbreviation uint32 := (wrapU 32).
Abbreviation uint64 := (wrapU 64).
Abbreviation int32 := (wrapS 32).
Abbreviation int64 := (wrapS 64).

Definition in_uint (w x : Z) : Prop := (0 <= x < 2 ^ w)%Z.
Definition in_int (w x : Z) : Prop := (- 2 ^ (w - 1) <= x < 2 ^ (w - 1))%Z.

(** ** Go error values

    An [error] carries its text ([Error()]) and the class the Kubernetes
    helpers test for ([IsNotFound], [IsConflict]).  [fmt.Errorf] without [%w]
    makes a plain error out of the text. *)

Inductive err_kind := Plain | NotFound | Conflict.

Record error := mkError { err_kind_of : err_kind; err_msg : string }.

Definition errorf (msg : string) : error := mkError Plain msg.

Definition IsNotFound (e : error) : bool :=
  match err_kind_of e with NotFound => true | _ => false end.

Definition IsConflict (e : error) : bool :=
  match err_kind_of e with Conflict => true | _ => false end.

(** A Go function returning [(T, error)] with exactly one of them meaningful. *)
Inductive result (A : Type) := Ok (a : A) | Err (e : error).
Arguments Ok {A} a.
Arguments Err {A} e.

(** ** Effects

    A Go statement sequence is a state transformer that can panic (nil
    dereference, failed type assertion, closing a closed channel) or leave the
    process ([log.Fatalf], [os.Exit]). *)

Inductive outcome (A : Type) :=
| Val (a : A)
| Panic (why : string)
| Exit (code : Z).
Arguments Val {A} a.
Arguments Panic {A} why.
Arguments Exit {A} code.

Definition go (S A : Type) : Type := S -> outcome A * S.

Definition ret {S A} (a : A) : go S A := fun s => (Val a, s).

Definition panic {S A} (why : string) : go S A := fun s => (Panic why, s).

Definition exit {S A} (code : Z) : go S A := fun s => (Exit code, s).

Definition bind {S A B} (m : go S A) (k : A -> go S B) : go S B :=
  fun s =>
    match m s with
    | (Val a, s') => k a s'
    | (Panic w, s') => (Panic w, s')
    | (Exit c, s') => (Exit c, s')
    end.

Definition get {S} : go S S := fun s => (Val s, s).
Definition modify {S} (f : S -> S) : go S unit := fun s => (Val tt, f s).

(** A call of code outside the repository: it returns, and may change the
    external state. *)
Definition eff (E A : Type) : Type := E -> A * E.

Definition call {E A} (f : eff E A) : go E A :=
  fun e => let '(a, e') := f e in (Val a, e').

(** Runs a computation on a part of the state. *)
Definition zoom {S T A} (get_part : S -> T) (set_part : T -> S -> S) (m : go T A) : go S A :=
  fun s => let '(r, t) := m (get_part s) in (r, set_part t s).

(** [defer d] in front of [m]: [d] runs when [m] returns or panics. *)
Definition defer {S A} (d : go S unit) (m : go S A) : go S A :=
  fun s =>
    match m s with
    | (Val a, s1) => bind d (fun _ => ret a) s1
    | (Panic w, s1) => bind d (fun _ => panic w) s1
    | (Exit c, s1) => (Exit c, s1)
    end.

(** State in two parts: the world outside and the program's own. *)
Definition on_ext {E M A} (f : eff E A) : go (E * M) A :=
  zoom fst (fun e s => (e, s.2)) (call f).

Definition on_st {E M} (f : M -> M) : go (E * M) unit := modify (fun s => (s.1, f s.2)).

Definition get_st {E M} : go (E * M) M := fun s => (Val s.2, s).

Declare Scope go_scope.
Delimit Scope go_scope with go.
Notation "x <- m ;; k" := (bind m (fun x => k))
  (at level 20, m at level 99, k at level 200, only parsing) : go_scope.
Notation "' p <- m ;; k" := (bind m (fun p => k))
  (at level 20, p pattern, m at level 99, k at level 200, only parsing) : go_scope.
Notation "m ;; k" := (bind m (fun _ => k))
  (at level 100, k at level 200, right associativity, only parsing) : go_scope.

(** ** Tactics *)

(** Case analysis on the scrutinee of a match of the goal. *)
Ltac case_goal :=
  match goal with
  | |- context [match ?x with _ => _ end] => destruct x eqn:?
  end.

(** Case analysis on the scrutinee of a match of a hypothesis. *)
Ltac case_in H :=
  match type of H with
  | context [match ?x with _ => _ end] => destruct x eqn:?
  end.

(** Evaluates the monad's glue, leaving the program's own tests visible. *)
Ltac go_unfold := unfold bind, ret, panic, exit, call, get, modify in *; cbn in *.

(** The head of an application. *)
Ltac head_of t := lazymatch t with ?f _ => head_of f | _ => t end.

(** Closes a goal whose proposition is decidable by evaluating the decision. *)
Ltac decide_now := refine (bool_decide_unpack _ _); vm_compute; exact I.

Create HintDb kdtn.

(** ** Lemmas on machine integers *)

Lemma wrapU_range w x : (0 <= w)%Z -> in_uint w (wrapU w x).
Proof. intros Hw. apply Z.mod_pos_bound. lia. Qed.

Lemma wrapU_small w x : in_uint w x -> wrapU w x = x.
Proof. intros H. by apply Z.mod_small. Qed.

Lemma wrapS_range w x : (0 < w)%Z -> in_int w (wrapS w x).
Proof.
  intros Hw. unfold in_int, wrapS.
  pose proof (Z.mod_pos_bound (x + 2 ^ (w - 1)) (2 ^ w)).
  assert (2 ^ w = 2 * 2 ^ (w - 1))%Z as ->.
  { rewrite <- Z.pow_succ_r by lia. f_equal. lia. }
  pose proof (Z.pow_pos_nonneg 2 (w - 1)).
  pose proof (Z.mod_pos_bound (x + 2 ^ (w - 1)) (2 * 2 ^ (w - 1))). lia.
Qed.

Lemma pow2_double w : (0 < w)%Z -> (2 ^ w = 2 * 2 ^ (w - 1))%Z.
Proof. intros Hw. rewrite <- Z.pow_succ_r by lia. f_equal. lia. Qed.

Lemma wrapS_small w x : (0 < w)%Z -> in_int w x -> wrapS w x = x.
Proof.
  intros Hw H. unfold in_int, wrapS in *. pose proof (pow2_double w Hw).
  rewrite Z.mod_small; lia.
Qed.

Lemma wrapS_congr w x y : (0 < w)%Z -> (x mod 2 ^ w = y mod 2 ^ w)%Z -> wrapS w x = wrapS w y.
Proof.
  intros Hw H. unfold wrapS. f_equal.
  rewrite (Z.add_mod x), (Z.add_mod y) by lia. by rewrite H.
Qed.

Lemma wrapS_mod w x : (0 < w)%Z -> (wrapS w x mod 2 ^ w = x mod 2 ^ w)%Z.
Proof.
  intros Hw. unfold wrapS. rewrite Zminus_mod_idemp_l. f_equal. lia.
Qed.

Lemma wrapS_mod_inv w x y : (0 < w)%Z -> wrapS w x = wrapS w y -> (x mod 2 ^ w = y mod 2 ^ w)%Z.
Proof. intros Hw H. rewrite <- (wrapS_mod w x), <- (wrapS_mod w y) by done. by rewrite H. Qed.

#[export] Hint Resolve wrapU_range wrapS_range : kdtn.

(** ** Lemmas on lists *)

(** A member is determined by a key that no two members share. *)
Lemma NoDup_fmap_eq {A B} (f : A -> B) (l : list A) x y : NoDup (f <$> l) -> x ∈ l -> y ∈ l -> f x = f y -> x = y.
Proof.
  intros Hnd [i Hi]%list_elem_of_lookup [j Hj]%list_elem_of_lookup E. assert (i = j) as ->; [|congruence].
  eapply NoDup_lookup; [exact Hnd|rewrite list_lookup_fmap, Hi; done|rewrite list_lookup_fmap, Hj; cbn; by rewrite E].
Qed.

(** ** Lemmas on the monad *)

Lemma bind_Val {S A B} (m : go S A) (k : A -> go S B) s b s' :
  bind m k s = (Val b, s') ->
  exists a s1, m s = (Val a, s1) /\ k a s1 = (Val b, s').
Proof. unfold bind. destruct (m s) as [[a| |] s1]; naive_solver. Qed.

Lemma bind_run {S A B} (m : go S A) (k : A -> go S B) s a s1 :
  m s = (Val a, s1) -> bind m k s = k a s1.
Proof. unfold bind. by intros ->. Qed.

(** *** Weakest preconditions

    [wp m Q s]: from [s], [m] returns a value (it neither panics nor exits)
    and the value and the final state satisfy [Q]. *)

Definition wp {S A} (m : go S A) (Q : A -> S -> Prop) (s : S) : Prop :=
  match m s with
  | (Val a, s') => Q a s'
  | _ => False
  end.

Lemma wp_bind {S A B} (m : go S A) (k : A -> go S B) Q s :
  wp m (fun a s' => wp (k a) Q s') s -> wp (bind m k) Q s.
Proof. unfold wp, bind. by destruct (m s) as [[a| |] s']. Qed.

Lemma wp_ret {S A} (a : A) (Q : A -> S -> Prop) s : Q a s -> wp (ret a) Q s.
Proof. done. Qed.

Lemma wp_call {E A} (f : eff E A) (Q : A -> E -> Prop) e :
  (forall a e', f e = (a, e') -> Q a e') -> wp (call f) Q e.
Proof. unfold wp, call. intros H. destruct (f e) as [a e'] eqn:Hf. by apply H. Qed.

Lemma wp_mono {S A} (m : go S A) (P Q : A -> S -> Prop) s :
  wp m P s -> (forall a s', P a s' -> Q a s') -> wp m Q s.
Proof. unfold wp. destruct (m s) as [[a| |] s']; naive_solver. Qed.

Lemma wp_get {S} (Q : S -> S -> Prop) s : Q s s -> wp get Q s.
Proof. done. Qed.

Lemma wp_modify {S} (f : S -> S) (Q : unit -> S -> Prop) s : Q tt (f s) -> wp (modify f) Q s.
Proof. done. Qed.

Lemma wp_zoom {S T A} (g : S -> T) (f : T -> S -> S) (m : go T A) (Q : A -> S -> Prop) s :
  wp m (fun a t => Q a (f t s)) (g s) -> wp (zoom g f m) Q s.
Proof. unfold wp, zoom. by destruct (m (g s)) as [[a| |] t]. Qed.

Lemma wp_ext {E M A} (f : eff E A) (Q : A -> E * M -> Prop) (s : E * M) :
  (forall a e', f s.1 = (a, e') -> Q a (e', s.2)) -> wp (on_ext f) Q s.
Proof. intros HQ. apply wp_zoom, wp_call. intros a e' Hf. by apply HQ. Qed.

Lemma wp_st {E M} (f : M -> M) (Q : unit -> E * M -> Prop) (s : E * M) :
  Q tt (s.1, f s.2) -> wp (on_st f) Q s.
Proof. done. Qed.

Lemma wp_get_st {E M} (Q : M -> E * M -> Prop) (s : E * M) : Q s.2 s -> wp get_st Q s.
Proof. done. Qed.

Lemma wp_and {S A} (m : go S A) (P Q : A -> S -> Prop) s :
  wp m P s -> wp m Q s -> wp m (fun a s' => P a s' /\ Q a s') s.
Proof. unfold wp. by destruct (m s) as [[a| |] s']. Qed.

(** The run behind a [wp]. *)
Lemma wp_run {S A} (m : go S A) (Q : A -> S -> Prop) s a s' :
  wp m Q s -> m s = (Val a, s') -> Q a s'.
Proof. unfold wp. intros H E. by rewrite E in H. Qed.

Lemma wp_exists {S A} (m : go S A) (Q : A -> S -> Prop) s :
  wp m Q s -> exists a s', m s = (Val a, s') /\ Q a s'.
Proof. unfold wp. destruct (m s) as [[a| |] s']; naive_solver. Qed.

(** *** Partial correctness

    [wlp m Q s]: if [m] returns a value from [s], the value and the final
    state satisfy [Q]; for code that can panic or leave the process. *)

Definition wlp {S A} (m : go S A) (Q : A -> S -> Prop) (s : S) : Prop :=
  match m s with
  | (Val a, s') => Q a s'
  | _ => True
  end.

Lemma wlp_bind {S A B} (m : go S A) (k : A -> go S B) Q s :
  wlp m (fun a s' => wlp (k a) Q s') s -> wlp (bind m k) Q s.
Proof. unfold wlp, bind. by destruct (m s) as [[a| |] s']. Qed.

Lemma wlp_ret {S A} (a : A) (Q : A -> S -> Prop) s : Q a s -> wlp (ret a) Q s.
Proof. done. Qed.

Lemma wlp_mono {S A} (m : go S A) (P Q : A -> S -> Prop) s :
  wlp m P s -> (forall a s', P a s' -> Q a s') -> wlp m Q s.
Proof. unfold wlp. destruct (m s) as [[a| |] s']; naive_solver. Qed.

Lemma wlp_wp {S A} (m : go S A) (Q : A -> S -> Prop) s : wp m Q s -> wlp m Q s.
Proof. unfold wp, wlp. by destruct (m s) as [[a| |] s']. Qed.

Lemma wlp_panic {S A} w (Q : A -> S -> Prop) s : wlp (panic w) Q s.
Proof. done. Qed.

Lemma wlp_exit {S A} c (Q : A -> S -> Prop) s : wlp (exit c) Q s.
Proof. done. Qed.

Lemma wlp_zoom {S T A} (g : S -> T) (f : T -> S -> S) (m : go T A) (Q : A -> S -> Prop) s :
  wlp m (fun a t => Q a (f t s)) (g s) -> wlp (zoom g f m) Q s.
Proof. unfold wlp, zoom. by destruct (m (g s)) as [[a| |] t]. Qed.

Lemma wlp_intro {S A} (m : go S A) (Q : A -> S -> Prop) s :
  (forall a s', m s = (Val a, s') -> Q a s') -> wlp m Q s.
Proof. unfold wlp. destruct (m s) as [[a| |] s']; auto. Qed.

Lemma wlp_run {S A} (m : go S A) (Q : A -> S -> Prop) s a s' :
  wlp m Q s -> m s = (Val a, s') -> Q a s'.
Proof. unfold wlp. intros H E. by rewrite E in H. Qed.

(** A call, with names for its result, the state after it and its equation. *)
Tactic Notation "wp_call" "as" simple_intropattern(a) simple_intropattern(e) ident(H) :=
  first [apply wp_bind, wp_call | apply wlp_bind, wlp_wp, wp_call]; intros a e H; cbv beta iota in *.

(** The same for a call that leaves the program's own state alone. *)
Tactic Notation "wp_ext" "as" simple_intropattern(a) simple_intropattern(e) ident(H) :=
  first [apply wp_bind, wp_ext | apply wlp_bind, wlp_wp, wp_ext]; intros a e H;
  cbn [fst snd] in *; cbv beta iota in *.

(** A subroutine with a specification. *)
Tactic Notation "wp_use" uconstr(l) "as" simple_intropattern(a) simple_intropattern(e)
    simple_intropattern(H) :=
  lazymatch goal with
  | |- wp (bind _ _) _ _ => apply wp_bind
  | |- wlp (bind _ _) _ _ => apply wlp_bind
  | _ => idtac
  end;
  lazymatch goal with
  | |- wlp _ _ _ => eapply wlp_mono
  | _ => eapply wp_mono
  end; [eapply l | intros a e H; cbv beta iota in *].

(** One step of the calculus. *)
Ltac wp_step :=
  lazymatch goal with
  | |- wp (bind _ _) _ _ => apply wp_bind
  | |- wp (ret _) _ _ => apply wp_ret; cbv beta iota
  | |- wp get _ _ => apply wp_get
  | |- wp get_st _ _ => apply wp_get_st
  | |- wp (on_st _) _ _ => apply wp_st
  | |- wp (modify _) _ _ => apply wp_modify
  | |- wp (call _) _ _ => apply wp_call; intros ? ? ?
  | |- wlp (bind _ _) _ _ => apply wlp_bind
  | |- wlp (ret _) _ _ => apply wlp_ret; cbv beta iota
  | |- wlp (panic _) _ _ => apply wlp_panic
  | |- wlp (exit _) _ _ => apply wlp_exit
  | |- wlp get _ _ => apply wlp_wp, wp_get
  | |- wlp get_st _ _ => apply wlp_wp, wp_get_st
  | |- wlp (on_st _) _ _ => apply wlp_wp, wp_st
  | |- wlp (modify _) _ _ => apply wlp_wp, wp_modify
  | |- wlp (match ?x with _ => _ end) _ _ => first [progress cbv beta iota | destruct x eqn:?]
  | |- wp (match ?x with _ => _ end) _ _ => first [progress cbv beta iota | destruct x eqn:?]
  end.

Lemma fst_pair {X Y} (m : X * Y) x : m.1 = x -> m = (x, m.2).
Proof. intros <-. by destruct m. Qed.

#[export] Instance err_kind_eq_dec : EqDecision err_kind.
Proof. solve_decision. Defined.

#[export] Instance error_eq_dec : EqDecision error.
Proof. solve_decision. Defined.
