(* ===== verification/GoStr.v ===== *)
(** * Go's string functions

    The parts of [strings], [strconv] and [fmt] the repository calls, on byte
    strings.  A Go [string] is a sequence of bytes; Rocq's [string] is the same
    thing.  The two library functions that consult the Unicode tables
    ([strings.ToLower], [strings.TrimSpace]) do so only on strings holding a
    byte outside ASCII: that fallback is the class [UnicodeTables].

    Texts of errors made by the Go library are abbreviated: the repository
    never looks inside them. *)

From stdpp Require Import base strings gmap list pretty.
From Stdlib Require Import ZArith Lia Ascii.
From S2P Require Import Prelude.

Local Open Scope string_scope.

#[global] Arguments String.append : simpl nomatch.

(** ** Bytes *)

Definition byte_val (c : ascii) : Z := Z.of_N (N_of_ascii c).

Definition in_range (lo hi : Z) (c : ascii) : bool := (lo <=? byte_val c)%Z && (byte_val c <=? hi)%Z.

Definition is_digit (c : ascii) : bool := in_range 48 57 c.

Definition is_hexdigit (c : ascii) : bool := is_digit c || in_range 97 102 c || in_range 65 70 c.

Definition is_ascii_byte (c : ascii) : bool := in_range 0 127 c.

Fixpoint all_bytes (p : ascii -> bool) (s : string) : bool :=
  match s with
  | EmptyString => true
  | String c s' => p c && all_bytes p s'
  end.

Definition isASCII (s : string) : bool := all_bytes is_ascii_byte s.

(** ** [strings] *)

(** The suffix of [s] after [n] bytes, and its first [n] bytes. *)
Fixpoint drop_bytes (n : nat) (s : string) : string :=
  match n, s with
  | S n', String _ s' => drop_bytes n' s'
  | _, _ => s
  end.

Fixpoint take_bytes (n : nat) (s : string) : string :=
  match n, s with
  | S n', String c s' => String c (take_bytes n' s')
  | _, _ => ""
  end.

Definition HasPrefix (s pre : string) : bool := String.prefix pre s.

Definition HasSuffix (s suf : string) : bool :=
  (String.length suf <=? String.length s)%nat
  && String.eqb (drop_bytes (String.length s - String.length suf) s) suf.

Definition TrimPrefix (s pre : string) : string :=
  if HasPrefix s pre then drop_bytes (String.length pre) s else s.

Definition TrimSuffix (s suf : string) : string :=
  if HasSuffix s suf then take_bytes (String.length s - String.length suf) s else s.

Fixpoint Contains (s sub : string) : bool :=
  HasPrefix s sub ||
  match s with
  | EmptyString => false
  | String _ s' => Contains s' sub
  end.

Class UnicodeTables := {
  unicode_ToLower : string -> string;
  unicode_TrimSpace : string -> string
}.

Definition lower_byte (c : ascii) : ascii :=
  if in_range 65 90 c then ascii_of_N (N_of_ascii c + 32) else c.

Fixpoint map_bytes (f : ascii -> ascii) (s : string) : string :=
  match s with
  | EmptyString => EmptyString
  | String c s' => String (f c) (map_bytes f s')
  end.

Definition ToLower `{UnicodeTables} (s : string) : string :=
  if isASCII s then map_bytes lower_byte s else unicode_ToLower s.

(** ASCII white space: tab, newline, vertical tab, form feed, return, space. *)
Definition is_space (c : ascii) : bool := in_range 9 13 c || in_range 32 32 c.

Fixpoint trim_left (s : string) : string :=
  match s with
  | EmptyString => EmptyString
  | String c s' => if is_space c then trim_left s' else s
  end.

Fixpoint trim_right (s : string) : string :=
  match s with
  | EmptyString => EmptyString
  | String c s' =>
      match trim_right s' with
      | EmptyString => if is_space c then EmptyString else String c EmptyString
      | t => String c t
      end
  end.

Definition TrimSpace `{UnicodeTables} (s : string) : string :=
  if isASCII s then trim_right (trim_left s) else unicode_TrimSpace s.

(** ** [strconv.ParseUint(s, 10, 64)] *)

Definition maxUint64 : Z := 2 ^ 64 - 1.

Fixpoint parse_uint_loop (n : Z) (s : string) : result Z :=
  match s with
  | EmptyString => Ok n
  | String c s' =>
      if is_digit c then
        if (maxUint64 / 10 + 1 <=? n)%Z then Err (errorf "strconv.ParseUint: value out of range")
        else
          let n1 := uint64 (n * 10 + (byte_val c - 48)) in
          if (n1 <? n * 10)%Z then Err (errorf "strconv.ParseUint: value out of range")
          else parse_uint_loop n1 s'
      else Err (errorf "strconv.ParseUint: invalid syntax")
  end.

Definition ParseUint (s : string) : result Z :=
  match s with
  | EmptyString => Err (errorf "strconv.ParseUint: invalid syntax")
  | _ => parse_uint_loop 0 s
  end.

(** ** [fmt] *)

(** [fmt.Sprint] of an integer, and the verb [%d]. *)
Definition Sprint (x : Z) : string := pretty x.

Fixpoint zeros (n : nat) : string :=
  match n with
  | O => EmptyString
  | S n' => String "0" (zeros n')
  end.

(** The verb [%04d]: the sign, then zeros up to width 4. *)
Definition fmt_04d (x : Z) : string :=
  let digits := pretty (Z.to_N (Z.abs x)) in
  if (x <? 0)%Z then "-" ++ zeros (3 - String.length digits) ++ digits
  else zeros (4 - String.length digits) ++ digits.

(** The length in bytes of the first rune of a string, as [range] walks it: a
    byte that starts no valid UTF-8 sequence is a rune of its own. *)
Definition is_cont (o : option ascii) : bool :=
  match o with Some c => in_range 128 191 c | None => false end.

Definition second_in (lo hi : Z) (o : option ascii) : bool :=
  match o with Some c => in_range lo hi c | None => false end.

Definition rune_len (s : string) : nat :=
  match s with
  | EmptyString => 0
  | String c s' =>
      let b := byte_val c in
      let n1 := String.get 0 s' in
      let n2 := String.get 1 s' in
      let n3 := String.get 2 s' in
      if in_range 194 223 c && is_cont n1 then 2
      else if (((b =? 224)%Z && second_in 160 191 n1)
               || ((b =? 237)%Z && second_in 128 159 n1)
               || ((in_range 225 236 c || in_range 238 239 c) && is_cont n1))
              && is_cont n2 then 3
      else if (((b =? 240)%Z && second_in 144 191 n1)
               || ((b =? 244)%Z && second_in 128 143 n1)
               || (in_range 241 243 c && is_cont n1))
              && is_cont n2 && is_cont n3 then 4
      else 1
  end.

(** The verb [%.ns]: at most [n] runes. *)
Fixpoint take_runes (n : nat) (s : string) : string :=
  match n with
  | O => EmptyString
  | S n' => let k := rune_len s in take_bytes k s ++ take_runes n' (drop_bytes k s)
  end.

(** ** Lemmas *)

Lemma str_length_app (a b : string) : String.length (a ++ b) = String.length a + String.length b.
Proof. induction a as [|c a IH]; cbn; [done|]. by rewrite IH. Qed.

Lemma str_app_assoc (a b c : string) : (a ++ b) ++ c = a ++ (b ++ c).
Proof. induction a as [|x a IH]; cbn; [done|]. by rewrite IH. Qed.

Lemma str_app_nil_r (a : string) : a ++ "" = a.
Proof. induction a as [|x a IH]; cbn; [done|]. by rewrite IH. Qed.

Lemma drop_bytes_app (a b : string) : drop_bytes (String.length a) (a ++ b) = b.
Proof. induction a as [|c a IH]; cbn; done. Qed.

Lemma take_bytes_app (a b : string) : take_bytes (String.length a) (a ++ b) = a.
Proof. induction a as [|c a IH]; cbn; [by destruct b|]. by rewrite IH. Qed.

Lemma take_drop_bytes n s : take_bytes n s ++ drop_bytes n s = s.
Proof. revert s. induction n as [|n IH]; intros [|c s]; cbn; try done. by rewrite IH. Qed.

Lemma HasPrefix_app pre s : HasPrefix (pre ++ s) pre = true.
Proof.
  unfold HasPrefix. induction pre as [|c pre IH]; cbn; [by destruct s|].
  by destruct (ascii_dec c c).
Qed.

Lemma HasPrefix_spec s pre : HasPrefix s pre = true <-> exists t, s = pre ++ t.
Proof.
  split; [|intros [t ->]; apply HasPrefix_app].
  unfold HasPrefix. revert s. induction pre as [|c pre IH]; intros s; [by exists s|].
  destruct s as [|d s]; cbn; [done|]. destruct (ascii_dec c d) as [->|]; [|done].
  intros (t & ->)%IH. by exists t.
Qed.

Lemma TrimPrefix_app pre s : TrimPrefix (pre ++ s) pre = s.
Proof. unfold TrimPrefix. rewrite HasPrefix_app. apply drop_bytes_app. Qed.

Lemma HasSuffix_app s suf : HasSuffix (s ++ suf) suf = true.
Proof.
  unfold HasSuffix. rewrite str_length_app, Nat.add_sub, drop_bytes_app.
  apply andb_true_intro. split; [apply Nat.leb_le; lia | apply String.eqb_refl].
Qed.

Lemma HasSuffix_spec s suf : HasSuffix s suf = true <-> exists t, s = t ++ suf.
Proof.
  split; [|intros [t ->]; apply HasSuffix_app].
  unfold HasSuffix. intros [_ H%String.eqb_eq]%andb_prop.
  exists (take_bytes (String.length s - String.length suf) s).
  rewrite <- H at 2. by rewrite take_drop_bytes.
Qed.

Lemma TrimSuffix_app s suf : TrimSuffix (s ++ suf) suf = s.
Proof.
  unfold TrimSuffix. rewrite HasSuffix_app, str_length_app, Nat.add_sub. apply take_bytes_app.
Qed.

Lemma TrimSuffix_no s suf : HasSuffix s suf = false -> TrimSuffix s suf = s.
Proof. unfold TrimSuffix. by intros ->. Qed.

Lemma all_bytes_app p a b : all_bytes p (a ++ b) = all_bytes p a && all_bytes p b.
Proof. induction a as [|c a IH]; cbn; [done|]. by rewrite IH, andb_assoc. Qed.

(** What follows the last separator is determined by the whole. *)
Lemma sep_suffix (p : ascii -> bool) (c : ascii) (a a' d d' : string) :
  p c = false -> all_bytes p d = true -> all_bytes p d' = true -> a ++ String c d = a' ++ String c d' -> d = d'.
Proof.
  intros Hc. assert (forall x y z : string, all_bytes p x = true -> x <> y ++ String c z) as Hno.
  { intros x y z Hx ->. rewrite all_bytes_app in Hx. cbn in Hx. by rewrite Hc, andb_false_r in Hx. }
  intros Hd Hd'. revert a'. induction a as [|x a IH]; intros [|x' a']; cbn; intros Heq.
  - by injection Heq.
  - injection Heq as _ Heq. by apply Hno in Heq.
  - injection Heq as _ Heq. symmetry in Heq. by apply Hno in Heq.
  - injection Heq as _ Heq. by apply (IH a').
Qed.

Lemma append_cancel_r (a b s : string) : a ++ s = b ++ s -> a = b.
Proof.
  intros E. assert (String.length a = String.length b) as HL.
  { apply (f_equal String.length) in E. rewrite !str_length_app in E. lia. }
  revert b E HL. induction a as [|x a IH]; intros [|y b] E HL; [done..|].
  injection E as -> E. injection HL as HL. f_equal. by apply IH.
Qed.

Lemma length_zeros n : String.length (zeros n) = n.
Proof. induction n as [|n IH]; cbn; [done|]. by rewrite IH. Qed.

Lemma length_take_bytes n s : String.length (take_bytes n s) <= n.
Proof. revert s. induction n as [|n IH]; intros [|c s]; cbn; [lia..|]. specialize (IH s). lia. Qed.

(** *** Decimal printing and digit loops *)

Lemma pretty_N_go_app x s : pretty_N_go x s = pretty_N_go x "" ++ s.
Proof.
  revert s. induction (N.lt_wf_0 x) as [x _ IH]. intros s.
  destruct (decide (x = 0%N)) as [->|Hx]; [done|].
  rewrite (pretty_N_go_step x s), (pretty_N_go_step x "") by lia.
  assert (x `div` 10 < x)%N as Hlt by (apply N.div_lt; lia).
  rewrite (IH _ Hlt (String _ s)), (IH _ Hlt (String _ "")), str_app_assoc. done.
Qed.

(** A loop that accumulates decimal digits reads a printed number back, as
    long as its bounds [B] are not met. *)
Lemma digit_loop {R} (f : Z -> string -> R) (B : Z) :
  (forall a d s, (0 <= a)%Z -> (d < 10)%N -> (a * 10 + Z.of_N d < B)%Z ->
     f a (String (pretty_N_char d) s) = f (a * 10 + Z.of_N d)%Z s) ->
  forall x s, (Z.of_N x < B)%Z -> f 0%Z (pretty x ++ s) = f (Z.of_N x) s.
Proof.
  intros Hstep. assert (forall x s, (Z.of_N x < B)%Z -> (x <> 0)%N ->
    f 0%Z (pretty_N_go x s) = f (Z.of_N x) s) as Hgo.
  { intros x. induction (N.lt_wf_0 x) as [x _ IH]. intros s HB Hx.
    rewrite pretty_N_go_step by lia.
    assert (x `mod` 10 < 10)%N as Hm by (apply N.mod_lt; lia).
    pose proof (N.div_mod x 10 ltac:(lia)) as Hdm.
    destruct (decide (x `div` 10 = 0)%N) as [Hz|Hnz].
    - rewrite Hz in *. rewrite pretty_N_go_0, Hstep by lia. f_equal. lia.
    - assert (x `div` 10 < x)%N as Hlt by (apply N.div_lt; lia).
      rewrite (IH _ Hlt) by lia. rewrite Hstep by lia. f_equal. lia. }
  intros x s HB. unfold pretty, pretty_N. case_decide as Hx.
  - subst x. change ("0" ++ s) with (String (pretty_N_char 0) s). by rewrite Hstep by lia.
  - rewrite <- pretty_N_go_app. by apply Hgo.
Qed.

Lemma digit_char_val d : (d < 10)%N ->
  is_digit (pretty_N_char d) = true /\ (byte_val (pretty_N_char d) - 48 = Z.of_N d)%Z.
Proof.
  intros H. assert (d = 0 \/ d = 1 \/ d = 2 \/ d = 3 \/ d = 4 \/ d = 5 \/ d = 6 \/ d = 7 \/ d = 8 \/ d = 9)%N
    as Hd by lia. by repeat destruct Hd as [->|Hd]; subst.
Qed.

Lemma Sprint_N x : (0 <= x)%Z -> Sprint x = pretty (Z.to_N x).
Proof. unfold Sprint, pretty, pretty_Z. destruct x; [done|done|lia]. Qed.

Lemma all_digits_pretty (x : N) : all_bytes is_digit (pretty x) = true.
Proof.
  assert (forall x s, all_bytes is_digit s = true -> all_bytes is_digit (pretty_N_go x s) = true) as Hgo.
  { clear x. intros x. induction (N.lt_wf_0 x) as [x _ IH]. intros s Hs.
    destruct (decide (x = 0%N)) as [->|Hx]; [done|]. rewrite pretty_N_go_step by lia.
    apply IH; [apply N.div_lt; lia|]. cbn. rewrite Hs.
    by destruct (digit_char_val (x `mod` 10)) as [-> _]; [apply N.mod_lt; lia|]. }
  unfold pretty, pretty_N. case_decide; [done|]. by apply Hgo.
Qed.

Lemma Sprint_digits x : (0 <= x)%Z -> all_bytes is_digit (Sprint x) = true.
Proof. intros. rewrite Sprint_N by done. apply all_digits_pretty. Qed.

Lemma pretty_nonempty (x : N) : pretty x <> "".
Proof.
  assert (forall x s, s <> "" -> pretty_N_go x s <> "") as Hgo.
  { clear x. intros x. induction (N.lt_wf_0 x) as [x _ IH]. intros s Hs.
    destruct (decide (x = 0%N)) as [->|Hx]; [done|]. rewrite pretty_N_go_step by lia.
    apply IH; [apply N.div_lt; lia|done]. }
  unfold pretty, pretty_N. case_decide; [done|]. rewrite pretty_N_go_step by lia. by apply Hgo.
Qed.

(** Printing then parsing an unsigned 64-bit number, whatever follows it. *)
Lemma parse_uint_loop_Sprint x s :
  in_uint 64 x -> parse_uint_loop 0 (Sprint x ++ s) = parse_uint_loop x s.
Proof.
  intros [H0 H1]. rewrite Sprint_N by done.
  rewrite (digit_loop parse_uint_loop (2 ^ 64)); [by rewrite Z2N.id| |by rewrite Z2N.id].
  intros a d t Ha Hd HB. cbn [parse_uint_loop].
  destruct (digit_char_val d Hd) as [-> ->].
  rewrite wrapU_small by (unfold in_uint; lia).
  change (maxUint64 / 10 + 1)%Z with 1844674407370955162%Z.
  change (2 ^ 64)%Z with 18446744073709551616%Z in HB.
  destruct (Z.leb_spec 1844674407370955162 a); [lia|].
  destruct (Z.ltb_spec (a * 10 + Z.of_N d) (a * 10)); [lia|done].
Qed.

Lemma ParseUint_Sprint x : in_uint 64 x -> ParseUint (Sprint x) = Ok x.
Proof.
  intros Hx. pose proof (parse_uint_loop_Sprint x "" Hx) as Hp. rewrite str_app_nil_r in Hp.
  unfold ParseUint.
  destruct (Sprint x) eqn:Hs; [|by rewrite Hp].
  destruct Hx as [Hx _]. rewrite Sprint_N in Hs by done. by apply pretty_nonempty in Hs.
Qed.

(** *** The last byte of a string *)

Fixpoint last_byte (s : string) : option ascii :=
  match s with
  | EmptyString => None
  | String c EmptyString => Some c
  | String _ s' => last_byte s'
  end.

Lemma last_byte_app a b : b <> "" -> last_byte (a ++ b) = last_byte b.
Proof.
  intros Hb. induction a as [|c a IH]; [done|]. cbn.
  destruct (a ++ b) eqn:Hab; [|done]. destruct a; [by destruct b|done].
Qed.

Lemma HasSuffix_last s suf : suf <> "" -> HasSuffix s suf = true -> last_byte s = last_byte suf.
Proof. intros Hs [t ->]%HasSuffix_spec. by apply last_byte_app. Qed.

Lemma HasSuffix_last_ne s suf : suf <> "" -> last_byte s <> last_byte suf -> HasSuffix s suf = false.
Proof.
  intros Hs Hl. destruct (HasSuffix s suf) eqn:E; [|done]. by apply HasSuffix_last in E.
Qed.

Lemma last_byte_digit s c : all_bytes is_digit s = true -> last_byte s = Some c -> is_digit c = true.
Proof.
  induction s as [|d s IH]; [done|]. cbn. intros [Hd Hs]%andb_prop.
  destruct s; [by intros [= ->]|]. by apply IH.
Qed.

Lemma HasSuffix_digits s suf c :
  all_bytes is_digit s = true -> last_byte suf = Some c -> is_digit c = false -> HasSuffix s suf = false.
Proof.
  intros Hs Hl Hc. apply HasSuffix_last_ne; [by intros ->|]. rewrite Hl. intros Heq.
  apply last_byte_digit in Heq; [congruence|done].
Qed.

Lemma is_digit_range c : is_digit c = true -> (48 <= byte_val c <= 57)%Z.
Proof. unfold is_digit, in_range. rewrite andb_true_iff, !Z.leb_le. lia. Qed.

Lemma lower_byte_digit c : is_digit c = true -> lower_byte c = c.
Proof.
  intros H%is_digit_range. unfold lower_byte, in_range.
  destruct (_ && _) eqn:E; [|done]. apply andb_prop in E as [?%Z.leb_le _]. lia.
Qed.

Lemma map_lower_digits s : all_bytes is_digit s = true -> map_bytes lower_byte s = s.
Proof.
  induction s as [|c s IH]; [done|]. cbn. intros [Hc Hs]%andb_prop.
  by rewrite lower_byte_digit, IH.
Qed.

Lemma map_bytes_app f a b : map_bytes f (a ++ b) = map_bytes f a ++ map_bytes f b.
Proof. induction a as [|c a IH]; cbn; [done|]. by rewrite IH. Qed.

Lemma all_bytes_weaken (p q : ascii -> bool) s :
  (forall c, p c = true -> q c = true) -> all_bytes p s = true -> all_bytes q s = true.
Proof.
  intros Hpq. induction s as [|c s IH]; [done|]. cbn. intros [Hc Hs]%andb_prop.
  by rewrite Hpq, IH.
Qed.

Lemma isASCII_digits s : all_bytes is_digit s = true -> isASCII s = true.
Proof.
  apply all_bytes_weaken. intros c H%is_digit_range. unfold is_ascii_byte, in_range.
  rewrite andb_true_iff, !Z.leb_le. lia.
Qed.

(** Trimming leaves a string alone that neither starts nor ends with space. *)
Lemma trim_right_id s c : last_byte s = Some c -> is_space c = false -> trim_right s = s.
Proof.
  intros Hl Hc. induction s as [|d s IH]; [done|]. cbn in *.
  destruct s as [|d' s'].
  - injection Hl as ->. cbn. by rewrite Hc.
  - rewrite IH by done. done.
Qed.
