(* ===== verification/GoNum.v ===== *)
(** * Go's number and duration parsers

    [time.ParseDuration] and [strconv.ParseFloat(s, 32)], which
    [common/qdisc.go] calls on the fields of a link's properties.  Floating
    point is IEEE 754 as in Rocq's [SpecFloat] (binary32: precision 24,
    emax 128; binary64: precision 53, emax 1024); no axiom is involved. *)

From stdpp Require Import base strings gmap list pretty.
From Stdlib Require Import ZArith Lia Ascii SpecFloat.
From S2P Require Import Prelude GoStr.

Local Open Scope string_scope.
Local Open Scope Z_scope.

(** ** binary64 helpers *)

Definition f64_of_Z (z : Z) : spec_float := binary_normalize 53 1024 z 0 false.
Definition f64_mul : spec_float -> spec_float -> spec_float := SFmul 53 1024.
Definition f64_div : spec_float -> spec_float -> spec_float := SFdiv 53 1024.

(** [uint64(x)] of a finite non-negative float: truncation towards zero. *)
Definition f64_trunc (x : spec_float) : Z :=
  match x with
  | S754_finite false m e =>
      if (0 <=? e)%Z then Z.pos m * 2 ^ e else Z.pos m / 2 ^ (- e)
  | _ => 0
  end.

(** ** [time.ParseDuration] *)

Definition digit_val (c : ascii) : Z := byte_val c - 48.

(** [leadingInt]: the leading decimal digits, [None] on overflow. *)
Fixpoint leadingInt (x : Z) (s : string) : option (Z * string) :=
  match s with
  | EmptyString => Some (x, s)
  | String c s' =>
      if is_digit c then
        if 2 ^ 63 / 10 <? x then None
        else
          let x' := x * 10 + digit_val c in
          if 2 ^ 63 <? x' then None else leadingInt x' s'
      else Some (x, s)
  end.

(** [leadingFraction]: digits after the point, and the float scale; digits
    beyond the overflow are skipped. *)
Fixpoint leadingFraction (overflow : bool) (x : Z) (scale : spec_float) (s : string)
  : Z * spec_float * string :=
  match s with
  | EmptyString => (x, scale, s)
  | String c s' =>
      if is_digit c then
        if overflow then leadingFraction overflow x scale s'
        else if (2 ^ 63 - 1) / 10 <? x then leadingFraction true x scale s'
        else
          let y := x * 10 + digit_val c in
          if 2 ^ 63 <? y then leadingFraction true x scale s'
          else leadingFraction false y (f64_mul scale (f64_of_Z 10)) s'
      else (x, scale, s)
  end.

(** The unit: everything up to the next digit or point. *)
Fixpoint take_unit (s : string) : string * string :=
  match s with
  | EmptyString => (EmptyString, EmptyString)
  | String c s' =>
      if is_digit c || Ascii.eqb c "." then (EmptyString, s)
      else let '(u, r) := take_unit s' in (String c u, r)
  end.

Definition micro_sign_s : string := String (ascii_of_nat 194) (String (ascii_of_nat 181) "s").
Definition greek_mu_s : string := String (ascii_of_nat 206) (String (ascii_of_nat 188) "s").

Definition unitMap (u : string) : option Z :=
  if String.eqb u "ns" then Some 1
  else if String.eqb u "us" then Some 1000
  else if String.eqb u micro_sign_s then Some 1000
  else if String.eqb u greek_mu_s then Some 1000
  else if String.eqb u "ms" then Some 1000000
  else if String.eqb u "s" then Some 1000000000
  else if String.eqb u "m" then Some 60000000000
  else if String.eqb u "h" then Some 3600000000000
  else None.

Definition bad_duration : error := errorf "time: invalid duration".

(** One number with its unit: its nanoseconds and what is left. *)
Definition duration_item (s : string) : result (Z * string) :=
  match s with
  | EmptyString => Err bad_duration
  | String c0 _ =>
      if negb (is_digit c0 || Ascii.eqb c0 ".") then Err bad_duration
      else
        match leadingInt 0 s with
        | None => Err bad_duration
        | Some (v, s1) =>
            let pre := negb (String.length s =? String.length s1)%nat in
            let '(f, scale, s2, post) :=
              match s1 with
              | String "." s1' =>
                  let '(f, scale, s2) := leadingFraction false 0 (f64_of_Z 1) s1' in
                  (f, scale, s2, negb (String.length s1' =? String.length s2)%nat)
              | _ => (0, f64_of_Z 1, s1, false)
              end in
            if negb pre && negb post then Err bad_duration
            else
              let '(u, rest) := take_unit s2 in
              if String.eqb u "" then Err (errorf "time: missing unit in duration")
              else
                match unitMap u with
                | None => Err (errorf "time: unknown unit in duration")
                | Some unit =>
                    if 2 ^ 63 / unit <? v then Err bad_duration
                    else
                      let v1 := v * unit in
                      let v2 := if 0 <? f
                                then uint64 (v1 + f64_trunc (f64_mul (f64_of_Z f)
                                                               (f64_div (f64_of_Z unit) scale)))
                                else v1 in
                      if (0 <? f) && (2 ^ 63 <? v2) then Err bad_duration
                      else Ok (v2, rest)
                end
        end
  end.

(** The loop of [ParseDuration]; every item consumes a byte, so the length of
    the string is enough fuel. *)
Fixpoint duration_loop (fuel : nat) (d : Z) (s : string) : result Z :=
  match s, fuel with
  | EmptyString, _ => Ok d
  | _, O => Err bad_duration
  | _, S fuel' =>
      match duration_item s with
      | Err e => Err e
      | Ok (v, rest) =>
          let d' := uint64 (d + v) in
          if 2 ^ 63 <? d' then Err bad_duration else duration_loop fuel' d' rest
      end
  end.

Definition go_ParseDuration (str : string) : result Z :=
  let '(neg, s) :=
    match str with
    | String "-" s' => (true, s')
    | String "+" s' => (false, s')
    | _ => (false, str)
    end in
  if String.eqb s "0" then Ok 0
  else if String.eqb s "" then Err bad_duration
  else
    match duration_loop (String.length s) 0 s with
    | Err e => Err e
    | Ok d =>
        if neg then Ok (int64 (- int64 d))
        else if 2 ^ 63 - 1 <? d then Err bad_duration
        else Ok d
    end.

(** [Duration.Microseconds]. *)
Definition Microseconds (d : Z) : Z := Z.quot d 1000.

(** ** [strconv.ParseFloat(s, 32)] *)

Definition lower (c : ascii) : Z := Z.lor (byte_val c) 32.

(** [commonPrefixLenIgnoreCase]; the prefix is in lower case. *)
Fixpoint commonPrefixLen (s pre : string) : nat :=
  match s, pre with
  | String c s', String p pre' =>
      let c' := lower_byte c in
      if Ascii.eqb c' p then S (commonPrefixLen s' pre') else O
  | _, _ => O
  end.

(** [special]: Inf and NaN, with the number of bytes read. *)
Definition special_inf (neg : bool) (nsign : nat) (s : string) : option (spec_float * nat) :=
  let n := commonPrefixLen s "infinity" in
  let n' := if ((3 <? n) && (n <? 8))%nat then 3%nat else n in
  if ((n' =? 3) || (n' =? 8))%nat then Some (S754_infinity neg, (nsign + n')%nat) else None.

Definition special (s : string) : option (spec_float * nat) :=
  match s with
  | EmptyString => None
  | String c s' =>
      if Ascii.eqb c "-" then special_inf true 1 s'
      else if Ascii.eqb c "+" then special_inf false 1 s'
      else if lower c =? 105 then special_inf false 0 s
      else if lower c =? 110 then
        if (commonPrefixLen s "nan" =? 3)%nat then Some (S754_nan, 3%nat) else None
      else None
  end.

(** [underscoreOK]: an underscore stands between digits or after a base
    prefix.  The state is the class of the last byte. *)
Inductive saw := SawStart | SawDigit | SawUnderscore | SawOther.

Fixpoint underscore_loop (hex : bool) (last : saw) (s : string) : bool :=
  match s with
  | EmptyString => match last with SawUnderscore => false | _ => true end
  | String c s' =>
      if is_digit c || (hex && is_hexdigit c) then underscore_loop hex SawDigit s'
      else if Ascii.eqb c "_" then
        match last with
        | SawDigit => underscore_loop hex SawUnderscore s'
        | _ => false
        end
      else
        match last with
        | SawUnderscore => false
        | _ => underscore_loop hex SawOther s'
        end
  end.

Definition drop_sign (s : string) : string :=
  match s with
  | String "-" s' | String "+" s' => s'
  | _ => s
  end.

Definition underscoreOK (s0 : string) : bool :=
  let s := drop_sign s0 in
  match s with
  | String "0" (String c s') =>
      if (lower c =? 98) || (lower c =? 111) then underscore_loop false SawDigit s'
      else if lower c =? 120 then underscore_loop true SawDigit s'
      else underscore_loop false SawStart s
  | _ => underscore_loop false SawStart s
  end.

(** The digits of the mantissa. *)
Record mantissa := mkMant {
  m_val : Z;          (* all significant digits *)
  m_nd : Z;           (* how many *)
  m_dp : Z;           (* where the point is *)
  m_sawdot : bool;
  m_sawdigits : bool;
  m_under : bool
}.

Fixpoint read_mantissa (hex : bool) (m : mantissa) (s : string) : mantissa * string :=
  match s with
  | EmptyString => (m, s)
  | String c s' =>
      let base := if hex then 16 else 10 in
      if Ascii.eqb c "_" then
        read_mantissa hex (mkMant (m_val m) (m_nd m) (m_dp m) (m_sawdot m) (m_sawdigits m) true) s'
      else if Ascii.eqb c "." then
        if m_sawdot m then (m, s)
        else read_mantissa hex (mkMant (m_val m) (m_nd m) (m_nd m) true (m_sawdigits m) (m_under m)) s'
      else if is_digit c then
        if Ascii.eqb c "0" && (m_nd m =? 0)
        then read_mantissa hex (mkMant (m_val m) (m_nd m) (m_dp m - 1) (m_sawdot m) true (m_under m)) s'
        else read_mantissa hex (mkMant (m_val m * base + digit_val c) (m_nd m + 1) (m_dp m)
                                  (m_sawdot m) true (m_under m)) s'
      else if hex && (97 <=? lower c) && (lower c <=? 102) then
        read_mantissa hex (mkMant (m_val m * 16 + (lower c - 97 + 10)) (m_nd m + 1) (m_dp m)
                             (m_sawdot m) true (m_under m)) s'
      else (m, s)
  end.

Fixpoint read_exp (e : Z) (under : bool) (s : string) : Z * bool * string :=
  match s with
  | String c s' =>
      if is_digit c then read_exp (if e <? 10000 then e * 10 + digit_val c else e) under s'
      else if Ascii.eqb c "_" then read_exp e true s'
      else (e, under, s)
  | EmptyString => (e, under, s)
  end.

Definition float_syntax : error := errorf "strconv.ParseFloat: invalid syntax".
Definition float_range : error := errorf "strconv.ParseFloat: value out of range".

(** The optional exponent: [None] is a syntax error. *)
Definition read_exponent (hex under : bool) (s : string) : option (Z * bool * string) :=
  match s with
  | String c s1 =>
      if lower c =? (if hex then 112 else 101) then
        let '(esign, s2) :=
          match s1 with
          | String "+" s2 => (1, s2)
          | String "-" s2 => (-1, s2)
          | _ => (1, s1)
          end in
        match s2 with
        | String d _ =>
            if is_digit d then
              let '(e, under', rest) := read_exp 0 under s2 in Some (e * esign, under', rest)
            else None
        | EmptyString => None
        end
      else if hex then None else Some (0, under, s)
  | EmptyString => if hex then None else Some (0, under, s)
  end.

(** The binary32 nearest to [v * 10^e10 * 2^e2], ties to even. *)
Definition round32 (v e10 e2 : Z) : spec_float :=
  match v with
  | Z.pos p =>
      let num := Z.pos p * 10 ^ (Z.max 0 e10) in
      let den := 10 ^ (Z.max 0 (- e10)) in
      SFdiv 24 128 (S754_finite false (Z.to_pos num) e2) (S754_finite false (Z.to_pos den) 0)
  | _ => S754_zero false
  end.

Definition is_inf (f : spec_float) : bool :=
  match f with S754_infinity _ => true | _ => false end.

(** [readFloat] and the rounding; the string must be read to its end. *)
Definition read_number (s0 : string) : result spec_float :=
  let neg := match s0 with String "-" _ => true | _ => false end in
  let s := drop_sign s0 in
  let '(hex, s1) :=
    match s with
    | String "0" (String c (String d s')) =>
        if lower c =? 120 then (true, String d s') else (false, s)
    | _ => (false, s)
    end in
  let '(m, s2) := read_mantissa hex (mkMant 0 0 0 false false false) s1 in
  if negb (m_sawdigits m) then Err float_syntax
  else
    let dp := if m_sawdot m then m_dp m else m_nd m in
    match read_exponent hex (m_under m) s2 with
    | None => Err float_syntax
    | Some (e, under, rest) =>
        let consumed := take_bytes (String.length s0 - String.length rest) s0 in
        if under && negb (underscoreOK consumed) then Err float_syntax
        else if negb (String.eqb rest "") then Err float_syntax
        else
          let f := if hex then round32 (m_val m) 0 ((dp - m_nd m) * 4 + e)
                   else round32 (m_val m) (dp - m_nd m + e) 0 in
          if is_inf f then Err float_range
          else Ok (if neg then SFopp f else f)
    end.

Definition ParseFloat32 (s : string) : result spec_float :=
  match special s with
  | Some (f, n) => if (n =? String.length s)%nat then Ok f else Err float_syntax
  | None => read_number s
  end.
