(* ===== verification/GoNet.v ===== *)
(** * Go's network address parsers

    [net.ParseIP], [net.ParseCIDR], [net.ParseMAC] and [net.IP.Equal], which
    [common/veth.go] and [daemon/vxlan/vxlan.go] call.  An address is its list
    of bytes, a nil [net.IP] the empty list; IPv4 addresses are in the 16-byte
    form [net.IPv4] builds. *)

From stdpp Require Import base strings gmap list pretty.
From Stdlib Require Import ZArith Lia Ascii.
From S2P Require Import Prelude GoStr GoNum.

Local Open Scope string_scope.
Local Open Scope Z_scope.

Definition IP := list Z.

Record IPNet := mkIPNet { ipnet_IP : IP; ipnet_Mask : list Z }.

Definition v4InV6Prefix : list Z := [0; 0; 0; 0; 0; 0; 0; 0; 0; 0; 255; 255].

Definition IPv4 (a b c d : Z) : IP := (v4InV6Prefix ++ [a; b; c; d])%list.

(** [bytes.Equal]. *)
Definition bytes_eqb (a b : list Z) : bool := bool_decide (a = b).

Definition IP_Equal (ip x : IP) : bool :=
  if (length ip =? length x)%nat then bytes_eqb ip x
  else if ((length ip =? 4) && (length x =? 16))%nat then
    bytes_eqb (take 12 x) v4InV6Prefix && bytes_eqb ip (drop 12 x)
  else if ((length ip =? 16) && (length x =? 4))%nat then
    bytes_eqb (take 12 ip) v4InV6Prefix && bytes_eqb x (drop 12 ip)
  else false.

(** ** Digits *)

Definition big : Z := 16777215.

(** [dtoi]: leading decimal digits, the number of bytes read and the rest;
    [None] when there is none or the number is too big. *)
Fixpoint dtoi_loop (n : Z) (i : nat) (s : string) : option (Z * nat * string) :=
  match s with
  | String c s' =>
      if is_digit c then
        let n' := n * 10 + digit_val c in
        if big <=? n' then None else dtoi_loop n' (S i) s'
      else Some (n, i, s)
  | EmptyString => Some (n, i, s)
  end.

Definition dtoi (s : string) : option (Z * nat * string) :=
  match dtoi_loop 0 0 s with
  | Some (_, O, _) => None
  | r => r
  end.

Definition hex_val (c : ascii) : Z :=
  if is_digit c then digit_val c else lower c - 97 + 10.

Fixpoint xtoi_loop (n : Z) (i : nat) (s : string) : option (Z * nat * string) :=
  match s with
  | String c s' =>
      if is_hexdigit c then
        let n' := n * 16 + hex_val c in
        if big <=? n' then None else xtoi_loop n' (S i) s'
      else Some (n, i, s)
  | EmptyString => Some (n, i, s)
  end.

Definition xtoi (s : string) : option (Z * nat * string) :=
  match xtoi_loop 0 0 s with
  | Some (_, O, _) => None
  | r => r
  end.

(** ** IPv4 *)

Definition starts_with (c : ascii) (s : string) : bool :=
  match s with String d _ => Ascii.eqb c d | EmptyString => false end.

(** One octet: no leading zero, at most 255. *)
Definition octet (s : string) : option (Z * string) :=
  match dtoi s with
  | Some (n, c, rest) =>
      if 255 <? n then None
      else if ((1 <? c)%nat && starts_with "0" s) then None
      else Some (n, rest)
  | None => None
  end.

Fixpoint octets (k : nat) (first : bool) (s : string) : option (list Z * string) :=
  match k with
  | O => Some ([], s)
  | S k' =>
      let after :=
        if first then (match s with EmptyString => None | _ => Some s end)
        else match s with String "." s' => Some s' | _ => None end in
      match after with
      | None => None
      | Some s1 =>
          match octet s1 with
          | None => None
          | Some (n, s2) =>
              match octets k' false s2 with
              | None => None
              | Some (l, s3) => Some (n :: l, s3)
              end
          end
      end
  end.

Definition parseIPv4 (s : string) : option IP :=
  match octets 4 true s with
  | Some (p, EmptyString) => Some (v4InV6Prefix ++ p)%list
  | _ => None
  end.

(** ** IPv6

    The loop reads 16-bit groups; [ip] holds the bytes read so far and
    [ellipsis] the position of the double colon. *)

Definition expand (ip : list Z) (ellipsis : option nat) : option IP :=
  if (length ip <? 16)%nat then
    match ellipsis with
    | None => None
    | Some k => Some (take k ip ++ replicate (16 - length ip) 0 ++ drop k ip)%list
    end
  else match ellipsis with None => Some ip | Some _ => None end.

Fixpoint ipv6_groups (fuel : nat) (ip : list Z) (ellipsis : option nat) (s : string) : option IP :=
  match fuel with
  | O => match s with EmptyString => expand ip ellipsis | _ => None end
  | S fuel' =>
      match xtoi s with
      | None => None
      | Some (n, _, s1) =>
          if 65535 <? n then None
          else if starts_with "." s1 then
            if (match ellipsis with None => negb (length ip =? 12)%nat | Some _ => false end) then None
            else if (16 <? length ip + 4)%nat then None
            else
              match parseIPv4 s with
              | None => None
              | Some ip4 => expand (ip ++ drop 12 ip4)%list ellipsis
              end
          else
            let ip1 := (ip ++ [n / 256; n mod 256])%list in
            match s1 with
            | EmptyString => expand ip1 ellipsis
            | String ":" EmptyString => None
            | String ":" (String ":" s3) =>
                match ellipsis with
                | Some _ => None
                | None =>
                    match s3 with
                    | EmptyString => expand ip1 (Some (length ip1))
                    | _ => ipv6_groups fuel' ip1 (Some (length ip1)) s3
                    end
                end
            | String ":" s2 => ipv6_groups fuel' ip1 ellipsis s2
            | _ => None
            end
      end
  end.

Definition parseIPv6 (s : string) : option IP :=
  match s with
  | String ":" (String ":" EmptyString) => Some (replicate 16 0)
  | String ":" (String ":" s') => ipv6_groups 8 [] (Some O) s'
  | _ => ipv6_groups 8 [] None s
  end.

(** [net.ParseIP]: the first dot or colon decides; nil is the empty list. *)
Fixpoint ip_family (s : string) : option bool :=
  match s with
  | EmptyString => None
  | String c s' =>
      if Ascii.eqb c "." then Some true
      else if Ascii.eqb c ":" then Some false
      else ip_family s'
  end.

Definition ParseIP (s : string) : IP :=
  match ip_family s with
  | Some true => default [] (parseIPv4 s)
  | Some false => default [] (parseIPv6 s)
  | None => []
  end.

(** ** [net.ParseCIDR] *)

Fixpoint split_slash (s : string) : option (string * string) :=
  match s with
  | EmptyString => None
  | String "/" s' => Some (EmptyString, s')
  | String c s' =>
      match split_slash s' with
      | Some (a, b) => Some (String c a, b)
      | None => None
      end
  end.

Fixpoint CIDRMask (ones : Z) (bytes : nat) : list Z :=
  match bytes with
  | O => []
  | S k => if 8 <=? ones then 255 :: CIDRMask (ones - 8) k
           else Z.land (Z.lnot (Z.shiftr 255 ones)) 255 :: CIDRMask 0 k
  end.

(** The address and the mask of a CIDR string. *)
Definition ParseCIDR (s : string) : option (IP * list Z) :=
  match split_slash s with
  | None => None
  | Some (addr, mask) =>
      let '(iplen, ip) :=
        match parseIPv4 addr with
        | Some ip => (4%nat, Some ip)
        | None => (16%nat, parseIPv6 addr)
        end in
      match ip, dtoi mask with
      | Some ip', Some (n, _, EmptyString) =>
          if 8 * Z.of_nat iplen <? n then None else Some (ip', CIDRMask n iplen)
      | _, _ => None
      end
  end.

(** ** [net.ParseMAC] *)

(** [xtoi2(s, e)]: exactly two hex digits, then the end or [e]. *)
Definition xtoi2 (s : string) (e : ascii) : option Z :=
  if (2 <? String.length s)%nat && negb (starts_with e (drop_bytes 2 s)) then None
  else
    match xtoi (take_bytes 2 s) with
    | Some (n, 2%nat, _) => Some n
    | _ => None
    end.

Fixpoint mac_pairs (n : nat) (sep : ascii) (s : string) : option (list Z) :=
  match n with
  | O => Some []
  | S n' =>
      match xtoi2 s sep, mac_pairs n' sep (drop_bytes 3 s) with
      | Some b, Some l => Some (b :: l)
      | _, _ => None
      end
  end.

Fixpoint mac_quads (n : nat) (s : string) : option (list Z) :=
  match n with
  | O => Some []
  | S n' =>
      match xtoi2 (take_bytes 2 s) zero, xtoi2 (drop_bytes 2 s) ".", mac_quads n' (drop_bytes 5 s) with
      | Some a, Some b, Some l => Some (a :: b :: l)
      | _, _, _ => None
      end
  end.

Definition mac_len_ok (n : nat) : bool := ((n =? 6) || (n =? 8) || (n =? 20))%nat.

Definition ParseMAC (s : string) : option (list Z) :=
  let len := String.length s in
  if (len <? 14)%nat then None
  else
    match String.get 2 s, String.get 4 s with
    | Some sep, Some c4 =>
        if Ascii.eqb sep ":" || Ascii.eqb sep "-" then
          if negb ((len + 1) mod 3 =? 0)%nat then None
          else
            let n := ((len + 1) / 3)%nat in
            if mac_len_ok n then mac_pairs n sep s else None
        else if Ascii.eqb c4 "." then
          if negb ((len + 1) mod 5 =? 0)%nat then None
          else
            let n := (2 * (len + 1) / 5)%nat in
            if mac_len_ok n then mac_quads (n / 2) s else None
        else None
    | _, _ => None
    end.

(** ** Printing, for the round trips *)

(** The dotted form of an IPv4 address, and of an IPv4 CIDR block. *)
Definition show_ipv4 (a b c d : Z) : string :=
  Sprint a ++ "." ++ Sprint b ++ "." ++ Sprint c ++ "." ++ Sprint d.

Definition show_cidr (a b c d n : Z) : string := show_ipv4 a b c d ++ "/" ++ Sprint n.
