(* ===== verification/Proto.v ===== *)
(** * The gRPC messages and client stubs

    [proto/v1/kube_dtn.pb.go] (message structs and the nil-safe getters the
    repository calls) and the client side of [proto/v1/kube_dtn_grpc.pb.go].
    A Go pointer to a message is an [option]; [None] is nil. *)

From stdpp Require Import base strings gmap list.
From Stdlib Require Import ZArith Lia.
From S2P Require Import Prelude GoStr.

Local Open Scope string_scope.

Record pb_LinkProperties := mk_pb_LinkProperties {
  pb_Latency : string;
  pb_LatencyCorr : string;
  pb_Jitter : string;
  pb_Loss : string;
  pb_LossCorr : string;
  pb_Rate : string;
  pb_Gap : Z;
  pb_Duplicate : string;
  pb_DuplicateCorr : string;
  pb_ReorderProb : string;
  pb_ReorderCorr : string;
  pb_CorruptProb : string;
  pb_CorruptCorr : string
}.

Record pb_Link := mk_pb_Link {
  pb_PeerPod : string;
  pb_LocalIntf : string;
  pb_PeerIntf : string;
  pb_LocalIp : string;
  pb_PeerIp : string;
  pb_Uid : Z;
  pb_Properties : option pb_LinkProperties;
  pb_LocalMac : string;
  pb_PeerMac : string
}.

Record pb_Pod := mk_pb_Pod {
  pod_Name : string;
  pod_SrcIp : string;
  pod_NetNs : string;
  pod_KubeNs : string;
  pod_Links : list pb_Link
}.

Record pb_PodQuery := mk_pb_PodQuery { pq_Name : string; pq_KubeNs : string }.

Record pb_LinksBatchQuery := mk_pb_LinksBatchQuery {
  lbq_LocalPod : option pb_Pod;
  lbq_Links : list pb_Link
}.

Record pb_SetupPodQuery := mk_pb_SetupPodQuery {
  spq_Name : string;
  spq_KubeNs : string;
  spq_NetNs : string
}.

Record pb_BoolResponse := mk_pb_BoolResponse { Response : bool }.

Record pb_RemotePod := mk_pb_RemotePod {
  rp_NetNs : string;
  rp_IntfName : string;
  rp_IntfIp : string;
  rp_PeerVtep : string;
  rp_KubeNs : string;
  rp_Vni : Z;
  rp_Properties : option pb_LinkProperties;
  rp_Name : string
}.

Record pb_WireDef := mk_pb_WireDef {
  wd_PeerIntfId : Z;
  wd_PeerIp : string;
  wd_IntfNameInPod : string;
  wd_LocalPodNetNs : string;
  wd_LinkUid : Z;
  wd_LocalPodName : string;
  wd_VethNameLocalHost : string;
  wd_KubeNs : string;
  wd_LocalPodIp : string
}.

Record pb_WireCreateResponse := mk_pb_WireCreateResponse {
  wcr_Response : bool;
  wcr_PeerIntfId : Z
}.

Record pb_Packet := mk_pb_Packet { pkt_RemotIntfId : Z; pkt_Frame : list Z }.

Record pb_GenerateNodeInterfaceNameRequest := mk_pb_GenReq {
  gnr_PodIntfName : string;
  gnr_PodName : string
}.

Record pb_GenerateNodeInterfaceNameResponse := mk_pb_GenResp {
  gnr_Ok : bool;
  gnr_NodeIntfName : string
}.

(** The message as [new(LinkProperties)] makes it. *)
Definition pb_LinkProperties_zero : pb_LinkProperties :=
  mk_pb_LinkProperties "" "" "" "" "" "" 0 "" "" "" "" "" "".

(** [func (x *BoolResponse) GetResponse() bool]: false on nil. *)
Definition GetResponse (x : option pb_BoolResponse) : bool :=
  match x with
  | Some r => Response r
  | None => false
  end.

(** ** Client stubs

    Every stub has the shape: [out := new(T)], [Invoke], and [nil, err] when
    the call failed, so a failed call never yields a message.  [Invoke] is the
    gRPC library's; it takes the server's address, the full method name and
    the request. *)

Inductive rpc_request :=
| ReqAddLinks (q : pb_LinksBatchQuery)
| ReqDelLinks (q : pb_LinksBatchQuery)
| ReqUpdateLinks (q : pb_LinksBatchQuery)
| ReqSetupPod (q : pb_SetupPodQuery)
| ReqDestroyPod (q : pb_PodQuery)
| ReqUpdate (q : pb_RemotePod)
| ReqSendToOnce (q : pb_Packet).

Class GrpcClient (E : Type) := {
  (** [grpc.Dial(target, ...)]: [None] when a connection was made. *)
  grpc_Dial : string -> eff E (option error);
  (** [cc.Invoke(ctx, method, in, out)] on the connection to [target], for the
      methods that answer with a [BoolResponse]. *)
  grpc_Invoke : string -> string -> rpc_request -> eff E (result pb_BoolResponse)
}.

(** The calls issued, oldest first. *)
Class GrpcLog (E : Type) `{GrpcClient E} := {
  sent : E -> list (string * rpc_request);
  log_Dial : forall target e r e', grpc_Dial target e = (r, e') -> sent e' = sent e;
  log_Invoke : forall target method req e r e',
    grpc_Invoke target method req e = (r, e') -> sent e' = (sent e ++ [(target, req)])%list
}.

Section Stubs.
  Context {E : Type} `{GrpcClient E}.

(** The common shape of the generated client methods. *)
Definition stub (target method : string) (req : rpc_request)
  : go E (option pb_BoolResponse * option error) :=
  (r <- call (grpc_Invoke target method req) ;;
   match r with
   | Err e => ret (None, Some e)
   | Ok out => ret (Some out, None)
   end)%go.

Definition localClient_AddLinks (target : string) (q : pb_LinksBatchQuery) :=
  stub target "/proto.v1.Local/AddLinks" (ReqAddLinks q).

Definition localClient_DelLinks (target : string) (q : pb_LinksBatchQuery) :=
  stub target "/proto.v1.Local/DelLinks" (ReqDelLinks q).

Definition localClient_UpdateLinks (target : string) (q : pb_LinksBatchQuery) :=
  stub target "/proto.v1.Local/UpdateLinks" (ReqUpdateLinks q).

Definition localClient_SetupPod (target : string) (q : pb_SetupPodQuery) :=
  stub target "/proto.v1.Local/SetupPod" (ReqSetupPod q).

Definition localClient_DestroyPod (target : string) (q : pb_PodQuery) :=
  stub target "/proto.v1.Local/DestroyPod" (ReqDestroyPod q).

Definition remoteClient_Update (target : string) (q : pb_RemotePod) :=
  stub target "/proto.v1.Remote/Update" (ReqUpdate q).

Definition wireProtocolClient_SendToOnce (target : string) (q : pb_Packet) :=
  stub target "/proto.v1.WireProtocol/SendToOnce" (ReqSendToOnce q).

(** A stub returns a message exactly when it returns no error. *)
Lemma stub_result target method req e :
  exists r e', stub target method req e = (Val r, e') /\
    ((exists m, r = (Some m, None)) \/ (exists er, r = (None, Some er))).
Proof.
  unfold stub, call, bind, ret. destruct (grpc_Invoke _ _ _ e) as [[m|er] e']; eauto 10.
Qed.

End Stubs.

#[export] Instance pb_LinkProperties_eq_dec : EqDecision pb_LinkProperties.
Proof. solve_decision. Defined.

#[export] Instance pb_Link_eq_dec : EqDecision pb_Link.
Proof. solve_decision. Defined.
