(* ===== verification/ApiV1.v ===== *)
(** * The Topology resource

    [api/v1/topology_types.go]: the custom resource's types and their
    conversion to protobuf messages, and [common.Map].  A Go slice that can be
    told from nil is an [option] of a list ([None] is nil): the controller and
    the daemon both test [Links] for nil. *)

From stdpp Require Import base strings gmap list.
From Stdlib Require Import ZArith Lia.
From S2P Require Import Prelude GoStr Proto.

Local Open Scope string_scope.

(** [Duration] and [Percentage] are strings with a validation pattern. *)
Record LinkProperties := mkLinkProperties {
  Latency : string;
  LatencyCorr : string;
  Jitter : string;
  Loss : string;
  LossCorr : string;
  Rate : string;
  Gap : Z;
  Duplicate : string;
  DuplicateCorr : string;
  ReorderProb : string;
  ReorderCorr : string;
  CorruptProb : string;
  CorruptCorr : string
}.

Record Link := mkLink {
  LocalIntf : string;
  LocalIP : string;
  LocalMAC : string;
  PeerIntf : string;
  PeerIP : string;
  PeerMAC : string;
  PeerPod : string;
  UID : Z;
  Properties : LinkProperties
}.

Record TopologySpec := mkTopologySpec { spec_Links : option (list Link) }.

Record TopologyStatus := mkTopologyStatus {
  Skipped : option (list string);
  SrcIP : string;
  NetNs : string;
  status_Links : option (list Link)
}.

(** The object metadata the code reads or writes, with the resource version
    the API server compares on updates. *)
Record Topology := mkTopology {
  Name : string;
  Namespace : string;
  Finalizers : list string;
  ResourceVersion : Z;
  Spec : TopologySpec;
  Status : TopologyStatus
}.

(** ** Conversions *)

Definition LinkProperties_ToProto (p : LinkProperties) : pb_LinkProperties :=
  {| pb_Latency := Latency p;
     pb_LatencyCorr := LatencyCorr p;
     pb_Jitter := Jitter p;
     pb_Loss := Loss p;
     pb_LossCorr := LossCorr p;
     pb_Rate := Rate p;
     pb_Gap := Gap p;
     pb_Duplicate := Duplicate p;
     pb_DuplicateCorr := DuplicateCorr p;
     pb_ReorderProb := ReorderProb p;
     pb_ReorderCorr := ReorderCorr p;
     pb_CorruptProb := CorruptProb p;
     pb_CorruptCorr := CorruptCorr p |}.

Definition Link_ToProto (l : Link) : pb_Link :=
  {| pb_PeerPod := PeerPod l;
     pb_LocalIntf := LocalIntf l;
     pb_PeerIntf := PeerIntf l;
     pb_LocalIp := LocalIP l;
     pb_PeerIp := PeerIP l;
     pb_LocalMac := LocalMAC l;
     pb_PeerMac := PeerMAC l;
     pb_Uid := int64 (UID l);
     pb_Properties := Some (LinkProperties_ToProto (Properties l)) |}.

(** [common.Map]: a slice of the same length, filled by index. *)
Fixpoint Map {T U : Type} (ts : list T) (f : T -> U) : list U :=
  match ts with
  | [] => []
  | t :: ts' => f t :: Map ts' f
  end.

(** Field updates. *)
Definition set_status (st : TopologyStatus) (t : Topology) : Topology :=
  mkTopology (Name t) (Namespace t) (Finalizers t) (ResourceVersion t) (Spec t) st.

Definition set_finalizers (f : list string) (t : Topology) : Topology :=
  mkTopology (Name t) (Namespace t) f (ResourceVersion t) (Spec t) (Status t).

Definition set_status_links (l : option (list Link)) (t : Topology) : Topology :=
  set_status (mkTopologyStatus (Skipped (Status t)) (SrcIP (Status t)) (NetNs (Status t)) l) t.

Definition set_alive (srcIP netNs : string) (t : Topology) : Topology :=
  set_status (mkTopologyStatus (Skipped (Status t)) srcIP netNs (status_Links (Status t))) t.

(** The elements of a slice that may be nil. *)
Definition slice {A} (o : option (list A)) : list A := default [] o.

#[export] Instance LinkProperties_eq_dec : EqDecision LinkProperties.
Proof. solve_decision. Defined.

#[export] Instance Link_eq_dec : EqDecision Link.
Proof. solve_decision. Defined.

#[export] Instance TopologySpec_eq_dec : EqDecision TopologySpec.
Proof. solve_decision. Defined.

#[export] Instance TopologyStatus_eq_dec : EqDecision TopologyStatus.
Proof. solve_decision. Defined.

#[export] Instance Topology_eq_dec : EqDecision Topology.
Proof. solve_decision. Defined.

(** ** Lemmas *)

Lemma Map_map {T U} (f : T -> U) ts : Map ts f = f <$> ts.
Proof. induction ts as [|t ts IH]; cbn; [done|]. by rewrite IH. Qed.

Lemma LinkProperties_ToProto_inj p q :
  LinkProperties_ToProto p = LinkProperties_ToProto q -> p = q.
Proof. destruct p, q. unfold LinkProperties_ToProto; cbn. congruence. Qed.

(** A [Link]'s UID is a Go [int], 64 bits wide on the supported platforms. *)
Definition link_wf (l : Link) : Prop := in_int 64 (UID l).

Lemma Link_ToProto_inj l m :
  link_wf l -> link_wf m -> Link_ToProto l = Link_ToProto m -> l = m.
Proof.
  intros Hl Hm H. unfold Link_ToProto, link_wf in *.
  rewrite (wrapS_small 64 (UID l)), (wrapS_small 64 (UID m)) in H by done.
  pose proof (f_equal pb_Properties H) as Hp. cbn in Hp.
  apply (inj Some), LinkProperties_ToProto_inj in Hp.
  destruct l, m; cbn in *. congruence.
Qed.
