(* ===== verification/K8s.v ===== *)
(** * The Kubernetes API as the program uses it

    The typed client of [api/clientset/v1beta1/topology.go], which builds REST
    requests, and the interfaces of the Kubernetes libraries: the REST client
    itself, the controller-runtime client, and [retry.RetryOnConflict].  The
    libraries are parameters (classes); [RetryLaws] and [ClusterLaws] state the
    documented behaviour the proofs rely on. *)

From stdpp Require Import base strings gmap list.
From Stdlib Require Import ZArith Lia.
From S2P Require Import Prelude GoStr Proto ApiV1.

Local Open Scope string_scope.

(** [client.IgnoreNotFound]. *)
Definition IgnoreNotFound (e : error) : option error :=
  if IsNotFound e then None else Some e.

(** ** REST requests *)

Inductive verb := GET | POST | PUT | DELETE.

Record Request := mkRequest {
  req_verb : verb;
  req_ns : string;
  req_resource : string;
  req_name : option string;
  req_subresource : option string;
  req_watch : bool;
  req_body : option Topology
}.

Class RestClient (E : Type) := {
  (** [Do(ctx).Into(&result)] with a [Topology] or a [TopologyList] result:
      the zero value stays in [result] when the call fails. *)
  rest_Into : Request -> eff E (Topology * option error);
  rest_IntoList : Request -> eff E (list Topology * option error);
  rest_Error : Request -> eff E (option error)
}.

Section Clientset.
  Context {E : Type} `{RestClient E}.

Definition topologyClient_List (ns : string) : go E (list Topology * option error) :=
  call (rest_IntoList (mkRequest GET ns "topologies" None None false None)).

Definition topologyClient_Get (ns name : string) : go E (Topology * option error) :=
  call (rest_Into (mkRequest GET ns "topologies" (Some name) None false None)).

Definition topologyClient_Create (ns : string) (topology : Topology) : go E (Topology * option error) :=
  call (rest_Into (mkRequest POST ns "topologies" None None false (Some topology))).

(** [Watch] sets [opts.Watch] and opens the stream. *)
Definition topologyClient_Watch (ns : string) : go E (option error) :=
  call (rest_Error (mkRequest GET ns "topologies" None None true None)).

Definition topologyClient_Delete (ns name : string) : go E (option error) :=
  call (rest_Error (mkRequest DELETE ns "topologies" (Some name) None false None)).

Definition topologyClient_Update (ns : string) (topology : Topology) : go E (Topology * option error) :=
  call (rest_Into (mkRequest PUT ns "topologies" (Some (Name topology)) None false (Some topology))).

Definition topologyClient_UpdateStatus (ns : string) (topology : Topology)
  : go E (Topology * option error) :=
  call (rest_Into (mkRequest PUT ns "topologies" (Some (Name topology)) (Some "status") false
                     (Some topology))).

End Clientset.

(** ** [retry.RetryOnConflict(retry.DefaultRetry, fn)] *)

Class Retry := { RetryOnConflict : forall S : Type, go S (option error) -> go S (option error) }.
Arguments RetryOnConflict {_ S} fn.

Definition conflict_error (r : option error) : bool :=
  match r with Some e => IsConflict e | None => false end.

(** The runs [RetryOnConflict] may make: [fn] again after every conflict. *)
Inductive attempts {S} (fn : go S (option error)) (s : S) : outcome (option error) * S -> Prop :=
| attempt_last x :
    fn s = x -> attempts fn s x
| attempt_again e s1 x :
    fn s = (Val (Some e), s1) -> IsConflict e = true -> attempts fn s1 x -> attempts fn s x.

Class RetryLaws `{Retry} := {
  (** It ends after some run of [fn] and returns that run's result. *)
  retry_attempts : forall S (fn : go S (option error)) s, attempts fn s (RetryOnConflict fn s);
  (** It does not run [fn] again after anything but a conflict. *)
  retry_stops : forall S (fn : go S (option error)) s r s',
    fn s = (Val r, s') -> conflict_error r = false -> RetryOnConflict fn s = (Val r, s')
}.

(** An implementation with the default five steps. *)
Fixpoint retry_steps {S} (steps : nat) (fn : go S (option error)) : go S (option error) :=
  fun s =>
    match fn s, steps with
    | (Val (Some e), s1), Datatypes.S n => if IsConflict e then retry_steps n fn s1 else (Val (Some e), s1)
    | x, _ => x
    end.

#[export] Instance DefaultRetry : Retry := {| RetryOnConflict S fn := retry_steps 4 fn |}.

Lemma retry_steps_attempts {S} n (fn : go S (option error)) s : attempts fn s (retry_steps n fn s).
Proof.
  revert s. induction n as [|n IH]; intros s; cbn.
  - destruct (fn s) as [[[e|]| |] s1] eqn:E; by constructor.
  - destruct (fn s) as [[[e|]| |] s1] eqn:E; try by constructor.
    destruct (IsConflict e) eqn:C; [|by constructor]. by eapply attempt_again.
Qed.

#[export] Instance DefaultRetry_laws : RetryLaws.
Proof.
  split.
  - intros. apply retry_steps_attempts.
  - intros S fn s r s' E C. cbn. rewrite E. destruct r as [e|]; [|done]. cbn in C. by rewrite C.
Qed.

(** An invariant of every run of [fn] holds of the whole. *)
Lemma attempts_invariant {S} (fn : go S (option error)) (P : S -> Prop)
    (Q : outcome (option error) * S -> Prop) s x :
  (forall s, P s -> Q (fn s)) ->
  (forall s e s1, P s -> fn s = (Val (Some e), s1) -> P s1) ->
  P s -> attempts fn s x -> Q x.
Proof.
  intros HQ HP Hs Ha. induction Ha as [s x <-|s e s1 x E C Ha IH]; [auto|].
  apply IH. eapply HP; eauto.
Qed.

(** ** The controller-runtime client *)

Class K8sClient (E : Type) := {
  (** [r.Get(ctx, NamespacedName{ns, name}, &topology)]. *)
  client_Get : string -> string -> eff E (result Topology);
  (** [r.Status().Update(ctx, &topology)]. *)
  client_StatusUpdate : Topology -> eff E (option error)
}.

(** What the controller relies on.  An API server stores objects by namespace
    and name, and a status update replaces the status only, of an object that
    still has the resource version the caller read.  Reads are served from the
    manager's cache, which may lag behind the store: what it shows of an object
    is what some version of it was, and once it shows the stored version it does
    so until the object is written again.  Daemons are reached by RPC. *)
Class ClusterLaws (E : Type) `{K8sClient E, GrpcClient E} := {
  db : E -> gmap (string * string) Topology;
  (** What a read would be answered from. *)
  cache : E -> gmap (string * string) Topology;
  (** The calls issued to daemons, oldest first. *)
  rpcs : E -> list (string * rpc_request);
  (** The cache holds versions of the stored objects. *)
  coherent : E -> Prop;
  coherent_cache e ns name t :
    coherent e -> cache e !! (ns, name) = Some t ->
    Namespace t = ns /\ Name t = name /\
    forall t0, db e !! (ns, name) = Some t0 -> ResourceVersion t = ResourceVersion t0 -> t = t0;
  (** A call that writes nothing. *)
  undisturbed e e' : Prop :=
    db e' = db e /\ (coherent e -> coherent e') /\
    forall k, cache e !! k = db e !! k -> cache e' !! k = db e' !! k;
  law_Get_found ns name e t :
    cache e !! (ns, name) = Some t ->
    exists e', client_Get ns name e = (Ok t, e') /\ undisturbed e e' /\ rpcs e' = rpcs e;
  law_Get_missing ns name e :
    cache e !! (ns, name) = None ->
    exists er e', client_Get ns name e = (Err er, e') /\ IsNotFound er = true
                  /\ undisturbed e e' /\ rpcs e' = rpcs e;
  law_StatusUpdate t e r e' :
    client_StatusUpdate t e = (r, e') ->
    rpcs e' = rpcs e /\
    match r with
    | Some _ => undisturbed e e'
    | None =>
        (coherent e -> coherent e') /\
        exists old v, db e !! (Namespace t, Name t) = Some old /\ ResourceVersion t = ResourceVersion old /\
          db e' = <[(Namespace t, Name t) :=
                      mkTopology (Name old) (Namespace old) (Finalizers old) v (Spec old) (Status t)]> (db e)
    end;
  law_Dial target e r e' :
    grpc_Dial target e = (r, e') -> undisturbed e e' /\ rpcs e' = rpcs e;
  law_Invoke target method req e r e' :
    grpc_Invoke target method req e = (r, e') ->
    undisturbed e e' /\ rpcs e' = (rpcs e ++ [(target, req)])%list
}.

Lemma undisturbed_refl `{ClusterLaws E} (e : E) : undisturbed e e.
Proof. unfold undisturbed. auto. Qed.

Lemma undisturbed_trans `{ClusterLaws E} (e1 e2 e3 : E) :
  undisturbed e1 e2 -> undisturbed e2 e3 -> undisturbed e1 e3.
Proof. unfold undisturbed. intros (D1 & C1 & S1) (D2 & C2 & S2). split_and!; [congruence|auto|auto]. Qed.
