(* ===== verification/Kernel.v ===== *)
(** * The node's network stack, as an interface

    The daemon changes the node through [koko], [netlink], the CNI [ns] package,
    the [tc] command and Go's [net] package.  None of that code is in the
    repository: it is the class [Kernel] over an abstract state [E].  Calls made
    inside [vethNs.Do] carry the namespace they run in.  [KernelLaws] states the
    documented behaviour that theorems rely on, and [KernelWorks] that calls fail
    only for cause; the instance of [SimKernel.v] satisfies both. *)

From stdpp Require Import base strings gmap list.
From Stdlib Require Import ZArith Lia SpecFloat.
From S2P Require Import Prelude GoStr GoNum GoNet.

Local Open Scope string_scope.

(** ** Data of the libraries *)

(** [koko.VEth], [koko.VxLan], [koko.MacVLan]: the fields the daemon sets. *)
Record VEth := mkVEth {
  NsName : string;
  LinkName : string;
  IPAddr : list IPNet;
  HardwareAddr : list Z
}.

Record VxLan := mkVxLan { ParentIF : string; vx_IPAddr : IP; vx_ID : Z }.

Record MacVLan := mkMacVLan { mac_ParentIF : string; mac_Mode : Z }.

Record LinkStatistics := mkStats {
  RxPackets : Z; TxPackets : Z; RxBytes : Z; TxBytes : Z;
  RxErrors : Z; TxErrors : Z; RxDropped : Z; TxDropped : Z
}.

(** A [netlink.Link]: a [*netlink.Vxlan] or any other type. *)
Inductive nl_kind :=
| NlVxlan (VxlanId : Z) (Group : IP)
| NlOther (type : string).

Record nl_link := mkNlLink {
  nl_Name : string;
  nl_Index : Z;
  nl_Kind : nl_kind;
  nl_Statistics : option LinkStatistics
}.

(** [netlink.NetemQdiscAttrs], the fields the daemon sets. *)
Record NetemQdiscAttrs := mkNetemAttrs {
  na_Latency : Z;
  na_DelayCorr : spec_float;
  na_Jitter : Z;
  na_Loss : spec_float;
  na_LossCorr : spec_float;
  na_Gap : Z;
  na_Duplicate : spec_float;
  na_DuplicateCorr : spec_float;
  na_ReorderProb : spec_float;
  na_ReorderCorr : spec_float;
  na_CorruptProb : spec_float;
  na_CorruptCorr : spec_float
}.

Record QdiscAttrs := mkQdiscAttrs { qa_LinkIndex : Z; qa_Handle : Z; qa_Parent : Z }.

(** [netlink.Qdisc]: the types the daemon tells apart.  [Netem] is what
    [netlink.NewNetem] builds from the attributes. *)
Inductive Qdisc :=
| Netem (a : QdiscAttrs) (n : NetemQdiscAttrs)
| Tbf (a : QdiscAttrs) (Rate : Z) (Buffer : Z) (Minburst : Z)
| GenericQdisc (a : QdiscAttrs) (type : string)
| OtherQdisc (a : QdiscAttrs) (type : string).

Record Route := mkRoute { route_Src : IP; route_LinkIndex : Z }.

(** [net.Interface]. *)
Record Interface := mkInterface { if_Name : string; if_Index : Z; if_Addrs : list IP }.

(** A namespace handle is identified by its path. *)
Abbreviation NetNS := string.

Class Kernel (E : Type) := {
  koko_MakeVeth : VEth -> VEth -> eff E (option error);
  koko_MakeVxLan : VEth -> VxLan -> eff E (option error);
  koko_MakeMacVLan : VEth -> MacVLan -> eff E (option error);
  koko_RemoveVethLink : VEth -> eff E (option error);
  koko_IsExistLinkInNS : string -> string -> eff E (bool * option error);
  ns_GetCurrentNS : eff E (result NetNS);
  ns_GetNS : string -> eff E (result NetNS);
  (** The part of [Do] that enters the namespace. *)
  ns_Set : NetNS -> eff E (option error);
  nl_LinkByName : NetNS -> string -> eff E (result nl_link);
  nl_LinkList : NetNS -> eff E (result (list nl_link));
  nl_LinkDel : NetNS -> nl_link -> eff E (option error);
  nl_LinkByIndex : Z -> eff E (result nl_link);
  nl_RouteGet : IP -> eff E (list Route * option error);
  nl_QdiscList : NetNS -> nl_link -> eff E (result (list Qdisc));
  nl_QdiscAdd : NetNS -> Qdisc -> eff E (option error);
  nl_QdiscDel : NetNS -> Qdisc -> eff E (option error);
  (** [exec.Command("tc", args...).CombinedOutput()]. *)
  exec_tc : NetNS -> list string -> eff E (string * option error);
  net_Interfaces : eff E (list Interface);
  net_InterfaceByName : string -> eff E (result Interface);
  net_InterfaceByIndex : Z -> eff E (result Interface);
  HANDLE_ROOT : Z;
  MakeHandle : Z -> Z -> Z;
  MACVLAN_MODE_BRIDGE : Z;
  IP_String : IP -> string
}.

(** [vethNs.Do(f)]: enter, run, report [f]'s error. *)
Definition ns_Do {E} `{Kernel E} (n : NetNS) (f : go E (option error)) : go E (option error) :=
  (err <- call (ns_Set n) ;;
   match err with
   | Some e => ret (Some e)
   | None => f
   end)%go.

(** The namespace a [VEth] names: the current one when the name is empty. *)
Definition vethNetNS {E} `{Kernel E} (name : string) : go E (result NetNS) :=
  if String.eqb name "" then call ns_GetCurrentNS else call (ns_GetNS name).

(** The [tc] commands whose effect is described below. *)
Definition tc_add_tbf (dev r b m : string) : list string :=
  ["qdisc"; "add"; "dev"; dev; "parent"; "1:1"; "handle"; "10:0"; "tbf"; "rate"; r;
   "burst"; b; "latency"; "50ms"; "minburst"; m].
Definition tc_add_clsact (dev : string) : list string := ["qdisc"; "add"; "dev"; dev; "clsact"].
Definition tc_add_filter (dev o s : string) : list string :=
  ["filter"; "add"; "dev"; dev; "egress"; "bpf"; "obj"; o; "sec"; s].

(** ** Laws

    What the calls change, seen through [view]: the interfaces by namespace
    path and name, the other end of each veth, the interfaces' indexes, and
    the traffic control of an interface (by namespace and index).  The
    handle of the daemon's own namespace is the empty path. *)

(** What [tc] was told about a token bucket. *)
Record tbf_params := mkTbf { tbf_rate : string; tbf_burst : string; tbf_minburst : string }.

(** The discipline at the root of an interface: the kernel's default, netem with
    perhaps a token bucket below it, a token bucket, or anything else. *)
Inductive root_qdisc :=
| NoRoot
| RNetem (handle : Z) (attrs : NetemQdiscAttrs) (child : option tbf_params)
| RTbf (handle : Z) (params : tbf_params)
| ROther (type : string).

(** Traffic control of an interface.  The clsact discipline is next to the root
    discipline and independent of it; [tc_filters] are its egress filters (object
    file and section), and [None] if there is no clsact. *)
Record tc_state := mkTc { tc_root : root_qdisc; tc_filters : option (list (string * string)) }.

Definition no_tc : tc_state := mkTc NoRoot None.

Record net_view := mkView {
  links : gmap (string * string) nl_kind;
  peers : gmap (string * string) (string * string);
  ifindex : gmap (string * string) Z;
  shapes : gmap (string * Z) tc_state
}.

(** Traffic control of the interface with index [i] in [n]. *)
Definition shape_at (v : net_view) (n : string) (i : Z) : tc_state := default no_tc (shapes v !! (n, i)).

(** Where a [VEth] is. *)
Definition veth_key (v : VEth) : string * string := (NsName v, LinkName v).

Definition qdisc_attrs (q : Qdisc) : QdiscAttrs :=
  match q with Netem a _ | Tbf a _ _ _ | GenericQdisc a _ | OtherQdisc a _ => a end.

#[export] Instance nl_kind_eq_dec : EqDecision nl_kind.
Proof. solve_decision. Defined.

(** Deleting a discipline: the root takes what is below it along.  [None] if the
    discipline is not there. *)
Definition del_qdisc `{Kernel E} (q : Qdisc) (t : tc_state) : option tc_state :=
  match q with
  | Netem a _ =>
      match tc_root t with
      | RNetem h _ _ =>
          if (qa_Parent a =? HANDLE_ROOT)%Z && (qa_Handle a =? h)%Z then Some (mkTc NoRoot (tc_filters t)) else None
      | _ => None
      end
  | Tbf a _ _ _ =>
      match tc_root t with
      | RTbf h _ =>
          if (qa_Parent a =? HANDLE_ROOT)%Z && (qa_Handle a =? h)%Z then Some (mkTc NoRoot (tc_filters t)) else None
      | RNetem h attrs (Some _) =>
          if (qa_Parent a =? HANDLE_ROOT)%Z then None else Some (mkTc (RNetem h attrs None) (tc_filters t))
      | _ => None
      end
  | GenericQdisc a _ =>
      if (qa_Handle a =? MakeHandle 65535 0)%Z
      then match tc_filters t with Some _ => Some (mkTc (tc_root t) None) | None => None end
      else None
  | OtherQdisc _ _ => None
  end.

(** A listing names the root discipline, if it is netem or a token bucket, and the
    clsact discipline, which has the handle ffff:0. *)
Definition covers `{Kernel E} (qs : list Qdisc) (t : tc_state) : Prop :=
  match tc_root t with
  | RNetem h _ _ => exists a attrs, Netem a attrs ∈ qs /\ qa_Parent a = HANDLE_ROOT /\ qa_Handle a = h
  | RTbf h _ => exists a r b m, Tbf a r b m ∈ qs /\ qa_Parent a = HANDLE_ROOT /\ qa_Handle a = h
  | _ => True
  end /\
  (is_Some (tc_filters t) -> exists a ty, GenericQdisc a ty ∈ qs /\ qa_Handle a = MakeHandle 65535 0).

(** The links without [k] and, if [k] is an end of a pair, without the other. *)
Definition unlink (v : net_view) (k : string * string) : gmap (string * string) nl_kind :=
  delete k (match peers v !! k with
            | Some p => if bool_decide (links v !! p = Some (NlOther "veth")) then delete p (links v) else links v
            | None => links v
            end).

(** The interface at [j] has the index and the shaping it had. *)
Definition unmoved (j : string * string) (v v' : net_view) : Prop :=
  ifindex v' !! j = ifindex v !! j /\
  (forall i, ifindex v !! j = Some i -> shapes v' !! (j.1, i) = shapes v !! (j.1, i)).

(** Interfaces that are there before and after keep index and shaping. *)
Definition steady (v v' : net_view) : Prop :=
  forall j, is_Some (links v !! j) -> is_Some (links v' !! j) -> unmoved j v v'.

Class KernelLaws (E : Type) `{Kernel E} := {
  view : E -> net_view;
  (** Interfaces of one namespace have different indexes. *)
  law_index e j k i :
    ifindex (view e) !! j = Some i -> ifindex (view e) !! k = Some i -> j.1 = k.1 -> j = k;
  law_index_link e j i : ifindex (view e) !! j = Some i -> is_Some (links (view e) !! j);
  (** Making a veth pair makes both ends and touches nothing else. *)
  law_MakeVeth a b e e' :
    koko_MakeVeth a b e = (None, e') ->
    links (view e') = <[veth_key b := NlOther "veth"]>
                        (<[veth_key a := NlOther "veth"]> (links (view e))) /\ steady (view e) (view e');
  law_MakeVxLan v x e e' :
    koko_MakeVxLan v x e = (None, e') ->
    links (view e') = <[veth_key v := NlVxlan (vx_ID x) (vx_IPAddr x)]> (links (view e)) /\
    steady (view e) (view e');
  law_MakeMacVLan v m e e' :
    koko_MakeMacVLan v m e = (None, e') ->
    links (view e') = <[veth_key v := NlOther "macvlan"]> (links (view e)) /\ steady (view e) (view e');
  (** A failure may leave the new interface behind; the others stay. *)
  law_MakeVxLan_fail v x e er e' :
    koko_MakeVxLan v x e = (Some er, e') -> links (view e) ⊆ links (view e') /\ steady (view e) (view e');
  (** Removing an interface; the other end of a veth pair goes with it.  It
      fails when there is none. *)
  law_RemoveVethLink v e e' :
    koko_RemoveVethLink v e = (None, e') ->
    is_Some (links (view e) !! veth_key v) /\ links (view e') = unlink (view e) (veth_key v) /\
    peers (view e') ⊆ peers (view e) /\ steady (view e) (view e');
  law_RemoveVethLink_fail v e er e' :
    koko_RemoveVethLink v e = (Some er, e') -> view e' = view e;
  law_IsExist ns name e :
    exists err e', koko_IsExistLinkInNS ns name e
                   = ((bool_decide (is_Some (links (view e) !! (ns, name))), err), e')
                   /\ view e' = view e;
  (** Calls that only read. *)
  law_GetNS p e r e' :
    ns_GetNS p e = (r, e') -> view e' = view e /\ (forall n, r = Ok n -> n = p);
  law_GetCurrentNS e r e' :
    ns_GetCurrentNS e = (r, e') -> view e' = view e /\ (forall n, r = Ok n -> n = "");
  law_Set n e r e' : ns_Set n e = (r, e') -> view e' = view e;
  law_LinkByName n name e r e' :
    nl_LinkByName n name e = (r, e') ->
    view e' = view e /\
    (forall l, r = Ok l -> nl_Name l = name /\ links (view e) !! (n, name) = Some (nl_Kind l)
                         /\ ifindex (view e) !! (n, name) = Some (nl_Index l));
  law_LinkList n e r e' :
    nl_LinkList n e = (r, e') ->
    view e' = view e /\
    (forall ls, r = Ok ls -> forall name k,
       links (view e) !! (n, name) = Some k <-> exists l, l ∈ ls /\ nl_Name l = name /\ nl_Kind l = k);
  law_LinkDel n l e e' :
    nl_LinkDel n l e = (None, e') ->
    links (view e') = unlink (view e) (n, nl_Name l) /\ steady (view e) (view e');
  law_LinkDel_fail n l e er e' :
    nl_LinkDel n l e = (Some er, e') -> links (view e') = links (view e) /\ steady (view e) (view e');
  law_Interfaces e r e' : net_Interfaces e = (r, e') -> view e' = view e;
  law_LinkByIndex i e r e' : nl_LinkByIndex i e = (r, e') -> view e' = view e;
  law_RouteGet d e r e' : nl_RouteGet d e = (r, e') -> view e' = view e;
  (** Queueing disciplines.  A request works on one interface; one that fails
      changes nothing of it. *)
  law_QdiscList n l e r e' :
    nl_QdiscList n l e = (r, e') ->
    view e' = view e /\
    (forall qs, r = Ok qs -> Forall (fun q => qa_LinkIndex (qdisc_attrs q) = nl_Index l) qs /\
                           covers qs (shape_at (view e) n (nl_Index l)));
  law_QdiscDel n q e r e' :
    nl_QdiscDel n q e = (r, e') ->
    let i := qa_LinkIndex (qdisc_attrs q) in
    links (view e') = links (view e) /\ ifindex (view e') = ifindex (view e) /\
    delete (n, i) (shapes (view e')) = delete (n, i) (shapes (view e)) /\
    shape_at (view e') n i
    = (if r then shape_at (view e) n i else default (shape_at (view e) n i) (del_qdisc q (shape_at (view e) n i)));
  (** Adding a discipline at the root fails if there is one already (the
      kernel's default apart), and leaves clsact alone. *)
  law_QdiscAdd n a attrs e r e' :
    nl_QdiscAdd n (Netem a attrs) e = (r, e') ->
    links (view e') = links (view e) /\ ifindex (view e') = ifindex (view e) /\
    delete (n, qa_LinkIndex a) (shapes (view e')) = delete (n, qa_LinkIndex a) (shapes (view e)) /\
    (r = None -> qa_Parent a = HANDLE_ROOT ->
     tc_root (shape_at (view e) n (qa_LinkIndex a)) = NoRoot /\
     shape_at (view e') n (qa_LinkIndex a)
     = mkTc (RNetem (qa_Handle a) attrs None) (tc_filters (shape_at (view e) n (qa_LinkIndex a))));
  (** [tc] works on the device it is given. *)
  law_tc n args e r e' :
    exec_tc n args e = (r, e') ->
    links (view e') = links (view e) /\ ifindex (view e') = ifindex (view e);
  law_tc_dev n obj cmd dev args i e r e' :
    exec_tc n (obj :: cmd :: "dev" :: dev :: args) e = (r, e') -> ifindex (view e) !! (n, dev) = Some i ->
    delete (n, i) (shapes (view e')) = delete (n, i) (shapes (view e));
  (** A token bucket below netem; clsact; a filter of clsact. *)
  law_tc_tbf_child n dev r b m i e out e' :
    exec_tc n (tc_add_tbf dev r b m) e = ((out, None), e') -> ifindex (view e) !! (n, dev) = Some i ->
    exists attrs, tc_root (shape_at (view e) n i) = RNetem (MakeHandle 1 0) attrs None /\
      shape_at (view e') n i
      = mkTc (RNetem (MakeHandle 1 0) attrs (Some (mkTbf r b m))) (tc_filters (shape_at (view e) n i));
  law_tc_clsact n dev i e out e' :
    exec_tc n (tc_add_clsact dev) e = ((out, None), e') -> ifindex (view e) !! (n, dev) = Some i ->
    tc_filters (shape_at (view e) n i) = None /\
    shape_at (view e') n i = mkTc (tc_root (shape_at (view e) n i)) (Some []);
  law_tc_filter n dev o s i e out e' :
    exec_tc n (tc_add_filter dev o s) e = ((out, None), e') -> ifindex (view e) !! (n, dev) = Some i ->
    exists fs, tc_filters (shape_at (view e) n i) = Some fs /\
      shape_at (view e') n i = mkTc (tc_root (shape_at (view e) n i)) (Some (fs ++ [(o, s)])%list)
}.

(** A node where requests fail only for a reason the view shows: calls are
    permitted, a namespace with an interface exists, what is listed or deleted is
    there, what is added is not.  Theorems that need more than the answer of a call,
    because the daemon only logs its error, say what happens on such a node. *)
Class KernelWorks (E : Type) `{KernelLaws E} : Prop := {
  works_GetNS n name e :
    n <> "" -> is_Some (links (view e) !! (n, name)) -> exists e', ns_GetNS n e = (Ok n, e');
  works_GetCurrentNS e : exists e', ns_GetCurrentNS e = (Ok "", e');
  works_Set n name e : is_Some (links (view e) !! (n, name)) -> exists e', ns_Set n e = (None, e');
  works_LinkByName n name e :
    is_Some (links (view e) !! (n, name)) -> exists l e', nl_LinkByName n name e = (Ok l, e');
  works_QdiscList n l e :
    ifindex (view e) !! (n, nl_Name l) = Some (nl_Index l) -> exists qs e', nl_QdiscList n l e = (Ok qs, e');
  works_QdiscDel n q name t e :
    ifindex (view e) !! (n, name) = Some (qa_LinkIndex (qdisc_attrs q)) ->
    del_qdisc q (shape_at (view e) n (qa_LinkIndex (qdisc_attrs q))) = Some t ->
    exists e', nl_QdiscDel n q e = (None, e');
  works_QdiscAdd n a attrs name e :
    ifindex (view e) !! (n, name) = Some (qa_LinkIndex a) -> qa_Parent a = HANDLE_ROOT ->
    tc_root (shape_at (view e) n (qa_LinkIndex a)) = NoRoot ->
    exists e', nl_QdiscAdd n (Netem a attrs) e = (None, e');
  works_tbf_child n dev (r b m : Z) i attrs e :
    in_uint 64 r -> r <> 0%Z -> (0 < b < 2 ^ 32)%Z -> ifindex (view e) !! (n, dev) = Some i ->
    tc_root (shape_at (view e) n i) = RNetem (MakeHandle 1 0) attrs None ->
    exists out e', exec_tc n (tc_add_tbf dev (Sprint r) (Sprint b) (Sprint m)) e = ((out, None), e');
  works_clsact n dev i e :
    ifindex (view e) !! (n, dev) = Some i -> tc_filters (shape_at (view e) n i) = None ->
    exists out e', exec_tc n (tc_add_clsact dev) e = ((out, None), e');
  works_RemoveVethLink v e :
    is_Some (links (view e) !! veth_key v) -> exists e', koko_RemoveVethLink v e = (None, e')
}.

(** The object file [o] can be loaded as a filter. *)
Definition filter_loads (E : Type) `{KernelLaws E} (o s : string) : Prop :=
  forall n dev i fs e,
    ifindex (view e) !! (n, dev) = Some i -> tc_filters (shape_at (view e) n i) = Some fs ->
    exists out e', exec_tc n (tc_add_filter dev o s) e = ((out, None), e').
