(* ===== verification/SimKernel.v ===== *)
(** * A simulated node

    An implementation of [Kernel] that satisfies [KernelLaws]: interfaces are
    entries of the view, a VNI can be used once, a name once per namespace; the
    index of an interface is a number for its namespace and name.
    Theorems are applied to it in their witnesses. *)

From stdpp Require Import base strings gmap list.
From Stdlib Require Import ZArith Lia SpecFloat.
From S2P Require Import Prelude GoStr GoNum GoNet Kernel.

Local Open Scope string_scope.

Module Sim.

Record State := mkState {
  sk_view : net_view;
  (** The namespaces that exist, next to the node's own. *)
  sk_nss : list string;
  sk_ifaces : list Interface
}.

Definition empty_view : net_view := mkView ∅ ∅ ∅ ∅.

Definition with_view (s : State) (v : net_view) : State := mkState v (sk_nss s) (sk_ifaces s).

Definition index_of (k : string * string) : Z := Z.pos (encode k).

Definition indexes (m : gmap (string * string) nl_kind) : gmap (string * string) Z :=
  map_imap (fun k _ => Some (index_of k)) m.

(** What the laws see. *)
Definition seen (s : State) : net_view :=
  mkView (links (sk_view s)) (peers (sk_view s)) (indexes (links (sk_view s))) (shapes (sk_view s)).

Definition exists_err : error := errorf "file exists".
Definition missing_err : error := mkError NotFound "Link not found".

(** Adds one interface. *)
Definition add_link (k : string * string) (kind : nl_kind) (v : net_view) : net_view :=
  mkView (<[k := kind]> (links v)) (peers v) (ifindex v) (shapes v).

Definition set_peers (a b : string * string) (v : net_view) : net_view :=
  mkView (links v) (<[a := b]> (<[b := a]> (peers v))) (ifindex v) (shapes v).

Definition drop_link (k : string * string) (v : net_view) : net_view :=
  mkView (unlink v k) (peers v) (ifindex v) (shapes v).

Definition set_shape (i : string * Z) (l : tc_state) (v : net_view) : net_view :=
  mkView (links v) (peers v) (ifindex v) (<[i := l]> (shapes v)).

Definition has (s : State) (k : string * string) : bool :=
  bool_decide (is_Some (links (sk_view s) !! k)).

Definition vni_used (s : State) (id : Z) : bool :=
  existsb (fun p : (string * string) * nl_kind =>
             match p.2 with NlVxlan i _ => (i =? id)%Z | _ => false end)
          (map_to_list (links (sk_view s))).

Definition MakeVeth (a b : VEth) : eff State (option error) := fun s =>
  if has s (veth_key a) || has s (veth_key b) then (Some exists_err, s)
  else (None, with_view s (set_peers (veth_key a) (veth_key b)
                             (add_link (veth_key b) (NlOther "veth")
                                (add_link (veth_key a) (NlOther "veth") (sk_view s))))).

Definition MakeVxLan (v : VEth) (x : VxLan) : eff State (option error) := fun s =>
  if has s (veth_key v) || vni_used s (vx_ID x) then (Some exists_err, s)
  else (None, with_view s (add_link (veth_key v) (NlVxlan (vx_ID x) (vx_IPAddr x)) (sk_view s))).

Definition MakeMacVLan (v : VEth) (m : MacVLan) : eff State (option error) := fun s =>
  if has s (veth_key v) then (Some exists_err, s)
  else (None, with_view s (add_link (veth_key v) (NlOther "macvlan") (sk_view s))).

Definition RemoveVethLink (v : VEth) : eff State (option error) := fun s =>
  if has s (veth_key v) then (None, with_view s (drop_link (veth_key v) (sk_view s)))
  else (Some missing_err, s).

Definition GetNS (p : string) : eff State (result NetNS) := fun s =>
  if bool_decide (p ∈ sk_nss s) || existsb (fun x : (string * string) * nl_kind => String.eqb x.1.1 p) (map_to_list (links (sk_view s)))
  then (Ok p, s) else (Err (errorf "no such namespace"), s).

(** Counters that never move. *)
Definition idle : LinkStatistics := mkStats 0 0 0 0 0 0 0 0.

Definition link_at (s : State) (n name : string) : option nl_link :=
  k ← links (sk_view s) !! (n, name);
  Some (mkNlLink name (index_of (n, name)) k (Some idle)).

Definition LinkByName (n name : string) : eff State (result nl_link) := fun s =>
  match link_at s n name with
  | Some l => (Ok l, s)
  | None => (Err missing_err, s)
  end.

(** The interfaces of a namespace, from the map's bindings. *)
Definition ns_links (n : string) (m : gmap (string * string) nl_kind) : list nl_link :=
  omap (fun p : (string * string) * nl_kind =>
          if String.eqb p.1.1 n then Some (mkNlLink p.1.2 (index_of p.1) p.2 (Some idle)) else None)
       (map_to_list m).

Definition LinkList (n : string) : eff State (result (list nl_link)) := fun s =>
  (Ok (ns_links n (links (sk_view s))), s).

Definition LinkDel (n : string) (l : nl_link) : eff State (option error) := fun s =>
  if has s (n, nl_Name l) then (None, with_view s (drop_link (n, nl_Name l) (sk_view s)))
  else (Some missing_err, s).

Definition root_handle : Z := 4294967295.
Definition handle (major minor : Z) : Z := Z.lor (Z.shiftl major 16) minor.

(** Traffic control of an interface. *)
Definition tc_at (s : State) (n : string) (i : Z) : tc_state := shape_at (sk_view s) n i.
Definition set_tc (s : State) (n : string) (i : Z) (t : tc_state) : State := with_view s (set_shape (n, i) t (sk_view s)).

(** Qdiscs are listed as the types netlink tells apart. *)
Definition listed_root (i : Z) (r : root_qdisc) : list Qdisc :=
  match r with
  | NoRoot => [GenericQdisc (mkQdiscAttrs i 0 root_handle) "noqueue"]
  | RNetem h attrs c =>
      Netem (mkQdiscAttrs i h root_handle) attrs ::
      (if c then [Tbf (mkQdiscAttrs i (handle 16 0) (handle 1 1)) 0 0 0] else [])
  | RTbf h _ => [Tbf (mkQdiscAttrs i h root_handle) 0 0 0]
  | ROther ty => [OtherQdisc (mkQdiscAttrs i (handle 2 0) root_handle) ty]
  end.

Definition listed (i : Z) (t : tc_state) : list Qdisc :=
  (listed_root i (tc_root t) ++
   (if tc_filters t then [GenericQdisc (mkQdiscAttrs i (handle 65535 0) 4294967281) "clsact"] else []))%list.

Definition QdiscList (n : string) (l : nl_link) : eff State (result (list Qdisc)) := fun s =>
  (Ok (listed (nl_Index l) (tc_at s n (nl_Index l))), s).

Definition QdiscAdd (n : string) (q : Qdisc) : eff State (option error) := fun s =>
  match q with
  | Netem a attrs =>
      match tc_root (tc_at s n (qa_LinkIndex a)) with
      | NoRoot =>
          if (qa_Parent a =? root_handle)%Z
          then (None, set_tc s n (qa_LinkIndex a) (mkTc (RNetem (qa_Handle a) attrs None) (tc_filters (tc_at s n (qa_LinkIndex a)))))
          else (Some missing_err, s)
      | _ => (Some exists_err, s)
      end
  | _ => (Some (errorf "not supported"), s)
  end.

(** A [tc] command on a device: what becomes of its traffic control. *)
Definition on_dev (n dev : string) (f : tc_state -> option tc_state) : eff State (string * option error) := fun s =>
  let i := index_of (n, dev) in
  if has s (n, dev) then
    match f (tc_at s n i) with
    | Some t => (("", None), set_tc s n i t)
    | None => (("RTNETLINK answers: File exists", Some (errorf "exit status 2")), s)
    end
  else (("Cannot find device", Some (errorf "exit status 1")), s).

Definition add_tbf (p : tbf_params) (t : tc_state) : option tc_state :=
  match tc_root t with
  | RNetem h attrs None => if (h =? handle 1 0)%Z then Some (mkTc (RNetem h attrs (Some p)) (tc_filters t)) else None
  | _ => None
  end.

Definition add_clsact (t : tc_state) : option tc_state :=
  match tc_filters t with None => Some (mkTc (tc_root t) (Some [])) | Some _ => None end.

Definition add_filter (o c : string) (t : tc_state) : option tc_state :=
  match tc_filters t with Some fs => Some (mkTc (tc_root t) (Some (fs ++ [(o, c)])%list)) | None => None end.

Definition unknown_command : eff State (string * option error) := fun s =>
  (("unknown command", Some (errorf "exit status 2")), s).

Definition tc (n : string) (args : list string) : eff State (string * option error) :=
  match args with
  | [_; _; _; dev; _; _; _; _; _; _; r; _; b; _; _; _; m] =>
      if bool_decide (args = tc_add_tbf dev r b m) then on_dev n dev (add_tbf (mkTbf r b m)) else unknown_command
  | [_; _; _; dev; _] =>
      if bool_decide (args = tc_add_clsact dev) then on_dev n dev add_clsact else unknown_command
  | [_; _; _; dev; _; _; _; o; _; c] =>
      if bool_decide (args = tc_add_filter dev o c) then on_dev n dev (add_filter o c) else unknown_command
  | _ => unknown_command
  end.

(** Deleting works for what is there; the two constants of the class are those of
    the instance below. *)
Definition del_at (q : Qdisc) (t : tc_state) : option tc_state :=
  match q, tc_root t with
  | Netem a _, RNetem h _ _ | Tbf a _ _ _, RTbf h _ =>
      if (qa_Parent a =? root_handle)%Z && (qa_Handle a =? h)%Z then Some (mkTc NoRoot (tc_filters t)) else None
  | Tbf a _ _ _, RNetem h attrs (Some _) =>
      if (qa_Parent a =? root_handle)%Z then None else Some (mkTc (RNetem h attrs None) (tc_filters t))
  | GenericQdisc a _, _ =>
      if (qa_Handle a =? handle 65535 0)%Z
      then match tc_filters t with Some _ => Some (mkTc (tc_root t) None) | None => None end
      else None
  | _, _ => None
  end.

Definition QdiscDel (n : string) (q : Qdisc) : eff State (option error) := fun s =>
  let i := qa_LinkIndex (qdisc_attrs q) in
  match del_at q (tc_at s n i) with
  | Some t => (None, set_tc s n i t)
  | None => (Some missing_err, s)
  end.

#[global] Instance sim : Kernel State := {|
  koko_MakeVeth := MakeVeth;
  koko_MakeVxLan := MakeVxLan;
  koko_MakeMacVLan := MakeMacVLan;
  koko_RemoveVethLink := RemoveVethLink;
  koko_IsExistLinkInNS ns name s := ((has s (ns, name), None), s);
  ns_GetCurrentNS s := (Ok "", s);
  ns_GetNS := GetNS;
  ns_Set n s := (None, s);
  nl_LinkByName := LinkByName;
  nl_LinkList := LinkList;
  nl_LinkDel := LinkDel;
  nl_LinkByIndex i s := (Err missing_err, s);
  nl_RouteGet d s := (([], Some (errorf "no route")), s);
  nl_QdiscList := QdiscList;
  nl_QdiscAdd := QdiscAdd;
  nl_QdiscDel := QdiscDel;
  exec_tc := tc;
  net_Interfaces s := (sk_ifaces s, s);
  net_InterfaceByName name s :=
    (match list_find (fun i => if_Name i = name) (sk_ifaces s) with
     | Some (_, i) => Ok i | None => Err (errorf "no such network interface") end, s);
  net_InterfaceByIndex i s :=
    (match list_find (fun x => if_Index x = i) (sk_ifaces s) with
     | Some (_, i) => Ok i | None => Err (errorf "no such network interface") end, s);
  HANDLE_ROOT := root_handle;
  MakeHandle := handle;
  MACVLAN_MODE_BRIDGE := 4;
  IP_String ip := ""
|}.

(** ** The laws *)

Lemma ns_links_spec n m name k :
  m !! (n, name) = Some k <-> exists l, l ∈ ns_links n m /\ nl_Name l = name /\ nl_Kind l = k.
Proof.
  unfold ns_links. split.
  - intros H. exists (mkNlLink name (index_of (n, name)) k (Some idle)). split; [|done].
    apply list_elem_of_omap. exists ((n, name), k). cbn. rewrite String.eqb_refl.
    by rewrite elem_of_map_to_list.
  - intros (l & ([[n' name'] k'] & Hin & Hl)%list_elem_of_omap & <- & <-). cbn in Hl.
    destruct (String.eqb_spec n' n) as [->|]; [|done]. injection Hl as <-.
    by apply elem_of_map_to_list in Hin.
Qed.

Lemma listed_index i t : Forall (fun q => qa_LinkIndex (qdisc_attrs q) = i) (listed i t).
Proof.
  apply Forall_app. split; [|destruct (tc_filters t); by repeat constructor].
  destruct (tc_root t) as [|h attrs []| |]; by repeat constructor.
Qed.

Lemma listed_covers i t : covers (listed i t) t.
Proof.
  split.
  - unfold listed. destruct (tc_root t); [done| | |done]; do 2 eexists; [|do 2 eexists];
      (split; [apply elem_of_app; left; by left|done]).
  - intros [fs Hf]. unfold listed. rewrite Hf. do 2 eexists.
    split; [apply elem_of_app; right; by apply list_elem_of_singleton|done].
Qed.

Lemma del_at_eq q t : del_at q t = del_qdisc q t.
Proof. by destruct q, t as [[|? ? []| |] ?]. Qed.

Lemma tc_at_set s n i t : tc_at (set_tc s n i t) n i = t.
Proof. unfold tc_at, shape_at, set_tc. cbn. by rewrite lookup_insert_eq. Qed.

Lemma seen_index s j i : ifindex (seen s) !! j = Some i <-> is_Some (links (sk_view s) !! j) /\ i = index_of j.
Proof.
  unfold seen, indexes. cbn. rewrite map_lookup_imap. destruct (links (sk_view s) !! j) as [k|]; cbn; [|naive_solver].
  split; [intros [= <-]; eauto|]. by intros [_ ->].
Qed.

Lemma index_inj j k : index_of j = index_of k -> j = k.
Proof. unfold index_of. intros [= E]. by apply (inj encode). Qed.

(** Making and removing interfaces leaves shaping alone. *)
Lemma seen_steady s s' : shapes (sk_view s') = shapes (sk_view s) -> steady (seen s) (seen s').
Proof.
  intros HS j [k Hk] [k' Hk']. unfold unmoved, seen, indexes in *. cbn in *. rewrite HS, !map_lookup_imap, Hk, Hk'. done.
Qed.

Lemma on_dev_spec n dev f s r s' : on_dev n dev f s = (r, s') ->
  links (sk_view s') = links (sk_view s) /\
  (forall i, ifindex (seen s) !! (n, dev) = Some i ->
     delete (n, i) (shapes (sk_view s')) = delete (n, i) (shapes (sk_view s)) /\
     (r.2 = None -> f (tc_at s n i) = Some (tc_at s' n i))).
Proof.
  unfold on_dev, has. case_bool_decide as Hh; [|by intros [= <- <-]].
  destruct (f _) as [t|] eqn:Hf; intros [= <- <-]; (split; [done|]); intros i [Hi ->]%seen_index; (split; [|done || idtac]).
  - apply delete_insert_eq.
  - intros _. by rewrite tc_at_set.
  - done.
Qed.

Lemma on_dev_works n dev f s i t : ifindex (seen s) !! (n, dev) = Some i -> f (tc_at s n i) = Some t ->
  exists out s', on_dev n dev f s = ((out, None), s').
Proof.
  intros [Hi ->]%seen_index Hf. unfold on_dev, has. rewrite bool_decide_true, Hf by done. eauto.
Qed.

Lemma tc_frame n args s r s' : tc n args s = (r, s') -> links (sk_view s') = links (sk_view s).
Proof.
  unfold tc. repeat case_goal; try (by intros (? & _)%on_dev_spec);
    unfold unknown_command; intros [= <- <-]; done.
Qed.

(** Every command names its device in the fourth place. *)
Lemma tc_dev n obj cmd dev args i s r s' :
  tc n (obj :: cmd :: "dev" :: dev :: args) s = (r, s') -> ifindex (seen s) !! (n, dev) = Some i ->
  delete (n, i) (shapes (sk_view s')) = delete (n, i) (shapes (sk_view s)).
Proof.
  intros Ht Hi. unfold tc in Ht. repeat (case_match; simplify_eq; try done);
    try (apply on_dev_spec in Ht as [_ Ht]; apply (Ht i Hi));
    unfold unknown_command in Ht; by simplify_eq.
Qed.

(** The three commands. *)
Lemma tc_tbf_eq n dev r b m : tc n (tc_add_tbf dev r b m) = on_dev n dev (add_tbf (mkTbf r b m)).
Proof. cbn. by rewrite bool_decide_true. Qed.
Lemma tc_clsact_eq n dev : tc n (tc_add_clsact dev) = on_dev n dev add_clsact.
Proof. cbn. by rewrite bool_decide_true. Qed.
Lemma tc_filter_eq n dev o c : tc n (tc_add_filter dev o c) = on_dev n dev (add_filter o c).
Proof. cbn. by rewrite bool_decide_true. Qed.

#[global] Instance sim_laws : KernelLaws State.
Proof.
  refine {| view := seen |}.
  - intros s j k i [_ Hj]%seen_index [_ Hk]%seen_index _. apply index_inj. congruence.
  - by intros s j i [Hj _]%seen_index.
  - cbn. unfold MakeVeth. intros a b s s'. case_goal; intros [= <-]. split; [done|by apply seen_steady].
  - cbn. unfold MakeVxLan. intros v x s s'. case_goal; intros [= <-]. split; [done|by apply seen_steady].
  - cbn. unfold MakeMacVLan. intros v m s s'. case_goal; intros [= <-]. split; [done|by apply seen_steady].
  - cbn. unfold MakeVxLan. intros v x s er s'. case_goal; intros [= ? <-]. split; [done|by apply seen_steady].
  - cbn. unfold RemoveVethLink, has. intros v s s'. case_goal; intros [= <-].
    split; [by case_bool_decide|]. split; [done|]. split; [done|by apply seen_steady].
  - cbn. unfold RemoveVethLink. intros v s er s'. case_goal; intros [= ? <-]; done.
  - intros. cbn. unfold has. eauto.
  - cbn. unfold GetNS. intros p s r s'. case_goal; intros [= <- <-]; naive_solver.
  - intros s r s' [= <- <-]. naive_solver.
  - by intros n s r s' [= <- <-].
  - cbn. unfold LinkByName, link_at. intros n name s r s'.
    destruct (links _ !! _) as [k|] eqn:Hk; cbn; intros [= <- <-]; (split; [done|]); intros l [= <-].
    split_and!; [done|done|]. apply (seen_index s (n, name)). by rewrite Hk.
  - cbn. unfold LinkList. intros n s r s' [= <- <-]. split; [done|]. intros ls [= <-] name k.
    apply ns_links_spec.
  - cbn. unfold LinkDel. intros n l s s'. case_goal; intros [= <-]. split; [done|by apply seen_steady].
  - cbn. unfold LinkDel. intros n l s er s'. case_goal; intros [= _ <-]. split; [done|by apply seen_steady].
  - by intros s r s' [= <- <-].
  - by intros i s r s' [= <- <-].
  - by intros d s r s' [= <- <-].
  - cbn. unfold QdiscList. intros n l s r s' [= <- <-]. split; [done|]. intros qs [= <-].
    split; [apply listed_index|apply (listed_covers (nl_Index l))].
  - intros n q s r s' Hq. change (nl_QdiscDel n q s) with (QdiscDel n q s) in Hq. unfold QdiscDel in Hq. rewrite del_at_eq in Hq.
    cbv zeta. change (shape_at (seen s) n) with (tc_at s n). change (shape_at (seen s') n) with (tc_at s' n).
    destruct (del_qdisc q _) as [t|] eqn:Hd; injection Hq as <- <-; [|done].
    split_and!; [done..|apply delete_insert_eq|apply tc_at_set].
  - cbn -[shape_at]. unfold QdiscAdd. intros n a attrs s r s'.
    destruct (tc_root (tc_at s n _)) eqn:Hr; [|by intros [= <- <-]..].
    destruct (Z.eqb_spec (qa_Parent a) root_handle); intros [= <- <-]; [|done].
    split_and!; [done..|apply delete_insert_eq|]. intros _ _. split; [exact Hr|]. apply tc_at_set.
  - intros n args s r s' Ht%tc_frame. cbn. by rewrite Ht.
  - intros n obj cmd dev args i s r s'. apply tc_dev.
  - intros n dev r b m i s out s' Ht Hi. change (tc n (tc_add_tbf dev r b m) s = ((out, None), s')) in Ht. rewrite tc_tbf_eq in Ht.
    apply on_dev_spec in Ht as [_ Ht]. destruct (Ht i Hi) as [_ Hf]. specialize (Hf eq_refl). unfold add_tbf in Hf.
    change (shape_at (seen s) n i) with (tc_at s n i). change (shape_at (seen s') n i) with (tc_at s' n i).
    destruct (tc_root (tc_at s n i)) as [|h attrs []| |]; try done. case_match eqn:Hh; [|done].
    apply Z.eqb_eq in Hh as ->. injection Hf as <-. by exists attrs.
  - intros n dev i s out s' Ht Hi. change (tc n (tc_add_clsact dev) s = ((out, None), s')) in Ht. rewrite tc_clsact_eq in Ht.
    apply on_dev_spec in Ht as [_ Ht]. destruct (Ht i Hi) as [_ Hf]. specialize (Hf eq_refl). unfold add_clsact in Hf.
    change (shape_at (seen s) n i) with (tc_at s n i). change (shape_at (seen s') n i) with (tc_at s' n i).
    destruct (tc_filters (tc_at s n i)); [done|]. by injection Hf as <-.
  - intros n dev o c i s out s' Ht Hi. change (tc n (tc_add_filter dev o c) s = ((out, None), s')) in Ht. rewrite tc_filter_eq in Ht.
    apply on_dev_spec in Ht as [_ Ht]. destruct (Ht i Hi) as [_ Hf]. specialize (Hf eq_refl). unfold add_filter in Hf.
    change (shape_at (seen s) n i) with (tc_at s n i). change (shape_at (seen s') n i) with (tc_at s' n i).
    destruct (tc_filters (tc_at s n i)) as [fs|]; [|done]. injection Hf as <-. by exists fs.
Defined.

#[global] Instance sim_works : KernelWorks State.
Proof.
  split.
  - cbn. unfold GetNS. intros n name s _ [k Hk]. exists s. rewrite (proj2 (existsb_exists _ _)), orb_true_r; [done|].
    exists ((n, name), k). split; [by apply list_elem_of_In, elem_of_map_to_list|apply String.eqb_refl].
  - intros s. by exists s.
  - intros n name s _. by exists s.
  - cbn. unfold LinkByName, link_at. intros n name s [k ->]. cbn. eauto.
  - intros n l s _. cbn. unfold QdiscList. eauto.
  - cbn -[del_at]. unfold QdiscDel. intros n q name t s _ Hd. rewrite del_at_eq.
    change (del_qdisc q (tc_at s n (qa_LinkIndex (qdisc_attrs q))) = Some t) in Hd. rewrite Hd. eauto.
  - cbn -[shape_at]. unfold QdiscAdd. intros n a attrs name s _ Hp Hr.
    change (tc_root (tc_at s n (qa_LinkIndex a)) = NoRoot) in Hr. rewrite Hr, Hp, Z.eqb_refl. eauto.
  - intros n dev r b m i attrs s _ _ _ Hi Hr. change (exec_tc n) with (tc n). rewrite tc_tbf_eq.
    change (tc_root (tc_at s n i) = RNetem (handle 1 0) attrs None) in Hr.
    eapply on_dev_works; [exact Hi|]. unfold add_tbf. by rewrite Hr.
  - intros n dev i s Hi Hf. change (exec_tc n) with (tc n). rewrite tc_clsact_eq.
    change (tc_filters (tc_at s n i) = None) in Hf.
    eapply on_dev_works; [exact Hi|]. unfold add_clsact. by rewrite Hf.
  - cbn. unfold RemoveVethLink, has. intros v s Hk. rewrite bool_decide_true by done. eauto.
Qed.

Lemma sim_loads o c : filter_loads State o c.
Proof.
  intros n dev i fs s Hi Hf. change (exec_tc n) with (tc n). rewrite tc_filter_eq.
  change (tc_filters (tc_at s n i) = Some fs) in Hf.
  eapply on_dev_works; [exact Hi|]. unfold add_filter. by rewrite Hf.
Qed.

End Sim.
