(* ===== verification/Qdisc.v ===== *)
(** * Queueing disciplines

    [common/qdisc.go] and [common/context.go]: parsing a link's properties into
    netem and TBF qdiscs, installing them on an interface and clearing them. *)

From stdpp Require Import base strings gmap list pretty.
From Stdlib Require Import ZArith Lia Ascii SpecFloat.
From S2P Require Import Prelude GoStr GoNum GoNet Proto Kernel SimKernel.

Local Open Scope string_scope.

(** ** Context values

    A [context.Context] as the chain of its values; the only value the logic
    reads is [TCPIP_BYPASS]. *)

Inductive ctx_val := CtxBool (b : bool) | CtxLogger.

Definition Ctx := list (string * ctx_val).

Definition TCPIP_BYPASS : string := "TCPIP_BYPASS".

Definition WithCtxValue (ctx : Ctx) (key : string) (value : ctx_val) : Ctx := (key, value) :: ctx.

Fixpoint GetCtxValue (ctx : Ctx) (key : string) : option ctx_val :=
  match ctx with
  | [] => None
  | (k, v) :: ctx' => if String.eqb k key then Some v else GetCtxValue ctx' key
  end.

Definition WithLogger (ctx : Ctx) : Ctx := WithCtxValue ctx "logger" CtxLogger.

(** [tcpIpBypass, ok := GetCtxValue(ctx, TCPIP_BYPASS).(bool)]. *)
Definition tcpIpBypass (ctx : Ctx) : bool :=
  match GetCtxValue ctx TCPIP_BYPASS with
  | Some (CtxBool b) => b
  | _ => false
  end.

(** ** Parsing *)

Definition f32_100 : spec_float := binary_normalize 24 128 100 0 false.

Definition ParseFloatPercentage (str : string) : result spec_float :=
  if String.eqb str "" then Ok (S754_zero false)
  else
    match ParseFloat32 str with
    | Err e => Err e
    | Ok value =>
        match value with
        | S754_nan => Err (errorf "percentage value must be a number")
        | _ =>
            if SFltb value (S754_zero false) || SFltb f32_100 value
            then Err (errorf "percentage value must be between 0 and 100")
            else Ok value
        end
    end.

(** Microseconds, as an uint32. *)
Definition ParseDuration (str : string) : result Z :=
  if String.eqb str "" then Ok 0%Z
  else
    match go_ParseDuration str with
    | Err e => Err e
    | Ok value =>
        if (value <? 0)%Z then Err (errorf "duration value must be positive")
        else Ok (uint32 (Microseconds value))
    end.

(** [for j := 0; j < n; j++ { unitMultiplier *= base }]. *)
Fixpoint mul_times (n : nat) (unitMultiplier base : Z) : Z :=
  match n with
  | O => unitMultiplier
  | S n' => mul_times n' (uint64 (unitMultiplier * base)) base
  end.

(** The loop over the unit prefixes, which stops at the first that matches. *)
Fixpoint rate_units (i : nat) (units : list string) (rate : string) (unitMultiplier base : Z)
  : string * Z :=
  match units with
  | [] => (rate, unitMultiplier)
  | unit :: units' =>
      if HasSuffix rate unit
      then (TrimSuffix rate unit, mul_times (i + 1) unitMultiplier base)
      else rate_units (S i) units' rate unitMultiplier base
  end.

(** Bits per second, as an uint64. *)
Definition ParseRate `{UnicodeTables} (rate0 : string) : result Z :=
  let rate := TrimSpace (ToLower rate0) in
  if String.eqb rate "" then Ok 0%Z
  else
    let '(rate, unitMultiplier) :=
      if HasSuffix rate "bit" then (TrimSuffix rate "bit", 1%Z)
      else if HasSuffix rate "bps" then (TrimSuffix rate "bps", 8%Z)
      else (rate, 1%Z) in
    let '(rate, base) :=
      if HasSuffix rate "i" then (TrimSuffix rate "i", 1024%Z) else (rate, 1000%Z) in
    let '(rate, unitMultiplier) := rate_units 0 ["k"; "m"; "g"; "t"] rate unitMultiplier base in
    match ParseUint rate with
    | Err e => Err e
    | Ok value => Ok (uint64 (value * unitMultiplier))
    end.

(** The burst of a TBF qdisc, as an uint32. *)
Definition getTbfBurst (rate : Z) : Z :=
  let burst := uint32 (rate / 250) in
  if (burst <? 5000)%Z then 5000%Z else burst.

(** [proto.Size], of the protobuf library: the length of the encoding. *)
Class ProtoLib := { proto_Size : pb_LinkProperties -> Z }.

(** proto3 encodes no field that has its default value, and every other one
    takes at least two bytes. *)
Class ProtoLaws `{ProtoLib} := {
  proto_Size_zero : forall p, proto_Size p = 0%Z <-> p = pb_LinkProperties_zero
}.

Definition no_attrs : QdiscAttrs := mkQdiscAttrs 0 0 0.

Definition MakeQdiscs `{UnicodeTables, ProtoLib} (properties : option pb_LinkProperties)
  : result (list Qdisc) :=
  match properties with
  | None => Ok []
  | Some p =>
      if (proto_Size p =? 0)%Z then Ok []
      else
        match ParseDuration (pb_Latency p) with Err e => Err e | Ok latency =>
        match ParseFloatPercentage (pb_LatencyCorr p) with Err e => Err e | Ok latencyCorr =>
        match ParseDuration (pb_Jitter p) with Err e => Err e | Ok jitter =>
        match ParseFloatPercentage (pb_Loss p) with Err e => Err e | Ok loss =>
        match ParseFloatPercentage (pb_LossCorr p) with Err e => Err e | Ok lossCorr =>
        match ParseFloatPercentage (pb_Duplicate p) with Err e => Err e | Ok duplicate =>
        match ParseFloatPercentage (pb_DuplicateCorr p) with Err e => Err e | Ok duplicateCorr =>
        match ParseFloatPercentage (pb_ReorderProb p) with Err e => Err e | Ok reorderProb =>
        match ParseFloatPercentage (pb_ReorderCorr p) with Err e => Err e | Ok reorderCorr =>
        match ParseFloatPercentage (pb_CorruptProb p) with Err e => Err e | Ok corruptProb =>
        match ParseFloatPercentage (pb_CorruptCorr p) with Err e => Err e | Ok corruptCorr =>
          let netemQdisc :=
            Netem no_attrs
              {| na_Latency := latency;
                 na_DelayCorr := latencyCorr;
                 na_Jitter := jitter;
                 na_Loss := loss;
                 na_LossCorr := lossCorr;
                 na_Gap := pb_Gap p;
                 na_Duplicate := duplicate;
                 na_DuplicateCorr := duplicateCorr;
                 na_ReorderProb := reorderProb;
                 na_ReorderCorr := reorderCorr;
                 na_CorruptProb := corruptProb;
                 na_CorruptCorr := corruptCorr |} in
          match ParseRate (pb_Rate p) with
          | Err e => Err e
          | Ok rate =>
              if negb (rate =? 0)%Z
              then Ok [netemQdisc; Tbf no_attrs rate (getTbfBurst rate) 1500]
              else Ok [netemQdisc]
          end
        end end end end end end end end end end end
  end.

(** ** Installing and clearing *)

Section Install.
  Context {E : Type} `{Kernel E}.
  Local Open Scope go_scope.

(** [AddBpf]: clsact, then the filter. *)
Definition AddBpf (n : NetNS) (veth : VEth) (path section : string) : go E (option error) :=
  '(output, _err) <- call (exec_tc n ["qdisc"; "add"; "dev"; LinkName veth; "clsact"]) ;;
  match _err with
  | Some e => ret (Some (errorf ("(" ++ err_msg e ++ ") " ++ output)))
  | None =>
      '(output, _err) <- call (exec_tc n ["filter"; "add"; "dev"; LinkName veth; "egress"; "bpf";
                                          "obj"; path; "sec"; section]) ;;
      match _err with
      | Some e => ret (Some (errorf ("(" ++ err_msg e ++ ") " ++ output)))
      | None => ret None
      end
  end.

(** The loop that deletes qdiscs; failures are logged only. *)
Fixpoint clear_loop (n : NetNS) (qdiscs : list Qdisc) : go E (option error) :=
  match qdiscs with
  | [] => ret None
  | qdisc :: rest =>
      (match qdisc with
       | Netem _ _ | Tbf _ _ _ _ => _err <- call (nl_QdiscDel n qdisc) ;; ret tt
       | GenericQdisc a _ =>
           if (qa_Handle a =? MakeHandle 65535 0)%Z
           then _err <- call (nl_QdiscDel n qdisc) ;; ret tt
           else ret tt
       | OtherQdisc _ _ => ret tt
       end) ;;
      clear_loop n rest
  end.

Definition ClearVethQdiscs (veth : VEth) : go E (option error) :=
  vethNs <- vethNetNS (NsName veth) ;;
  match vethNs with
  | Err e => ret (Some e)
  | Ok n =>
      ns_Do n (
        link <- call (nl_LinkByName n (LinkName veth)) ;;
        match link with
        | Err e => ret (Some e)
        | Ok link =>
            qdiscs <- call (nl_QdiscList n link) ;;
            match qdiscs with
            | Err e => ret (Some e)
            | Ok qdiscs => clear_loop n qdiscs
            end
        end)
  end.

(** The arguments of the [tc] command that adds a TBF qdisc. *)
Definition tbf_args (dev : string) (withNetem : bool) (rate buffer minburst : Z) : list string :=
  (["qdisc"; "add"; "dev"; dev]
   ++ (if withNetem then ["parent"; "1:1"; "handle"; "10:0"] else ["root"])
   ++ ["tbf"; "rate"; Sprint rate; "burst"; Sprint buffer; "latency"; "50ms";
       "minburst"; Sprint minburst])%list.

(** The loop that adds qdiscs: netem becomes the root 1:0 and TBF its child;
    TBF is the root when no netem came before it. *)
Fixpoint set_loop (n : NetNS) (dev : string) (index : Z) (withNetem : bool) (qdiscs : list Qdisc)
  : go E (option error) :=
  match qdiscs with
  | [] => ret None
  | qdisc :: rest =>
      '(withNetem', err) <-
        (match qdisc with
         | Netem _ attrs =>
             err <- call (nl_QdiscAdd n (Netem (mkQdiscAttrs index (MakeHandle 1 0) HANDLE_ROOT) attrs)) ;;
             ret (true, err)
         | Tbf _ rate buffer minburst =>
             '(output, _err) <- call (exec_tc n (tbf_args dev withNetem rate buffer minburst)) ;;
             match _err with
             | Some e => ret (withNetem, Some (errorf ("(" ++ err_msg e ++ ") " ++ output)))
             | None => ret (withNetem, None)
             end
         | _ => ret (withNetem, None)
         end) ;;
      match err with
      | Some e => ret (Some e)
      | None => set_loop n dev index withNetem' rest
      end
  end.

Definition redir_disable_path : string := "/opt/kubedtn/redir_disable_bpf.o".

Definition SetVethQdiscs (ctx : Ctx) (veth : VEth) (qdiscs : list Qdisc) : go E (option error) :=
  _err <- ClearVethQdiscs veth ;;
  match qdiscs with
  | [] => ret None
  | _ =>
      vethNs <- vethNetNS (NsName veth) ;;
      match vethNs with
      | Err e => ret (Some e)
      | Ok n =>
          ns_Do n (
            link <- call (nl_LinkByName n (LinkName veth)) ;;
            match link with
            | Err e => ret (Some e)
            | Ok link =>
                err <- set_loop n (LinkName veth) (nl_Index link) false qdiscs ;;
                match err with
                | Some e => ret (Some e)
                | None =>
                    if tcpIpBypass ctx then AddBpf n veth redir_disable_path "egress"
                    else ret None
                end
            end)
      end
  end.

End Install.

(** ** What the parsers compute *)

(** The units of a rate. *)
Inductive rate_prefix := NoPrefix | Kilo | Mega | Giga | Tera.
Inductive rate_suffix := NoSuffix | Bit | Bps.

Definition prefix_str (p : rate_prefix) : string :=
  match p with NoPrefix => "" | Kilo => "k" | Mega => "m" | Giga => "g" | Tera => "t" end.
Definition prefix_exp (p : rate_prefix) : Z :=
  match p with NoPrefix => 0 | Kilo => 1 | Mega => 2 | Giga => 3 | Tera => 4 end.
Definition suffix_str (s : rate_suffix) : string :=
  match s with NoSuffix => "" | Bit => "bit" | Bps => "bps" end.
Definition suffix_mul (s : rate_suffix) : Z := match s with Bps => 8 | _ => 1 end.

(** The specification: number, prefix, optional [i], suffix. *)
Definition rate_string (n : Z) (p : rate_prefix) (iec : bool) (s : rate_suffix) : string :=
  Sprint n ++ prefix_str p ++ (if iec then "i" else "") ++ suffix_str s.

Definition rate_value (n : Z) (p : rate_prefix) (iec : bool) (s : rate_suffix) : Z :=
  (n * (suffix_mul s * (if iec then 1024 else 1000) ^ prefix_exp p))%Z.

Lemma last_byte_Some s : s <> "" -> exists c, last_byte s = Some c.
Proof.
  induction s as [|d s IH]; [done|]. intros _. destruct s as [|d' s']; [by exists d|]. by apply IH.
Qed.

Lemma normalise_id `{UnicodeTables} (d u : string) :
  all_bytes is_digit d = true -> d <> "" ->
  isASCII u = true -> map_bytes lower_byte u = u ->
  (u = "" \/ exists c, last_byte u = Some c /\ is_space c = false) ->
  TrimSpace (ToLower (d ++ u)) = d ++ u.
Proof.
  intros Hd Hne Hu Hl Hlast.
  assert (isASCII (d ++ u) = true) as HA.
  { pose proof (isASCII_digits d Hd) as HdA. unfold isASCII in *.
    by rewrite all_bytes_app, HdA, Hu. }
  unfold ToLower. rewrite HA, map_bytes_app, map_lower_digits, Hl by done.
  unfold TrimSpace. rewrite HA.
  assert (trim_left (d ++ u) = d ++ u) as ->.
  { destruct d as [|c d]; [done|]. cbn in Hd |- *. apply andb_prop in Hd as [Hc%is_digit_range _].
    assert (is_space c = false) as ->; [|done].
    unfold is_space, in_range. apply orb_false_iff. rewrite !andb_false_iff, !Z.leb_gt. lia. }
  destruct Hlast as [->|(c & Hc & Hsp)].
  - rewrite str_app_nil_r. destruct (last_byte_Some d Hne) as [c Hc].
    apply (trim_right_id d c Hc). apply last_byte_digit in Hc as Hc%is_digit_range; [|done].
    unfold is_space, in_range. apply orb_false_iff. rewrite !andb_false_iff, !Z.leb_gt. lia.
  - apply (trim_right_id _ c); [|done]. rewrite last_byte_app; [done|]. by intros ->.
Qed.

(** A unit is looked for behind the digits only. *)
Lemma HasSuffix_units (d u suf : string) c rest :
  all_bytes is_digit d = true -> suf = String c rest -> is_digit c = false ->
  HasSuffix (d ++ u) suf = HasSuffix u suf.
Proof.
  intros Hd -> Hc. apply eq_true_iff_eq.
  rewrite !HasSuffix_spec. split.
  - induction d as [|b d IH]; [done|]. cbn in Hd. apply andb_prop in Hd as [Hb Hd].
    intros [[|t0 t] Ht]; cbn in Ht; injection Ht; intros; [congruence|]. eauto.
  - intros [t ->]. exists (d ++ t). by rewrite str_app_assoc.
Qed.

Lemma TrimSuffix_units (d u suf : string) c rest :
  all_bytes is_digit d = true -> suf = String c rest -> is_digit c = false ->
  TrimSuffix (d ++ u) suf = d ++ TrimSuffix u suf.
Proof.
  intros Hd Hs Hc. destruct (HasSuffix u suf) eqn:Hu.
  - apply HasSuffix_spec in Hu as [t ->]. by rewrite <- str_app_assoc, !TrimSuffix_app.
  - rewrite !TrimSuffix_no; [done|done|]. by rewrite (HasSuffix_units d u suf c rest).
Qed.

(** Evaluates the suffix tests on digits [d] followed by a literal unit. *)
Ltac eval_units Hd :=
  repeat
    match goal with
    | |- context [HasSuffix (_ ++ ?u) ?suf] =>
        rewrite (HasSuffix_units _ u suf _ _ Hd eq_refl eq_refl)
    | |- context [TrimSuffix (_ ++ ?u) ?suf] =>
        rewrite (TrimSuffix_units _ u suf _ _ Hd eq_refl eq_refl)
    | |- context [HasSuffix (String ?c ?r) ?suf] =>
        let b := eval vm_compute in (HasSuffix (String c r) suf) in
        change (HasSuffix (String c r) suf) with b
    | |- context [HasSuffix "" ?suf] => change (HasSuffix "" suf) with false
    | |- context [TrimSuffix (String ?c ?r) ?suf] =>
        let b := eval vm_compute in (TrimSuffix (String c r) suf) in
        change (TrimSuffix (String c r) suf) with b
    | _ => progress cbv beta iota
    end.

(** [ParseRate], on digits followed by one of the units. *)
Lemma ParseRate_units `{UnicodeTables} (d : string) p (iec : bool) s :
  all_bytes is_digit d = true -> d <> "" ->
  ParseRate (d ++ prefix_str p ++ (if iec then "i" else "") ++ suffix_str s)
  = match ParseUint d with
    | Ok v => Ok (uint64 (v * (suffix_mul s * (if iec then 1024 else 1000) ^ prefix_exp p)))
    | Err e => Err e
    end.
Proof.
  intros Hd Hne. unfold ParseRate.
  rewrite normalise_id; [|done|done|by destruct p, iec, s..|].
  - assert (String.eqb (d ++ prefix_str p ++ (if iec then "i" else "") ++ suffix_str s) "" = false)
      as -> by (by destruct d).
    destruct p, iec, s; cbn [prefix_str suffix_str String.append];
      eval_units Hd; cbn [rate_units]; eval_units Hd;
      rewrite str_app_nil_r; reflexivity.
  - destruct p, iec, s; try (by left); right; eexists; (split; [reflexivity|reflexivity]).
Qed.

Lemma ParseRate_unit_value `{UnicodeTables} n p iec s :
  in_uint 64 n -> ParseRate (rate_string n p iec s) = Ok (uint64 (rate_value n p iec s)).
Proof.
  intros Hn. unfold rate_string. rewrite ParseRate_units.
  - by rewrite ParseUint_Sprint.
  - apply Sprint_digits, Hn.
  - rewrite Sprint_N by apply Hn. apply pretty_nonempty.
Qed.

(** ** What installing leaves on the interface *)

(** The root discipline a list of qdiscs asks for: netem, with TBF below it. *)
Definition root_of `{Kernel E} (qs : list Qdisc) : root_qdisc :=
  match qs with
  | Netem _ a :: rest =>
      RNetem (MakeHandle 1 0) a
        (match rest with
         | Tbf _ r b m :: _ => Some (mkTbf (Sprint r) (Sprint b) (Sprint m))
         | _ => None
         end)
  | _ => NoRoot
  end.

(** The filter of the bypass. *)
Definition bypass_filters : list (string * string) := [(redir_disable_path, "egress")].

(** Traffic control as a list of qdiscs asks for it. *)
Definition shape_of `{Kernel E} (bypass : bool) (qs : list Qdisc) : tc_state :=
  match qs with
  | [] => no_tc
  | _ => mkTc (root_of qs) (if bypass then Some bypass_filters else None)
  end.

(** What is left when netem, TBF and clsact are gone. *)
Definition cleared (t : tc_state) : tc_state :=
  mkTc (match tc_root t with ROther ty => ROther ty | _ => NoRoot end) None.

Lemma burst_range rate : (0 < getTbfBurst rate < 2 ^ 32)%Z.
Proof.
  unfold getTbfBurst. pose proof (wrapU_range 32 (rate / 250) ltac:(lia)) as Hr. unfold in_uint in Hr.
  destruct (Z.ltb_spec (uint32 (rate / 250)) 5000); lia.
Qed.

(** The lists [MakeQdiscs] builds. *)
Inductive made_qdiscs : list Qdisc -> Prop :=
| made_netem attrs : made_qdiscs [Netem no_attrs attrs]
| made_netem_tbf attrs rate :
    in_uint 64 rate -> rate <> 0%Z ->
    made_qdiscs [Netem no_attrs attrs; Tbf no_attrs rate (getTbfBurst rate) 1500].

Lemma ParseRate_range `{UnicodeTables} s v : ParseRate s = Ok v -> in_uint 64 v.
Proof.
  unfold ParseRate. repeat case_goal; intros [= <-]; [done|]. by apply wrapU_range.
Qed.

Lemma ParseDuration_range s v : ParseDuration s = Ok v -> in_uint 32 v.
Proof. unfold ParseDuration. repeat case_goal; intros [= <-]; [done|]. by apply wrapU_range. Qed.

Lemma MakeQdiscs_made `{UnicodeTables, ProtoLib} p qs :
  MakeQdiscs p = Ok qs -> qs = [] \/ made_qdiscs qs.
Proof.
  unfold MakeQdiscs. destruct p as [p|]; [|intros [= <-]; by left].
  destruct (proto_Size p =? 0)%Z; [intros [= <-]; by left|].
  repeat match goal with
  | |- match ParseRate _ with _ => _ end = _ -> _ => fail 1
  | |- match ?x with _ => _ end = _ -> _ => destruct x; [|done]
  end.
  destruct (ParseRate (pb_Rate p)) as [r|] eqn:Hr; [|done].
  right. apply ParseRate_range in Hr. destruct (Z.eqb_spec r 0); cbn in *; simplify_eq; by constructor.
Qed.

(** Deleting the listed disciplines one by one. *)
Lemma cleared_del `{Kernel E} q t : cleared (default t (del_qdisc q t)) = cleared t.
Proof.
  unfold cleared. destruct t as [r fs], q; cbn; repeat case_match; cbn in *; by simplify_eq.
Qed.

Lemma covers_nil `{Kernel E} t : covers [] t -> cleared t = t.
Proof.
  intros [Hr Hf]. destruct t as [r fs]. unfold cleared. cbn in *.
  assert (fs = None) as ->.
  { destruct fs; [|done]. destruct Hf as (? & ? & Hin & _); [by eexists|]. by apply elem_of_nil in Hin. }
  destruct r; [done|..|done]; destruct Hr as (? & ? & Hr); [|destruct Hr as (? & ? & Hr)]; destruct Hr as [Hin _]; by apply elem_of_nil in Hin.
Qed.

Lemma covers_del `{Kernel E} q qs t : covers (q :: qs) t -> covers qs (default t (del_qdisc q t)).
Proof.
  intros [Hr Hf]. destruct t as [r fs]. split.
  - destruct r as [|h attrs c|h p|ty]; cbn in Hr.
    + destruct q; cbn; repeat case_match; cbn in *; simplify_eq; done.
    + destruct Hr as (a & attrs' & [<-|Hin]%elem_of_cons & Hp & Hh).
      * cbn. rewrite Hp, Hh, !Z.eqb_refl. done.
      * destruct q; cbn; repeat case_match; cbn in *; simplify_eq; eauto 10.
    + destruct Hr as (a & r' & b' & m' & [<-|Hin]%elem_of_cons & Hp & Hh).
      * cbn. rewrite Hp, Hh, !Z.eqb_refl. done.
      * destruct q; cbn; repeat case_match; cbn in *; simplify_eq; eauto 10.
    + destruct q; cbn; repeat case_match; cbn in *; simplify_eq; done.
  - cbn in Hf. destruct fs as [fs|].
    + destruct Hf as (a & ty & [<-|Hin]%elem_of_cons & Hh); [eauto| |].
      * cbn. rewrite Hh, Z.eqb_refl. cbn. by intros [].
      * intros _. eauto.
    + destruct q; cbn; repeat case_match; cbn in *; simplify_eq; by intros [].
Qed.

Section InstallProofs.
  Context {E : Type} `{KernelLaws E}.
  Implicit Types (e : E) (n : NetNS) (v : VEth).

(** Nothing changed but the shaping of interface [i] of [n]. *)
Definition only_shape n i e e' : Prop :=
  links (view e') = links (view e) /\ ifindex (view e') = ifindex (view e) /\
  delete (n, i) (shapes (view e')) = delete (n, i) (shapes (view e)).

Lemma only_shape_view n i e e' : view e' = view e -> only_shape n i e e'.
Proof. unfold only_shape. by intros ->. Qed.

Lemma only_shape_trans n i e1 e2 e3 : only_shape n i e1 e2 -> only_shape n i e2 e3 -> only_shape n i e1 e3.
Proof. unfold only_shape. intros (?&?&?) (?&?&?). split_and!; congruence. Qed.

(** A call that answered is the call that works. *)
Lemma works_None {A} (f : eff E (option A)) e r e1 : f e = (r, e1) -> (exists e', f e = (None, e')) -> r = None.
Proof. intros Hf [e' He]. congruence. Qed.

Lemma works_Ok {A} (f : eff E (result A)) e er e1 : f e = (Err er, e1) -> ~ exists a e', f e = (Ok a, e').
Proof. intros Hf (a & e' & He). congruence. Qed.

Lemma vethNetNS_wp name e :
  wp (vethNetNS name) (fun r e' => view e' = view e /\ (forall n, r = Ok n -> n = name)) e.
Proof.
  unfold vethNetNS. destruct (String.eqb_spec name "") as [->|]; wp_step.
  - by eapply law_GetCurrentNS.
  - by eapply law_GetNS.
Qed.

Lemma vethNetNS_works v e :
  KernelWorks E -> is_Some (links (view e) !! veth_key v) ->
  wp (vethNetNS (NsName v)) (fun r _ => r = Ok (NsName v)) e.
Proof.
  intros HW Hl. unfold vethNetNS. destruct (String.eqb_spec (NsName v) "") as [->|Hn]; apply wp_call; intros r e' C.
  - destruct (works_GetCurrentNS e) as [e1 C1]. congruence.
  - destruct (works_GetNS (NsName v) (LinkName v) e Hn Hl) as [e1 C1]. congruence.
Qed.

(** The two functions below enter the interface's namespace and look it up; then
    [k] runs on it. *)
Definition with_link v (k : NetNS -> nl_link -> go E (option error)) : go E (option error) :=
  (vethNs <- vethNetNS (NsName v) ;;
   match vethNs with
   | Err e => ret (Some e)
   | Ok n =>
       ns_Do n (
         link <- call (nl_LinkByName n (LinkName v)) ;;
         match link with
         | Err e => ret (Some e)
         | Ok link => k n link
         end)
   end)%go.

Lemma with_link_absent v k e :
  ifindex (view e) !! veth_key v = None -> wp (with_link v k) (fun r e' => view e' = view e /\ r <> None) e.
Proof.
  intros Hi. unfold with_link, ns_Do. wp_use vethNetNS_wp as [n|er] e1 [V1 Hn]; [|by wp_step].
  rewrite (Hn n eq_refl). wp_call as [er|] e2 C2; apply law_Set in C2; [wp_step; split; [congruence|done]|].
  wp_call as r e3 C3. apply law_LinkByName in C3 as [V3 Hl].
  destruct r as [l|er]; [|wp_step; split; [congruence|done]]. destruct (Hl l eq_refl) as (_ & _ & Hix).
  unfold veth_key in Hi. congruence.
Qed.

Lemma with_link_wp v k e i (Q : option error -> E -> Prop) :
  ifindex (view e) !! veth_key v = Some i ->
  (forall l e1, view e1 = view e -> nl_Name l = LinkName v -> nl_Index l = i -> wp (k (NsName v) l) Q e1) ->
  (forall er e1, ~ KernelWorks E -> view e1 = view e -> Q (Some er) e1) ->
  wp (with_link v k) Q e.
Proof.
  intros Hi Hk Her. pose proof (law_index_link _ _ _ Hi) as Hl. unfold with_link, ns_Do. apply wp_bind.
  assert (wp (vethNetNS (NsName v)) (fun r e1 => view e1 = view e /\ (forall n, r = Ok n -> n = NsName v) /\
            (KernelWorks E -> r = Ok (NsName v))) e) as Hns.
  { destruct (wp_exists _ _ _ (vethNetNS_wp (NsName v) e)) as (r & e1 & Hr & V & Hn). unfold wp. rewrite Hr.
    split_and!; [done..|]. intros HW. exact (wp_run _ _ _ _ _ (vethNetNS_works v e HW Hl) Hr). }
  eapply wp_mono; [exact Hns|]. clear Hns. intros [n|er] e1 (V1 & Hn & HW1); [|wp_step; apply Her; [intros HW; by discriminate (HW1 HW)|done]].
  rewrite (Hn n eq_refl). clear HW1 Hn. rewrite <- V1 in Hl.
  wp_call as [er|] e2 C2; pose proof (law_Set _ _ _ _ C2) as V2.
  { wp_step. apply Her; [|congruence]. intros HW. by discriminate (works_None _ _ _ _ C2 (works_Set _ _ _ Hl)). }
  rewrite <- V2 in Hl. wp_call as r e3 C3. pose proof (law_LinkByName _ _ _ _ _ C3) as [V3 Hname].
  destruct r as [l|er].
  - destruct (Hname l eq_refl) as (Hn & _ & Hix). apply Hk; [congruence|done|]. unfold veth_key in Hi. congruence.
  - wp_step. apply Her; [|congruence]. intros HW. by destruct (works_Ok _ _ _ _ C3 (works_LinkByName _ _ _ Hl)).
Qed.

(** Deleting one listed discipline. *)
Lemma QdiscDel_step n q name e r e1 :
  nl_QdiscDel n q e = (r, e1) -> ifindex (view e) !! (n, name) = Some (qa_LinkIndex (qdisc_attrs q)) ->
  let i := qa_LinkIndex (qdisc_attrs q) in
  only_shape n i e e1 /\
  (KernelWorks E -> shape_at (view e1) n i = default (shape_at (view e) n i) (del_qdisc q (shape_at (view e) n i))).
Proof.
  intros C Hi i. pose proof (law_QdiscDel _ _ _ _ _ C) as (L & I & D & S). split; [by split_and!|]. intros HW.
  destruct r as [er|]; [|exact S]. fold i in S, Hi. rewrite S. destruct (del_qdisc q _) as [t|] eqn:Hd; [|done].
  by discriminate (works_None _ _ _ _ C (works_QdiscDel _ _ _ _ _ Hi Hd)).
Qed.

Lemma clear_loop_wp n i name qs e :
  Forall (fun q => qa_LinkIndex (qdisc_attrs q) = i) qs -> ifindex (view e) !! (n, name) = Some i ->
  wp (clear_loop n qs)
    (fun _ e' => only_shape n i e e' /\
       (KernelWorks E -> covers qs (shape_at (view e) n i) -> shape_at (view e') n i = cleared (shape_at (view e) n i))) e.
Proof.
  revert e. induction qs as [|q qs IH]; intros e Hq Hi; cbn [clear_loop].
  { wp_step. split; [by apply only_shape_view|]. intros _ Hc. symmetry. by apply covers_nil. }
  apply Forall_cons in Hq as [Hqi Hqs].
  assert (forall e1, only_shape n i e e1 /\
            (KernelWorks E -> shape_at (view e1) n i = default (shape_at (view e) n i) (del_qdisc q (shape_at (view e) n i))) ->
          wp (clear_loop n qs) (fun _ e' => only_shape n i e e' /\ (KernelWorks E ->
            covers (q :: qs) (shape_at (view e) n i) -> shape_at (view e') n i = cleared (shape_at (view e) n i))) e1) as Hk.
  { intros e1 [H1 S1]. eapply wp_mono; [apply IH; [done|by destruct H1 as (_ & -> & _)]|]. intros ? e2 [H2 S2].
    split; [by eapply only_shape_trans|]. intros HW Hc. specialize (S1 HW).
    rewrite S2, S1 by (try done; rewrite S1; by apply covers_del). apply cleared_del. }
  assert (del_qdisc q (shape_at (view e) n i) = None -> wp (clear_loop n qs) (fun _ e' => only_shape n i e e' /\ (KernelWorks E ->
            covers (q :: qs) (shape_at (view e) n i) -> shape_at (view e') n i = cleared (shape_at (view e) n i))) e) as Hskip.
  { intros Hd. apply Hk. split; [by apply only_shape_view|]. by rewrite Hd. }
  rewrite <- Hqi in Hi. wp_step. destruct q as [a x|a x y z|a x|a x].
  1,2: wp_call as r e1 C; wp_step; apply Hk; rewrite <- Hqi; by eapply QdiscDel_step.
  - destruct (Z.eqb_spec (qa_Handle a) (MakeHandle 65535 0)) as [Hh|Hh].
    + wp_call as r e1 C; wp_step; apply Hk; rewrite <- Hqi; by eapply QdiscDel_step.
    + wp_step. apply Hskip. cbn. by rewrite (proj2 (Z.eqb_neq _ _) Hh).
  - wp_step. by apply Hskip.
Qed.

Lemma ClearVethQdiscs_wp v e :
  wp (ClearVethQdiscs v)
    (fun _ e' => match ifindex (view e) !! veth_key v with
       | Some i => only_shape (NsName v) i e e' /\
           (KernelWorks E -> shape_at (view e') (NsName v) i = cleared (shape_at (view e) (NsName v) i))
       | None => view e' = view e
       end) e.
Proof.
  change (ClearVethQdiscs v) with (with_link v (fun n link =>
    qdiscs <- call (nl_QdiscList n link) ;; match qdiscs with Err e => ret (Some e) | Ok qdiscs => clear_loop n qdiscs end)%go).
  destruct (ifindex (view e) !! veth_key v) as [i|] eqn:Hi; [|eapply wp_mono; [by apply with_link_absent|by intros r e' [? _]]].
  eapply with_link_wp; [exact Hi| |intros er e1 HW V1; split; [by apply only_shape_view|done]].
  intros l e1 V1 Hn Hl. rewrite <- V1 in Hi. wp_call as r e2 C2. pose proof (law_QdiscList _ _ _ _ _ C2) as [V2 Hq].
  destruct r as [qs|er].
  - destruct (Hq qs eq_refl) as [Hix Hc]. rewrite Hl in *. rewrite <- V1. rewrite <- V2 in Hi, Hc |- *.
    eapply wp_mono; [by eapply clear_loop_wp|]. intros _ e3 [O3 S3]. split; [|auto].
    eapply only_shape_trans; [|exact O3]. apply only_shape_view. congruence.
  - wp_step. split; [apply only_shape_view; congruence|]. intros HW.
    destruct (works_Ok _ _ _ _ C2 (works_QdiscList (NsName v) l e1 ltac:(by rewrite Hn, Hl))).
Qed.

(** Adding what [MakeQdiscs] made: it needs a free root. *)
Lemma QdiscAdd_step n i name attrs e r e1 :
  nl_QdiscAdd n (Netem (mkQdiscAttrs i (MakeHandle 1 0) HANDLE_ROOT) attrs) e = (r, e1) ->
  ifindex (view e) !! (n, name) = Some i ->
  only_shape n i e e1 /\
  (r = None -> tc_root (shape_at (view e) n i) = NoRoot /\
     shape_at (view e1) n i = mkTc (RNetem (MakeHandle 1 0) attrs None) (tc_filters (shape_at (view e) n i))) /\
  (KernelWorks E -> tc_root (shape_at (view e) n i) = NoRoot -> r = None).
Proof.
  intros C Hi. pose proof (law_QdiscAdd _ _ _ _ _ _ C) as (L & I & D & S). split_and!; [done..|by intros Hr; apply S|].
  intros HW Hr. exact (works_None _ _ _ _ C (works_QdiscAdd _ (mkQdiscAttrs i (MakeHandle 1 0) HANDLE_ROOT) _ name _ Hi eq_refl Hr)).
Qed.

Lemma tc_only n obj cmd dev args i e r e' :
  exec_tc n (obj :: cmd :: "dev" :: dev :: args) e = (r, e') -> ifindex (view e) !! (n, dev) = Some i ->
  only_shape n i e e'.
Proof. intros Ht Hi. split_and!; [by eapply law_tc..|by eapply law_tc_dev]. Qed.

Lemma set_loop_wp n dev i qs e :
  made_qdiscs qs -> ifindex (view e) !! (n, dev) = Some i ->
  wp (set_loop n dev i false qs)
     (fun r e' => only_shape n i e e' /\
        (r = None -> shape_at (view e') n i = mkTc (root_of qs) (tc_filters (shape_at (view e) n i))) /\
        (KernelWorks E -> tc_root (shape_at (view e) n i) = NoRoot -> r = None)) e.
Proof.
  intros Hq Hi. destruct Hq as [attrs|attrs rate Hr Hz]; cbn [set_loop]; apply wp_bind;
    wp_call as r e1 C1; wp_step; destruct (QdiscAdd_step _ _ _ _ _ _ _ C1 Hi) as (O1 & S1 & W1).
  - destruct r as [er|]; wp_step; [split_and!; [done|done|by intros HW Hf; discriminate (W1 HW Hf)]|].
    split_and!; [done| |done]. intros _. by apply S1.
  - destruct r as [er|]; [wp_step; split_and!; [done|done|by intros HW Hf; discriminate (W1 HW Hf)]|].
    destruct (S1 eq_refl) as [_ S1']. pose proof O1 as (_ & I1 & _). rewrite <- I1 in Hi.
    do 2 apply wp_bind. apply wp_call. intros [out r2] e2 C2. pose proof (tc_only _ _ _ _ _ _ _ _ _ C2 Hi) as O2.
    change (tbf_args dev true rate (getTbfBurst rate) 1500) with (tc_add_tbf dev (Sprint rate) (Sprint (getTbfBurst rate)) (Sprint 1500)) in C2.
    destruct r2 as [er|]; repeat wp_step; (split; [by eapply only_shape_trans|]).
    + split; [done|]. intros HW _. destruct (works_tbf_child n dev rate (getTbfBurst rate) 1500 i attrs e1 Hr Hz (burst_range rate) Hi ltac:(by rewrite S1')) as (o & e3 & C3).
      congruence.
    + split; [|done]. intros _. destruct (law_tc_tbf_child _ _ _ _ _ _ _ _ _ C2 Hi) as (attrs' & Hr' & ->).
      rewrite S1' in *. cbn in Hr'. injection Hr' as <-. done.
Qed.

Lemma AddBpf_wp n v path section e i :
  ifindex (view e) !! (n, LinkName v) = Some i ->
  wp (AddBpf n v path section)
     (fun r e' => only_shape n i e e' /\
        (r = None -> shape_at (view e') n i = mkTc (tc_root (shape_at (view e) n i)) (Some [(path, section)])) /\
        (KernelWorks E -> filter_loads E path section -> tc_filters (shape_at (view e) n i) = None -> r = None)) e.
Proof.
  intros Hi. unfold AddBpf. wp_call as [out r1] e1 C1. pose proof (tc_only _ _ _ _ _ _ _ _ _ C1 Hi) as O1.
  change (exec_tc n (tc_add_clsact (LinkName v)) e = ((out, r1), e1)) in C1. destruct r1 as [er|].
  { wp_step. split_and!; [done..|]. intros HW _ Hf. destruct (works_clsact _ _ _ _ Hi Hf) as (o & e2 & C2). congruence. }
  destruct (law_tc_clsact _ _ _ _ _ _ C1 Hi) as [F1 S1]. pose proof O1 as (_ & I1 & _). rewrite <- I1 in Hi.
  wp_call as [out' r2] e2 C2. pose proof (tc_only _ _ _ _ _ _ _ _ _ C2 Hi) as O2.
  change (exec_tc n (tc_add_filter (LinkName v) path section) e1 = ((out', r2), e2)) in C2.
  destruct r2 as [er|]; wp_step; (split; [by eapply only_shape_trans|]).
  - split; [done|]. intros HW Hload _. destruct (Hload n (LinkName v) i [] e1 Hi ltac:(by rewrite S1)) as (o & e3 & C3). congruence.
  - split; [|done]. intros _. destruct (law_tc_filter _ _ _ _ _ _ _ _ C2 Hi) as (fs & Hf & ->).
    rewrite S1 in *. cbn in Hf |- *. by injection Hf as <-.
Qed.

(** What a list of qdiscs leaves on an interface: the root discipline, and with the
    bypass the filter, are as asked for.  Errors of the deletions before are
    only logged; where deletions work nothing else is left. *)
Definition set_on (bypass : bool) (qs : list Qdisc) (t t' : tc_state) : Prop :=
  (qs <> [] -> tc_root t' = root_of qs /\ (bypass = true -> tc_filters t' = Some bypass_filters)) /\
  (KernelWorks E -> t' = match qs with [] => cleared t | _ => shape_of bypass qs end).

Lemma SetVethQdiscs_wp `{UnicodeTables, ProtoLib} ctx v p qs e :
  MakeQdiscs p = Ok qs ->
  wp (SetVethQdiscs ctx v qs)
    (fun r e' => match ifindex (view e) !! veth_key v with
       | Some i => only_shape (NsName v) i e e' /\
           (r = None -> set_on (tcpIpBypass ctx) qs (shape_at (view e) (NsName v) i) (shape_at (view e') (NsName v) i)) /\
           (KernelWorks E -> tc_root (cleared (shape_at (view e) (NsName v) i)) = NoRoot ->
            (tcpIpBypass ctx = true -> filter_loads E redir_disable_path "egress") -> r = None)
       | None => view e' = view e /\ (qs <> [] -> r <> None)
       end) e.
Proof.
  intros Hm. unfold SetVethQdiscs. apply MakeQdiscs_made in Hm. wp_use ClearVethQdiscs_wp as r0 e1 O1.
  destruct qs as [|q qs'] eqn:Hqs.
  { wp_step. destruct (ifindex (view e) !! veth_key v) as [i|]; [|done]. destruct O1 as [O1 S1]. split_and!; [done| |done].
    intros _. by split. }
  rewrite <- Hqs in *. destruct Hm as [Hm|Hm]; [by subst|].
  assert (qs <> []) as Hne by (by subst).
  assert (forall t, match qs with [] => cleared t | _ => shape_of (tcpIpBypass ctx) qs end = shape_of (tcpIpBypass ctx) qs) as Hcase by (by subst).
  clear Hqs q qs'. set (k := fun n (link : nl_link) =>
    (err <- set_loop n (LinkName v) (nl_Index link) false qs ;;
     match err with
     | Some e => ret (Some e)
     | None => if tcpIpBypass ctx then AddBpf n v redir_disable_path "egress" else ret None
     end)%go).
  change (wp (with_link v k) (fun r e' => match ifindex (view e) !! veth_key v with
       | Some i => only_shape (NsName v) i e e' /\
           (r = None -> set_on (tcpIpBypass ctx) qs (shape_at (view e) (NsName v) i) (shape_at (view e') (NsName v) i)) /\
           (KernelWorks E -> tc_root (cleared (shape_at (view e) (NsName v) i)) = NoRoot ->
            (tcpIpBypass ctx = true -> filter_loads E redir_disable_path "egress") -> r = None)
       | None => view e' = view e /\ (qs <> [] -> r <> None)
       end) e1).
  destruct (ifindex (view e) !! veth_key v) as [i|] eqn:Hi.
  2: { eapply wp_mono; [apply with_link_absent; by rewrite O1|]. intros r e2 [V2 Hr]. split; [congruence|done]. }
  destruct O1 as [O1 S1]. pose proof O1 as (_ & I1 & _). rewrite <- I1 in Hi.
  eapply with_link_wp; [exact Hi| |].
  2: { intros er e2 HW V2. split_and!; [|done|done]. eapply only_shape_trans; [exact O1|by apply only_shape_view]. }
  intros l e2 V2 _ Hl. unfold k. rewrite Hl. rewrite <- V2 in Hi, S1.
  assert (only_shape (NsName v) i e e2) as O2 by (eapply only_shape_trans; [exact O1|by apply only_shape_view]). clear O1 I1 V2 e1 k.
  wp_use set_loop_wp as r e3 (O3 & S3 & W3); [exact Hm|exact Hi|]. pose proof O3 as (_ & I3 & _). rewrite <- I3 in Hi.
  destruct r as [er|].
  { wp_step. split_and!; [by eapply only_shape_trans|done|]. intros HW Hr _. rewrite <- (S1 HW) in Hr. by discriminate (W3 HW Hr). }
  specialize (S3 eq_refl). unfold set_on. rewrite Hcase. unfold shape_of.
  destruct (tcpIpBypass ctx) eqn:Hb.
  - wp_use AddBpf_wp as r e4 (O4 & S4 & W4); [exact Hi|]. split_and!; [by repeat (eapply only_shape_trans; [eassumption|])| |].
    + intros Hr. rewrite (S4 Hr), S3. cbn. split; [done|]. intros _. by destruct qs.
    + intros HW Hr Hload. apply W4; [done|by apply Hload|]. rewrite S3. cbn. by rewrite (S1 HW).
  - wp_step. split_and!; [by eapply only_shape_trans| |done]. intros _. rewrite S3. cbn. split; [done|].
    intros HW. rewrite (S1 HW). by destruct qs.
Qed.

(** The same, of what an interface carries: netem, TBF and the filter that are asked
    for, and, where deletions work, neither of them that is not. *)
Definition fits (bypass : bool) (qs : list Qdisc) (t : tc_state) : Prop :=
  (qs <> [] -> tc_root t = root_of qs /\ (bypass = true -> tc_filters t = Some bypass_filters)) /\
  (KernelWorks E -> match qs with [] => cleared t = t | _ => t = shape_of bypass qs end).

Lemma set_on_fits bypass qs t t' : set_on bypass qs t t' -> fits bypass qs t'.
Proof.
  intros [Hr HW]. split; [done|]. intros Hw. specialize (HW Hw). destruct qs as [|q qs]; [|done]. rewrite HW.
  unfold cleared. by destruct (tc_root t).
Qed.

(** An interface that carries what its link's properties ask for; it has to exist
    if they ask for anything. *)
Definition shaped `{UnicodeTables, ProtoLib} (v : net_view) (k : string * string) (bypass : bool)
    (p : option pb_LinkProperties) : Prop :=
  forall qs, MakeQdiscs p = Ok qs ->
    (qs <> [] -> is_Some (ifindex v !! k)) /\
    (forall i, ifindex v !! k = Some i -> fits bypass qs (shape_at v k.1 i)).

(** Nothing changed but the shaping of interfaces of namespace [n]. *)
Definition same_outside n e e' : Prop :=
  links (view e') = links (view e) /\ ifindex (view e') = ifindex (view e) /\
  (forall (n' : NetNS) (i : Z), n' <> n -> shapes (view e') !! (n', i) = shapes (view e) !! (n', i)).

Lemma same_outside_view n e e' : view e' = view e -> same_outside n e e'.
Proof. unfold same_outside. by intros ->. Qed.

Lemma same_outside_trans n e1 e2 e3 : same_outside n e1 e2 -> same_outside n e2 e3 -> same_outside n e1 e3.
Proof.
  intros (L1 & I1 & S1) (L2 & I2 & S2). split_and!; [congruence..|]. intros n' i Hn. rewrite S2 by done. by apply S1.
Qed.

Lemma only_shape_other n i e e' k : only_shape n i e e' -> k <> (n, i) -> shapes (view e') !! k = shapes (view e) !! k.
Proof. intros (_ & _ & HS) Hk. by rewrite <- (lookup_delete_ne (shapes (view e')) (n, i) k), HS, lookup_delete_ne. Qed.

Lemma only_shape_outside n i e e' : only_shape n i e e' -> same_outside n e e'.
Proof.
  intros Ho. pose proof Ho as (HL & HI & _). split_and!; [done..|]. intros n' j Hn.
  eapply only_shape_other; [exact Ho|congruence].
Qed.

(** Shaping never makes or removes an interface. *)
Definition same_links (e e' : E) : Prop := links (view e') = links (view e).

Lemma same_links_view e e' : view e' = view e -> same_links e e'.
Proof. unfold same_links. by intros ->. Qed.

Lemma SetVethQdiscs_links `{UnicodeTables, ProtoLib} ctx v p qs e :
  MakeQdiscs p = Ok qs -> wp (SetVethQdiscs ctx v qs) (fun _ e' => same_links e e') e.
Proof.
  intros Hm. eapply wp_mono; [by eapply SetVethQdiscs_wp|]. intros r e'.
  destruct (ifindex (view e) !! veth_key v); [by intros ((L & _) & _)|intros [V _]; by apply same_links_view].
Qed.

(** The index need not be known before: without one the interface is not found. *)
Lemma SetVethQdiscs_shaped `{UnicodeTables, ProtoLib} ctx v p qs e :
  MakeQdiscs p = Ok qs ->
  wp (SetVethQdiscs ctx v qs)
    (fun r e' => r = None -> same_outside (NsName v) e e' /\ shaped (view e') (veth_key v) (tcpIpBypass ctx) p) e.
Proof.
  intros Hm. eapply wp_mono; [by eapply SetVethQdiscs_wp|]. intros r e' Hw Hr.
  destruct (ifindex (view e) !! veth_key v) as [i|] eqn:Hi.
  - destruct Hw as (Ho & Hs & _). split; [by eapply only_shape_outside|]. destruct Ho as (_ & I & _).
    intros qs' Hq. assert (qs' = qs) as -> by congruence. rewrite I, Hi. split; [done|]. intros j [= <-].
    by eapply set_on_fits, Hs.
  - destruct Hw as [V Hne]. split; [by apply same_outside_view|]. intros qs' Hq. assert (qs' = qs) as -> by congruence.
    rewrite V, Hi. split; [|done]. intros Hq'. by destruct (Hne Hq').
Qed.

(** *** Other interfaces *)

(** The interfaces outside [P] that are there afterwards were there before, with
    the same index and shaping. *)
Definition others (P : string * string -> Prop) (v v' : net_view) : Prop :=
  forall j, ~ P j -> is_Some (links v' !! j) -> is_Some (links v !! j) /\ unmoved j v v'.

Lemma others_refl P (v v' : net_view) : v' = v -> others P v v'.
Proof. intros -> j _ Hj. done. Qed.

Lemma others_trans P (v1 v2 v3 : net_view) : others P v1 v2 -> others P v2 v3 -> others P v1 v3.
Proof.
  intros H12 H23 j Hj H3. destruct (H23 j Hj H3) as [H2 [I2 S2]]. destruct (H12 j Hj H2) as [H1 [I1 S1]].
  split; [done|]. split; [congruence|]. intros i Hi. rewrite S2 by congruence. by apply S1.
Qed.

Lemma others_weaken (P Q : string * string -> Prop) (v v' : net_view) : (forall j, P j -> Q j) -> others P v v' -> others Q v v'.
Proof. intros HPQ Ho j Hj. apply Ho. auto. Qed.

Lemma others_steady (P : string * string -> Prop) (v v' : net_view) :
  (forall j, ~ P j -> is_Some (links v' !! j) -> is_Some (links v !! j)) -> steady v v' -> others P v v'.
Proof. intros Hl Hs j Hj Hv. auto. Qed.

(** Shaping an interface leaves the others alone: their indexes differ. *)
Lemma only_shape_others n i e e' k :
  only_shape n i e e' -> ifindex (view e) !! k = Some i -> k.1 = n -> others (fun j => j = k) (view e) (view e').
Proof.
  intros Ho Hk Hn j Hj Hl. pose proof Ho as (HL & HI & _). rewrite HL in Hl. split; [done|]. split; [by rewrite HI|].
  intros i' Hi'. eapply only_shape_other; [exact Ho|]. intros [= E1 ->]. apply Hj.
  eapply law_index; [exact Hi'|exact Hk|congruence].
Qed.

(** What [MakeQdiscs] made is set on one interface, whatever comes of it. *)
Lemma SetVethQdiscs_others `{UnicodeTables, ProtoLib} ctx v p qs e :
  MakeQdiscs p = Ok qs ->
  wp (SetVethQdiscs ctx v qs) (fun _ e' => others (fun j => j = veth_key v) (view e) (view e')) e.
Proof.
  intros Hm. eapply wp_mono; [by eapply SetVethQdiscs_wp|]. intros r e' Hw.
  destruct (ifindex (view e) !! veth_key v) as [i|] eqn:Hi; [|apply others_refl; apply Hw].
  by eapply only_shape_others; [apply Hw|exact Hi|].
Qed.

(** An interface that stays keeps its shaping. *)
Lemma shaped_unmoved `{UnicodeTables, ProtoLib} (v v' : net_view) k b p :
  unmoved k v v' -> shaped v k b p -> shaped v' k b p.
Proof.
  intros [HI HS] Hs qs Hq. rewrite HI. destruct (Hs qs Hq) as [Hix Hsh]. split; [done|]. intros i Hi.
  unfold shape_at. rewrite HS by done. by apply Hsh.
Qed.

(** Shaping in another namespace does not show. *)
Lemma shaped_outside `{UnicodeTables, ProtoLib} n e e' k b p :
  same_outside n e e' -> k.1 <> n -> shaped (view e) k b p -> shaped (view e') k b p.
Proof. intros (_ & HI & HS) Hk. apply shaped_unmoved. split; [by rewrite HI|]. intros i _. by apply HS. Qed.

End InstallProofs.

(** ** Durations *)

(** The units of [time.ParseDuration], in nanoseconds. *)
Inductive time_unit := Nano | Micro | Milli | Second | Minute | Hour.

Definition unit_str (u : time_unit) : string :=
  match u with Nano => "ns" | Micro => "us" | Milli => "ms" | Second => "s" | Minute => "m" | Hour => "h" end.

Definition unit_ns (u : time_unit) : Z :=
  match u with
  | Nano => 1 | Micro => 1000 | Milli => 1000000 | Second => 1000000000
  | Minute => 60000000000 | Hour => 3600000000000
  end.

Lemma leadingInt_Sprint x s :
  (0 <= x < 2 ^ 63)%Z -> leadingInt 0 (Sprint x ++ s) = leadingInt x s.
Proof.
  intros [H0 H1]. rewrite Sprint_N by done.
  rewrite (digit_loop leadingInt (2 ^ 63)); [by rewrite Z2N.id| |by rewrite Z2N.id].
  intros a d t Ha Hd Hb. cbn [leadingInt]. destruct (digit_char_val d Hd) as [-> Hv].
  unfold digit_val. rewrite Hv. change (2 ^ 63)%Z with 9223372036854775808%Z in *.
  change (9223372036854775808 / 10)%Z with 922337203685477580%Z in *.
  destruct (Z.ltb_spec 922337203685477580 a); [lia|].
  destruct (Z.ltb_spec 9223372036854775808 (a * 10 + Z.of_N d)); [lia|done].
Qed.

Lemma duration_item_unit n u :
  (0 <= n)%Z -> (n * unit_ns u < 2 ^ 63)%Z ->
  duration_item (Sprint n ++ unit_str u) = Ok ((n * unit_ns u)%Z, "").
Proof.
  intros H0 H1. assert (n < 2 ^ 63)%Z as Hn by (destruct u; cbn in H1; lia).
  pose proof (Sprint_digits n H0) as Hd. pose proof (pretty_nonempty (Z.to_N n)) as Hne.
  rewrite <- Sprint_N in Hne by done.
  pose proof (leadingInt_Sprint n (unit_str u) (conj H0 Hn)) as HL.
  destruct (Sprint n) as [|c r] eqn:Hs; [done|]. cbn in Hd. apply andb_prop in Hd as [Hc _].
  unfold duration_item. cbn [String.append]. rewrite Hc. cbn [orb negb].
  change (String c (r ++ unit_str u)) with (String c r ++ unit_str u). rewrite HL.
  assert (String.length (String c r ++ unit_str u) <> String.length (unit_str u)) as Hlen
    by (rewrite str_length_app; cbn; lia).
  apply Nat.eqb_neq in Hlen.
  assert ((2 ^ 63 / unit_ns u <? n)%Z = false) as Hq.
  { apply Z.ltb_ge. apply Z.div_le_lower_bound; [by destruct u|]. lia. }
  assert (leadingInt n (unit_str u) = Some (n, unit_str u)) as -> by (by destruct u).
  cbv zeta. rewrite Hlen.
  assert (match unit_str u with
          | String "." s1' =>
              let '(f, scale, s2) := leadingFraction false 0 (f64_of_Z 1) s1' in
              (f, scale, s2, negb (String.length s1' =? String.length s2)%nat)
          | _ => (0%Z, f64_of_Z 1, unit_str u, false)
          end = (0%Z, f64_of_Z 1, unit_str u, false)) as -> by (by destruct u).
  assert (take_unit (unit_str u) = (unit_str u, "")) as -> by (by destruct u).
  assert (String.eqb (unit_str u) "" = false) as -> by (by destruct u).
  assert (unitMap (unit_str u) = Some (unit_ns u)) as -> by (by destruct u).
  cbn [negb andb]. by rewrite Hq.
Qed.

Lemma ParseDuration_unit_value n u :
  (0 <= n)%Z -> (n * unit_ns u < 2 ^ 63)%Z ->
  ParseDuration (Sprint n ++ unit_str u) = Ok (uint32 (n * unit_ns u / 1000)).
Proof.
  intros H0 H1. pose proof (duration_item_unit n u H0 H1) as Hi.
  pose proof (Sprint_digits n H0) as Hd. pose proof (pretty_nonempty (Z.to_N n)) as Hne.
  rewrite <- Sprint_N in Hne by done.
  assert (0 <= n * unit_ns u)%Z as Hpos by (destruct u; cbn; lia).
  destruct (Sprint n) as [|c r] eqn:Hs; [done|]. cbn in Hd. apply andb_prop in Hd as [Hc _].
  unfold ParseDuration. cbn [String.append String.eqb]. cbn [String.append] in Hi.
  assert (go_ParseDuration (String c (r ++ unit_str u)) = Ok (n * unit_ns u)%Z) as ->.
  { unfold go_ParseDuration.
    assert (exists x, duration_loop (String.length (String c (r ++ unit_str u))) 0
              (String c (r ++ unit_str u)) = x /\ x = Ok (n * unit_ns u)%Z) as (x & Hx & ->).
    { eexists. split; [reflexivity|]. cbn [String.length duration_loop]. rewrite Hi.
      rewrite Z.add_0_l, wrapU_small by (split; [done|]; lia).
      destruct (Z.ltb_spec (2 ^ 63) (n * unit_ns u)); [lia|]. by destruct (String.length _). }
    assert (String.eqb (String c (r ++ unit_str u)) "0" = false) as H0f.
    { cbn. destruct (Ascii.eqb c "0"); [|done]. by destruct r, u. }
    assert (match String c (r ++ unit_str u) with
            | String "-" s' => (true, s') | String "+" s' => (false, s')
            | _ => (false, String c (r ++ unit_str u)) end = (false, String c (r ++ unit_str u))) as ->.
    { apply is_digit_range in Hc. destruct c as [[] [] [] [] [] [] [] []]; try done; cbn in Hc; lia. }
    rewrite H0f, Hx. cbn [String.eqb].
    destruct (Z.ltb_spec (2 ^ 63 - 1) (n * unit_ns u)); [lia|done]. }
  destruct (Z.ltb_spec (n * unit_ns u) 0); [lia|].
  unfold Microseconds. by rewrite Z.quot_div_nonneg by lia.
Qed.

(** ** A size function that satisfies the law *)

(** Bytes of a varint. *)
Fixpoint varint_len (fuel : nat) (x : Z) : Z :=
  match fuel with
  | O => 1
  | S k => if (x <? 128)%Z then 1 else 1 + varint_len k (x / 128)
  end.

Definition str_size (s : string) : Z :=
  let n := Z.of_nat (String.length s) in
  if (n =? 0)%Z then 0 else (1 + varint_len 9 n + n)%Z.

Definition size (p : pb_LinkProperties) : Z :=
  (str_size (pb_Latency p) + str_size (pb_LatencyCorr p) + str_size (pb_Jitter p)
   + str_size (pb_Loss p) + str_size (pb_LossCorr p) + str_size (pb_Rate p)
   + (if pb_Gap p =? 0 then 0 else 1 + varint_len 9 (pb_Gap p))
   + str_size (pb_Duplicate p) + str_size (pb_DuplicateCorr p)
   + str_size (pb_ReorderProb p) + str_size (pb_ReorderCorr p)
   + str_size (pb_CorruptProb p) + str_size (pb_CorruptCorr p))%Z.

Lemma varint_len_pos k x : (0 < varint_len k x)%Z.
Proof. revert x. induction k as [|k IH]; intros x; cbn; [lia|]. case_goal; [lia|]. specialize (IH (x / 128)%Z). lia. Qed.

Lemma str_size_zero s : (0 <= str_size s)%Z /\ (str_size s = 0%Z <-> s = "").
Proof.
  unfold str_size. pose proof (varint_len_pos 9 (Z.of_nat (String.length s))).
  destruct (Z.eqb_spec (Z.of_nat (String.length s)) 0) as [Hz|Hz].
  - split; [done|]. split; [|done]. intros _. destruct s; [done|]. cbn in Hz. lia.
  - split; [lia|]. split; [lia|]. by intros ->.
Qed.

#[export] Instance SizeLib : ProtoLib := {| proto_Size := size |}.

#[export] Instance SizeLaws : ProtoLaws.
Proof.
  split. intros p. cbn. unfold size. split; [|by intros ->].
  destruct p as [a b c d e f g h i j k l m]; cbn.
  pose proof (str_size_zero a); pose proof (str_size_zero b); pose proof (str_size_zero c);
  pose proof (str_size_zero d); pose proof (str_size_zero e); pose proof (str_size_zero f);
  pose proof (str_size_zero h); pose proof (str_size_zero i); pose proof (str_size_zero j);
  pose proof (str_size_zero k); pose proof (str_size_zero l); pose proof (str_size_zero m).
  pose proof (varint_len_pos 9 g). intros Hs. unfold pb_LinkProperties_zero.
  destruct (Z.eqb_spec g 0) as [->|]; f_equal; try lia; naive_solver lia.
Qed.

(** ** Properties *)

(** Tables for text that is not ASCII: not consulted by the concrete inputs
    below. *)
Definition ascii_tables : UnicodeTables := {| unicode_ToLower s := s; unicode_TrimSpace s := s |}.

(** C13: setting the qdiscs made from a link's properties on an interface.  It
    returns, and touches the traffic control of that interface only.  When it
    reports success for properties that ask for something, the root is netem as
    asked for, with TBF below it when a rate was given, and with the bypass the
    egress filters are exactly the redirection filter: an old root or clsact
    would have made an addition fail.  And on a node where requests fail only for
    cause ([KernelWorks]) it does succeed and leaves exactly what is asked for,
    nothing at all if nothing is, whatever netem, TBF and filters were installed
    before: clearing comes first.  (A root discipline of another kind is not the
    daemon's and is not cleared.) *)
Theorem SetVethQdiscs_installs `{UnicodeTables, ProtoLib, KernelLaws E}
    (ctx : Ctx) (v : VEth) (p : option pb_LinkProperties) (qs : list Qdisc) (e : E) (i : Z) :
  MakeQdiscs p = Ok qs -> ifindex (view e) !! veth_key v = Some i ->
  exists r e', SetVethQdiscs ctx v qs e = (Val r, e') /\
    (links (view e') = links (view e) /\
     forall k, k <> (NsName v, i) -> shapes (view e') !! k = shapes (view e) !! k) /\
    (r = None -> qs <> [] ->
     tc_root (shape_at (view e') (NsName v) i) = root_of qs /\
     (tcpIpBypass ctx = true -> tc_filters (shape_at (view e') (NsName v) i) = Some bypass_filters)) /\
    (KernelWorks E -> (forall ty, tc_root (shape_at (view e) (NsName v) i) <> ROther ty) ->
     (tcpIpBypass ctx = true -> filter_loads E redir_disable_path "egress") ->
     r = None /\ shape_at (view e') (NsName v) i = shape_of (tcpIpBypass ctx) qs).
Proof.
  intros Hm Hi. destruct (wp_exists _ _ _ (SetVethQdiscs_wp ctx v p qs e Hm)) as (r & e' & Hr & Hw). rewrite Hi in Hw.
  destruct Hw as (Ho & Hs & HW). exists r, e'. split_and!; [done|by destruct Ho| | |].
  - intros k Hk. by eapply only_shape_other.
  - intros Hn. by apply Hs.
  - intros Hw Hother Hload. assert (cleared (shape_at (view e) (NsName v) i) = no_tc) as Hc.
    { destruct (shape_at (view e) (NsName v) i) as [[| | |ty] fs]; try done. by destruct (Hother ty). }
    assert (r = None) as -> by (apply HW; [done|by rewrite Hc|done]). split; [done|].
    destruct (Hs eq_refl) as [_ Hx]. rewrite (Hx Hw). destruct qs; [exact Hc|done].
Qed.

(** A link with a latency and a rate. *)
Definition sample_properties : pb_LinkProperties :=
  mk_pb_LinkProperties "10ms" "" "" "" "" "1Gbit" 0 "" "" "" "" "" "".

Definition sample_veth : VEth := mkVEth "/ns/a" "eth1" [] [].

Definition sample_qdiscs : list Qdisc :=
  match @MakeQdiscs ascii_tables _ (Some sample_properties) with Ok qs => qs | Err _ => [] end.

(** An interface that has shaping and a filter already. *)
Definition sample_node : Sim.State :=
  Sim.set_tc (Sim.mkState (Sim.add_link ("/ns/a", "eth1") (NlOther "veth") Sim.empty_view) ["/ns/a"] [])
    "/ns/a" (Sim.index_of ("/ns/a", "eth1")) (shape_of (E := Sim.State) true sample_qdiscs).

(** Set anew, and removed. *)
Lemma SetVethQdiscs_installs_witness :
  let shape e := shape_at (view e) "/ns/a" (Sim.index_of ("/ns/a", "eth1")) in
  shape (SetVethQdiscs [] sample_veth sample_qdiscs sample_node).2 = shape_of (E := Sim.State) false sample_qdiscs /\
  shape (SetVethQdiscs [] sample_veth [] sample_node).2 = no_tc.
Proof.
  split.
  - destruct (@SetVethQdiscs_installs ascii_tables _ _ _ _ [] sample_veth (Some sample_properties) sample_qdiscs sample_node
      (Sim.index_of ("/ns/a", "eth1"))) as (r & e' & Hr & _ & _ & Hw); [vm_compute; reflexivity..|].
    rewrite Hr. apply Hw; [apply Sim.sim_works|intros ty; vm_compute; discriminate|discriminate].
  - destruct (@SetVethQdiscs_installs ascii_tables _ _ _ _ [] sample_veth None [] sample_node
      (Sim.index_of ("/ns/a", "eth1"))) as (r & e' & Hr & _ & _ & Hw); [vm_compute; reflexivity..|].
    rewrite Hr. apply Hw; [apply Sim.sim_works|intros ty; vm_compute; discriminate|discriminate].
Defined.

(** C25: a rate is parsed as its number times its unit: decimal or binary
    prefixes, bits or bytes per second; the product is kept modulo 2^64, so it
    is exact whenever it fits in 64 bits. *)
Theorem ParseRate_correct `{UnicodeTables} (n : Z) (p : rate_prefix) (iec : bool) (s : rate_suffix) :
  in_uint 64 n ->
  exists v, ParseRate (rate_string n p iec s) = Ok v /\ in_uint 64 v /\
    (v mod 2 ^ 64 = rate_value n p iec s mod 2 ^ 64)%Z /\
    ((rate_value n p iec s < 2 ^ 64)%Z -> v = rate_value n p iec s).
Proof.
  intros Hn. exists (uint64 (rate_value n p iec s)). split_and!.
  - by apply ParseRate_unit_value.
  - by apply wrapU_range.
  - unfold wrapU. by rewrite Z.mod_mod.
  - intros Hlt. apply wrapU_small. split; [|done]. destruct Hn as [Hn _].
    unfold rate_value. destruct p, iec, s; cbn; lia.
Qed.

Lemma ParseRate_correct_witness :
  in_uint 64 10 /\
  exists v, @ParseRate ascii_tables (rate_string 10 Giga false Bit) = Ok v /\ in_uint 64 v /\
    (v mod 2 ^ 64 = 10000000000 mod 2 ^ 64)%Z /\ ((10000000000 < 2 ^ 64)%Z -> v = 10000000000%Z).
Proof. split; [by split|]. apply (@ParseRate_correct ascii_tables 10 Giga false Bit). by split. Defined.

(** C26: a duration is parsed to microseconds, but only its low 32 bits are
    kept; it is exact below 2^32 microseconds (about 71 minutes). *)
Theorem ParseDuration_correct (n : Z) (u : time_unit) :
  (0 <= n)%Z -> (n * unit_ns u < 2 ^ 63)%Z ->
  exists v, ParseDuration (Sprint n ++ unit_str u) = Ok v /\ in_uint 32 v /\
    (v = n * unit_ns u / 1000 mod 2 ^ 32)%Z /\
    ((n * unit_ns u < 2 ^ 32 * 1000)%Z -> v = (n * unit_ns u / 1000)%Z).
Proof.
  intros H0 H1. exists (uint32 (n * unit_ns u / 1000)). split_and!.
  - by apply ParseDuration_unit_value.
  - by apply wrapU_range.
  - done.
  - intros Hlt. apply wrapU_small. split.
    + apply Z.div_pos; [|lia]. destruct u; cbn; lia.
    + apply Z.div_lt_upper_bound; lia.
Qed.

Lemma ParseDuration_correct_witness :
  exists v, ParseDuration (Sprint 150 ++ unit_str Milli) = Ok v /\ in_uint 32 v /\
    (v = 150 * unit_ns Milli / 1000 mod 2 ^ 32)%Z /\
    ((150 * unit_ns Milli < 2 ^ 32 * 1000)%Z -> v = (150 * unit_ns Milli / 1000)%Z).
Proof. apply (ParseDuration_correct 150 Milli); [lia|reflexivity]. Defined.

(** A latency of two hours, which the resource's validation pattern
    accepts, is installed as one of about 48 minutes. *)
Theorem ParseDuration_truncates :
  ParseDuration "2h" = Ok 2905032704%Z /\ (2 * unit_ns Hour / 1000 = 7200000000)%Z.
Proof. split; vm_compute; reflexivity. Qed.

(** C35: the burst of a TBF qdisc is at least 5000 bytes and at least a tick's
    share of the rate as long as that share fits in 32 bits; above that it is
    truncated, down to the minimum. *)
Theorem getTbfBurst_bounds (rate : Z) :
  in_uint 64 rate ->
  (5000 <= getTbfBurst rate < 2 ^ 32)%Z /\
  ((rate < 250 * 2 ^ 32)%Z -> (rate / 250 <= getTbfBurst rate)%Z) /\
  getTbfBurst (250 * 2 ^ 32) = 5000%Z.
Proof.
  intros [H0 _]. unfold getTbfBurst. pose proof (wrapU_range 32 (rate / 250) ltac:(lia)) as Hr.
  unfold in_uint in Hr. split; [destruct (Z.ltb_spec (uint32 (rate / 250)) 5000); lia|split; [|done]].
  intros Hlt. rewrite wrapU_small.
  - destruct (Z.ltb_spec (rate / 250) 5000); lia.
  - split; [apply Z.div_pos; lia|apply Z.div_lt_upper_bound; lia].
Qed.

Lemma getTbfBurst_bounds_witness :
  in_uint 64 1000000000 /\ (5000 <= getTbfBurst 1000000000 < 2 ^ 32)%Z.
Proof. split; [by split|]. apply (getTbfBurst_bounds 1000000000). by split. Defined.
