(* ===== verification/LinkUtil.v ===== *)
(** * Link helpers

    [common/utils.go] and [common/veth.go]: VNI and UID conversion, the map of
    per-link mutexes, the call to the remote daemon, and veth pairs. *)

From stdpp Require Import base strings gmap list.
From Stdlib Require Import ZArith Lia.
From S2P Require Import Prelude GoStr GoNum GoNet Proto ApiV1 Kernel SimKernel Qdisc.

Local Open Scope string_scope.

(** ** Constants *)

Definition VxlanBase : Z := 5000.
Definition DefaultPort : string := "51111".
Definition HttpAddr : string := ":51112".
Definition Localhost : string := "localhost".
Definition LocalDaemon : string := "passthrough:///" ++ Localhost ++ ":" ++ DefaultPort.
Definition MacvlanMode `{Kernel E} : Z := MACVLAN_MODE_BRIDGE.
Definition INTER_NODE_LINK_VXLAN : string := "VXLAN".
Definition INTER_NODE_LINK_GRPC : string := "GRPC".

(** ** VNI and UID *)

(** [int32(VxlanBase + uid)], [uid] an int64. *)
Definition GetVniFromUid (uid : Z) : Z := int32 (int64 (VxlanBase + uid)).

(** [int64(vni - VxlanBase)], [vni] an int32. *)
Definition GetUidFromVni (vni : Z) : Z := int64 (int32 (vni - VxlanBase)).

(** ** [MutexMap]

    A [sync.Map] from keys to mutexes, each made when first asked for. *)

Record MutexMap := mkMutexMap { mm_mutexes : gmap Z nat; mm_fresh : nat }.

(** [LoadOrStore(key, &sync.Mutex{})]. *)
Definition MutexMap_Get (m : MutexMap) (key : Z) : nat * MutexMap :=
  match mm_mutexes m !! key with
  | Some mutex => (mutex, m)
  | None => (mm_fresh m, mkMutexMap (<[key := mm_fresh m]> (mm_mutexes m)) (S (mm_fresh m)))
  end.

(** ** The remote daemon *)

Section Remote.
  Context {E : Type} `{GrpcClient E}.
  Local Open Scope go_scope.

Definition remote_payload (localPod peerPod : pb_Pod) (link : pb_Link) : pb_RemotePod :=
  {| rp_NetNs := pod_NetNs peerPod;
     rp_IntfName := pb_PeerIntf link;
     rp_IntfIp := pb_PeerIp link;
     rp_PeerVtep := pod_SrcIp localPod;
     rp_Vni := GetVniFromUid (pb_Uid link);
     rp_KubeNs := pod_KubeNs localPod;
     rp_Properties := pb_Properties link;
     rp_Name := pb_PeerPod link |}.

Definition remote_url (peerPod : pb_Pod) : string :=
  "passthrough:///" ++ pod_SrcIp peerPod ++ ":" ++ DefaultPort.

Definition UpdateRemote (localPod peerPod : pb_Pod) (link : pb_Link) : go E (option error) :=
  let payload := remote_payload localPod peerPod link in
  let url := remote_url peerPod in
  err <- call (grpc_Dial url) ;;
  match err with
  | Some e => ret (Some e)
  | None =>
      '(ok, err) <- remoteClient_Update url payload ;;
      match err with
      | Some e => ret (Some e)
      | None =>
          match ok with
          | None => panic "nil pointer dereference: ok.Response"
          | Some r => if negb (Response r) then ret None else ret None
          end
      end
  end.

End Remote.

(** ** Veth pairs *)

Definition MakeVeth (netNS linkName ip mac : string) : result VEth :=
  match
    (if negb (String.eqb ip "") then
       match ParseCIDR ip with
       | None => Err (errorf ("failed to parse CIDR " ++ ip ++ ": invalid CIDR address: " ++ ip))
       | Some (ipAddr, mask) => Ok [mkIPNet ipAddr mask]
       end
     else Ok [])
  with
  | Err e => Err e
  | Ok addrs =>
      if negb (String.eqb mac "") then
        match ParseMAC mac with
        | None => Err (errorf ("failed to parse MAC " ++ mac ++ ": address " ++ mac ++ ": invalid MAC address"))
        | Some macAddr => Ok (mkVEth netNS linkName addrs macAddr)
        end
      else Ok (mkVEth netNS linkName addrs [])
  end.

Section Veth.
  Context {E : Type} `{UnicodeTables, ProtoLib, Kernel E}.
  Local Open Scope go_scope.

(** The messages leave out the printed struct of the interface. *)
Definition CreateVeth (ctx : Ctx) (self peer : VEth) (properties : option pb_LinkProperties)
  : go E (option error) :=
  err <- call (koko_MakeVeth self peer) ;;
  match err with
  | Some e => ret (Some e)
  | None =>
      match MakeQdiscs properties with
      | Err e => ret (Some (errorf ("failed to construct qdiscs: " ++ err_msg e)))
      | Ok qdiscs =>
          err <- SetVethQdiscs ctx self qdiscs ;;
          match err with
          | Some e => ret (Some (errorf ("failed to set qdiscs on self veth: " ++ err_msg e)))
          | None =>
              err <- SetVethQdiscs ctx peer qdiscs ;;
              match err with
              | Some e => ret (Some (errorf ("failed to set qdiscs on peer veth: " ++ err_msg e)))
              | None => ret None
              end
          end
      end
  end.

Definition SetupVeth (ctx : Ctx) (self peer : VEth) (link : pb_Link) (localPod : pb_Pod)
  : go E (option error) :=
  '(iExist, _) <- call (koko_IsExistLinkInNS (NsName self) (LinkName self)) ;;
  '(pExist, _) <- call (koko_IsExistLinkInNS (NsName peer) (LinkName peer)) ;;
  if iExist && pExist then ret None
  else
    err <- (if negb iExist && pExist then call (koko_RemoveVethLink peer)
            else if iExist && negb pExist then call (koko_RemoveVethLink self)
            else ret None) ;;
    match err with
    | Some e => ret (Some e)
    | None => CreateVeth ctx self peer (pb_Properties link)
    end.

End Veth.

(** ** Lemmas *)

Lemma GetVni_mod uid : (GetVniFromUid uid mod 2 ^ 32 = (VxlanBase + uid) mod 2 ^ 32)%Z.
Proof.
  unfold GetVniFromUid. rewrite wrapS_mod by lia.
  rewrite <- (Z.mod_mod_divide _ (2 ^ 64) (2 ^ 32)) by (exists (2 ^ 32)%Z; reflexivity).
  rewrite wrapS_mod by lia. apply Z.mod_mod_divide. by exists (2 ^ 32)%Z.
Qed.

Lemma GetUid_GetVni uid : GetUidFromVni (GetVniFromUid uid) = int32 uid.
Proof.
  unfold GetUidFromVni. rewrite wrapS_small; [|lia|].
  - apply wrapS_congr; [lia|]. rewrite Zminus_mod, GetVni_mod, <- Zminus_mod. f_equal. lia.
  - pose proof (wrapS_range 32 (GetVniFromUid uid - VxlanBase) ltac:(lia)). unfold in_int in *. lia.
Qed.

(** The links the veth helpers leave alone: neither the two ends nor their
    old other ends. *)
Definition stale_end (v : net_view) (a b k : string * string) : Prop :=
  k = a \/ k = b \/
  links v !! k = Some (NlOther "veth") /\ (peers v !! a = Some k \/ peers v !! b = Some k).

Section VethProofs.
  Context {E : Type} `{UnicodeTables, ProtoLib, KernelLaws E}.
  Implicit Types (e : E).

(** Both ends carry what the properties ask for. *)
Definition both_shaped (bypass : bool) (p : option pb_LinkProperties) (a b : VEth)
    (v : net_view) : Prop :=
  shaped v (veth_key a) bypass p /\ shaped v (veth_key b) bypass p.

Lemma unlink_other v k j :
  j <> k -> ~ (links v !! j = Some (NlOther "veth") /\ peers v !! k = Some j) -> unlink v k !! j = links v !! j.
Proof.
  intros Hj Hp. unfold unlink. rewrite lookup_delete_ne by done.
  destruct (peers v !! k) as [p|]; [|done]. case_bool_decide; [|done]. apply lookup_delete_ne. naive_solver.
Qed.

Lemma CreateVeth_wp ctx a b p e :
  wp (CreateVeth ctx a b p)
     (fun r e' => r = None ->
        links (view e') = <[veth_key b := NlOther "veth"]>
                            (<[veth_key a := NlOther "veth"]> (links (view e))) /\
        both_shaped (tcpIpBypass ctx) p a b (view e')) e.
Proof.
  unfold CreateVeth. wp_call as [er|] e1 C1; [by wp_step|]. apply law_MakeVeth in C1 as [C1 _].
  destruct (MakeQdiscs p) as [qs|er] eqn:Hq; [|by wp_step].
  wp_use SetVethQdiscs_shaped as [er|] e2 S2; [exact Hq|by wp_step|]. destruct (S2 eq_refl) as [(L2 & _) Sa].
  apply wp_bind. eapply wp_mono; [exact (wp_and _ _ _ _ (SetVethQdiscs_others _ _ _ _ _ Hq) (SetVethQdiscs_shaped ctx b _ _ e2 Hq))|].
  intros [er|] e3 [O3 S3]; [by wp_step|]. destruct (S3 eq_refl) as [(L3 & _) Sb].
  wp_step. intros _. split; [congruence|]. split; [|exact Sb].
  destruct (decide (veth_key a = veth_key b)) as [->|Hne]; [exact Sb|].
  eapply shaped_unmoved; [|exact Sa]. apply O3; [done|]. rewrite L3, L2, C1, lookup_insert_ne, lookup_insert_eq by done. by eexists.
Qed.

Lemma IsExist_wp ns name e (Q : (bool * option error) -> E -> Prop) :
  (forall err e', view e' = view e -> Q (bool_decide (is_Some (links (view e) !! (ns, name))), err) e') ->
  wp (call (koko_IsExistLinkInNS ns name)) Q e.
Proof.
  intros HQ. apply wp_call. intros r e' Hr.
  destruct (law_IsExist ns name e) as (err & e1 & E1 & V1). rewrite Hr in E1. simplify_eq. by apply HQ.
Qed.

(** What setting up a pair leaves: both ends are there, the other interfaces
    are as they were, nothing changed if both ends were there before, and
    otherwise both ends are shaped. *)
Definition veth_up (bypass : bool) (p : option pb_LinkProperties) (a b : VEth) (v v' : net_view) : Prop :=
  is_Some (links v' !! veth_key a) /\ is_Some (links v' !! veth_key b) /\
  (forall k, ~ stale_end v (veth_key a) (veth_key b) k -> links v' !! k = links v !! k) /\
  (is_Some (links v !! veth_key a) -> is_Some (links v !! veth_key b) -> v' = v) /\
  (~ (is_Some (links v !! veth_key a) /\ is_Some (links v !! veth_key b)) -> both_shaped bypass p a b v').

(** Creating the pair after the stale ends are gone. *)
Lemma CreateVeth_up ctx a b p v e :
  (forall k, ~ stale_end v (veth_key a) (veth_key b) k -> links (view e) !! k = links v !! k) ->
  ~ (is_Some (links v !! veth_key a) /\ is_Some (links v !! veth_key b)) ->
  wp (CreateVeth ctx a b p) (fun r e' => r = None -> veth_up (tcpIpBypass ctx) p a b v (view e')) e.
Proof.
  intros Hframe Hnot. wp_use CreateVeth_wp as r e4 H4. intros Hr. destruct (H4 Hr) as [L4 S4]. unfold veth_up. rewrite L4.
  split_and!; [| | |tauto|done].
  - apply lookup_insert_is_Some'. right. apply lookup_insert_is_Some'. by left.
  - apply lookup_insert_is_Some'. by left.
  - intros k Hk. rewrite !lookup_insert_ne by (intros <-; apply Hk; unfold stale_end; auto). auto.
Qed.

Lemma SetupVeth_wp ctx a b l pod e :
  wp (SetupVeth ctx a b l pod) (fun r e' => r = None -> veth_up (tcpIpBypass ctx) (pb_Properties l) a b (view e) (view e')) e.
Proof.
  unfold SetupVeth. wp_step. apply IsExist_wp. intros err1 e1 V1. cbv beta iota.
  wp_step. apply IsExist_wp. intros err2 e2 V2. cbv beta iota.
  rewrite !V1. assert (view e2 = view e) as V by congruence. clear V1 V2 e1 err1 err2.
  fold (veth_key a). fold (veth_key b).
  destruct (bool_decide_reflect (is_Some (links (view e) !! veth_key a))) as [Ha|Ha],
    (bool_decide_reflect (is_Some (links (view e) !! veth_key b))) as [Hb|Hb]; cbn [andb negb].
  - wp_step. intros _. unfold veth_up. rewrite V. tauto.
  - wp_call as [er|] e3 C3; [by wp_step|]. apply law_RemoveVethLink in C3 as (_ & C3 & _).
    apply CreateVeth_up; [|tauto]. intros k Hk. rewrite C3, V.
    apply unlink_other; unfold stale_end in Hk; tauto.
  - wp_call as [er|] e3 C3; [by wp_step|]. apply law_RemoveVethLink in C3 as (_ & C3 & _).
    apply CreateVeth_up; [|tauto]. intros k Hk. rewrite C3, V.
    apply unlink_other; unfold stale_end in Hk; tauto.
  - wp_step. wp_step. apply CreateVeth_up; [|tauto]. intros k Hk. by rewrite V.
Qed.

(** *** Tunnels next to a pair *)

(** A VXLAN at [k] with VNI [id] stays as it is, with its shaping. *)
Definition keeps_vxlan (k : string * string) (id : Z) (v v' : net_view) : Prop :=
  forall grp, links v !! k = Some (NlVxlan id grp) ->
    links v' !! k = Some (NlVxlan id grp) /\ unmoved k v v'.

Lemma keeps_vxlan_view k id (v v' : net_view) : v' = v -> keeps_vxlan k id v v'.
Proof. by intros -> grp Hg. Qed.

Lemma keeps_vxlan_trans k id v1 v2 v3 : keeps_vxlan k id v1 v2 -> keeps_vxlan k id v2 v3 -> keeps_vxlan k id v1 v3.
Proof.
  intros H12 H23 grp Hg. destruct (H12 grp Hg) as (Hg2 & I2 & S2). destruct (H23 grp Hg2) as (Hg3 & I3 & S3).
  split; [done|]. split; [congruence|]. intros i Hi. rewrite S3 by congruence. by apply S2.
Qed.

Lemma keeps_vxlan_steady k id v v' :
  steady v v' -> (forall grp, links v !! k = Some (NlVxlan id grp) -> links v' !! k = Some (NlVxlan id grp)) ->
  keeps_vxlan k id v v'.
Proof. intros Hs Hl grp Hg. specialize (Hl grp Hg). split; [done|]. apply Hs; by eexists. Qed.

Lemma keeps_vxlan_links k id v v' : links v' = links v -> steady v v' -> keeps_vxlan k id v v'.
Proof. intros HL Hs. apply keeps_vxlan_steady; [done|]. by rewrite HL. Qed.

Lemma keeps_vxlan_unlink k id v v' j : links v' = unlink v j -> steady v v' -> k <> j -> keeps_vxlan k id v v'.
Proof.
  intros HL Hs Hk. apply keeps_vxlan_steady; [done|]. intros grp Hg. rewrite HL, unlink_other; [done..|].
  rewrite Hg. naive_solver.
Qed.

Lemma keeps_vxlan_insert k id v v' j x :
  links v' = <[j := x]> (links v) -> steady v v' -> k <> j -> keeps_vxlan k id v v'.
Proof. intros HL Hs Hk. apply keeps_vxlan_steady; [done|]. intros grp Hg. by rewrite HL, lookup_insert_ne. Qed.

Lemma RemoveVethLink_keeps v k id e r e' :
  koko_RemoveVethLink v e = (r, e') -> k <> veth_key v -> keeps_vxlan k id (view e) (view e').
Proof.
  intros C Hk. destruct r as [er|]; [by apply keeps_vxlan_view; eapply law_RemoveVethLink_fail|].
  apply law_RemoveVethLink in C as (_ & L & _ & St). by apply (keeps_vxlan_unlink _ _ _ _ _ L St).
Qed.

Lemma SetVethQdiscs_keeps ctx v p qs k id e :
  MakeQdiscs p = Ok qs -> k <> veth_key v ->
  wp (SetVethQdiscs ctx v qs) (fun _ e' => keeps_vxlan k id (view e) (view e')) e.
Proof.
  intros Hq Hk. eapply wp_mono.
  { apply (wp_and _ _ _ _ (SetVethQdiscs_links ctx v p qs e Hq) (SetVethQdiscs_others ctx v p qs e Hq)). }
  intros r e' [HL Ho] grp Hg. unfold same_links in HL. rewrite HL. split; [done|].
  apply Ho; [done|]. rewrite HL. by eexists.
Qed.

Lemma CreateVeth_keeps ctx a b p k id e :
  k <> veth_key a -> k <> veth_key b ->
  wp (CreateVeth ctx a b p) (fun r e' => r = None -> keeps_vxlan k id (view e) (view e')) e.
Proof.
  intros Ha Hb. unfold CreateVeth. wp_call as [er|] e1 C1; [by wp_step|]. apply law_MakeVeth in C1 as [L1 St].
  destruct (MakeQdiscs p) as [qs|er] eqn:Hq; [|by wp_step].
  assert (keeps_vxlan k id (view e) (view e1)) as K1.
  { apply keeps_vxlan_steady; [done|]. intros grp Hg. by rewrite L1, !lookup_insert_ne. }
  wp_use SetVethQdiscs_keeps as [er|] e2 K2; [exact Hq|exact Ha|by wp_step|].
  wp_use SetVethQdiscs_keeps as [er|] e3 K3; [exact Hq|exact Hb|by wp_step|].
  wp_step. intros _. eapply keeps_vxlan_trans; [exact K1|by eapply keeps_vxlan_trans].
Qed.

(** Setting up a pair leaves tunnels of other names alone. *)
Lemma SetupVeth_keeps ctx a b l pod k id e :
  k <> veth_key a -> k <> veth_key b ->
  wp (SetupVeth ctx a b l pod) (fun r e' => r = None -> keeps_vxlan k id (view e) (view e')) e.
Proof.
  intros Ha Hb. unfold SetupVeth. wp_step. apply IsExist_wp. intros err1 e1 V1. cbv beta iota.
  wp_step. apply IsExist_wp. intros err2 e2 V2. cbv beta iota.
  assert (forall e3, keeps_vxlan k id (view e) (view e3) ->
    wp (CreateVeth ctx a b (pb_Properties l)) (fun r e' => r = None -> keeps_vxlan k id (view e) (view e')) e3) as Hmake.
  { intros e3 K3. wp_use CreateVeth_keeps as r e4 K4; [done..|]. intros Hr. eapply keeps_vxlan_trans; [exact K3|by apply K4]. }
  assert (keeps_vxlan k id (view e) (view e2)) as K2 by (apply keeps_vxlan_view; congruence).
  assert (forall v r e3, koko_RemoveVethLink v e2 = (r, e3) -> k <> veth_key v -> keeps_vxlan k id (view e) (view e3)) as Hrem.
  { intros v r e3 C3 Hk. eapply keeps_vxlan_trans; [exact K2|by eapply RemoveVethLink_keeps]. }
  set (i := bool_decide (is_Some (links (view e) !! (NsName a, LinkName a)))).
  set (p := bool_decide (is_Some (links (view e1) !! (NsName b, LinkName b)))). destruct i, p; cbn [andb negb].
  - wp_step. done.
  - wp_call as [er|] e3 C3; apply Hrem in C3; [by wp_step|done|by apply Hmake|done].
  - wp_call as [er|] e3 C3; apply Hrem in C3; [by wp_step|done|by apply Hmake|done].
  - wp_step. wp_step. by apply Hmake.
Qed.

End VethProofs.

(** *** Mutexes *)

(** Every mutex of the map was made by it, for one key. *)
Definition mutexes_wf (m : MutexMap) : Prop :=
  (forall k x, mm_mutexes m !! k = Some x -> (x < mm_fresh m)%nat) /\
  (forall k k' x, mm_mutexes m !! k = Some x -> mm_mutexes m !! k' = Some x -> k = k').

Lemma MutexMap_Get_stored m k : mm_mutexes (MutexMap_Get m k).2 !! k = Some (MutexMap_Get m k).1.
Proof. unfold MutexMap_Get. destruct (mm_mutexes m !! k) eqn:Hk; cbn; [done|apply lookup_insert_eq]. Qed.

Lemma MutexMap_Get_keeps m k j x :
  mm_mutexes m !! j = Some x -> mm_mutexes (MutexMap_Get m k).2 !! j = Some x.
Proof.
  unfold MutexMap_Get. destruct (mm_mutexes m !! k) eqn:Hk; cbn; [done|]. intros Hj.
  rewrite lookup_insert_ne; [done|]. intros <-. congruence.
Qed.

Lemma MutexMap_Get_wf m k : mutexes_wf m -> mutexes_wf (MutexMap_Get m k).2.
Proof.
  intros [Hlt Hinj]. unfold MutexMap_Get. destruct (mm_mutexes m !! k) eqn:Hk; cbn; [done|].
  split; cbn.
  - intros j x. rewrite lookup_insert_Some. intros [[_ <-]|[_ Hj]]; [lia|]. apply Hlt in Hj. lia.
  - intros j j' x. rewrite !lookup_insert_Some.
    intros [[<- <-]|[Hj1 Hj]] [[<- ?]|[Hj1' Hj']]; try done.
    + apply Hlt in Hj'. lia.
    + subst. apply Hlt in Hj. lia.
    + eauto.
Qed.

(** ** Properties *)

(** C27: a link's UID is recovered from its VNI exactly when it fits in 32 bits
    (the VNI of any UID gives back the UID truncated to 32 bits); two UIDs get
    the same VNI exactly when they agree modulo 2^32. *)
Theorem vni_uid_roundtrip (uid uid' : Z) :
  GetUidFromVni (GetVniFromUid uid) = int32 uid /\
  (in_int 32 uid <-> GetUidFromVni (GetVniFromUid uid) = uid) /\
  (GetVniFromUid uid = GetVniFromUid uid' <-> (uid mod 2 ^ 32 = uid' mod 2 ^ 32)%Z).
Proof.
  rewrite !GetUid_GetVni. split_and!; [done|split|split].
  - intros Hu. by apply wrapS_small.
  - intros <-. by apply wrapS_range.
  - intros Heq. apply (f_equal (fun x => x mod 2 ^ 32)%Z) in Heq. rewrite !GetVni_mod in Heq.
    replace uid with (VxlanBase + uid - VxlanBase)%Z by lia.
    replace uid' with (VxlanBase + uid' - VxlanBase)%Z by lia.
    by rewrite Zminus_mod, Heq, <- Zminus_mod.
  - intros Heq. unfold GetVniFromUid. apply wrapS_congr; [lia|].
    pose proof (GetVni_mod uid) as H1. pose proof (GetVni_mod uid') as H2.
    unfold GetVniFromUid in H1, H2. rewrite !wrapS_mod in H1, H2 by lia.
    rewrite H1, H2, Z.add_mod, Heq, <- Z.add_mod; lia.
Qed.

(** The map of link mutexes hands out one mutex per link: asking for any
    key leaves the mutexes of the others in place, the same key gives the same
    mutex again, and different keys give different mutexes. *)
Theorem MutexMap_Get_exclusive (m : MutexMap) (k k' : Z) :
  mutexes_wf m ->
  let '(x, m1) := MutexMap_Get m k in
  let '(y, m2) := MutexMap_Get m1 k' in
  mutexes_wf m2 /\ (x = y <-> k = k') /\ (MutexMap_Get m2 k).1 = x.
Proof.
  intros Hwf. destruct (MutexMap_Get m k) as [x m1] eqn:H1. destruct (MutexMap_Get m1 k') as [y m2] eqn:H2.
  pose proof (MutexMap_Get_stored m k) as S1. pose proof (MutexMap_Get_wf m k Hwf) as W1.
  rewrite H1 in S1, W1; cbn in S1, W1.
  pose proof (MutexMap_Get_stored m1 k') as S2. pose proof (MutexMap_Get_wf m1 k' W1) as W2.
  pose proof (MutexMap_Get_keeps m1 k' k x S1) as K1.
  rewrite H2 in S2, W2, K1; cbn in S2, W2, K1. split_and!; [done|split|].
  - intros <-. by apply (proj2 W2 k k' x).
  - intros <-. congruence.
  - unfold MutexMap_Get. by rewrite K1.
Qed.

Lemma MutexMap_Get_exclusive_witness :
  let '(x, m1) := MutexMap_Get (mkMutexMap ∅ 0) 7 in
  let '(y, m2) := MutexMap_Get m1 8 in
  mutexes_wf m2 /\ (x = y <-> 7%Z = 8%Z) /\ (MutexMap_Get m2 7).1 = x.
Proof. apply (MutexMap_Get_exclusive (mkMutexMap ∅ 0) 7 8). split; cbn; intros *; rewrite lookup_empty; done. Defined.

(** C19: when [SetupVeth] succeeds both ends of the pair exist, whichever of
    them was there before; a pair that is complete is left untouched, a new
    one carries the shaping of the link's properties at both ends, and only
    the two ends and the old other ends of stale interfaces are affected. *)
Theorem SetupVeth_connects `{UnicodeTables, ProtoLib, KernelLaws E}
    (ctx : Ctx) (a b : VEth) (l : pb_Link) (pod : pb_Pod) (e e' : E) :
  SetupVeth ctx a b l pod e = (Val None, e') -> veth_up (tcpIpBypass ctx) (pb_Properties l) a b (view e) (view e').
Proof. intros Hr. by apply (wp_run _ _ _ _ _ (SetupVeth_wp ctx a b l pod e) Hr). Qed.

Definition peer_veth : VEth := mkVEth "/ns/b" "eth1" [] [].

Definition sample_link : pb_Link :=
  mk_pb_Link "r2" "eth1" "eth1" "" "" 1 (Some sample_properties) "" "".

Definition sample_pod : pb_Pod := mk_pb_Pod "r1" "10.0.0.1" "/ns/a" "default" [sample_link].

Definition two_ns : Sim.State := Sim.mkState (Sim.sk_view Qdisc.sample_node) ["/ns/a"; "/ns/b"] [].

Lemma SetupVeth_connects_witness :
  @veth_up Sim.State ascii_tables _ _ _ false (pb_Properties sample_link) sample_veth peer_veth (view two_ns)
    (view (@SetupVeth _ ascii_tables _ _ [] sample_veth peer_veth sample_link sample_pod two_ns).2).
Proof.
  apply (@SetupVeth_connects ascii_tables _ _ _ _ [] sample_veth peer_veth sample_link sample_pod two_ns).
  vm_compute. reflexivity.
Defined.

(** [UpdateRemote] swallows a refusal: a remote daemon that answers false
    without a gRPC error is reported as success, like a link that was set up. *)
Theorem UpdateRemote_swallows_false `{GrpcClient E} (a b : pb_Pod) (l : pb_Link) (e e1 e2 : E) :
  grpc_Dial (remote_url b) e = (None, e1) ->
  grpc_Invoke (remote_url b) "/proto.v1.Remote/Update" (ReqUpdate (remote_payload a b l)) e1
  = (Ok (mk_pb_BoolResponse false), e2) ->
  UpdateRemote a b l e = (Val None, e2).
Proof.
  intros H1 H2. unfold UpdateRemote, remoteClient_Update, stub, bind, call, ret. by rewrite H1, H2.
Qed.

(** A network whose daemons refuse everything. *)
Definition refusing : GrpcClient unit :=
  {| grpc_Dial target e := (None, e);
     grpc_Invoke target method req e := (Ok (mk_pb_BoolResponse false), e) |}.

Lemma UpdateRemote_swallows_false_witness :
  @UpdateRemote _ refusing sample_pod sample_pod sample_link tt = (Val None, tt).
Proof. apply (@UpdateRemote_swallows_false _ refusing sample_pod sample_pod sample_link tt tt tt); reflexivity. Defined.
