(* ===== verification/Vxlan.v ===== *)
(** * VXLAN interfaces

    [daemon/vxlan/vxlan.go] and [daemon/vxlan/manager.go]: making the VXLAN
    interface of a link, finding the node's source interface, removing an
    interface by VNI, and the manager that remembers in which namespace a VNI
    is used.  The manager stores pointers to strings: its memory is modelled
    as cells, so that entries can share one. *)

From stdpp Require Import base strings gmap list.
From Stdlib Require Import ZArith Lia Ascii.
From S2P Require Import Prelude GoStr GoNum GoNet Proto ApiV1 Kernel SimKernel Qdisc.
From S2P Require Import LinkUtil.

Local Open Scope string_scope.

Record VxlanSpec := mkVxlanSpec {
  vs_NetNs : string;
  vs_IntfName : string;
  vs_IntfIp : string;
  vs_PeerVtep : string;
  vs_Vni : Z;
  vs_SrcIp : string;
  vs_SrcIntf : string
}.

Section Vxlan.
  Context {E : Type} `{UnicodeTables, ProtoLib, Kernel E}.
  Local Open Scope go_scope.

(** [nil] when the namespace or the interface is missing. *)
Definition getLinkFromNS (nsName linkName : string) : go E (option nl_link) :=
  vethNs <- call (ns_GetNS nsName) ;;
  match vethNs with
  | Err _ => ret None
  | Ok n =>
      err <- call (ns_Set n) ;;
      match err with
      | Some _ => ret None
      | None =>
          r <- call (nl_LinkByName n linkName) ;;
          match r with
          | Ok link => ret (Some link)
          | Err _ => ret None
          end
      end
  end.

(** The first interface one of whose addresses is [nIP]. *)
Definition find_iface (nIP : IP) (ifaces : list Interface) : option Interface :=
  List.find (fun i => existsb (fun ip => IP_Equal nIP ip) (if_Addrs i)) ifaces.

Definition GetVxlanSource (nodeIP : string) : go E (result (string * string)) :=
  if String.eqb nodeIP "" then ret (Err (errorf "kubedtnd provided no HOST_IP address: "))
  else
    match ParseIP nodeIP with
    | [] => ret (Err (errorf ("parsing failed for kubedtnd provided no HOST_IP address: " ++ nodeIP)))
    | nIP =>
        ifaces <- call net_Interfaces ;;
        match find_iface nIP ifaces with
        | Some i => ret (Ok (nodeIP, if_Name i))
        | None => ret (Err (errorf ("no iface found for address " ++ nodeIP)))
        end
    end.

Definition GetDefaultVxlanSource : go E (result (string * string)) :=
  '(r, err) <- call (nl_RouteGet (IPv4 1 1 1 1)) ;;
  match err, r with
  | Some e, [] => ret (Err (errorf ("error getting default route: " ++ err_msg e ++ String "010"%char "[]")))
  | None, [] => panic "index out of range [0] with length 0"
  | _, r0 :: _ =>
      let srcIP := IP_String (route_Src r0) in
      link <- call (nl_LinkByIndex (route_LinkIndex r0)) ;;
      match link with
      | Err e => ret (Err (errorf ("error looking up link by its index: " ++ err_msg e)))
      | Ok link => ret (Ok (srcIP, nl_Name link))
      end
  end.

Definition vxlanEqual (VxlanId : Z) (Group : IP) (l2 : VxLan) : bool :=
  if negb (VxlanId =? vx_ID l2)%Z then false
  else if negb (IP_Equal Group (vx_IPAddr l2)) then false
  else true.

(** The loop of [RemoveLinkWithVni]: deletes the first VXLAN with the VNI. *)
Fixpoint remove_vni (n : NetNS) (vni : Z) (links : list nl_link) : go E (option error) :=
  match links with
  | [] => ret None
  | link :: rest =>
      match nl_Kind link with
      | NlVxlan id _ =>
          if (int32 id =? vni)%Z then
            err <- call (nl_LinkDel n link) ;;
            match err with
            | Some e => ret (Some (errorf ("error deleting vxlan link: " ++ err_msg e)))
            | None => ret None
            end
          else remove_vni n vni rest
      | NlOther _ => remove_vni n vni rest
      end
  end.

Definition RemoveLinkWithVni (vni : Z) (netns : string) : go E (option error) :=
  vethNs <- call (ns_GetNS netns) ;;
  match vethNs with
  | Err e => ret (Some e)
  | Ok n =>
      ns_Do n (
        links <- call (nl_LinkList n) ;;
        match links with
        | Err e => ret (Some (errorf ("error listing links: " ++ err_msg e)))
        | Ok links => remove_vni n vni links
        end)
  end.

(** The part of [CreateOrUpdate] that looks up the source interface. *)
Definition vxlan_source (v : VxlanSpec) : go E (result (string * string)) :=
  if String.eqb (vs_SrcIntf v) "" then
    if String.eqb (vs_SrcIp v) "" then GetDefaultVxlanSource else GetVxlanSource (vs_SrcIp v)
  else ret (Ok (vs_SrcIp v, vs_SrcIntf v)).

Definition vxlan_veth (v : VxlanSpec) : result VEth :=
  if negb (String.eqb (vs_IntfIp v) "") then
    match ParseCIDR (vs_IntfIp v) with
    | None => Err (errorf ("error parsing CIDR " ++ vs_IntfIp v ++ ": invalid CIDR address: " ++ vs_IntfIp v))
    | Some (ipAddr, mask) => Ok (mkVEth (vs_NetNs v) (vs_IntfName v) [mkIPNet ipAddr mask] [])
    end
  else Ok (mkVEth (vs_NetNs v) (vs_IntfName v) [] []).

(** The part that makes the interface, once no interface has its name. *)
Definition make_vxlan (v : VxlanSpec) (veth : VEth) (vxlan : VxLan) : go E (result VEth) :=
  err <- call (koko_MakeVxLan veth vxlan) ;;
  match err with
  | None => ret (Ok veth)
  | Some e =>
      if Contains (err_msg e) "file exists" then
        e' <- RemoveLinkWithVni (vs_Vni v) (NsName veth) ;;
        match e' with
        | Some _ => ret (Err e)
        | None =>
            err <- call (koko_MakeVxLan veth vxlan) ;;
            match err with
            | Some e => ret (Err (errorf ("error when creating a Vxlan interface with koko: " ++ err_msg e)))
            | None => ret (Ok veth)
            end
        end
      else ret (Err (errorf ("error when creating a Vxlan interface with koko: " ++ err_msg e)))
  end.

Definition CreateOrUpdate (v : VxlanSpec) : go E (result VEth) :=
  src <- vxlan_source v ;;
  match src with
  | Err e => ret (Err e)
  | Ok (srcIP, srcIntf) =>
      match vxlan_veth v with
      | Err e => ret (Err e)
      | Ok veth =>
          let vxlan := mkVxLan srcIntf (ParseIP (vs_PeerVtep v)) (vs_Vni v) in
          link <- getLinkFromNS (NsName veth) (LinkName veth) ;;
          match link with
          | Some l =>
              match nl_Kind l with
              | NlVxlan id grp =>
                  if vxlanEqual id grp vxlan then ret (Ok veth)
                  else
                    err <- call (koko_RemoveVethLink veth) ;;
                    match err with
                    | Some e => ret (Err (errorf ("error when removing an old Vxlan interface with koko: " ++ err_msg e)))
                    | None => make_vxlan v veth vxlan
                    end
              | NlOther _ =>
                  err <- call (koko_RemoveVethLink veth) ;;
                  match err with
                  | Some e => ret (Err (errorf ("error when removing an old non-Vxlan interface with koko: " ++ err_msg e)))
                  | None => make_vxlan v veth vxlan
                  end
              end
          | None => make_vxlan v veth vxlan
          end
      end
  end.

Definition SetupVxLan (ctx : Ctx) (v : VxlanSpec) (properties : option pb_LinkProperties)
  : go E (option error) :=
  veth <- CreateOrUpdate v ;;
  match veth with
  | Err e => ret (Some e)
  | Ok veth =>
      match MakeQdiscs properties with
      | Err e => ret (Some e)
      | Ok qdiscs =>
          err <- SetVethQdiscs ctx veth qdiscs ;;
          match err with
          | Some e => ret (Some e)
          | None => ret None
          end
      end
  end.

End Vxlan.

(** ** The manager *)

(** VNI to the cell that holds the namespace, and the cells. *)
Record VxlanManager := mkVxlanManager {
  vxlans : gmap Z nat;
  cells : gmap nat string;
  fresh_cell : nat
}.

Definition NewVxlanManager : VxlanManager := mkVxlanManager ∅ ∅ 0.

(** A variable whose address is taken. *)
Definition new_cell (s : string) (m : VxlanManager) : nat * VxlanManager :=
  (fresh_cell m, mkVxlanManager (vxlans m) (<[fresh_cell m := s]> (cells m)) (S (fresh_cell m))).

Definition set_cell (c : nat) (s : string) (m : VxlanManager) : VxlanManager :=
  mkVxlanManager (vxlans m) (<[c := s]> (cells m)) (fresh_cell m).

Definition VxlanManager_Add (vni : Z) (netns : nat) (m : VxlanManager) : VxlanManager :=
  mkVxlanManager (<[vni := netns]> (vxlans m)) (cells m) (fresh_cell m).

Definition VxlanManager_Delete (vni : Z) (m : VxlanManager) : VxlanManager :=
  mkVxlanManager (delete vni (vxlans m)) (cells m) (fresh_cell m).

(** [Get] and the dereference that follows it: [None] is the nil pointer. *)
Definition VxlanManager_Get (vni : Z) (m : VxlanManager) : option nat := vxlans m !! vni.

Definition deref (m : VxlanManager) (c : nat) : string := default "" (cells m !! c).

Section Init.
  Context {E : Type} `{Kernel E}.
  Local Open Scope go_scope.

(** Stores the loop variable's field for every VXLAN of the namespace. *)
Definition store_vxlans (topology : nat) (links : list nl_link) (m : VxlanManager) : VxlanManager :=
  foldl (fun m link =>
           match nl_Kind link with
           | NlVxlan id _ => VxlanManager_Add (int32 id) topology m
           | NlOther _ => m
           end) m links.

(** The loop of [Init]; [topology] is the cell of the loop variable's
    [Status.NetNs], which each iteration overwrites. *)
Fixpoint init_loop (topology : nat) (items : list Topology) : go (E * VxlanManager) unit :=
  match items with
  | [] => ret tt
  | item :: rest =>
      on_st (set_cell topology (NetNs (Status item))) ;;
      (if String.eqb (NetNs (Status item)) "" then ret tt
       else
         vethNs <- on_ext (ns_GetNS (NetNs (Status item))) ;;
         match vethNs with
         | Err _ => ret tt
         | Ok n =>
             err <- on_ext (ns_Set n) ;;
             match err with
             | Some _ => ret tt
             | None =>
                 links <- on_ext (nl_LinkList n) ;;
                 match links with
                 | Err _ => ret tt
                 | Ok links => on_st (store_vxlans topology links)
                 end
             end
         end) ;;
      init_loop topology rest
  end.

Definition VxlanManager_Init (topologies : list Topology) : go (E * VxlanManager) unit :=
  m <- get_st ;;
  let '(topology, m) := new_cell "" m in
  on_st (fun _ => m) ;;
  init_loop topology topologies.

End Init.

(** ** Lemmas *)

Lemma IP_Equal_refl ip : IP_Equal ip ip = true.
Proof. unfold IP_Equal, bytes_eqb. rewrite Nat.eqb_refl. by apply bool_decide_true. Qed.

(** The interface of a spec: a VXLAN with its VNI, to its peer. *)
Definition is_vxlan_of (v : VxlanSpec) (k : option nl_kind) : Prop :=
  exists grp, k = Some (NlVxlan (vs_Vni v) grp) /\ IP_Equal grp (ParseIP (vs_PeerVtep v)) = true.

Definition spec_key (v : VxlanSpec) : string * string := (vs_NetNs v, vs_IntfName v).

Lemma vxlanEqual_true id grp x : vxlanEqual id grp x = true -> id = vx_ID x /\ IP_Equal grp (vx_IPAddr x) = true.
Proof. unfold vxlanEqual. destruct (Z.eqb_spec id (vx_ID x)), (IP_Equal grp _); cbn; done. Qed.

Lemma vxlan_veth_key v veth : vxlan_veth v = Ok veth -> veth_key veth = spec_key v.
Proof. unfold vxlan_veth. repeat case_goal; intros [= <-]; done. Qed.

Section VxlanProofs.
  Context {E : Type} `{UT : UnicodeTables, PL : ProtoLib, KL : KernelLaws E}.
  Implicit Types (e : E).

Lemma getLinkFromNS_wp ns name e :
  wp (getLinkFromNS ns name)
     (fun r e' => view e' = view e /\
        (forall l, r = Some l -> links (view e) !! (ns, name) = Some (nl_Kind l))) e.
Proof.
  unfold getLinkFromNS. wp_call as r e1 C1. apply law_GetNS in C1 as [V1 Hn].
  destruct r as [n|er]; [|wp_step; done]. rewrite (Hn n eq_refl).
  wp_call as [er|] e2 C2; apply law_Set in C2; [wp_step; split; [congruence|done]|].
  wp_call as r e3 C3. apply law_LinkByName in C3 as [V3 Hl].
  destruct r as [l|er]; wp_step; split; [congruence| |congruence|done].
  intros l' [= <-]. destruct (Hl l eq_refl) as (_ & <- & _). congruence.
Qed.

Lemma remove_vni_wp n vni ls e :
  (forall l, l ∈ ls -> links (view e) !! (n, nl_Name l) = Some (nl_Kind l)) ->
  wp (remove_vni n vni ls)
     (fun r e' => r = None ->
        (view e' = view e /\ forall l id grp, l ∈ ls -> nl_Kind l = NlVxlan id grp -> int32 id <> vni) \/
        (exists name id grp, links (view e) !! (n, name) = Some (NlVxlan id grp) /\ int32 id = vni /\
                             links (view e') = unlink (view e) (n, name))) e.
Proof.
  intros Hls. induction ls as [|l ls IH]; cbn [remove_vni].
  - wp_step. intros _. left. split; [done|]. intros l id grp Hl. by apply elem_of_nil in Hl.
  - assert (wp (remove_vni n vni ls) (fun r e' => r = None ->
        (view e' = view e /\ forall l id grp, l ∈ ls -> nl_Kind l = NlVxlan id grp -> int32 id <> vni) \/
        (exists name id grp, links (view e) !! (n, name) = Some (NlVxlan id grp) /\ int32 id = vni /\
                             links (view e') = unlink (view e) (n, name))) e) as IH'.
    { apply IH. intros l' Hl'. apply Hls. by apply elem_of_cons; right. }
    destruct (nl_Kind l) as [id grp|ty] eqn:Hk.
    + destruct (Z.eqb_spec (int32 id) vni) as [Heq|Hne].
      * wp_call as [er|] e1 C1; wp_step; [done|]. intros _. right. apply law_LinkDel in C1 as [C1 _].
        exists (nl_Name l), id, grp. split_and!; [|done|done]. rewrite <- Hk. apply Hls, elem_of_cons. by left.
      * wp_use IH' as r e1 H1. intros Hr. destruct (H1 Hr) as [[V1 Hno]|Hyes]; [left|by right].
        split; [done|]. intros l' id' grp' [->|Hl']%elem_of_cons Hk'; [congruence|eauto].
    + wp_use IH' as r e1 H1. intros Hr. destruct (H1 Hr) as [[V1 Hno]|Hyes]; [left|by right].
      split; [done|]. intros l' id' grp' [->|Hl']%elem_of_cons Hk'; [congruence|eauto].
Qed.

(** At most one VXLAN of the namespace has the VNI. *)
Definition vni_unique (v : net_view) (n : string) (vni : Z) : Prop :=
  forall a b i j g h, links v !! (n, a) = Some (NlVxlan i g) -> links v !! (n, b) = Some (NlVxlan j h) ->
    int32 i = vni -> int32 j = vni -> a = b.

Definition vni_absent (v : net_view) (n : string) (vni : Z) : Prop :=
  forall a i g, links v !! (n, a) = Some (NlVxlan i g) -> int32 i <> vni.

Lemma unlink_subseteq v k : unlink v k ⊆ links v.
Proof.
  unfold unlink. etrans; [apply delete_subseteq|]. repeat case_match; first [apply delete_subseteq|done].
Qed.

Lemma unlink_gone v k : unlink v k !! k = None.
Proof. unfold unlink. apply lookup_delete_eq. Qed.

Lemma RemoveLinkWithVni_wp vni n e :
  wp (RemoveLinkWithVni vni n)
     (fun r e' => links (view e') = links (view e) \/ r <> None \/
        (exists name id grp, links (view e) !! (n, name) = Some (NlVxlan id grp) /\ int32 id = vni /\
                             links (view e') = unlink (view e) (n, name))) e.
Proof.
  unfold RemoveLinkWithVni, ns_Do. wp_call as r e1 C1. apply law_GetNS in C1 as [V1 Hn].
  destruct r as [n'|er]; [|wp_step; auto]. rewrite (Hn n' eq_refl).
  wp_call as [er|] e2 C2; apply law_Set in C2; [wp_step; auto|].
  wp_call as r e3 C3. apply law_LinkList in C3 as [V3 Hl].
  destruct r as [ls|er]; [|wp_step; auto].
  wp_use remove_vni_wp as r e4 H4.
  - intros l Hin. rewrite V3. apply (Hl ls eq_refl). eauto.
  - destruct r as [er|]; [by auto|]. destruct (H4 eq_refl) as [[V4 _]|Hx].
    + left. congruence.
    + right; right. replace (view e) with (view e3) by congruence. done.
Qed.

Lemma RemoveLinkWithVni_absent vni n e :
  vni_unique (view e) n vni ->
  wp (RemoveLinkWithVni vni n) (fun r e' => r = None -> vni_absent (view e') n vni) e.
Proof.
  intros Hu. unfold RemoveLinkWithVni, ns_Do. wp_call as r e1 C1. apply law_GetNS in C1 as [V1 Hn].
  destruct r as [n'|er]; [|by wp_step]. rewrite (Hn n' eq_refl).
  wp_call as [er|] e2 C2; apply law_Set in C2; [by wp_step|].
  wp_call as r e3 C3. apply law_LinkList in C3 as [V3 Hl]. assert (view e3 = view e) as V by congruence.
  destruct r as [ls|er]; [|by wp_step].
  wp_use remove_vni_wp as r e4 H4.
  - intros l Hin. rewrite V3. apply (Hl ls eq_refl). eauto.
  - intros Hr. destruct (H4 Hr) as [[V4 Hno]|(name & id & grp & Hin & Hid & Hdel)]; intros a i g Ha.
    + rewrite V4, V3 in Ha. apply (Hl ls eq_refl) in Ha as (l & Hin & <- & Hk). eauto.
    + intros Hi. rewrite Hdel in Ha. pose proof (lookup_weaken _ _ _ _ Ha (unlink_subseteq _ _)) as Hw.
      rewrite V in Hin, Hw. assert (a = name) as -> by eauto. by rewrite unlink_gone in Ha.
Qed.

Lemma make_vxlan_wp v veth x e :
  wp (make_vxlan v veth x)
     (fun r e' => forall veth', r = Ok veth' ->
        veth' = veth /\ links (view e') !! veth_key veth = Some (NlVxlan (vx_ID x) (vx_IPAddr x))) e.
Proof.
  unfold make_vxlan. wp_call as [er|] e1 C1.
  - wp_step; [|by wp_step]. wp_use RemoveLinkWithVni_wp as [er'|] e2 H2; [by wp_step|].
    wp_call as [er'|] e3 C3; wp_step; [done|]. intros veth' [= <-]. split; [done|].
    destruct (law_MakeVxLan _ _ _ _ C3) as [-> _]. apply lookup_insert_eq.
  - wp_step. intros veth' [= <-]. split; [done|].
    destruct (law_MakeVxLan _ _ _ _ C1) as [-> _]. apply lookup_insert_eq.
Qed.

Lemma CreateOrUpdate_wp v e :
  vs_SrcIntf v <> "" ->
  wp (CreateOrUpdate v)
     (fun r e' => forall veth, r = Ok veth ->
        vxlan_veth v = Ok veth /\ is_vxlan_of v (links (view e') !! spec_key v)) e.
Proof.
  intros Hs. unfold CreateOrUpdate, vxlan_source.
  destruct (String.eqb_spec (vs_SrcIntf v) "") as [|_]; [done|]. wp_step. wp_step.
  destruct (vxlan_veth v) as [veth|er] eqn:Hveth; [|by wp_step].
  pose proof (vxlan_veth_key _ _ Hveth) as Hv.
  assert (forall e1, wp (make_vxlan v veth (mkVxLan (vs_SrcIntf v) (ParseIP (vs_PeerVtep v)) (vs_Vni v)))
     (fun r e' => forall veth', r = Ok veth' ->
        Ok veth = Ok veth' /\ is_vxlan_of v (links (view e') !! spec_key v)) e1) as Hmake.
  { intros e1. wp_use make_vxlan_wp as r e2 H2. intros veth' Hr. destruct (H2 _ Hr) as [-> Hl].
    split; [done|]. rewrite Hv in Hl. eexists. split; [exact Hl|apply IP_Equal_refl]. }
  wp_use getLinkFromNS_wp as r e1 [V1 Hl]. destruct r as [l|]; [|apply Hmake].
  specialize (Hl l eq_refl). fold (veth_key veth) in Hl. rewrite Hv in Hl.
  destruct (nl_Kind l) as [id grp|ty] eqn:Hk.
  - destruct (vxlanEqual id grp _) eqn:Heq.
    + wp_step. intros veth' [= <-]. split; [done|]. apply vxlanEqual_true in Heq as [Hid Hg].
      cbn in Hid, Hg. subst. rewrite V1. by exists grp.
    + wp_call as [er|] e2 C2; [by wp_step|apply Hmake].
  - wp_call as [er|] e2 C2; [by wp_step|apply Hmake].
Qed.

Lemma SetupVxLan_wp ctx v p e :
  vs_SrcIntf v <> "" ->
  wp (SetupVxLan ctx v p)
     (fun r e' => r = None -> is_vxlan_of v (links (view e') !! spec_key v) /\
        shaped (view e') (spec_key v) (tcpIpBypass ctx) p) e.
Proof.
  intros Hs. unfold SetupVxLan. wp_use CreateOrUpdate_wp as [veth|er] e1 H1; [done| |by wp_step].
  destruct (H1 _ eq_refl) as [Hveth Hl]. apply vxlan_veth_key in Hveth.
  destruct (MakeQdiscs p) as [qs|er] eqn:Hq; [|by wp_step].
  wp_use SetVethQdiscs_shaped as [er|] e2 S2; [exact Hq|by wp_step|]. wp_step. intros _.
  destruct (S2 eq_refl) as [(L2 & _) Sh]. rewrite L2. split; [exact Hl|]. by rewrite <- Hveth.
Qed.

(** *** Other tunnels *)

Lemma remove_vni_keeps n vni ls k id e :
  (forall l, l ∈ ls -> links (view e) !! (n, nl_Name l) = Some (nl_Kind l)) -> int32 id <> vni ->
  wp (remove_vni n vni ls) (fun _ e' => keeps_vxlan k id (view e) (view e')) e.
Proof.
  intros Hls Hid. induction ls as [|l ls IH]; cbn [remove_vni]; [wp_step; by apply keeps_vxlan_view|].
  assert (wp (remove_vni n vni ls) (fun _ e' => keeps_vxlan k id (view e) (view e')) e) as Hrest.
  { apply IH. intros l' Hl'. apply Hls. by apply elem_of_cons; right. }
  destruct (nl_Kind l) as [i grp|ty] eqn:Hk; [|exact Hrest].
  destruct (Z.eqb_spec (int32 i) vni) as [Hi|_]; [|exact Hrest].
  wp_call as [er|] e1 C1; wp_step; [by apply keeps_vxlan_links; apply law_LinkDel_fail in C1 as []|].
  intros g Hg. apply law_LinkDel in C1 as [C1 St]. apply (keeps_vxlan_unlink _ _ _ _ _ C1 St); [|exact Hg].
  intros ->. rewrite (Hls l) in Hg by (apply elem_of_cons; by left). congruence.
Qed.

Lemma RemoveLinkWithVni_keeps vni n k id e :
  int32 id <> vni -> wp (RemoveLinkWithVni vni n) (fun _ e' => keeps_vxlan k id (view e) (view e')) e.
Proof.
  intros Hid. unfold RemoveLinkWithVni, ns_Do. wp_call as r e1 C1. apply law_GetNS in C1 as [V1 Hn].
  destruct r as [n'|er]; [|wp_step; apply keeps_vxlan_view; congruence]. rewrite (Hn n' eq_refl).
  wp_call as [er|] e2 C2; apply law_Set in C2; [wp_step; apply keeps_vxlan_view; congruence|].
  wp_call as r e3 C3. apply law_LinkList in C3 as [V3 Hl]. assert (view e3 = view e) as V by congruence.
  destruct r as [ls|er]; [|wp_step; apply keeps_vxlan_view; congruence].
  rewrite <- V. apply remove_vni_keeps; [|done]. intros l Hin. rewrite V3. apply (Hl ls eq_refl). eauto.
Qed.

Lemma make_vxlan_keeps v veth x k id e :
  k <> veth_key veth -> int32 id <> vs_Vni v ->
  wp (make_vxlan v veth x) (fun _ e' => keeps_vxlan k id (view e) (view e')) e.
Proof.
  intros Hk Hid. assert (forall e r e', koko_MakeVxLan veth x e = (r, e') -> keeps_vxlan k id (view e) (view e')) as Hmake.
  { intros e0 [er|] e' C; [apply law_MakeVxLan_fail in C as [L St]; apply keeps_vxlan_steady; [done|]; intros grp Hg; by eapply lookup_weaken|].
    apply law_MakeVxLan in C as [L St]. by apply (keeps_vxlan_insert _ _ _ _ _ _ L St). }
  unfold make_vxlan. wp_call as [er|] e1 C1; apply Hmake in C1; [|by wp_step]. wp_step; [|by wp_step].
  wp_use RemoveLinkWithVni_keeps as [er'|] e2 H2; [exact Hid|wp_step; by eapply keeps_vxlan_trans|].
  wp_call as [er'|] e3 C3; apply Hmake in C3; wp_step;
    (eapply keeps_vxlan_trans; [exact C1|by eapply keeps_vxlan_trans]).
Qed.

Lemma CreateOrUpdate_keeps v k id e :
  vs_SrcIntf v <> "" -> k <> spec_key v -> int32 id <> vs_Vni v ->
  wp (CreateOrUpdate v) (fun _ e' => keeps_vxlan k id (view e) (view e')) e.
Proof.
  intros Hs Hk Hid. unfold CreateOrUpdate, vxlan_source.
  destruct (String.eqb_spec (vs_SrcIntf v) "") as [|_]; [done|]. wp_step. wp_step.
  destruct (vxlan_veth v) as [veth|er] eqn:Hveth; [|wp_step; by apply keeps_vxlan_view].
  rewrite <- (vxlan_veth_key _ _ Hveth) in Hk.
  assert (forall x e1, keeps_vxlan k id (view e) (view e1) ->
    wp (make_vxlan v veth x) (fun _ e' => keeps_vxlan k id (view e) (view e')) e1) as Hmake.
  { intros x e1 H1. wp_use make_vxlan_keeps as r e2 H2; [done..|]. by eapply keeps_vxlan_trans. }
  wp_use getLinkFromNS_wp as r e1 [V1 _]. apply (keeps_vxlan_view k id) in V1.
  assert (forall e2 r, koko_RemoveVethLink veth e1 = (r, e2) -> keeps_vxlan k id (view e) (view e2)) as Hrem.
  { intros e2 r2 C2. eapply keeps_vxlan_trans; [exact V1|by eapply RemoveVethLink_keeps]. }
  destruct r as [l|]; [|by apply Hmake]. destruct (nl_Kind l) as [i grp|ty].
  - destruct (vxlanEqual i grp _); [by wp_step|].
    wp_call as [er|] e2 C2; apply Hrem in C2; [by wp_step|by apply Hmake].
  - wp_call as [er|] e2 C2; apply Hrem in C2; [by wp_step|by apply Hmake].
Qed.

(** Setting up a tunnel leaves the VXLANs of other names and other VNIs alone,
    with their shaping, whether it succeeds or not. *)
Lemma SetupVxLan_keeps ctx v p k id e :
  vs_SrcIntf v <> "" -> k <> spec_key v -> int32 id <> vs_Vni v ->
  wp (SetupVxLan ctx v p) (fun _ e' => keeps_vxlan k id (view e) (view e')) e.
Proof.
  intros Hs Hk Hid. unfold SetupVxLan.
  apply wp_bind. eapply wp_mono; [apply (wp_and _ _ _ _ (CreateOrUpdate_keeps v k id e Hs Hk Hid) (CreateOrUpdate_wp v e Hs))|].
  intros [veth|er] e1 [H1 Hv]; [|by wp_step]. destruct (Hv _ eq_refl) as [Hveth _]. apply vxlan_veth_key in Hveth.
  destruct (MakeQdiscs p) as [qs|er] eqn:Hq; [|by wp_step].
  wp_use SetVethQdiscs_keeps as r e2 H2; [exact Hq|by rewrite Hveth|].
  destruct r; wp_step; by eapply keeps_vxlan_trans.
Qed.

End VxlanProofs.

Section InitProofs.
  Context {E : Type} `{Kernel E}.
  Implicit Types (s : E * VxlanManager).

(** Every entry points to cell [c], which holds [x]. *)
Definition all_alias (c : nat) (x : string) (m : VxlanManager) : Prop :=
  (forall vni y, vxlans m !! vni = Some y -> y = c) /\ cells m !! c = Some x.

Lemma store_vxlans_alias c x ls m : all_alias c x m -> all_alias c x (store_vxlans c ls m).
Proof.
  unfold store_vxlans. revert m. induction ls as [|l ls IH]; intros m Hm; cbn; [done|]. apply IH.
  destruct (nl_Kind l); [|done]. destruct Hm as [Hv Hc]. split; [|done]. cbn.
  intros vni y [[_ <-]|[_ Hy]]%lookup_insert_Some; eauto.
Qed.

Lemma init_loop_wp c x items s :
  all_alias c x s.2 ->
  wp (init_loop c items)
     (fun _ s' => all_alias c (default x ((fun t => NetNs (Status t)) <$> last items)) s'.2) s.
Proof.
  revert x s. induction items as [|t items IH]; intros x s Hs; cbn [init_loop]; [by wp_step|].
  assert (forall s1, all_alias c (NetNs (Status t)) s1.2 ->
    wp (init_loop c items)
     (fun _ s' => all_alias c (default x ((fun t => NetNs (Status t)) <$> last (t :: items))) s'.2) s1) as Hk.
  { intros s1 H1. wp_use IH as ? s2 H2; [exact H1|].
    destruct items as [|u items']; [done|]. rewrite last_cons_cons.
    destruct (last (u :: items')) eqn:Hl; [done|]. by apply last_None in Hl. }
  assert (all_alias c (NetNs (Status t)) (set_cell c (NetNs (Status t)) s.2)) as Hset.
  { split; [apply Hs|]. apply lookup_insert_eq. }
  do 3 wp_step.
  destruct (String.eqb (NetNs (Status t)) ""); [wp_step; by apply Hk|].
  wp_step. apply wp_ext. intros [n|er] e1 _; cbn [fst snd]; [|wp_step; by apply Hk].
  wp_step. apply wp_ext. intros [er|] e2 _; cbn [fst snd]; [wp_step; by apply Hk|].
  wp_step. apply wp_ext. intros [ls|er] e3 _; cbn [fst snd]; [|wp_step; by apply Hk].
  wp_step. apply Hk. by apply store_vxlans_alias.
Qed.

End InitProofs.

(** ** Properties *)

(** C18: when [SetupVxLan] succeeds, the interface the spec names exists in its
    namespace and is a VXLAN with the spec's VNI towards the peer's VTEP,
    whatever interface had that name or VNI before, and it carries the shaping
    the properties ask for; it does not panic once the source interface is
    known. *)
Theorem SetupVxLan_establishes `{UnicodeTables, ProtoLib, KernelLaws E}
    (ctx : Ctx) (v : VxlanSpec) (p : option pb_LinkProperties) (e : E) :
  vs_SrcIntf v <> "" ->
  exists r e', SetupVxLan ctx v p e = (Val r, e') /\
    (r = None -> is_vxlan_of v (links (view e') !! spec_key v) /\
       shaped (view e') (spec_key v) (tcpIpBypass ctx) p).
Proof. intros Hs. apply wp_exists, (SetupVxLan_wp ctx v p e Hs). Qed.

Definition sample_spec : VxlanSpec := mkVxlanSpec "/ns/a" "eth1" "10.0.0.1/24" "192.168.0.2" 5001 "192.168.0.1" "ens3".

Lemma SetupVxLan_establishes_witness :
  exists r e', @SetupVxLan _ ascii_tables _ _ [] sample_spec (Some sample_properties) sample_node = (Val r, e') /\
    (r = None -> is_vxlan_of sample_spec (links (view e') !! spec_key sample_spec) /\
       @shaped _ _ _ ascii_tables _ (view e') (spec_key sample_spec) false (Some sample_properties)).
Proof. apply (@SetupVxLan_establishes ascii_tables _ _ _ _ [] sample_spec). discriminate. Defined.

(** Creating a VXLAN interface again is harmless: when the interface of a
    successful run is found by the next one, that run succeeds with the same
    result and changes nothing. *)
Theorem CreateOrUpdate_idempotent `{KernelLaws E}
    (v : VxlanSpec) (veth : VEth) (e e1 e2 : E) (l : nl_link) :
  vs_SrcIntf v <> "" ->
  CreateOrUpdate v e = (Val (Ok veth), e1) ->
  getLinkFromNS (vs_NetNs v) (vs_IntfName v) e1 = (Val (Some l), e2) ->
  CreateOrUpdate v e1 = (Val (Ok veth), e2) /\ view e2 = view e1.
Proof.
  intros Hs Hr Hg. pose proof (wp_run _ _ _ _ _ (CreateOrUpdate_wp v e Hs) Hr) as Hv.
  destruct (Hv veth eq_refl) as [Hveth (grp & Hl & Hgrp)].
  destruct (wp_run _ _ _ _ _ (getLinkFromNS_wp _ _ e1) Hg) as [V2 Hk].
  split; [|done]. specialize (Hk l eq_refl). unfold spec_key in Hl. rewrite Hl in Hk.
  pose proof (vxlan_veth_key _ _ Hveth) as Hkey.
  unfold CreateOrUpdate, vxlan_source. destruct (String.eqb_spec (vs_SrcIntf v) ""); [done|].
  erewrite (bind_run (ret _)) by reflexivity. cbv beta iota. rewrite Hveth. cbv beta iota zeta.
  unfold veth_key, spec_key in Hkey. injection Hkey as Hn1 Hn2. rewrite Hn1, Hn2, (bind_run _ _ _ _ _ Hg).
  injection Hk as <-. unfold vxlanEqual. cbn. by rewrite Z.eqb_refl, Hgrp.
Qed.

(** The state after a first run of the sample. *)
Definition after_first : Sim.State := (@CreateOrUpdate _ _ sample_spec sample_node).2.

Lemma CreateOrUpdate_idempotent_witness :
  exists veth, CreateOrUpdate sample_spec after_first = (Val (Ok veth), after_first) /\
    view after_first = view after_first.
Proof.
  eexists. eapply (@CreateOrUpdate_idempotent _ _ _ sample_spec _ sample_node after_first after_first).
  - discriminate.
  - vm_compute. reflexivity.
  - vm_compute. reflexivity.
Defined.

(** When [RemoveLinkWithVni] succeeds, no VXLAN with the VNI is left in the
    namespace (which holds at most one before), and nothing was added. *)
Theorem RemoveLinkWithVni_removes `{KernelLaws E} (vni : Z) (n : string) (e e' : E) :
  vni_unique (view e) n vni ->
  RemoveLinkWithVni vni n e = (Val None, e') ->
  vni_absent (view e') n vni /\ links (view e') ⊆ links (view e).
Proof.
  intros Hu Hr. split; [by apply (wp_run _ _ _ _ _ (RemoveLinkWithVni_absent vni n e Hu) Hr)|].
  destruct (wp_run _ _ _ _ _ (RemoveLinkWithVni_wp vni n e) Hr) as [->|[Hn|(name & id & grp & _ & _ & ->)]];
    [done|done|apply unlink_subseteq].
Qed.

Definition one_vxlan : Sim.State :=
  Sim.mkState (Sim.add_link ("/ns/a", "eth1") (NlVxlan 5001 (ParseIP "192.168.0.2")) Sim.empty_view) ["/ns/a"] [].

Lemma RemoveLinkWithVni_removes_witness :
  let e' := (RemoveLinkWithVni 5001 "/ns/a" one_vxlan).2 in
  vni_absent (view e') "/ns/a" 5001 /\ links (view e') ⊆ links (view one_vxlan).
Proof.
  apply (RemoveLinkWithVni_removes 5001 "/ns/a" one_vxlan).
  - intros a b i j g h Ha Hb _ _. cbn in Ha, Hb.
    apply lookup_insert_Some in Ha as [[[= <-] _]|[_ Ha]]; [|by rewrite lookup_empty in Ha].
    apply lookup_insert_Some in Hb as [[[= <-] _]|[_ Hb]]; [done|by rewrite lookup_empty in Hb].
  - vm_compute. reflexivity.
Defined.

(** C40: after [Init] every VNI of the manager is recorded in the namespace of
    the last topology of the list, even of one that was skipped: the entries
    are pointers to a field of the shared loop variable. *)
Theorem VxlanManager_Init_aliases `{Kernel E} (items : list Topology) (t : Topology) (e : E) :
  exists s', VxlanManager_Init (items ++ [t])%list (e, NewVxlanManager) = (Val tt, s') /\
    forall vni c, VxlanManager_Get vni s'.2 = Some c -> deref s'.2 c = NetNs (Status t).
Proof.
  assert (wp (VxlanManager_Init (items ++ [t])%list)
    (fun _ s' => all_alias 0 (NetNs (Status t)) s'.2) (e, NewVxlanManager)) as Hw.
  { unfold VxlanManager_Init. wp_step. wp_step. unfold new_cell. cbv beta iota. wp_step. wp_step.
    wp_use (init_loop_wp 0 "") as ? s' Hs.
    - split; [|apply lookup_insert_eq]. cbn. intros vni y Hy. by rewrite lookup_empty in Hy.
    - rewrite last_snoc in Hs. exact Hs. }
  apply wp_exists in Hw as ([] & s' & Hr & [Hv Hc]). exists s'. split; [done|].
  intros vni c Hg. unfold deref. apply Hv in Hg as ->. by rewrite Hc.
Qed.
