(* ===== verification/Decode.v ===== *)
(** * Decoding frames for the log

    [DecodeFrame], [DecodePkt], [decodeIPv4Pkt] and [decodeIPv6Pkt] of
    [daemon/grpcwire/grpcwire.go].  The gopacket library is the class
    [Gopacket]: what its decoders find in the bytes. *)

From stdpp Require Import base strings gmap list.
From Stdlib Require Import ZArith Lia.
From S2P Require Import Prelude GoStr GoNet.

Local Open Scope string_scope.

(** The layer types the code names; any other one is a number. *)
Inductive LayerType :=
| LayerTypeZero | LayerTypeEthernet | LayerTypeIPv4 | LayerTypeIPv6 | LayerTypeLLC
| LayerTypeARP | LayerTypeDot1Q | LayerTypeOther (n : Z).

Record Ethernet := mkEthernet { eth_NextLayerType : LayerType; eth_Length : Z }.
Record IPv4Layer := mkIPv4Layer { v4_Length : Z; v4_SrcIP : IP; v4_DstIP : IP; v4_Protocol : Z }.
Record IPv6Layer := mkIPv6Layer { v6_Length : Z; v6_SrcIP : IP; v6_DstIP : IP; v6_NextHeader : Z }.
Record LLC := mkLLC { DSAP : Z; SSAP : Z; Control : Z; llc_Payload : list Z }.
Record Dot1Q := mkDot1Q { dot1q_NextLayerType : LayerType; dot1q_Type : Z; dot1q_Payload : list Z }.

(** [packet.Layer(t)] for the layers the code asks for. *)
Record Packet := mkPacket {
  layer_Ethernet : option Ethernet;
  layer_IPv4 : option IPv4Layer;
  layer_IPv6 : option IPv6Layer;
  layer_LLC : option LLC;
  layer_Dot1Q : option Dot1Q;
  (** The destination port of the TCP layer. *)
  layer_TCP : option Z
}.

Class Gopacket := {
  NewPacket : list Z -> LayerType -> Packet;
  ip_String : IP -> string
}.

(** The lengths in the headers are unsigned; the payload of a VLAN tag lacks
    its four bytes; an Ethernet header takes 14 bytes, of which the last two
    are the type. *)
Class GopacketLaws `{Gopacket} := {
  law_v4_Length : forall d t l, layer_IPv4 (NewPacket d t) = Some l -> in_uint 16 (v4_Length l);
  law_v6_Length : forall d t l, layer_IPv6 (NewPacket d t) = Some l -> in_uint 16 (v6_Length l);
  law_eth_Length : forall d t l, layer_Ethernet (NewPacket d t) = Some l -> in_uint 16 (eth_Length l);
  law_dot1q : forall d t l, layer_Dot1Q (NewPacket d t) = Some l ->
    (length (dot1q_Payload l) < length d)%nat /\ in_uint 16 (dot1q_Type l);
  law_arp : forall d, (14 <= length d)%nat -> d !! 12%nat = Some 8%Z -> d !! 13%nat = Some 6%Z ->
    layer_Ethernet (NewPacket d LayerTypeEthernet) = Some (mkEthernet LayerTypeARP 0);
  law_short : forall d, (length d < 14)%nat -> layer_Ethernet (NewPacket d LayerTypeEthernet) = None
}.

Section Decode.
  Context `{Gopacket}.

Definition IPProtocolICMPv4 : Z := 1.
Definition IPProtocolTCP : Z := 6.
Definition IPProtocolICMPv6 : Z := 58.

Definition decodeIPv4Pkt (packet : Packet) : Z * string :=
  match layer_IPv4 packet with
  | None => (0%Z, ":IPv4")
  | Some ipPacket =>
      (v4_Length ipPacket,
       ":IPv4[s:" ++ ip_String (v4_SrcIP ipPacket) ++ ", d:" ++ ip_String (v4_DstIP ipPacket) ++ "]" ++
       (if (v4_Protocol ipPacket =? IPProtocolICMPv4)%Z then ":ICMP"
        else if (v4_Protocol ipPacket =? IPProtocolTCP)%Z then
          ":TCP" ++
          match layer_TCP packet with
          | None => ""
          | Some port => if (port =? 179)%Z then ":BGP" else ":[Port:" ++ Sprint port ++ "]"
          end
        else ":IPv4 with protocol : " ++ Sprint (v4_Protocol ipPacket)))
  end.

Definition decodeIPv6Pkt (packet : Packet) : Z * string :=
  match layer_IPv6 packet with
  | None => (0%Z, ":IPv6")
  | Some ipPacket =>
      (v6_Length ipPacket,
       ":IPv6[s:" ++ ip_String (v6_SrcIP ipPacket) ++ ", d:" ++ ip_String (v6_DstIP ipPacket) ++ "]" ++
       (if (v6_NextHeader ipPacket =? IPProtocolICMPv6)%Z then ":ICMPv6"
        else if (v6_NextHeader ipPacket =? IPProtocolTCP)%Z then
          ":TCP" ++
          match layer_TCP packet with
          | None => ""
          | Some port => if (port =? 179)%Z then ":BGP" else "[Port:" ++ Sprint port ++ "]"
          end
        else ":IPv6 with protocol : " ++ Sprint (v6_NextHeader ipPacket)))
  end.

(** How a decoder ends: with a value, with a run-time panic, or (in the model
    only) without fuel. *)
Inductive decoded (A : Type) := Done (a : A) | Panics (why : string) | NoFuel.
Arguments Done {A} a.
Arguments Panics {A} why.
Arguments NoFuel {A}.

Definition index_panic {A} : decoded A := Panics "index out of range".

(** [fuel] bounds the nesting of VLAN tags. *)
Fixpoint DecodePkt (fuel : nat) (packet : Packet) (layerType : LayerType) (len : Z)
  : decoded (Z * string) :=
  match fuel with
  | O => NoFuel
  | S fuel' =>
      match layerType with
      | LayerTypeIPv4 => Done (decodeIPv4Pkt packet)
      | LayerTypeIPv6 => Done (decodeIPv6Pkt packet)
      | LayerTypeLLC =>
          match layer_LLC packet with
          | None => Done (len, "")
          | Some llc =>
              if (DSAP llc =? 254)%Z && (SSAP llc =? 254)%Z && (Control llc =? 3)%Z then
                match llc_Payload llc with
                | [] => index_panic
                | b :: _ => Done (len, if (b =? 131)%Z then ":LLC:ISIS" else ":LLC")
                end
              else Done (len, ":LLC")
          end
      | LayerTypeARP => Done (28%Z, ":ARP")
      | LayerTypeDot1Q =>
          match layer_Dot1Q packet with
          | None => Done (0%Z, ":VLAN:No VLAN Hdr")
          | Some vlan =>
              match dot1q_NextLayerType vlan with
              | LayerTypeZero =>
                  match dot1q_Payload vlan with
                  | [] => index_panic
                  | b0 :: rest =>
                      if negb (b0 =? 254)%Z then Done (0%Z, ":VLAN")
                      else
                        match rest with
                        | [] => index_panic
                        | b1 :: rest =>
                            if negb (b1 =? 254)%Z then Done (0%Z, ":VLAN")
                            else
                              match rest with
                              | [] => index_panic
                              | b2 :: _ =>
                                  if negb (b2 =? 3)%Z then Done (0%Z, ":VLAN")
                                  else
                                    match DecodePkt fuel' (NewPacket (dot1q_Payload vlan) LayerTypeLLC)
                                            LayerTypeLLC (wrapU 16 (dot1q_Type vlan)) with
                                    | Done (n, s) => Done ((n + 4)%Z, ":VLAN" ++ s)
                                    | Panics w => Panics w
                  | NoFuel => NoFuel
                                    end
                              end
                        end
                  end
              | nextLayer =>
                  match DecodePkt fuel' (NewPacket (dot1q_Payload vlan) nextLayer) nextLayer 0 with
                  | Done (n, s) => Done ((n + 4)%Z, ":VLAN" ++ s)
                  | Panics w => Panics w
                  | NoFuel => NoFuel
                  end
              end
          end
      | _ => Done (0%Z, "")
      end
  end.

(** [frame[i:]]. *)
Definition slice_from (i : Z) (frame : list Z) : decoded (list Z) :=
  if (i <? 0)%Z || (Z.of_nat (length frame) <? i)%Z then Panics "slice bounds out of range"
  else Done (drop (Z.to_nat i) frame).

Definition etherHdrLen : Z := 14.

(** The loop: [(numPkts, pktTypeStr)] when it ends. *)
Fixpoint frame_loop (fuel : nat) (totalLen totalDecodedLen numPkts : Z) (pktTypeStr : string)
    (frame : list Z) : decoded (Z * string) :=
  match fuel with
  | O => NoFuel
  | S fuel' =>
      let packet := NewPacket frame LayerTypeEthernet in
      match layer_Ethernet packet with
      | None => Done (numPkts, pktTypeStr)
      | Some eth =>
          match DecodePkt (S (length frame)) packet (eth_NextLayerType eth) (eth_Length eth) with
          | Panics w => Panics w
          | NoFuel => NoFuel
          | Done (decodedLen, typeStr) =>
              let pktTypeStr := pktTypeStr ++ "Pkt no " ++ Sprint numPkts ++ ": Ethernet" ++ typeStr in
              let totalDecodedLen := (totalDecodedLen + (etherHdrLen + decodedLen))%Z in
              if (14 <=? totalLen - totalDecodedLen)%Z then
                match slice_from totalDecodedLen frame with
                | Panics w => Panics w
                | NoFuel => NoFuel
                | Done frame =>
                    frame_loop fuel' totalLen totalDecodedLen (numPkts + 1)
                      (pktTypeStr ++ String (Ascii.ascii_of_nat 10) "            ") frame
                end
              else Done (numPkts, pktTypeStr)
          end
      end
  end.

(** Every iteration but the last consumes at least 14 bytes, so the length of
    the frame is enough fuel. *)
Definition DecodeFrame (frame : list Z) : decoded string :=
  match frame_loop (S (length frame)) (Z.of_nat (length frame)) 0 1 "" frame with
  | Done (numPkts, pktTypeStr) =>
      Done (if (1 <? numPkts)%Z then "Multi Pkts: " ++ pktTypeStr else pktTypeStr)
  | Panics w => Panics w
  | NoFuel => NoFuel
  end.

End Decode.
Arguments Done {A} a.
Arguments Panics {A} why.
Arguments NoFuel {A}.

(** ** Lemmas *)

Section DecodeProofs.
  Context `{GL : GopacketLaws}.

Lemma decodeIPv4_nonneg d t : (0 <= (decodeIPv4Pkt (NewPacket d t)).1)%Z.
Proof.
  unfold decodeIPv4Pkt. destruct (layer_IPv4 (NewPacket d t)) as [l|] eqn:Hl; [|done].
  apply law_v4_Length in Hl. apply Hl.
Qed.

Lemma decodeIPv6_nonneg d t : (0 <= (decodeIPv6Pkt (NewPacket d t)).1)%Z.
Proof.
  unfold decodeIPv6Pkt. destruct (layer_IPv6 (NewPacket d t)) as [l|] eqn:Hl; [|done].
  apply law_v6_Length in Hl. apply Hl.
Qed.

(** A decoder that has fuel left and does not go backwards. *)
Definition good (x : decoded (Z * string)) : Prop :=
  match x with Done (n, _) => (0 <= n)%Z | Panics _ => True | NoFuel => False end.

Lemma good_vlan x :
  good x -> good (match x with Done (n, s) => Done ((n + 4)%Z, ":VLAN" ++ s) | Panics w => Panics w | NoFuel => NoFuel end).
Proof. destruct x as [[n s]| |]; cbn; [lia|done|done]. Qed.

Lemma DecodePkt_good fuel d t lt len :
  (length d < fuel)%nat -> (0 <= len)%Z -> good (DecodePkt fuel (NewPacket d t) lt len).
Proof.
  revert d t lt len. induction fuel as [|fuel IH]; intros d t lt len Hf Hlen; [lia|].
  assert (forall vlan lt' len', layer_Dot1Q (NewPacket d t) = Some vlan -> (0 <= len')%Z ->
    good (DecodePkt fuel (NewPacket (dot1q_Payload vlan) lt') lt' len')) as Hnest.
  { intros vlan lt' len' Hv Hl'. apply law_dot1q in Hv as [Hv _]. apply IH; [lia|done]. }
  destruct lt; cbn [DecodePkt]; try (cbn; lia).
  - pose proof (decodeIPv4_nonneg d t) as Hn. by destruct (decodeIPv4Pkt _).
  - pose proof (decodeIPv6_nonneg d t) as Hn. by destruct (decodeIPv6Pkt _).
  - destruct (layer_LLC _) as [llc|]; [|done]. destruct (_ && _); [|done]. by destruct (llc_Payload llc).
  - destruct (layer_Dot1Q _) as [vlan|] eqn:Hv; [|done].
    destruct (dot1q_NextLayerType vlan); try (apply good_vlan, Hnest; done).
    destruct (dot1q_Payload vlan) as [|b0 [|b1 [|b2 rest]]] eqn:Hp; [done|by destruct (negb _)| |].
    + destruct (negb _); [done|]. by destruct (negb _).
    + destruct (negb _); [done|]. destruct (negb _); [done|]. destruct (negb _); [done|].
      apply good_vlan. rewrite <- Hp. apply Hnest; [done|]. apply wrapU_range. lia.
Qed.

Lemma frame_loop_fuel fuel tl td n s frame :
  (0 <= td)%Z -> (tl - td < 14 * Z.of_nat fuel)%Z -> (0 < fuel)%nat ->
  frame_loop fuel tl td n s frame <> NoFuel.
Proof.
  revert td n s frame. induction fuel as [|fuel IH]; intros td n s frame Htd Hf Hpos; [lia|].
  cbn [frame_loop]. destruct (layer_Ethernet _) as [eth|] eqn:He; [|done].
  pose proof (law_eth_Length _ _ _ He) as [Hel _].
  pose proof (DecodePkt_good (S (length frame)) frame LayerTypeEthernet (eth_NextLayerType eth)
                (eth_Length eth) ltac:(lia) Hel) as Hg.
  destruct (DecodePkt _ _ _ _) as [[dl ty]| |]; [|done|done]. cbn in Hg. unfold etherHdrLen.
  destruct (Z.leb_spec 14 (tl - (td + (14 + dl)))); [|done].
  unfold slice_from. destruct (_ || _); [done|]. apply IH; lia.
Qed.

(** One iteration on an ARP frame. *)
Lemma frame_loop_arp fuel tl td n s frame :
  (14 <= length frame)%nat -> frame !! 12%nat = Some 8%Z -> frame !! 13%nat = Some 6%Z ->
  frame_loop (S fuel) tl td n s frame
  = if (14 <=? tl - (td + 42))%Z then
      match slice_from (td + 42) frame with
      | Panics w => Panics w
      | NoFuel => NoFuel
      | Done frame' =>
          frame_loop fuel tl (td + 42) (n + 1)
            ((s ++ "Pkt no " ++ Sprint n ++ ": Ethernet" ++ ":ARP") ++ String (Ascii.ascii_of_nat 10) "            ")
            frame'
      end
    else Done (n, s ++ "Pkt no " ++ Sprint n ++ ": Ethernet" ++ ":ARP").
Proof. intros Hl H12 H13. cbn [frame_loop]. by rewrite (law_arp frame Hl H12 H13). Qed.

End DecodeProofs.

(** ** Properties *)

(** C34: [DecodeFrame] ends on every frame: its loop and the recursion over
    nested VLAN tags never run out of the fuel their measure gives. *)
Theorem DecodeFrame_terminates `{GopacketLaws} (frame : list Z) : DecodeFrame frame <> NoFuel.
Proof.
  unfold DecodeFrame.
  pose proof (frame_loop_fuel (S (length frame)) (Z.of_nat (length frame)) 0 1 "" frame) as Hf.
  destruct (frame_loop _ _ _ _ _ _) as [[]| |]; [done|done|]. intros _. apply Hf; [lia..|done].
Qed.

(** An ARP packet, and a frame that holds many of them. *)
Definition arp_packet : list Z := (replicate 12 0%Z ++ [8%Z; 6%Z] ++ replicate 28 0%Z)%list.

Definition arp_frame (n : nat) : list Z := mjoin (replicate n arp_packet).

(** The run on it: iterations that succeed, then a slice beyond what is left. *)
Lemma arp_frame_panics `{GopacketLaws} : DecodeFrame (arp_frame 37) = Panics "slice bounds out of range".
Proof.
  unfold DecodeFrame.
  change (length (arp_frame 37)) with 1554%nat. change (Z.of_nat 1554) with 1554%Z.
  do 36 try (rewrite frame_loop_arp by (vm_compute; first [reflexivity|lia]); cbn [Z.leb Z.add Z.sub];
    match goal with |- context [slice_from ?i ?f] =>
      let r := eval vm_compute in (slice_from i f) in change (slice_from i f) with r end; cbv iota beta).
  reflexivity.
Qed.

(** A frame of 37 concatenated ARP packets (1554 bytes, above the limit
    from which the receive thread decodes) makes [DecodeFrame] panic: each
    slice is taken at the offset in the whole frame, but from a frame that
    earlier iterations have already cut. *)
Theorem DecodeFrame_panics `{GopacketLaws} :
  length (arp_frame 37) = 1554%nat /\
  DecodeFrame (arp_frame 37) = Panics "slice bounds out of range".
Proof. split; [vm_compute; reflexivity|apply arp_frame_panics]. Qed.

(** A decoder of Ethernet headers and of the length of IPv4 packets, for the
    witnesses. *)
Definition eth_type (d : list Z) : option LayerType :=
  if (length d <? 14)%nat then None
  else match d !! 12%nat, d !! 13%nat with
       | Some 8%Z, Some 6%Z => Some LayerTypeARP
       | Some 8%Z, Some 0%Z => Some LayerTypeIPv4
       | _, _ => Some LayerTypeZero
       end.

Definition eth_only : Gopacket :=
  {| NewPacket d t :=
       mkPacket ((fun ty => mkEthernet ty 0) <$> eth_type d)
         (match eth_type d with
          | Some LayerTypeIPv4 =>
              Some (mkIPv4Layer (wrapU 16 (256 * default 0 (d !! 16%nat) + default 0 (d !! 17%nat))) [] [] 17)%Z
          | _ => None
          end) None None None None;
     ip_String ip := "" |}.

Lemma eth_only_laws : @GopacketLaws eth_only.
Proof.
  split; cbn; try done.
  - intros d t l Hl. repeat case_in Hl; simplify_eq. by apply wrapU_range.
  - intros d t l Hl. destruct (eth_type d); cbn in Hl; simplify_eq; by split.
  - intros d Hl H12 H13. unfold eth_type. rewrite H12, H13. destruct (Nat.ltb_spec (length d) 14); [lia|done].
  - intros d Hl. unfold eth_type. destruct (Nat.ltb_spec (length d) 14); [done|lia].
Qed.

Lemma DecodeFrame_terminates_witness : @DecodeFrame eth_only (arp_frame 2) <> NoFuel.
Proof. apply (@DecodeFrame_terminates eth_only eth_only_laws). Defined.

Lemma DecodeFrame_panics_witness :
  @DecodeFrame eth_only (arp_frame 37) = Panics "slice bounds out of range".
Proof. apply (@DecodeFrame_panics eth_only eth_only_laws). Defined.
