(* ===== verification/Wire.v ===== *)
(** * gRPC wires

    [daemon/grpcwire/grpcwire.go], but for the decoders (in [Decode]): the map
    of active wires with their capture handles, interface names, making and
    removing a wire, and the receive thread.  The package's global variables
    ([wires], [indexGen]) and the channels are the record [WireState]. *)

From stdpp Require Import base strings gmap list.
From Stdlib Require Import ZArith Lia Ascii.
From S2P Require Import Prelude GoStr GoNum GoNet Proto Kernel SimKernel LinkUtil Decode.

Local Open Scope string_scope.

(** ** Data *)

Inductive grpcWireOriginator := HOST_CREATED_WIRE | PEER_CREATED_WIRE.

Definition Originator_String (g : grpcWireOriginator) : string :=
  match g with
  | HOST_CREATED_WIRE => "host originated"
  | PEER_CREATED_WIRE => "peer originated"
  end.

Record GRPCWire := mkGRPCWire {
  w_UID : Z;
  w_Namespace : string;
  LocalNodeIfaceID : Z;
  LocalNodeIfaceName : string;
  LocalPodIP : string;
  LocalPodName : string;
  LocalPodIfaceName : string;
  LocalPodNetNS : string;
  PeerIfaceID : Z;
  PeerNodeIP : string;
  IsReady : bool;
  Originator : grpcWireOriginator;
  OriginatorIP : string;
  (** The channel's identity. *)
  StopC : nat
}.

Definition linkKey : Type := string * Z.

Record wireMap := mkWireMap { wm_wires : gmap linkKey GRPCWire; wm_handles : gmap Z Z }.

Record WireState := mkWireState {
  wires : wireMap;
  currId : Z;
  chans : nat;
  closed : gset nat
}.

Definition init_wires : WireState := mkWireState (mkWireMap ∅ ∅) 0 0 ∅.

(** ** The map *)

Definition wire_key (wire : GRPCWire) : linkKey := (LocalPodNetNS wire, w_UID wire).

Definition wireMap_GetWire (namespace : string) (linkUID : Z) (w : wireMap) : option GRPCWire :=
  wm_wires w !! (namespace, linkUID).

Definition wireMap_GetHandle (key : Z) (w : wireMap) : option Z := wm_handles w !! key.

Definition wireMap_Add (wire : GRPCWire) (handle : Z) (w : wireMap) : wireMap :=
  mkWireMap (<[wire_key wire := wire]> (wm_wires w)) (<[LocalNodeIfaceID wire := handle]> (wm_handles w)).

Definition wireMap_Delete (wire : GRPCWire) (w : wireMap) : wireMap :=
  mkWireMap (delete (wire_key wire) (wm_wires w)) (delete (LocalNodeIfaceID wire) (wm_handles w)).

Definition set_ready (w : GRPCWire) : GRPCWire :=
  mkGRPCWire (w_UID w) (w_Namespace w) (LocalNodeIfaceID w) (LocalNodeIfaceName w) (LocalPodIP w)
    (LocalPodName w) (LocalPodIfaceName w) (LocalPodNetNS w) (PeerIfaceID w) (PeerNodeIP w)
    true (Originator w) (OriginatorIP w) (StopC w).

Definition set_wires (m : wireMap) (s : WireState) : WireState :=
  mkWireState m (currId s) (chans s) (closed s).

(** ** Capture handles *)

Class Pcap (E : Type) := {
  (** [pcap.OpenLive(name, snaplen, true, pcap.BlockForever)]: the handle. *)
  pcap_OpenLive : string -> Z -> eff E (result Z);
  pcap_SetDirectionIn : Z -> eff E (option error);
  pcap_Close : Z -> eff E unit;
  pcap_WritePacketData : Z -> list Z -> eff E (option error)
}.

(** The order in which [range] visits a map. *)
Class MapIter (E : Type) := { map_order : forall {A : Type}, list A -> eff E (list A) }.

Class MapIterLaws (E : Type) `{MapIter E} := {
  map_order_perm : forall {A} (l l' : list A) (e e' : E), map_order l e = (l', e') -> l ≡ₚ l'
}.

(** Iterating over a map leaves the node alone. *)
Class MapIterView (E : Type) `{KernelLaws E, MapIter E} := {
  map_order_view : forall {A} (l : list A) (e : E) l' e', map_order l e = (l', e') -> view e' = view e
}.

(** ** Operations *)

Section Wire.
  Context {E : Type} `{Kernel E, Pcap E, MapIter E, GrpcClient E}.
  Local Open Scope go_scope.
  Local Abbreviation M := (go (E * WireState)).

Definition NextIndex : M Z :=
  s <- get_st ;;
  let id := int64 (currId s + 1) in
  on_st (fun s => mkWireState (wires s) id (chans s) (closed s)) ;;
  ret id.

(** [make(chan struct{})]. *)
Definition make_chan : M nat :=
  s <- get_st ;;
  on_st (fun s => mkWireState (wires s) (currId s) (S (chans s)) (closed s)) ;;
  ret (chans s).

(** [close(c)]. *)
Definition close_chan (c : nat) : M unit :=
  s <- get_st ;;
  if bool_decide (c ∈ closed s) then panic "close of closed channel"
  else on_st (fun s => mkWireState (wires s) (currId s) (chans s) ({[c]} ∪ closed s)).

Definition GetWiresByPod (namespace podName : string) : M (list GRPCWire * bool) :=
  s <- get_st ;;
  all <- on_ext (map_order (snd <$> map_to_list (wm_wires (wires s)))) ;;
  ret (List.filter (fun wire => String.eqb (LocalPodName wire) podName
                                && String.eqb (w_Namespace wire) namespace) all, true).

Definition GetWireByUID (namespace : string) (linkUID : Z) : M (option GRPCWire) :=
  s <- get_st ;; ret (wireMap_GetWire namespace linkUID (wires s)).

Definition AddWire (wire : GRPCWire) (handle : Z) : M Z :=
  on_st (fun s => set_wires (wireMap_Add (set_ready wire) handle (wires s)) s) ;;
  s <- get_st ;;
  ret (Z.of_nat (size (wm_wires (wires s)))).

Definition DeleteWire (wire : GRPCWire) : M Z :=
  on_st (fun s => set_wires (wireMap_Delete wire (wires s)) s) ;;
  s <- get_st ;;
  ret (Z.of_nat (size (wm_wires (wires s)))).

Definition host_veth (name : string) : VEth := mkVEth "" name [] [].

Definition RemoveWire (wire : option GRPCWire) : M (option error) :=
  match wire with
  | None => ret None
  | Some wire =>
      close_chan (StopC wire) ;;
      intf <- on_ext (net_InterfaceByIndex (LocalNodeIfaceID wire)) ;;
      match intf with
      | Err _ => panic "invalid memory address or nil pointer dereference"
      | Ok intf =>
          err <- on_ext (koko_RemoveVethLink (host_veth (if_Name intf))) ;;
          match err with
          | Some e => ret (Some (errorf ("[WIRE-DELETE]:failed to remove veth link: " ++ err_msg e)))
          | None =>
              err <- on_ext (koko_RemoveVethLink (host_veth (if_Name intf))) ;;
              match err with
              | Some e => ret (Some (errorf ("failed to remove veth link: " ++ err_msg e)))
              | None => DeleteWire wire ;; ret None
              end
          end
      end
  end.

(** The loop of [DeleteWiresByPod]: the errors of all wires. *)
Fixpoint remove_all (ws : list GRPCWire) : M (list error) :=
  match ws with
  | [] => ret []
  | w :: ws' =>
      err <- RemoveWire (Some w) ;;
      errs <- remove_all ws' ;;
      ret (match err with Some e => e :: errs | None => errs end)
  end.

(** The text that [errlist] makes of the errors is left out of the message. *)
Definition DeleteWiresByPod (namespace podName : string) : M (option error) :=
  '(ws, ok) <- GetWiresByPod namespace podName ;;
  if negb ok || (length ws =? 0)%nat then ret None
  else
    errs <- remove_all ws ;;
    match errs with
    | [] => ret None
    | _ => ret (Some (errorf ("[WIRE-DELETE]:failed to remove all grpc-wires for pod "
                              ++ podName ++ "@" ++ namespace)))
    end.

Definition GetHostIntfHndl (intfID : Z) : M (result Z) :=
  s <- get_st ;;
  match wireMap_GetHandle intfID (wires s) with
  | Some val => ret (Ok val)
  | None => ret (Err (errorf ("node interface " ++ Sprint intfID ++ " is not found in local db")))
  end.

(** [fmt.Sprintf("%.5s%.5s-%04d", podName, podIfaceName, id)]. *)
Definition ifaceName (podName podIfaceName : string) (id : Z) : string :=
  take_runes 5 podName ++ take_runes 5 podIfaceName ++ "-" ++ fmt_04d id.

Definition GenNodeIfaceName (podName podIfaceName : string) : M string :=
  id <- NextIndex ;; ret (ifaceName podName podIfaceName id).

Definition in_container_veth (wireDef : pb_WireDef) : result VEth :=
  if negb (String.eqb (wd_LocalPodIp wireDef) "") then
    match ParseCIDR (wd_LocalPodIp wireDef) with
    | None =>
        Err (errorf ("failed to create remote end of GRPC wire(" ++ wd_IntfNameInPod wireDef ++ "@"
                     ++ wd_LocalPodName wireDef ++ "), failed to parse CIDR " ++ wd_LocalPodIp wireDef
                     ++ ": invalid CIDR address: " ++ wd_LocalPodIp wireDef))
    | Some (ipAddr, mask) =>
        Ok (mkVEth (wd_LocalPodNetNs wireDef) (wd_IntfNameInPod wireDef) [mkIPNet ipAddr mask] [])
    end
  else Ok (mkVEth (wd_LocalPodNetNs wireDef) (wd_IntfNameInPod wireDef) [] []).

Definition CreateGRPCWireRemoteTriggered (wireDef : pb_WireDef) (stopC : nat) : M (result GRPCWire) :=
  grpcWire <- GetWireByUID (wd_LocalPodNetNs wireDef) (wd_LinkUid wireDef) ;;
  match (match grpcWire with Some w => if IsReady w then Some w else None | None => None end) with
  | Some w => ret (Ok w)
  | None =>
      outIfNm <- GenNodeIfaceName (wd_LocalPodName wireDef) (wd_IntfNameInPod wireDef) ;;
      currNs <- on_ext ns_GetCurrentNS ;;
      match currNs with
      | Err e => ret (Err (errorf ("[ADD-WIRE:REMOTE-END] could not get current network namespace: " ++ err_msg e)))
      | Ok path =>
          let hostEndVeth := mkVEth path outIfNm [] [] in
          match in_container_veth wireDef with
          | Err e => ret (Err e)
          | Ok inContainerVeth =>
              err <- on_ext (koko_MakeVeth inContainerVeth hostEndVeth) ;;
              match err with
              | Some e => ret (Err e)
              | None =>
                  locIface <- on_ext (net_InterfaceByName outIfNm) ;;
                  match locIface with
                  | Err e => exit 1
                  | Ok locIface =>
                      let aWire :=
                        mkGRPCWire (wd_LinkUid wireDef) (wd_KubeNs wireDef) (if_Index locIface) outIfNm
                          (wd_LocalPodIp wireDef) (wd_LocalPodName wireDef) (wd_IntfNameInPod wireDef)
                          (wd_LocalPodNetNs wireDef) (wd_PeerIntfId wireDef) (wd_PeerIp wireDef)
                          true PEER_CREATED_WIRE (wd_PeerIp wireDef) stopC in
                      wrHandle <- on_ext (pcap_OpenLive outIfNm 65365) ;;
                      match wrHandle with
                      | Err e => exit 1
                      | Ok wrHandle => AddWire aWire wrHandle ;; ret (Ok aWire)
                      end
                  end
              end
          end
      end
  end.

End Wire.

(** ** The receive thread

    What the [select] of the loop receives is given as a list: a packet, the
    stop signal, or the nil packet of a capture that has ended (its channel is
    closed); a list that ends without the signal is a thread that is still
    waiting. *)

Inductive wire_event := Stop | Data (frame : list Z) | Closed.

Inductive thread_end := Stopped | Failed (e : error) | Waiting.

Section Thread.
  Context {E : Type} `{UnicodeTables, Gopacket, Pcap E, GrpcClient E}.
  Local Open Scope go_scope.

Fixpoint recv_loop (wire : GRPCWire) (url : string) (events : list wire_event) : go E thread_end :=
  match events with
  | [] => ret Waiting
  | Stop :: _ => ret Stopped
  | Closed :: _ => panic "invalid memory address or nil pointer dereference"
  | Data data :: rest =>
      (if (1518 <? Z.of_nat (length data))%Z then
         match DecodeFrame data with
         | Done _ => ret tt
         | Panics why => panic why
         | NoFuel => panic "no fuel"
         end
       else ret tt) ;;
      '(ok, err) <- wireProtocolClient_SendToOnce url (mk_pb_Packet (PeerIfaceID wire) data) ;;
      match err, ok with
      | None, None => panic "nil pointer dereference: ok.Response"
      | _, _ => recv_loop wire url rest
      end
  end.

Definition wire_url (wire : GRPCWire) : string :=
  TrimSpace ("passthrough:///" ++ PeerNodeIP wire ++ ":" ++ DefaultPort).

Definition RecvFrmLocalPodThread (wire : GRPCWire) (events : list wire_event) : go E thread_end :=
  rdHandl <- call (pcap_OpenLive (LocalNodeIfaceName wire) (1024 * 64 * 10)) ;;
  match rdHandl with
  | Err e => exit 1
  | Ok rdHandl =>
      defer (call (pcap_Close rdHandl)) (
        err <- call (pcap_SetDirectionIn rdHandl) ;;
        match err with
        | Some e => exit 1
        | None =>
            err <- call (grpc_Dial (wire_url wire)) ;;
            match err with
            | Some e => ret (Failed e)
            | None => recv_loop wire (wire_url wire) events
            end
        end)
  end.

End Thread.

(** ** Lemmas *)

(** *** Names *)

(** The digits behind the last dash are determined by the name. *)
Lemma dash_suffix (a a' d d' : string) :
  all_bytes is_digit d = true -> all_bytes is_digit d' = true ->
  a ++ String "-"%char d = a' ++ String "-"%char d' -> d = d'.
Proof. by apply sep_suffix. Qed.

Lemma parse_zeros k s : parse_uint_loop 0 (zeros k ++ s) = parse_uint_loop 0 s.
Proof. induction k as [|k IH]; [done|]. cbn [zeros String.append parse_uint_loop]. exact IH. Qed.

Lemma all_digits_zeros k : all_bytes is_digit (zeros k) = true.
Proof. by induction k. Qed.

Lemma fmt_04d_eq x : (0 <= x)%Z -> fmt_04d x = zeros (4 - String.length (Sprint x)) ++ Sprint x.
Proof.
  intros Hx. unfold fmt_04d. destruct (Z.ltb_spec x 0); [lia|]. by rewrite Z.abs_eq, Sprint_N.
Qed.

Lemma fmt_04d_digits x : (0 <= x)%Z -> all_bytes is_digit (fmt_04d x) = true.
Proof.
  intros Hx. rewrite fmt_04d_eq, all_bytes_app, all_digits_zeros by done. by apply Sprint_digits.
Qed.

Lemma fmt_04d_inj x y : in_uint 64 x -> in_uint 64 y -> fmt_04d x = fmt_04d y -> x = y.
Proof.
  intros Hx Hy Heq. rewrite !fmt_04d_eq in Heq by (apply Hx || apply Hy).
  apply (f_equal (parse_uint_loop 0)) in Heq. rewrite !parse_zeros in Heq.
  pose proof (parse_uint_loop_Sprint x "" Hx) as Px. pose proof (parse_uint_loop_Sprint y "" Hy) as Py.
  rewrite !str_app_nil_r in Px, Py. rewrite Px, Py in Heq. cbn in Heq. congruence.
Qed.

Lemma ifaceName_inj p i x p' i' y :
  in_uint 64 x -> in_uint 64 y -> ifaceName p i x = ifaceName p' i' y -> x = y.
Proof.
  intros Hx Hy Heq. unfold ifaceName in Heq. cbn in Heq. rewrite <- !str_app_assoc in Heq.
  apply dash_suffix in Heq; [by apply fmt_04d_inj|apply fmt_04d_digits; (apply Hx || apply Hy)..].
Qed.

Lemma rune_len_ascii c s : (byte_val c < 128)%Z -> rune_len (String c s) = 1%nat.
Proof.
  intros Hc. unfold rune_len, in_range. repeat match goal with
  | |- context [(?a <=? byte_val c)%Z] => rewrite (proj2 (Z.leb_gt a (byte_val c))) by lia
  | |- context [(byte_val c =? ?a)%Z] => rewrite (proj2 (Z.eqb_neq (byte_val c) a)) by lia
  end. reflexivity.
Qed.

Lemma take_runes_ascii n s : isASCII s = true -> (String.length (take_runes n s) <= n)%nat.
Proof.
  unfold isASCII. revert s. induction n as [|n IH]; intros [|c s] Hs; cbn [take_runes]; [done..| |].
  - cbn in *. specialize (IH "" eq_refl). lia.
  - cbn in Hs. apply andb_prop in Hs as [Hc Hs]. unfold is_ascii_byte, in_range in Hc.
    apply andb_prop in Hc as [_ Hc%Z.leb_le].
    rewrite rune_len_ascii by lia. cbv zeta. rewrite str_length_app.
    pose proof (length_take_bytes 1 (String c s)). specialize (IH s Hs).
    change (drop_bytes 1 (String c s)) with s. lia.
Qed.

Lemma length_Sprint_small x : (0 <= x <= 9999)%Z -> (String.length (Sprint x) <= 4)%nat.
Proof.
  intros Hx. assert (forallb (fun x => (String.length (Sprint (Z.of_nat x)) <=? 4)%nat) (seq 0 (100 * 100)) = true) as Hall
    by (vm_compute; reflexivity).
  rewrite forallb_forall in Hall. specialize (Hall (Z.to_nat x)). rewrite Z2Nat.id in Hall by lia.
  apply Nat.leb_le, Hall, in_seq. lia.
Qed.

Lemma length_fmt_04d x : (0 <= x <= 9999)%Z -> String.length (fmt_04d x) = 4%nat.
Proof.
  intros Hx. rewrite fmt_04d_eq, str_length_app, length_zeros by lia.
  pose proof (length_Sprint_small x Hx). lia.
Qed.

Lemma ifaceName_length p i id :
  isASCII p = true -> isASCII i = true -> (0 <= id <= 9999)%Z -> (String.length (ifaceName p i id) <= 15)%nat.
Proof.
  intros Hp Hi Hid. unfold ifaceName. rewrite !str_length_app, length_fmt_04d by done.
  pose proof (take_runes_ascii 5 p Hp). pose proof (take_runes_ascii 5 i Hi). cbn [String.length]. lia.
Qed.

(** *** Removing *)

Section WireProofs.
  Context {E : Type} `{KL : KernelLaws E}.
  Implicit Types (s : E * WireState).

(** Every run of [RemoveWire] on a wire ends in an error or a panic, with the
    map as it was and the channel closed. *)
Lemma RemoveWire_outcome w s :
  match RemoveWire (Some w) s with
  | (Val None, _) => False
  | (Val (Some _), s') => wires s'.2 = wires s.2 /\ StopC w ∈ closed s'.2
  | (Panic _, s') => wires s'.2 = wires s.2
  | (Exit _, _) => False
  end.
Proof.
  unfold RemoveWire, close_chan, on_ext, on_st, get_st, zoom, call, bind, modify, panic, ret; cbn.
  destruct s as [e ws]; cbn. case_bool_decide as Hc; cbn; [done|].
  destruct (net_InterfaceByIndex _ e) as [[intf|er] e1]; cbn; [|done].
  destruct (koko_RemoveVethLink _ e1) as [[er|] e2] eqn:H2; cbn; [split; [done|set_solver]|].
  destruct (koko_RemoveVethLink _ e2) as [[er|] e3] eqn:H3; cbn; [split; [done|set_solver]|].
  apply law_RemoveVethLink in H2 as (_ & H2 & _). apply law_RemoveVethLink in H3 as [[k H3] _].
  unfold unlink in H2. by rewrite H2, lookup_delete_eq in H3.
Qed.

(** Removing the wires of a list never leaves the list of errors empty. *)
Lemma remove_all_outcome w ws s :
  match remove_all (w :: ws) s with
  | (Val errs, s') => errs <> [] /\ wires s'.2 = wires s.2
  | (Panic _, s') => wires s'.2 = wires s.2
  | (Exit _, _) => False
  end.
Proof.
  revert w s. induction ws as [|w' ws IH]; intros w s.
  - pose proof (RemoveWire_outcome w s) as Hw. cbn [remove_all]. unfold bind, ret.
    destruct (RemoveWire (Some w) s) as [[[er|]| |] s1]; naive_solver.
  - pose proof (RemoveWire_outcome w s) as Hw.
    change (remove_all (w :: w' :: ws)) with
      (bind (RemoveWire (Some w)) (fun err => bind (remove_all (w' :: ws)) (fun errs =>
         ret (match err with Some e => e :: errs | None => errs end)))).
    unfold bind at 1. destruct (RemoveWire (Some w) s) as [[[er|]| |] s1]; [|done..].
    specialize (IH w' s1). unfold bind. destruct (remove_all (w' :: ws) s1) as [[errs| |] s2]; cbn; [|..];
      destruct Hw; intuition congruence.
Qed.

End WireProofs.

(** Creating the remote end of a wire that is not there yet. *)
Lemma CreateGRPCWire_wlp `{Kernel E, Pcap E} (d : pb_WireDef) (c : nat) (s : E * WireState) :
  (forall w0, wm_wires (wires s.2) !! (wd_LocalPodNetNs d, wd_LinkUid d) = Some w0 -> IsReady w0 = false) ->
  wlp (CreateGRPCWireRemoteTriggered d c)
    (fun r s' => forall w, r = Ok w ->
       IsReady w = true /\ wire_key w = (wd_LocalPodNetNs d, wd_LinkUid d) /\ StopC w = c /\
       (PeerIfaceID w = wd_PeerIntfId d /\ PeerNodeIP w = wd_PeerIp d) /\
       exists h, wires s'.2 = wireMap_Add w h (wires s.2) /\
         exists e e', pcap_OpenLive (LocalNodeIfaceName w) 65365 e = (Ok h, e')) s.
Proof.
  intros Hnew. unfold CreateGRPCWireRemoteTriggered, GetWireByUID, wireMap_GetWire, GenNodeIfaceName, NextIndex.
  do 4 wp_step.
  destruct (wm_wires (wires s.2) !! _) as [w0|]; [rewrite (Hnew w0 eq_refl)|]; cbv iota;
  (do 8 wp_step; wp_ext as [path|er] e1 C1; [|by wp_step];
   wp_step; [|by wp_step]; wp_ext as [er|] e2 C2; [by wp_step|];
   wp_ext as [li|er] e3 C3; [|by wp_step]; wp_ext as [h|er] e4 C4; [|by wp_step];
   unfold AddWire; do 6 wp_step; intros w [= <-]; split_and!; [done..|]; exists h; split; [done|by exists e3, e4]).
Qed.

Lemma GetWiresByPod_run `{MapIterLaws E} ns pod (s : E * WireState) :
  exists ws e', GetWiresByPod ns pod s = (Val (ws, true), (e', s.2)) /\
    forall w, w ∈ ws <-> LocalPodName w = pod /\ w_Namespace w = ns /\
                       exists k, wm_wires (wires s.2) !! k = Some w.
Proof.
  destruct s as [e ws]. unfold GetWiresByPod, on_ext, get_st, zoom, call, bind, ret; cbn.
  destruct (map_order _ e) as [all e'] eqn:Ho. eexists _, e'. split; [reflexivity|]. intros w.
  apply map_order_perm in Ho.
  rewrite list_elem_of_In, filter_In, <- list_elem_of_In, <- Ho, list_elem_of_fmap,
    andb_true_iff, !String.eqb_eq.
  split.
  - intros [([k w'] & -> & Hin%elem_of_map_to_list) [Hp Hn]]. eauto.
  - intros (Hp & Hn & k & Hk). split; [|done]. exists (k, w). split; [done|]. by apply elem_of_map_to_list.
Qed.

(** [DeleteWiresByPod], for a pod that has a wire. *)
Lemma DeleteWiresByPod_wire `{KernelLaws E, MapIterLaws E}
    (ns pod : string) (k : linkKey) (w : GRPCWire) (s : E * WireState) :
  wm_wires (wires s.2) !! k = Some w -> LocalPodName w = pod -> w_Namespace w = ns ->
  (forall s', DeleteWiresByPod ns pod s <> (Val None, s')) /\
  wires (DeleteWiresByPod ns pod s).2.2 = wires s.2.
Proof.
  intros Hk Hp Hn. destruct (GetWiresByPod_run ns pod s) as (ws & e' & Hg & Hin).
  assert (w ∈ ws) as Hw by (apply Hin; eauto).
  destruct ws as [|w' ws]; [by apply elem_of_nil in Hw|].
  unfold DeleteWiresByPod. rewrite (bind_run _ _ _ _ _ Hg). cbn [negb orb length Nat.eqb].
  pose proof (remove_all_outcome w' ws (e', s.2)) as Ho. unfold bind, ret.
  destruct (remove_all (w' :: ws) (e', s.2)) as [[[|er errs]| |] s1]; naive_solver.
Qed.

(** ** A simulated node with captures *)

#[global] Instance sim_pcap : Pcap Sim.State :=
  {| pcap_OpenLive name len s := (Ok 3%Z, s);
     pcap_SetDirectionIn h s := (None, s);
     pcap_Close h s := (tt, s);
     pcap_WritePacketData h frame s := (None, s) |}.

#[global] Instance sim_iter : MapIter Sim.State := {| map_order A l s := (l, s) |}.

#[global] Instance sim_iter_view : MapIterView Sim.State.
Proof. split. by intros A l e l' e' [= <- <-]. Qed.

#[global] Instance sim_iter_laws : MapIterLaws Sim.State.
Proof. split. by intros A l l' e e' [= <- <-]. Qed.

Definition sample_wire : GRPCWire :=
  mkGRPCWire 1 "default" 7 "r1eth1-0001" "" "r1" "eth1" "/ns/a" 9 "192.168.0.2" true HOST_CREATED_WIRE "unknown" 0.

(** A node with the veth of [sample_wire] and with the wire in the map. *)
Definition wired : Sim.State * WireState :=
  (Sim.mkState (Sim.add_link ("", "r1eth1-0001") (NlOther "veth") Sim.empty_view) ["/ns/a"]
     [mkInterface "r1eth1-0001" 7 []],
   mkWireState (mkWireMap {[ ("/ns/a", 1%Z) := sample_wire ]} {[ 7%Z := 3%Z ]}) 1 1 ∅).

Definition sample_wiredef : pb_WireDef := mk_pb_WireDef 9 "192.168.0.2" "eth2" "/ns/a" 2 "r1" "" "default" "".

(** ** Properties *)

(** C38: removing a gRPC wire never succeeds: whatever the state, [RemoveWire]
    on a wire returns an error or panics and leaves the wire in the map, since
    it removes the node's veth twice and the second removal cannot succeed. *)
Theorem RemoveWire_never_removes `{KernelLaws E} (w : GRPCWire) (s : E * WireState) :
  (forall s', RemoveWire (Some w) s <> (Val None, s')) /\
  wires (RemoveWire (Some w) s).2.2 = wires s.2.
Proof.
  pose proof (RemoveWire_outcome w s) as Hw.
  destruct (RemoveWire (Some w) s) as [[[er|]| |] s1]; naive_solver.
Qed.

Lemma RemoveWire_never_removes_witness :
  (forall s', RemoveWire (Some sample_wire) wired <> (Val None, s')) /\
  wires (RemoveWire (Some sample_wire) wired).2.2 = wires wired.2.
Proof. apply (RemoveWire_never_removes sample_wire wired). Defined.

(** A wire whose removal returned an error cannot be tried again: the
    second attempt closes a closed channel, which panics. *)
Theorem RemoveWire_retry_panics `{KernelLaws E} (w : GRPCWire) (s s' : E * WireState) (r : option error) :
  RemoveWire (Some w) s = (Val r, s') ->
  RemoveWire (Some w) s' = (Panic "close of closed channel", s').
Proof.
  intros Hr. pose proof (RemoveWire_outcome w s) as Hw. rewrite Hr in Hw.
  destruct r as [er|]; [|done]. destruct Hw as [_ Hc].
  unfold RemoveWire, close_chan, bind, get_st, panic. by rewrite bool_decide_true by done.
Qed.

Lemma RemoveWire_retry_panics_witness :
  exists r s', RemoveWire (Some sample_wire) wired = (Val r, s') /\
    RemoveWire (Some sample_wire) s' = (Panic "close of closed channel", s').
Proof.
  eexists _, _. split; [vm_compute; reflexivity|].
  eapply (RemoveWire_retry_panics sample_wire wired). vm_compute. reflexivity.
Defined.

(** [DeleteWiresByPod] fails for every pod that has a wire (an error or a
    panic) and leaves all wires in the map. *)
Theorem DeleteWiresByPod_fails `{KernelLaws E, MapIterLaws E}
    (ns pod : string) (k : linkKey) (w : GRPCWire) (s : E * WireState) :
  wm_wires (wires s.2) !! k = Some w -> LocalPodName w = pod -> w_Namespace w = ns ->
  (forall s', DeleteWiresByPod ns pod s <> (Val None, s')) /\
  wires (DeleteWiresByPod ns pod s).2.2 = wires s.2.
Proof. apply DeleteWiresByPod_wire. Qed.

Lemma DeleteWiresByPod_fails_witness :
  (forall s', DeleteWiresByPod "default" "r1" wired <> (Val None, s')) /\
  wires (DeleteWiresByPod "default" "r1" wired).2.2 = wires wired.2.
Proof. apply (DeleteWiresByPod_fails "default" "r1" ("/ns/a", 1%Z) sample_wire wired); reflexivity. Defined.

(** C14: Names of node interfaces: two calls give different names, for any pods
    and interfaces, as long as the counter does not overflow; and with ASCII
    names the result fits Linux's 15 characters up to index 9999. *)
Theorem GenNodeIfaceName_unique {E} (p i p' i' : string) (s : E * WireState) :
  (0 <= currId s.2 < 2 ^ 63 - 2)%Z ->
  exists n n' s1 s2,
    GenNodeIfaceName p i s = (Val n, s1) /\ GenNodeIfaceName p' i' s1 = (Val n', s2) /\ n <> n' /\
    (isASCII p = true -> isASCII i = true -> (currId s.2 < 9999)%Z -> (String.length n <= 15)%nat).
Proof.
  destruct s as [e ws]. cbn [fst snd]. intros Hc.
  assert (int64 (currId ws + 1) = currId ws + 1)%Z as H1 by (apply wrapS_small; unfold in_int; lia).
  assert (int64 (currId ws + 1 + 1) = currId ws + 2)%Z as H2.
  { rewrite wrapS_small; [lia|lia|unfold in_int; lia]. }
  exists (ifaceName p i (currId ws + 1)), (ifaceName p' i' (currId ws + 2)). eexists _, _.
  unfold GenNodeIfaceName, NextIndex, bind, get_st, on_st, modify, ret. cbn [fst snd]. rewrite H1. split_and!.
  - reflexivity.
  - cbn [fst snd currId]. rewrite H2. reflexivity.
  - intros Heq%ifaceName_inj; [lia|unfold in_uint; lia..].
  - intros Hp Hi Hid. apply ifaceName_length; [done..|lia].
Qed.

Lemma GenNodeIfaceName_unique_witness :
  exists n n' s1 s2,
    GenNodeIfaceName "r1" "eth1" wired = (Val n, s1) /\ GenNodeIfaceName "r1" "eth1" s1 = (Val n', s2) /\ n <> n' /\
    (isASCII "r1" = true -> isASCII "eth1" = true -> (1 < 9999)%Z -> (String.length n <= 15)%nat).
Proof. apply (GenNodeIfaceName_unique "r1" "eth1" "r1" "eth1" wired). cbn. lia. Defined.

(** The remote end of a wire: when it is created, it is found under its
    network namespace and link, ready, with a handle to deliver packets; a
    second trigger for the link returns that wire and changes nothing. *)
Theorem CreateGRPCWire_registers `{Kernel E, Pcap E} (d : pb_WireDef) (c c' : nat)
    (w : GRPCWire) (s s' : E * WireState) :
  (forall w0, wm_wires (wires s.2) !! (wd_LocalPodNetNs d, wd_LinkUid d) = Some w0 -> IsReady w0 = false) ->
  CreateGRPCWireRemoteTriggered d c s = (Val (Ok w), s') ->
  IsReady w = true /\ wire_key w = (wd_LocalPodNetNs d, wd_LinkUid d) /\ StopC w = c /\
  wm_wires (wires s'.2) = <[wire_key w := w]> (wm_wires (wires s.2)) /\
  (exists h, GetHostIntfHndl (LocalNodeIfaceID w) s' = (Val (Ok h), s')) /\
  CreateGRPCWireRemoteTriggered d c' s' = (Val (Ok w), s').
Proof.
  intros Hnew Hr. pose proof (wlp_run _ _ _ _ _ (CreateGRPCWire_wlp d c s Hnew) Hr) as Hw.
  destruct (Hw w eq_refl) as (Hready & Hkey & Hstop & _ & h & Hmap & _). rewrite Hmap.
  split_and!; [done..| |].
  - exists h. unfold GetHostIntfHndl, wireMap_GetHandle, bind, get_st, ret. rewrite Hmap. cbn.
    by rewrite lookup_insert_eq.
  - unfold CreateGRPCWireRemoteTriggered, GetWireByUID, wireMap_GetWire, bind, get_st, ret.
    rewrite Hmap. cbn [wm_wires wireMap_Add]. by rewrite <- Hkey, lookup_insert_eq, Hready.
Qed.

(** A node where the new veth is known to the interface list. *)
Definition wired2 : Sim.State * WireState :=
  (Sim.mkState Sim.empty_view ["/ns/a"] [mkInterface "r1eth2-0002" 8 []], wired.2).

Lemma CreateGRPCWire_registers_witness :
  exists w s', CreateGRPCWireRemoteTriggered sample_wiredef 5 wired2 = (Val (Ok w), s') /\
    CreateGRPCWireRemoteTriggered sample_wiredef 6 s' = (Val (Ok w), s').
Proof.
  eexists _, _. split; [vm_compute; reflexivity|].
  eapply (CreateGRPCWire_registers sample_wiredef 5 6 _ wired2).
  - intros w0 Hw. vm_compute in Hw. discriminate.
  - vm_compute. reflexivity.
Defined.

(** The receive thread forwards every frame it captures (of at most 1518
    bytes), in order, to the peer's interface, whether or not the peer accepts
    it, until it is told to stop; what comes after the stop signal is not
    sent. *)
Theorem recv_loop_forwards `{GopacketLaws, GrpcLog E} (w : GRPCWire) (url : string)
    (frames : list (list Z)) (rest : list wire_event) (e : E) :
  Forall (fun f => (Z.of_nat (length f) <= 1518)%Z) frames ->
  exists e', recv_loop w url ((Data <$> frames) ++ Stop :: rest)%list e = (Val Stopped, e') /\
    sent e' = (sent e ++ ((fun f => (url, ReqSendToOnce (mk_pb_Packet (PeerIfaceID w) f))) <$> frames))%list.
Proof.
  revert e. induction frames as [|f frames IH]; intros e Hf; cbn [fmap list_fmap app recv_loop].
  - exists e. rewrite app_nil_r. by split.
  - inversion Hf as [|? ? Hlen Hrest]; subst. destruct (Z.ltb_spec 1518 (Z.of_nat (length f))); [lia|].
    unfold wireProtocolClient_SendToOnce, stub, bind, call, ret.
    destruct (grpc_Invoke _ _ _ e) as [r e1] eqn:Hi. pose proof (log_Invoke _ _ _ _ _ _ Hi) as Hs.
    destruct (IH e1 Hrest) as (e' & Hr & Hs'). exists e'.
    split; [by destruct r|]. by rewrite Hs', Hs, <- app_assoc.
Qed.

(** A network that records what is sent. *)
Definition recorder : GrpcClient (list (string * rpc_request)) :=
  {| grpc_Dial target e := (None, e);
     grpc_Invoke target method req e := (Ok (mk_pb_BoolResponse true), (e ++ [(target, req)])%list) |}.

Definition recorder_log : @GrpcLog _ recorder.
Proof.
  refine (@Build_GrpcLog _ recorder (fun e => e) _ _); cbn; [by intros ? ? ? ? [= <- <-]|].
  by intros ? ? ? ? ? ? [= <- <-].
Defined.

Lemma recv_loop_forwards_witness :
  exists e', @recv_loop _ eth_only recorder sample_wire "url" [Data [1%Z]; Data [2%Z]; Stop] [] = (Val Stopped, e') /\
    e' = [("url", ReqSendToOnce (mk_pb_Packet 9 [1%Z])); ("url", ReqSendToOnce (mk_pb_Packet 9 [2%Z]))].
Proof.
  apply (@recv_loop_forwards eth_only eth_only_laws _ recorder recorder_log sample_wire "url" [[1%Z]; [2%Z]] [] []).
  repeat constructor; cbn; lia.
Defined.

(** One frame of 37 concatenated ARP packets from a pod makes the receive
    thread panic, which ends the daemon. *)
Theorem recv_loop_panics `{GopacketLaws, GrpcClient E} (w : GRPCWire) (url : string) (rest : list wire_event) (e : E) :
  recv_loop w url (Data (arp_frame 37) :: rest) e = (Panic "slice bounds out of range", e).
Proof.
  cbn [recv_loop]. assert ((1518 <? Z.of_nat (length (arp_frame 37)))%Z = true) as -> by (vm_compute; reflexivity).
  rewrite (arp_frame_panics). reflexivity.
Qed.

Lemma recv_loop_panics_witness :
  @recv_loop _ eth_only recorder sample_wire "url" [Data (arp_frame 37)] [] = (Panic "slice bounds out of range", []).
Proof. apply (@recv_loop_panics eth_only eth_only_laws _ recorder sample_wire "url" [] []). Defined.
