(* ===== verification/Metrics.v ===== *)
(** * Metrics

    [daemon/metrics]: the manager of the node's topologies and the collector
    of interface statistics that Prometheus polls.  Topologies are shared by
    pointer with the informer's cache and the handlers, so they live in a heap.
    The registry and the histograms only hand values to Prometheus. *)

From stdpp Require Import base strings gmap list.
From Stdlib Require Import ZArith Lia SpecFloat Ascii.
From S2P Require Import Prelude GoStr GoNum GoNet Proto ApiV1 Kernel SimKernel Wire.

Local Open Scope string_scope.

(** ** Topology objects *)

(** A pointer to a topology: an object of the informer's cache (by its
    identity) or one allocated by the program. *)
Definition loc : Type := Z + Z.

Record Heap := mkHeap { objects : gmap loc Topology; next_loc : Z }.

Definition empty_heap : Heap := mkHeap ∅ 0.

Definition alloc (t : Topology) (h : Heap) : loc * Heap :=
  (inr (next_loc h), mkHeap (<[inr (next_loc h) := t]> (objects h)) (next_loc h + 1)).

Definition store (l : loc) (t : Topology) (h : Heap) : Heap :=
  mkHeap (<[l := t]> (objects h)) (next_loc h).

(** An object of the cache, as it was delivered unless the program has already
    seen (and perhaps changed) it. *)
Definition share (id : Z) (t : Topology) (h : Heap) : loc * Heap :=
  (inl id, match objects h !! (inl id : loc) with
           | Some _ => h
           | None => store (inl id) t h
           end).

Definition zero_topology : Topology :=
  mkTopology "" "" [] 0 (mkTopologySpec None) (mkTopologyStatus None "" "" None).

Definition load (l : loc) (h : Heap) : Topology := default zero_topology (objects h !! l).

(** ** [TopologyManager] *)

Abbreviation TopologyManager := (gmap string loc).

Definition NewTopologyManager : TopologyManager := ∅.

Definition topology_key (ns name : string) : string := ns ++ "/" ++ name.

(** [Init]: one new variable per iteration. *)
Fixpoint TopologyManager_Init (topologies : list Topology) (h : Heap) (m : TopologyManager)
  : Heap * TopologyManager :=
  match topologies with
  | [] => (h, m)
  | t :: rest =>
      let '(l, h) := alloc t h in
      TopologyManager_Init rest h (<[Name t := l]> m)
  end.

Definition TopologyManager_Add (l : loc) (h : Heap) (m : TopologyManager) : TopologyManager :=
  <[topology_key (Namespace (load l h)) (Name (load l h)) := l]> m.

Definition TopologyManager_Delete (name ns : string) (m : TopologyManager) : TopologyManager :=
  delete (topology_key ns name) m.

Definition TopologyManager_Get (name ns : string) (m : TopologyManager) : option loc :=
  m !! topology_key ns name.

Definition TopologyManager_Update (l : loc) (h : Heap) (m : TopologyManager) : TopologyManager :=
  <[Name (load l h) := l]> m.

(** ** The collector *)

Inductive metric_desc :=
| rxPacketsDesc | rxBytesDesc | txPacketsDesc | txBytesDesc
| rxErrorsDesc | txErrorsDesc | rxDroppedDesc | txDroppedDesc.

(** A counter with its labels: interface, pod, namespace. *)
Record Metric := mkMetric { metric_of : metric_desc; metric_value : spec_float; metric_labels : list string }.

Definition Describe : list metric_desc :=
  [rxPacketsDesc; rxBytesDesc; txPacketsDesc; txBytesDesc;
   rxErrorsDesc; txErrorsDesc; rxDroppedDesc; txDroppedDesc].

Section Collector.
  Context {E : Type} `{Kernel E, MapIter E}.
  Local Open Scope go_scope.

(** [List]: the pointers, in the map's order. *)
Definition TopologyManager_List (m : TopologyManager) : go E (list loc) :=
  call (map_order (snd <$> map_to_list m)).

Definition listLinks (nsName : string) : go E (list nl_link * option error) :=
  vethNs <- vethNetNS nsName ;;
  match vethNs with
  | Err e => ret ([], Some e)
  | Ok n =>
      err <- call (ns_Set n) ;;
      match err with
      | Some e => ret ([], Some e)
      | None =>
          r <- call (nl_LinkList n) ;;
          match r with
          | Err e => ret ([], Some e)
          | Ok links => ret (links, None)
          end
      end
  end.

Definition link_metrics (link : nl_link) (stats : LinkStatistics) (t : Topology) : list Metric :=
  let labels := [nl_Name link; Name t; Namespace t] in
  [mkMetric rxBytesDesc (f64_of_Z (RxBytes stats)) labels;
   mkMetric rxPacketsDesc (f64_of_Z (RxPackets stats)) labels;
   mkMetric txBytesDesc (f64_of_Z (TxBytes stats)) labels;
   mkMetric txPacketsDesc (f64_of_Z (TxPackets stats)) labels;
   mkMetric rxErrorsDesc (f64_of_Z (RxErrors stats)) labels;
   mkMetric txErrorsDesc (f64_of_Z (TxErrors stats)) labels;
   mkMetric rxDroppedDesc (f64_of_Z (RxDropped stats)) labels;
   mkMetric txDroppedDesc (f64_of_Z (TxDropped stats)) labels].

(** The loop over the links; [stats] is a pointer. *)
Fixpoint links_metrics (t : Topology) (links : list nl_link) : go E (list Metric) :=
  match links with
  | [] => ret []
  | link :: rest =>
      match nl_Statistics link with
      | None => panic "invalid memory address or nil pointer dereference"
      | Some stats =>
          ms <- links_metrics t rest ;;
          ret (link_metrics link stats t ++ ms)%list
      end
  end.

Definition collectIpRouteMetrics (t : Topology) : go E (list Metric) :=
  '(links, err) <- listLinks (NetNs (Status t)) ;;
  match err with
  | Some _ => ret []
  | None => links_metrics t links
  end.

Fixpoint collect_all (h : Heap) (ls : list loc) : go E (list Metric) :=
  match ls with
  | [] => ret []
  | l :: rest =>
      ms <- (if String.eqb (NetNs (Status (load l h))) "" then ret []
             else collectIpRouteMetrics (load l h)) ;;
      ms' <- collect_all h rest ;;
      ret (ms ++ ms')%list
  end.

Definition Collect (h : Heap) (m : TopologyManager) : go E (list Metric) :=
  ls <- TopologyManager_List m ;;
  collect_all h ls.

End Collector.

(** ** Lemmas *)

Lemma Init_keys ts h m k :
  (TopologyManager_Init ts h m).2 !! k <> None <-> m !! k <> None \/ exists t, t ∈ ts /\ Name t = k.
Proof.
  revert h m. induction ts as [|t ts IH]; intros h m; cbn.
  - split; [by left|]. intros [Hm|(t & Ht & _)]; [done|]. by apply elem_of_nil in Ht.
  - rewrite IH. split.
    + intros [Hk|(t' & Ht' & <-)]; [|right; exists t'; split; [by apply elem_of_cons; right|done]].
      destruct (decide (Name t = k)) as [<-|Hne].
      * right. exists t. split; [by apply elem_of_cons; left|done].
      * rewrite lookup_insert_ne in Hk by done. by left.
    + intros [Hk|(t' & [->|Ht']%elem_of_cons & <-)].
      * left. destruct (decide (Name t = k)) as [<-|Hne]; [by rewrite lookup_insert_eq|].
        by rewrite lookup_insert_ne.
      * left. by rewrite lookup_insert_eq.
      * right. by exists t'.
Qed.

(** Entries point to objects the program allocated, each to one of its own. *)
Definition own_objects (h : Heap) (m : TopologyManager) : Prop :=
  (forall k l, m !! k = Some l -> exists j, l = inr j /\ (j < next_loc h)%Z) /\
  (forall k1 k2 l, m !! k1 = Some l -> m !! k2 = Some l -> k1 = k2).

(** Under each name [Init] registers the last topology of that name. *)
Lemma Init_loads ts h m k :
  own_objects h m ->
  own_objects (TopologyManager_Init ts h m).1 (TopologyManager_Init ts h m).2 /\
  (fun l => load l (TopologyManager_Init ts h m).1) <$> (TopologyManager_Init ts h m).2 !! k
  = match last (filter (fun t => Name t = k) ts) with
    | Some t => Some t
    | None => (fun l => load l h) <$> m !! k
    end.
Proof.
  revert h m. induction ts as [|t ts IH]; intros h m [Ho Hu]; cbn [TopologyManager_Init alloc]; [done|].
  destruct (IH (mkHeap (<[inr (next_loc h) := t]> (objects h)) (next_loc h + 1)) (<[Name t := inr (next_loc h)]> m))
    as [Hown Hl].
  { assert (forall k, m !! k <> Some (inr (next_loc h))) as Hfresh.
    { intros k' (j & [= <-] & Hj)%Ho. lia. }
    split; cbn.
    - intros k' l. destruct (decide (Name t = k')) as [<-|Hne].
      + rewrite lookup_insert_eq. intros [= <-]. eexists. split; [done|lia].
      + rewrite lookup_insert_ne by done. intros (j & -> & Hj)%Ho. eexists. split; [done|lia].
    - intros k1 k2 l. rewrite !lookup_insert_Some. naive_solver. }
  split; [done|]. etransitivity; [exact Hl|]. destruct (decide (Name t = k)) as [<-|Hne].
  - rewrite filter_cons_True, last_cons by done. destruct (last (filter _ ts)); [done|].
    rewrite lookup_insert_eq. cbn. unfold load. cbn. by rewrite lookup_insert_eq.
  - rewrite filter_cons_False by done. destruct (last (filter _ ts)); [done|].
    rewrite lookup_insert_ne by done. destruct (m !! k) as [l|] eqn:Hk; [|done].
    apply Ho in Hk as (j & -> & Hj). cbn. unfold load. cbn.
    rewrite lookup_insert_ne; [done|]. intros [= ?]. lia.
Qed.

(** A name without a slash, as all names of Kubernetes objects are. *)
Fixpoint no_slash (s : string) : bool :=
  match s with
  | EmptyString => true
  | String c s' => negb (Ascii.eqb c "/"%char) && no_slash s'
  end.

Lemma no_slash_key a b c : no_slash c = true -> topology_key a b <> c.
Proof.
  unfold topology_key. revert c. induction a as [|x a IH]; intros [|y c]; cbn; try done.
  - intros [Hy _]%andb_prop [= <- _]. by rewrite Ascii.eqb_refl in Hy.
  - intros [_ Hc]%andb_prop [= _ Heq]. by apply (IH c).
Qed.

(** ** What a poll exposes *)

(** The counter a descriptor stands for. *)
Definition counter (st : LinkStatistics) (d : metric_desc) : Z :=
  match d with
  | rxPacketsDesc => RxPackets st | rxBytesDesc => RxBytes st
  | txPacketsDesc => TxPackets st | txBytesDesc => TxBytes st
  | rxErrorsDesc => RxErrors st | txErrorsDesc => TxErrors st
  | rxDroppedDesc => RxDropped st | txDroppedDesc => TxDropped st
  end.

(** The exposition of an interface: one sample for each metric the collector
    describes, labelled with the interface, the pod and its namespace. *)
Definition samples (t : Topology) (l : nl_link) : list Metric :=
  match nl_Statistics l with
  | None => []
  | Some st => (fun d => mkMetric d (f64_of_Z (counter st d)) [nl_Name l; Name t; Namespace t]) <$> Describe
  end.

(** A pod that is alive. *)
Definition live (t : Topology) : Prop := NetNs (Status t) <> "".

#[export] Instance live_dec t : Decision (live t).
Proof. unfold live. apply _. Defined.

Section CollectProofs.
  Context {E : Type} `{KernelLaws E, MapIter E, !MapIterLaws E, !MapIterView E}.
  Implicit Types (e : E).

(** The kernel's answer when the namespace [n] is listed at some moment of a poll
    that starts in [e]: the interfaces, or an error of one of the calls. *)
Definition answered (n : string) e (ls : list nl_link) : Prop :=
  exists e1 e2, view e1 = view e /\ nl_LinkList n e1 = (Ok ls, e2).

Definition refused (n : string) e : Prop :=
  exists e1 er e2, view e1 = view e /\
    (ns_GetNS n e1 = (Err er, e2) \/ ns_Set n e1 = (Some er, e2) \/ nl_LinkList n e1 = (Err er, e2)).

(** The outcome of polling one pod: all its interfaces, or an error for this pod. *)
Definition poll (h : Heap) e (l : loc) (ls : list nl_link) : Prop :=
  let n := NetNs (Status (load l h)) in
  answered n e ls /\ Forall (fun lk => is_Some (nl_Statistics lk)) ls /\
  (forall name k, links (view e) !! (n, name) = Some k <-> exists lk, lk ∈ ls /\ nl_Name lk = name /\ nl_Kind lk = k)
  \/ ls = [] /\ refused n e.

Lemma listLinks_run n e : n <> "" ->
  exists r e', listLinks n e = (Val r, e') /\ view e' = view e /\
    match r.2 with None => answered n e r.1 | Some _ => refused n e end.
Proof.
  intros Hn. unfold listLinks, vethNetNS. apply String.eqb_neq in Hn. rewrite Hn. unfold bind, call, ret.
  destruct (ns_GetNS n e) as [[n'|er] e1] eqn:C1; pose proof (law_GetNS _ _ _ _ C1) as [V1 Hn'].
  2: { eexists _, _. split_and!; [done|done|]. exists e, er, e1. auto. }
  rewrite (Hn' n' eq_refl). destruct (ns_Set n e1) as [[er|] e2] eqn:C2; pose proof (law_Set _ _ _ _ C2) as V2.
  { eexists _, _. split_and!; [done|congruence|]. exists e1, er, e2. auto. }
  destruct (nl_LinkList n e2) as [[ls|er] e3] eqn:C3; pose proof (law_LinkList _ _ _ _ C3) as [V3 _];
    (eexists _, _; split_and!; [done|congruence|]).
  - exists e2, e3. split; [congruence|done].
  - exists e2, er, e3. split; [congruence|auto].
Qed.

Lemma link_metrics_samples t l st : nl_Statistics l = Some st -> link_metrics l st t ≡ₚ samples t l.
Proof. intros Hs. unfold samples. rewrite Hs. cbn. solve_Permutation. Qed.

(** The first interface without statistics panics. *)
Lemma links_metrics_run t ls e :
  (exists ms, links_metrics t ls e = (Val ms, e) /\ Forall (fun lk => is_Some (nl_Statistics lk)) ls /\
     ms ≡ₚ ls ≫= samples t) \/
  (exists why, links_metrics t ls e = (Panic why, e) /\ Exists (fun lk => nl_Statistics lk = None) ls).
Proof.
  induction ls as [|l ls IH]; cbn [links_metrics].
  { left. by exists []. }
  destruct (nl_Statistics l) as [st|] eqn:Hs.
  2: { right. eexists. split; [done|]. by apply Exists_cons_hd. }
  unfold bind. destruct IH as [(ms & -> & Hf & Hp)|(why & -> & Hx)].
  - left. eexists. split; [done|]. split; [apply Forall_cons; split; [by rewrite Hs|done]|].
    by rewrite bind_cons, Hp, (link_metrics_samples t l st Hs).
  - right. eexists. split; [done|]. by apply Exists_cons_tl.
Qed.

(** What a poll of the pods [ls] came to. *)
Definition collected (h : Heap) (ls : list loc) e (r : outcome (list Metric)) : Prop :=
  match r with
  | Val ms => exists answers, answers.*1 = filter (fun l => live (load l h)) ls /\
      Forall (fun a => poll h e a.1 a.2) answers /\ ms ≡ₚ answers ≫= fun a => a.2 ≫= samples (load a.1 h)
  | Panic _ => exists l lks, l ∈ ls /\ live (load l h) /\ answered (NetNs (Status (load l h))) e lks /\
      Exists (fun lk => nl_Statistics lk = None) lks
  | Exit _ => False
  end.

Lemma collectIpRouteMetrics_run h l e : live (load l h) ->
  exists r e', collectIpRouteMetrics (load l h) e = (r, e') /\ view e' = view e /\ collected h [l] e r.
Proof.
  intros Hl. unfold collectIpRouteMetrics, bind.
  destruct (listLinks_run (NetNs (Status (load l h))) e Hl) as ([ls er] & e1 & -> & V1 & Ha). cbn in Ha.
  assert (filter (fun l => live (load l h)) [l] = [l]) as Hf by by rewrite filter_cons_True.
  destruct er as [er|].
  - exists (Val []), e1. split_and!; [done|done|]. exists [(l, [])]. rewrite Hf.
    split_and!; [done|apply Forall_singleton; by right|done].
  - destruct (links_metrics_run (load l h) ls e1) as [(ms & -> & Hs & Hp)|(why & -> & Hx)].
    + eexists _, _. split_and!; [done|done|]. exists [(l, ls)]. rewrite Hf. cbn. rewrite app_nil_r.
      split_and!; [done| |done]. apply Forall_singleton. left. split_and!; [done|done|].
      destruct Ha as (e2 & e3 & V2 & Hll). apply law_LinkList in Hll as [_ Hll]. rewrite <- V2. by apply Hll.
    + eexists _, _. split_and!; [done|done|]. exists l, ls. split_and!; [left|done..].
Qed.

Lemma answered_view n e1 e2 ls : view e1 = view e2 -> answered n e1 ls -> answered n e2 ls.
Proof. intros V (e3 & e4 & ? & ?). exists e3, e4. split; [congruence|done]. Qed.

Lemma poll_view h e1 e2 l ls : view e1 = view e2 -> poll h e1 l ls -> poll h e2 l ls.
Proof.
  intros V [(Ha & Hs & Hc)|[-> (e3 & er & e4 & ? & ?)]].
  - left. rewrite <- V. split_and!; [by eapply answered_view|done|done].
  - right. split; [done|]. exists e3, er, e4. split; [congruence|done].
Qed.

Lemma collect_all_run h ls e :
  exists r e', collect_all h ls e = (r, e') /\ view e' = view e /\ collected h ls e r.
Proof.
  revert e. induction ls as [|l ls IH]; intros e; cbn [collect_all].
  { exists (Val []), e. split_and!; [done|done|]. by exists []. }
  unfold bind at 1.
  assert (exists r e', (if String.eqb (NetNs (Status (load l h))) "" then ret []
    else collectIpRouteMetrics (load l h)) e = (r, e') /\ view e' = view e /\ collected h [l] e r)
    as (r & e1 & -> & V1 & Hc).
  { destruct (String.eqb_spec (NetNs (Status (load l h))) "") as [Hn|Hn].
    - exists (Val []), e. split_and!; [done|done|]. exists []. rewrite filter_cons_False by (by intros ?). done.
    - by apply collectIpRouteMetrics_run. }
  destruct r as [ms|why|c]; [|eexists _, _; split_and!; [done|done|]|done].
  2: { destruct Hc as (l' & lks & ->%list_elem_of_singleton & ? & ? & ?). exists l, lks. split_and!; [left|done..]. }
  destruct (IH e1) as (r2 & e2 & R2 & V2 & Hc2). unfold bind. rewrite R2. exists (match r2 with Val ms' => Val (ms ++ ms')%list | Panic w => Panic w | Exit c => Exit c end), e2.
  split_and!; [by destruct r2|congruence|]. destruct r2 as [ms2|why|c]; [|cbn in *|done].
  - destruct Hc as (as1 & F1 & P1 & M1), Hc2 as (as2 & F2 & P2 & M2). exists (as1 ++ as2)%list.
    split_and!.
    + rewrite fmap_app, F1, F2. by rewrite <- filter_app.
    + apply Forall_app. split; [done|]. eapply Forall_impl; [exact P2|]. intros a. by apply poll_view.
    + by rewrite bind_app, M1, M2.
  - destruct Hc2 as (l' & lks & Hin & Hl & Ha & Hx). exists l', lks. split_and!; [by right|done| |done].
    by eapply answered_view.
Qed.

End CollectProofs.

(** ** Properties *)

(** C31: a poll of the collector leaves the node as it is and exposes, up to order,
    exactly this: for every registered pod that is alive, if the kernel lists its
    namespace, one sample for each of the eight described counters of every
    interface there, with the value the kernel reported and labelled with the
    interface, the pod and its namespace; and nothing for a pod whose listing fails,
    which does not keep the other pods from being polled.  The poll ends in this
    way unless the kernel reports an interface without statistics, where it panics. *)
Theorem Collect_reports `{KernelLaws E, MI : MapIter E, !MapIterLaws E, !MapIterView E}
    (h : Heap) (m : TopologyManager) (e : E) :
  exists r e', Collect h m e = (r, e') /\ view e' = view e /\
    match r with
    | Val ms => exists answers : list (loc * list nl_link),
        answers.*1 ≡ₚ filter (fun l => live (load l h)) (map_to_list m).*2 /\
        Forall (fun a => poll h e a.1 a.2) answers /\
        ms ≡ₚ answers ≫= fun a => a.2 ≫= samples (load a.1 h)
    | Panic _ => exists key l lks, m !! key = Some l /\ live (load l h) /\
        answered (NetNs (Status (load l h))) e lks /\ Exists (fun lk => nl_Statistics lk = None) lks
    | Exit _ => False
    end.
Proof.
  unfold Collect, TopologyManager_List, bind, call. destruct (map_order _ e) as [ls e1] eqn:Hm.
  pose proof (map_order_view _ _ _ _ Hm) as V1. apply map_order_perm in Hm.
  destruct (collect_all_run h ls e1) as (r & e2 & R & V2 & Hc). exists r, e2.
  split_and!; [done|congruence|]. destruct r as [ms|why|c]; [|cbn in Hc|done].
  - destruct Hc as (answers & F & P & M). exists answers. split_and!; [by rewrite F, Hm| |done].
    eapply Forall_impl; [exact P|]. intros a. by apply poll_view.
  - destruct Hc as (l & lks & Hin & Hl & Ha & Hx). rewrite <- Hm, list_elem_of_fmap in Hin.
    destruct Hin as ([key l'] & -> & Hk%elem_of_map_to_list). exists key, l', lks.
    split_and!; [done|done|by eapply answered_view|done].
Qed.

(** Topologies registered at start are lost to the manager's other
    operations: [Init] keys them by name and [Get] and [Delete] look for
    "namespace/name", so none of them is found, and deleting one leaves it in
    the map for the collector to poll. *)
Theorem TopologyManager_Init_unreachable (ts : list Topology) (h : Heap) (name ns : string) :
  Forall (fun t => no_slash (Name t) = true) ts ->
  let m := (TopologyManager_Init ts h NewTopologyManager).2 in
  TopologyManager_Get name ns m = None /\ TopologyManager_Delete name ns m = m.
Proof.
  intros Hns m. assert (TopologyManager_Get name ns m = None) as Hg.
  { unfold TopologyManager_Get. destruct (m !! _) as [l|] eqn:Hm; [|done]. exfalso.
    assert (m !! topology_key ns name <> None) as Hk by (by rewrite Hm).
    apply Init_keys in Hk as [Hk|(t & Ht & Hk)]; [done|].
    rewrite Forall_forall in Hns. symmetry in Hk. revert Hk. by apply no_slash_key, Hns. }
  split; [done|]. unfold TopologyManager_Delete. by apply delete_id.
Qed.

Definition sample_topology : Topology :=
  mkTopology "r1" "default" [] 1 (mkTopologySpec (Some [])) (mkTopologyStatus None "192.168.0.1" "/ns/a" None).

Lemma TopologyManager_Init_unreachable_witness :
  let m := (TopologyManager_Init [sample_topology] empty_heap NewTopologyManager).2 in
  TopologyManager_Get "r1" "default" m = None /\ TopologyManager_Delete "r1" "default" m = m.
Proof. apply (TopologyManager_Init_unreachable [sample_topology]). by constructor. Defined.

(** One pod with two interfaces. *)
Definition polled : Sim.State :=
  Sim.mkState (Sim.add_link ("/ns/a", "eth2") (NlOther "veth")
                 (Sim.add_link ("/ns/a", "eth1") (NlOther "veth") Sim.empty_view)) ["/ns/a"] [].

(** A poll of the two interfaces, and of a pod whose namespace is gone. *)
Definition gone_topology : Topology :=
  mkTopology "r2" "default" [] 1 (mkTopologySpec (Some [])) (mkTopologyStatus None "192.168.0.1" "/ns/gone" None).

Definition polled_heap : Heap := mkHeap {[ (inl 1%Z : loc) := sample_topology; (inl 2%Z : loc) := gone_topology ]} 0.

Definition polled_manager : TopologyManager := {[ "default/r1" := (inl 1%Z : loc); "default/r2" := (inl 2%Z : loc) ]}.

Lemma Collect_reports_witness :
  exists ms answers, (Collect polled_heap polled_manager polled).1 = Val ms /\ length ms = 16 /\
    Forall (fun a : loc * list nl_link => poll polled_heap polled a.1 a.2) answers /\
    ms ≡ₚ answers ≫= fun a => a.2 ≫= samples (load a.1 polled_heap).
Proof.
  destruct (Collect_reports polled_heap polled_manager polled) as (r & e' & Hr & _ & Hm).
  rewrite Hr. cbn [fst]. pose proof (f_equal fst Hr) as Ho. cbn [fst] in Ho.
  assert (match r with Val ms => length ms = 16 | _ => False end) as Hlen by (rewrite <- Ho; vm_compute; reflexivity).
  destruct r as [ms| |]; [|destruct Hlen..]. destruct Hm as (answers & _ & Hp & Hms).
  exists ms, answers. split; [reflexivity|]. split; [exact Hlen|]. split; [exact Hp|exact Hms].
Defined.
