(* ===== verification/Daemon.v ===== *)
(** * The daemon's state and queries

    [daemon/kubedtn/kubedtn.go] and the first half of
    [daemon/kubedtn/handler.go]: start-up, reading topologies through the
    informer, and marking pods alive.  The daemon's state is split into the
    node's network ([K]), the cluster seen over the network ([C]: API server,
    informer, other daemons), and its own memory ([KubeDTN]); a handler runs
    without interleaving, and the per-link locks it takes and the remote
    calls it makes are recorded in [trace]. *)

From stdpp Require Import base strings gmap list.
From Stdlib Require Import ZArith Lia.
From S2P Require Import Prelude GoStr GoNum GoNet Proto ApiV1 K8s Kernel SimKernel Qdisc.
From S2P Require Import LinkUtil Vxlan Decode Wire Metrics.

Local Open Scope string_scope.

(** ** State *)

(** What is fixed by [New]: [config.TCPIPBypass] and the daemon's own address
    and interface. *)
Record Settings := mkSettings { TCPIPBypass : bool; nodeIP : string; vxlanIntf : string }.

(** What a handler does to the locks and to other daemons, in order. *)
Inductive event :=
| Locked (uid : Z)
| Unlocked (uid : Z)
| RemoteCall (url : string) (payload : pb_RemotePod).

Record KubeDTN := mkKubeDTN {
  settings : Settings;
  heap : Heap;
  topologyManager : TopologyManager;
  vxlanManager : VxlanManager;
  wireState : WireState;
  (** The wires receive threads were started for, newest first.  A thread ends
      when the stop channel of its wire is closed ([running]). *)
  threads : list GRPCWire;
  (** [latencyHistograms]: observations (method, milliseconds), newest first. *)
  histograms : list (string * Z);
  (** Readings of the clock in nanoseconds, and how many were taken. *)
  clock : nat -> Z;
  ticks : nat;
  trace : list event
}.

(** The receive threads that have not been told to stop. *)
Definition running (d : KubeDTN) : list GRPCWire :=
  filter (fun t => StopC t ∉ closed (wireState d)) (threads d).

Record World (K C : Type) := mkWorld { kernel : K; cluster : C; daemon : KubeDTN }.
Arguments mkWorld {K C}.
Arguments kernel {K C}.
Arguments cluster {K C}.
Arguments daemon {K C}.

Definition set_kernel {K C} (k : K) (w : World K C) : World K C := mkWorld k (cluster w) (daemon w).
Definition set_cluster {K C} (c : C) (w : World K C) : World K C := mkWorld (kernel w) c (daemon w).
Definition set_daemon {K C} (d : KubeDTN) (w : World K C) : World K C := mkWorld (kernel w) (cluster w) d.

Definition set_heap (h : Heap) (d : KubeDTN) : KubeDTN :=
  mkKubeDTN (settings d) h (topologyManager d) (vxlanManager d) (wireState d) (threads d)
    (histograms d) (clock d) (ticks d) (trace d).
Definition set_topologyManager (m : TopologyManager) (d : KubeDTN) : KubeDTN :=
  mkKubeDTN (settings d) (heap d) m (vxlanManager d) (wireState d) (threads d)
    (histograms d) (clock d) (ticks d) (trace d).
Definition set_vxlanManager (m : VxlanManager) (d : KubeDTN) : KubeDTN :=
  mkKubeDTN (settings d) (heap d) (topologyManager d) m (wireState d) (threads d)
    (histograms d) (clock d) (ticks d) (trace d).
Definition set_wireState (w : WireState) (d : KubeDTN) : KubeDTN :=
  mkKubeDTN (settings d) (heap d) (topologyManager d) (vxlanManager d) w (threads d)
    (histograms d) (clock d) (ticks d) (trace d).
Definition add_thread (t : GRPCWire) (d : KubeDTN) : KubeDTN :=
  mkKubeDTN (settings d) (heap d) (topologyManager d) (vxlanManager d) (wireState d) (t :: threads d)
    (histograms d) (clock d) (ticks d) (trace d).
Definition observe (method : string) (ms : Z) (d : KubeDTN) : KubeDTN :=
  mkKubeDTN (settings d) (heap d) (topologyManager d) (vxlanManager d) (wireState d) (threads d)
    ((method, ms) :: histograms d) (clock d) (ticks d) (trace d).
Definition tick (d : KubeDTN) : KubeDTN :=
  mkKubeDTN (settings d) (heap d) (topologyManager d) (vxlanManager d) (wireState d) (threads d)
    (histograms d) (clock d) (S (ticks d)) (trace d).
Definition log_event (e : event) (d : KubeDTN) : KubeDTN :=
  mkKubeDTN (settings d) (heap d) (topologyManager d) (vxlanManager d) (wireState d) (threads d)
    (histograms d) (clock d) (ticks d) (trace d ++ [e])%list.

(** ** The informer's store *)

Inductive store_result := StoreErr (e : error) | StoreMissing | Stored (id : Z) (t : Topology).

Class Informer (C : Type) := { store_GetByKey : string -> eff C store_result }.

Section Daemon.
  Context {K C : Type} `{UnicodeTables, ProtoLib, Kernel K, Pcap K, MapIter K}
    `{RestClient C, GrpcClient C, Informer C, Retry}.
  Local Open Scope go_scope.
  Local Abbreviation M := (go (World K C)).

(** *** Parts of the state *)

Definition on_kernel {A} (m : go K A) : M A := zoom kernel set_kernel m.
Definition on_cluster {A} (m : go C A) : M A := zoom cluster set_cluster m.

Definition on_wires {A} (m : go (K * WireState) A) : M A :=
  zoom (fun w => (kernel w, wireState (daemon w)))
       (fun p w => mkWorld p.1 (cluster w) (set_wireState p.2 (daemon w))) m.

Definition get_daemon : M KubeDTN := fun w => (Val (daemon w), w).
Definition mod_daemon (f : KubeDTN -> KubeDTN) : M unit := modify (fun w => set_daemon (f (daemon w)) w).

(** [time.Now()], and [time.Since(start).Milliseconds()]. *)
Definition time_Now : M Z := d <- get_daemon ;; mod_daemon tick ;; ret (clock d (ticks d)).

Definition Since (start : Z) : M Z :=
  now <- time_Now ;; ret (Z.quot (now - start) 1000000).

Definition Observe (method : string) (ms : Z) : M unit := mod_daemon (observe method ms).

(** [m.linkMutexes.Get(uid)], then [Lock] or [Unlock]: one mutex per key. *)
Definition Lock (uid : Z) : M unit := mod_daemon (log_event (Locked uid)).
Definition Unlock (uid : Z) : M unit := mod_daemon (log_event (Unlocked uid)).

(** [mutex.Lock(); defer mutex.Unlock(); m]: a deferred call runs on a panic as
    well. *)
Definition holding {A} (uid : Z) (m : M A) : M A :=
  Lock uid ;;
  (fun w => let '(r, w1) := m w in (r, (Unlock uid w1).2)).

(** *** Queries *)

Definition getPod (name ns : string) : M (result loc) :=
  let ns := if String.eqb ns "" then "default" else ns in
  let pod := topology_key ns name in
  obj <- on_cluster (call (store_GetByKey pod)) ;;
  match obj with
  | Stored id t =>
      d <- get_daemon ;;
      let '(l, h) := share id t (heap d) in
      mod_daemon (set_heap h) ;;
      ret (Ok l)
  | _ =>
      '(t, err) <- on_cluster (topologyClient_Get ns name) ;;
      match err with
      | Some e => ret (Err e)
      | None =>
          d <- get_daemon ;;
          let '(l, h) := alloc t (heap d) in
          mod_daemon (set_heap h) ;;
          ret (Ok l)
      end
  end.

Definition deref_topology (l : loc) : M Topology := d <- get_daemon ;; ret (load l (heap d)).

(** An assignment to fields of the object. *)
Definition update_topology (l : loc) (f : Topology -> Topology) : M unit :=
  mod_daemon (fun d => set_heap (store l (f (load l (heap d))) (heap d)) d).

Definition updateStatus (topology : loc) (ns : string) : M (option error) :=
  t <- deref_topology topology ;;
  '(_, err) <- on_cluster (topologyClient_UpdateStatus ns t) ;;
  ret err.

Definition ToProtoPod (t : Topology) : result pb_Pod :=
  match spec_Links (Spec t) with
  | None => Err (errorf "could not find 'Link' array in pod's spec")
  | Some remoteLinks =>
      Ok {| pod_Name := Name t;
            pod_SrcIp := SrcIP (Status t);
            pod_NetNs := NetNs (Status t);
            pod_KubeNs := Namespace t;
            pod_Links := Link_ToProto <$> remoteLinks |}
  end.

Definition Get (pod : pb_PodQuery) : M (result pb_Pod) :=
  r <- getPod (pq_Name pod) (pq_KubeNs pod) ;;
  match r with
  | Err e => ret (Err e)
  | Ok l => t <- deref_topology l ;; ret (ToProtoPod t)
  end.

(** *** Liveness *)

Definition GroupVersion_Identifier : string := "y-young.github.io/v1".

Definition is_alive (srcIp netNs : string) : bool :=
  negb (String.eqb srcIp "") && negb (String.eqb netNs "").

(** The first closure of [SetAlive]. *)
Definition set_alive_status (pod : pb_Pod) (alive : bool) : M (option error) :=
  r <- getPod (pod_Name pod) (pod_KubeNs pod) ;;
  match r with
  | Err e => ret (Some e)
  | Ok l =>
      (if alive
       then mod_daemon (fun d => set_topologyManager (TopologyManager_Add l (heap d) (topologyManager d)) d)
       else mod_daemon (fun d =>
              let t := load l (heap d) in
              set_topologyManager (TopologyManager_Delete (Name t) (Namespace t) (topologyManager d)) d)) ;;
      update_topology l (set_alive (pod_SrcIp pod) (pod_NetNs pod)) ;;
      updateStatus l (pod_KubeNs pod)
  end.

(** The second closure. *)
Definition set_alive_finalizers (pod : pb_Pod) (alive : bool) : M (option error) :=
  r <- getPod (pod_Name pod) (pod_KubeNs pod) ;;
  match r with
  | Err e => ret (Some e)
  | Ok l =>
      update_topology l (fun t =>
        set_finalizers (if alive then (Finalizers t ++ [GroupVersion_Identifier])%list else []) t) ;;
      t <- deref_topology l ;;
      '(_, err) <- on_cluster (topologyClient_Update (pod_KubeNs pod) t) ;;
      ret err
  end.

Definition SetAlive (pod : pb_Pod) : M (pb_BoolResponse * option error) :=
  let alive := is_alive (pod_SrcIp pod) (pod_NetNs pod) in
  retryErr <- RetryOnConflict (set_alive_status pod alive) ;;
  match retryErr with
  | Some e => ret (mk_pb_BoolResponse false, Some e)
  | None =>
      retryErr <- RetryOnConflict (set_alive_finalizers pod alive) ;;
      ret (mk_pb_BoolResponse true, None)
  end.

End Daemon.

(** ** Start-up *)

Definition filterLocalTopologies (topologies : list Topology) (nodeIP : string) : list Topology :=
  foldl (fun filtered t => if String.eqb (SrcIP (Status t)) nodeIP then (filtered ++ [t])%list else filtered)
        [] topologies.

(** The part of [New] that sets up the daemon's own state, from the listed
    topologies and the manager it is given; [Startup] has the whole of it. *)
Section NewState.
  Context {K C : Type} `{Kernel K, RestClient C}.
  Local Open Scope go_scope.

Definition newState (tcpIpBypass : bool) (hostIP : string) (topologyManager : TopologyManager)
    (clock : nat -> Z)
  : go (K * C) (result KubeDTN) :=
  '(topologies, err) <- zoom snd (fun c s => (s.1, c)) (topologyClient_List "") ;;
  match err with
  | Some e => ret (Err (errorf ("failed to list topologies: " ++ err_msg e)))
  | None =>
      let localTopologies := filterLocalTopologies topologies hostIP in
      let '(h, topologyManager) := TopologyManager_Init localTopologies empty_heap topologyManager in
      vxlanManager <-
        (fun s => match VxlanManager_Init localTopologies (s.1, NewVxlanManager) with
                  | (Val _, (k, m)) => (Val m, (k, s.2))
                  | (Panic w, (k, _)) => (Panic w, (k, s.2))
                  | (Exit c, (k, _)) => (Exit c, (k, s.2))
                  end) ;;
      src <- zoom fst (fun k s => (k, s.2)) (GetVxlanSource hostIP) ;;
      match src with
      | Err e => ret (Err (errorf ("failed to get vxlan source: " ++ err_msg e)))
      | Ok (_, vxlanIntf) =>
          ret (Ok (mkKubeDTN (mkSettings tcpIpBypass hostIP vxlanIntf) h topologyManager vxlanManager
                     init_wires [] [] clock 0 []))
      end
  end.

End NewState.
