(* ===== verification/Handler.v ===== *)
(** * The daemon's handlers

    The second half of [daemon/kubedtn/handler.go]: setting up and destroying
    pods, adding, deleting and updating links, the update a remote daemon asks
    for, and the gRPC-wire requests. *)

From stdpp Require Import base strings gmap list.
From Stdlib Require Import ZArith Lia.
From S2P Require Import Prelude GoStr GoNum GoNet Proto ApiV1 K8s Kernel SimKernel Qdisc.
From S2P Require Import LinkUtil Vxlan Decode Wire Metrics Daemon.

Local Open Scope string_scope.

Section Handlers.
  Context {K C : Type} `{UnicodeTables, ProtoLib, Kernel K, Pcap K, MapIter K}
    `{RestClient C, GrpcClient C, Informer C, Retry}.
  Local Open Scope go_scope.
  Local Abbreviation M := (go (World K C)).

Definition refuse (e : error) : pb_BoolResponse * option error := (mk_pb_BoolResponse false, Some e).
Definition accept : pb_BoolResponse * option error := (mk_pb_BoolResponse true, None).

(** [m.vxlanManager.Get(vni)] and the string it points to. *)
Definition vxlan_netns (vni : Z) : M (option string) :=
  d <- get_daemon ;;
  ret (deref (vxlanManager d) <$> VxlanManager_Get vni (vxlanManager d)).

(** [m.vxlanManager.Add(vni, &s)] for a field [s] of a fresh struct. *)
Definition vxlan_add (vni : Z) (s : string) : M unit :=
  mod_daemon (fun d => let '(c, m) := new_cell s (vxlanManager d) in
                       set_vxlanManager (VxlanManager_Add vni c m) d).

Definition vxlan_delete (vni : Z) : M unit :=
  mod_daemon (fun d => set_vxlanManager (VxlanManager_Delete vni (vxlanManager d)) d).

(** *** The update a peer's daemon asks for *)

(** Removes the VNI's interface from another namespace than the pod's, if it is
    recorded there; a failure is logged only. *)
Definition remove_stale_vxlan (pod : pb_RemotePod) : M unit :=
  netns <- vxlan_netns (rp_Vni pod) ;;
  match netns with
  | Some n =>
      if negb (String.eqb n (rp_NetNs pod))
      then _err <- on_kernel (RemoveLinkWithVni (rp_Vni pod) n) ;; ret tt
      else ret tt
  | None => ret tt
  end.

(** The rest of [Update]: the interface, the record, the latency. *)
Definition update_vxlan (ctx : Ctx) (vxlanSpec : VxlanSpec) (pod : pb_RemotePod) (startTime : Z)
  : M (pb_BoolResponse * option error) :=
  err <- on_kernel (SetupVxLan ctx vxlanSpec (rp_Properties pod)) ;;
  match err with
  | Some e => ret (refuse e)
  | None =>
      vxlan_add (rp_Vni pod) (rp_NetNs pod) ;;
      elapsed <- Since startTime ;;
      Observe "remoteUpdate" elapsed ;;
      ret accept
  end.

Definition Update (ctx : Ctx) (pod : pb_RemotePod) : M (pb_BoolResponse * option error) :=
  let uid := GetUidFromVni (rp_Vni pod) in
  let ctx := WithLogger ctx in
  startTime <- time_Now ;;
  d <- get_daemon ;;
  let vxlanSpec :=
    {| vs_NetNs := rp_NetNs pod;
       vs_IntfName := rp_IntfName pod;
       vs_IntfIp := rp_IntfIp pod;
       vs_PeerVtep := rp_PeerVtep pod;
       vs_Vni := rp_Vni pod;
       vs_SrcIp := nodeIP (settings d);
       vs_SrcIntf := vxlanIntf (settings d) |} in
  holding uid (remove_stale_vxlan pod ;; update_vxlan ctx vxlanSpec pod startTime).

(** *** gRPC wires *)

Definition RemGRPCWire (wireDef : pb_WireDef) : M (pb_BoolResponse * option error) :=
  err <- on_wires (DeleteWiresByPod (wd_KubeNs wireDef) (wd_LocalPodName wireDef)) ;;
  match err with
  | Some e => ret (refuse e)
  | None => ret accept
  end.

Definition AddGRPCWireLocal (wireDef : pb_WireDef) : M (pb_BoolResponse * option error) :=
  locInf <- on_kernel (call (net_InterfaceByName (wd_VethNameLocalHost wireDef))) ;;
  match locInf with
  | Err e => ret (refuse e)
  | Ok locInf =>
      wrHandle <- on_kernel (call (pcap_OpenLive (wd_VethNameLocalHost wireDef) 65365)) ;;
      match wrHandle with
      | Err e => exit 1
      | Ok wrHandle =>
          stopC <- on_wires make_chan ;;
          let aWire :=
            mkGRPCWire (wd_LinkUid wireDef) (wd_KubeNs wireDef) (if_Index locInf)
              (wd_VethNameLocalHost wireDef) (wd_LocalPodIp wireDef) (wd_LocalPodName wireDef)
              (wd_IntfNameInPod wireDef) (wd_LocalPodNetNs wireDef) (wd_PeerIntfId wireDef)
              (wd_PeerIp wireDef) false HOST_CREATED_WIRE "unknown" stopC in
          on_wires (AddWire aWire wrHandle) ;;
          mod_daemon (add_thread (set_ready aWire)) ;;
          ret accept
      end
  end.

Definition SendToOnce (pkt : pb_Packet) : M (pb_BoolResponse * option error) :=
  wrHandle <- on_wires (GetHostIntfHndl (pkt_RemotIntfId pkt)) ;;
  match wrHandle with
  | Err e => ret (refuse e)
  | Ok wrHandle =>
      err <- on_kernel (call (pcap_WritePacketData wrHandle (pkt_Frame pkt))) ;;
      match err with
      | Some e => ret (refuse e)
      | None => ret accept
      end
  end.

Definition AddGRPCWireRemote (wireDef : pb_WireDef) : M (pb_WireCreateResponse * option error) :=
  stopC <- on_wires make_chan ;;
  r <- on_wires (CreateGRPCWireRemoteTriggered wireDef stopC) ;;
  match r with
  | Ok wire =>
      mod_daemon (add_thread wire) ;;
      ret (mk_pb_WireCreateResponse true (LocalNodeIfaceID wire), None)
  | Err e => ret (mk_pb_WireCreateResponse false (wd_PeerIntfId wireDef), Some e)
  end.

Definition GRPCWireExists (wireDef : pb_WireDef) : M (pb_WireCreateResponse * option error) :=
  wire <- on_wires (GetWireByUID (wd_LocalPodNetNs wireDef) (wd_LinkUid wireDef)) ;;
  match wire with
  | None => ret (mk_pb_WireCreateResponse false (wd_PeerIntfId wireDef), None)
  | Some wire => ret (mk_pb_WireCreateResponse true (PeerIfaceID wire), None)
  end.

Definition GenerateNodeInterfaceName (req : pb_GenerateNodeInterfaceNameRequest)
  : M (pb_GenerateNodeInterfaceNameResponse * option error) :=
  locIfNm <- on_wires (GenNodeIfaceName (gnr_PodName req) (gnr_PodIntfName req)) ;;
  ret (mk_pb_GenResp true locIfNm, None).

(** *** Links *)

Definition physical_prefix : string := "physical/".

(** The physical host's part of a link is made on its behalf. *)
Definition physical_payload (localPod : pb_Pod) (link : pb_Link) : pb_RemotePod :=
  {| rp_NetNs := pod_NetNs localPod;
     rp_IntfName := pb_LocalIntf link;
     rp_IntfIp := pb_LocalIp link;
     rp_PeerVtep := TrimPrefix (pb_PeerPod link) physical_prefix;
     rp_Vni := GetVniFromUid (pb_Uid link);
     rp_KubeNs := pod_KubeNs localPod;
     rp_Properties := pb_Properties link;
     rp_Name := pb_PeerPod link |}.

(** [common.UpdateRemote], with its call noted. *)
Definition call_remote (localPod peerPod : pb_Pod) (link : pb_Link) : M (option error) :=
  mod_daemon (log_event (RemoteCall (remote_url peerPod) (remote_payload localPod peerPod link))) ;;
  on_cluster (UpdateRemote localPod peerPod link).

(** The end of [addLink]: the latency is observed. *)
Definition link_added (startTime : Z) : M (option error) :=
  elapsed <- Since startTime ;;
  Observe "add" elapsed ;;
  ret None.

(** Both pods are on this node. *)
Definition addLink_local (ctx : Ctx) (startTime : Z) (localPod peerPod : pb_Pod) (link : pb_Link)
    (myVeth : VEth) : M (option error) :=
  match MakeVeth (pod_NetNs peerPod) (pb_PeerIntf link) (pb_PeerIp link) (pb_PeerMac link) with
  | Err e => ret (Some e)
  | Ok peerVeth =>
      holding (pb_Uid link) (
        err <- on_kernel (SetupVeth ctx myVeth peerVeth link localPod) ;;
        match err with
        | Some e => ret (Some e)
        | None => link_added startTime
        end)
  end.

(** The peer is on another node. *)
Definition addLink_remote (ctx : Ctx) (startTime : Z) (localPod peerPod : pb_Pod) (link : pb_Link)
  : M (option error) :=
  d <- get_daemon ;;
  let vxlanSpec :=
    {| vs_NetNs := pod_NetNs localPod;
       vs_IntfName := pb_LocalIntf link;
       vs_IntfIp := pb_LocalIp link;
       vs_PeerVtep := pod_SrcIp peerPod;
       vs_Vni := GetVniFromUid (pb_Uid link);
       vs_SrcIp := nodeIP (settings d);
       vs_SrcIntf := vxlanIntf (settings d) |} in
  Lock (pb_Uid link) ;;
  err <- on_kernel (SetupVxLan ctx vxlanSpec (pb_Properties link)) ;;
  match err with
  | Some e => Unlock (pb_Uid link) ;; ret (Some e)
  | None =>
      vxlan_add (vs_Vni vxlanSpec) (vs_NetNs vxlanSpec) ;;
      Unlock (pb_Uid link) ;;
      err <- call_remote localPod peerPod link ;;
      match err with
      | Some e => ret (Some e)
      | None => link_added startTime
      end
  end.

Definition addLink (ctx : Ctx) (localPod : pb_Pod) (link : pb_Link) : M (option error) :=
  d <- get_daemon ;;
  let ctx := WithCtxValue (WithLogger ctx) TCPIP_BYPASS (CtxBool (TCPIPBypass (settings d))) in
  startTime <- time_Now ;;
  match MakeVeth (pod_NetNs localPod) (pb_LocalIntf link) (pb_LocalIp link) (pb_LocalMac link) with
  | Err e => ret (Some e)
  | Ok myVeth =>
      if String.eqb (pb_PeerPod link) Localhost then
        on_kernel (call (koko_MakeMacVLan myVeth (mkMacVLan (pb_PeerIntf link) MacvlanMode)))
      else if HasPrefix (pb_PeerPod link) physical_prefix then
        '(response, err) <- Update ctx (physical_payload localPod link) ;;
        if negb (Response response) then ret err
        else match err with Some e => ret (Some e) | None => ret None end
      else
        peer <- getPod (pb_PeerPod link) (pod_KubeNs localPod) ;;
        match peer with
        | Err e => ret (Some e)
        | Ok peerTopology =>
            t <- deref_topology peerTopology ;;
            match ToProtoPod t with
            | Err e => ret (Some e)
            | Ok peerPod =>
                if negb (is_alive (pod_SrcIp peerPod) (pod_NetNs peerPod)) then ret None
                else if String.eqb (pod_SrcIp peerPod) (pod_SrcIp localPod)
                then addLink_local ctx startTime localPod peerPod link myVeth
                else addLink_remote ctx startTime localPod peerPod link
            end
        end
  end.

Definition delLink (ctx : Ctx) (localPod : pb_Pod) (link : pb_Link) : M (option error) :=
  startTime <- time_Now ;;
  match MakeVeth (pod_NetNs localPod) (pb_LocalIntf link) (pb_LocalIp link) (pb_LocalMac link) with
  | Err e => ret (Some e)
  | Ok myVeth =>
      _err <- on_kernel (call (koko_RemoveVethLink myVeth)) ;;
      let vni := GetVniFromUid (pb_Uid link) in
      netns <- vxlan_netns vni ;;
      (match netns with
       | Some n => if String.eqb n (pod_NetNs localPod) then vxlan_delete vni else ret tt
       | None => ret tt
       end) ;;
      elapsed <- Since startTime ;;
      Observe "del" elapsed ;;
      ret None
  end.

(** The loops of [AddLinks] and [DelLinks]. *)
Fixpoint links_loop (f : pb_Link -> M (option error)) (links : list pb_Link)
  : M (pb_BoolResponse * option error) :=
  match links with
  | [] => ret accept
  | link :: rest =>
      err <- f link ;;
      match err with
      | Some e => ret (refuse e)
      | None => links_loop f rest
      end
  end.

(** [query.LocalPod] is a pointer that the handlers dereference. *)
Definition with_pod {A} (query : pb_LinksBatchQuery) (k : pb_Pod -> M A) : M A :=
  match lbq_LocalPod query with
  | None => panic "invalid memory address or nil pointer dereference"
  | Some localPod => k localPod
  end.

Definition AddLinks (ctx : Ctx) (query : pb_LinksBatchQuery) : M (pb_BoolResponse * option error) :=
  with_pod query (fun localPod => links_loop (addLink (WithLogger ctx) localPod) (lbq_Links query)).

Definition DelLinks (ctx : Ctx) (query : pb_LinksBatchQuery) : M (pb_BoolResponse * option error) :=
  with_pod query (fun localPod => links_loop (delLink (WithLogger ctx) localPod) (lbq_Links query)).

(** The body of the loop of [UpdateLinks]. *)
Definition updateLink (ctx : Ctx) (localPod : pb_Pod) (link : pb_Link) : M (option error) :=
  startTime <- time_Now ;;
  match MakeVeth (pod_NetNs localPod) (pb_LocalIntf link) (pb_LocalIp link) (pb_LocalMac link) with
  | Err e => ret (Some e)
  | Ok myVeth =>
      match MakeQdiscs (pb_Properties link) with
      | Err e => ret (Some e)
      | Ok qdiscs =>
          err <- on_kernel (SetVethQdiscs ctx myVeth qdiscs) ;;
          match err with
          | Some e => ret (Some e)
          | None =>
              elapsed <- Since startTime ;;
              Observe "update" elapsed ;;
              ret None
          end
      end
  end.

Definition UpdateLinks (ctx : Ctx) (query : pb_LinksBatchQuery) : M (pb_BoolResponse * option error) :=
  with_pod query (fun localPod =>
    d <- get_daemon ;;
    let ctx := WithCtxValue (WithLogger ctx) TCPIP_BYPASS (CtxBool (TCPIPBypass (settings d))) in
    links_loop (updateLink ctx localPod) (lbq_Links query)).

(** *** Pods *)

Definition set_pod_alive (srcIp netNs : string) (p : pb_Pod) : pb_Pod :=
  mk_pb_Pod (pod_Name p) srcIp netNs (pod_KubeNs p) (pod_Links p).

Definition SetupPod (ctx : Ctx) (pod : pb_SetupPodQuery) : M (pb_BoolResponse * option error) :=
  let ctx := WithLogger ctx in
  r <- Get (mk_pb_PodQuery (spq_Name pod) (spq_KubeNs pod)) ;;
  match r with
  | Err _ => ret accept
  | Ok localPod =>
      d <- get_daemon ;;
      let localPod := set_pod_alive (nodeIP (settings d)) (spq_NetNs pod) localPod in
      '(ok, err) <- SetAlive localPod ;;
      if bool_decide (err <> None) || negb (Response ok) then ret (mk_pb_BoolResponse false, err)
      else
        '(response, err) <- AddLinks ctx (mk_pb_LinksBatchQuery (Some localPod) (pod_Links localPod)) ;;
        if bool_decide (err <> None) || negb (Response response) then ret (mk_pb_BoolResponse false, err)
        else ret accept
  end.

Definition DestroyPod (ctx : Ctx) (pod : pb_PodQuery) : M (pb_BoolResponse * option error) :=
  let ctx := WithLogger ctx in
  mod_daemon (fun d =>
    set_topologyManager (TopologyManager_Delete (pq_Name pod) (pq_KubeNs pod) (topologyManager d)) d) ;;
  let wireDef := mk_pb_WireDef 0 "" "" "" 0 (pq_Name pod) "" (pq_KubeNs pod) "" in
  '(removResp, err) <- RemGRPCWire wireDef ;;
  if bool_decide (err <> None) || negb (Response removResp)
  then ret (refuse (errorf ("could not remove grpc wire: " ++ default "<nil>" (err_msg <$> err))))
  else
    r <- Get pod ;;
    match r with
    | Err _ => ret (mk_pb_BoolResponse false, None)
    | Ok localPod =>
        let localPod := set_pod_alive "" "" localPod in
        '(_, err) <- SetAlive localPod ;;
        match err with
        | Some e => ret (refuse (errorf ("could not set alive status: " ++ err_msg e)))
        | None =>
            '(response, err) <- DelLinks ctx (mk_pb_LinksBatchQuery (Some localPod) (pod_Links localPod)) ;;
            if bool_decide (err <> None) || negb (Response response) then ret (mk_pb_BoolResponse false, err)
            else ret accept
        end
    end.

End Handlers.

(** ** Rules for the parts of the state *)

Section Rules.
  Context {K C : Type}.
  Implicit Types (w : World K C).

Lemma wlp_kernel {A} (m : go K A) (Q : A -> World K C -> Prop) w :
  wlp m (fun a k => Q a (set_kernel k w)) (kernel w) -> wlp (on_kernel m) Q w.
Proof. apply wlp_zoom. Qed.

Lemma wlp_cluster {A} (m : go C A) (Q : A -> World K C -> Prop) w :
  wlp m (fun a c => Q a (set_cluster c w)) (cluster w) -> wlp (on_cluster m) Q w.
Proof. apply wlp_zoom. Qed.

(** The weakest thing to say of a computation. *)
Lemma wlp_any {S A} (m : go S A) (Q : A -> S -> Prop) s : (forall a s', Q a s') -> wlp m Q s.
Proof. intros HQ. unfold wlp. destruct (m s) as [[a| |] s']; auto. Qed.

Lemma wlp_get_daemon (Q : KubeDTN -> World K C -> Prop) w : Q (daemon w) w -> wlp get_daemon Q w.
Proof. done. Qed.

Lemma wlp_mod_daemon f (Q : unit -> World K C -> Prop) w :
  Q tt (set_daemon (f (daemon w)) w) -> wlp (mod_daemon f) Q w.
Proof. done. Qed.

Lemma wlp_time_Now (Q : Z -> World K C -> Prop) w :
  Q (clock (daemon w) (ticks (daemon w))) (set_daemon (tick (daemon w)) w) -> wlp time_Now Q w.
Proof. done. Qed.

Lemma wlp_Since t (Q : Z -> World K C -> Prop) w :
  (forall ms, Q ms (set_daemon (tick (daemon w)) w)) -> wlp (Since t) Q w.
Proof. intros HQ. apply HQ. Qed.

Lemma wlp_holding {A} uid (m : go (World K C) A) (Q : A -> World K C -> Prop) w :
  wlp m (fun a w' => Q a (set_daemon (log_event (Unlocked uid) (daemon w')) w'))
    (set_daemon (log_event (Locked uid) (daemon w)) w) ->
  wlp (holding uid m) Q w.
Proof.
  unfold wlp, holding, bind, Lock, mod_daemon, modify. cbn.
  by destruct (m (set_daemon (log_event (Locked uid) (daemon w)) w)) as [[a| |] w'].
Qed.

End Rules.

(** Steps of the daemon's monad; calls outside are left to the user. *)
Ltac d_step :=
  lazymatch goal with
  | |- wlp get_daemon _ _ => apply wlp_get_daemon; cbv beta
  | |- wlp (mod_daemon _) _ _ => apply wlp_mod_daemon; cbv beta
  | |- wlp time_Now _ _ => apply wlp_time_Now; cbv beta
  | |- wlp (Since _) _ _ => apply wlp_Since; intros ?; cbv beta
  | |- wlp (holding _ _) _ _ => apply wlp_holding
  | |- wlp (Lock _) _ _ => apply wlp_mod_daemon; cbv beta
  | |- wlp (Unlock _) _ _ => apply wlp_mod_daemon; cbv beta
  | |- wlp (Observe _ _) _ _ => apply wlp_mod_daemon; cbv beta
  | |- wlp (vxlan_netns _) _ _ => apply wlp_bind, wlp_get_daemon; cbv beta
  | |- wlp (vxlan_add _ _) _ _ => apply wlp_mod_daemon; cbv beta
  | |- wlp (vxlan_delete _) _ _ => apply wlp_mod_daemon; cbv beta
  | |- wlp (deref_topology _) _ _ => apply wlp_bind, wlp_get_daemon; cbv beta
  | |- wlp (update_topology _ _) _ _ => apply wlp_mod_daemon; cbv beta
  | |- wlp (link_added _) _ _ => unfold link_added
  | _ => wp_step
  end.

(** ** Lock discipline *)

(** Locks are held one at a time, and no call to another daemon is made under
    a lock. *)
Inductive disciplined : list event -> Prop :=
| disc_nil : disciplined []
| disc_lock uid t : disciplined t -> disciplined (Locked uid :: Unlocked uid :: t)
| disc_call url p t : disciplined t -> disciplined (RemoteCall url p :: t).

Lemma disciplined_app t t' : disciplined t -> disciplined t' -> disciplined (t ++ t').
Proof. induction 1; cbn; [done|constructor..]; auto. Qed.

(** [w'] follows [w] with a disciplined trace. *)
Definition follows {K C} (w w' : World K C) : Prop :=
  exists t, trace (daemon w') = (trace (daemon w) ++ t)%list /\ disciplined t.

Lemma follows_refl {K C} (w : World K C) : follows w w.
Proof. exists []. rewrite app_nil_r. split; [done|constructor]. Qed.

Lemma follows_trans {K C} (w1 w2 w3 : World K C) : follows w1 w2 -> follows w2 w3 -> follows w1 w3.
Proof.
  intros (t & H1 & D1) (t' & H2 & D2). exists (t ++ t')%list. rewrite H2, H1, app_assoc.
  split; [done|by apply disciplined_app].
Qed.

Lemma follows_same {K C} (w w' : World K C) : trace (daemon w') = trace (daemon w) -> follows w w'.
Proof. intros H. exists []. rewrite app_nil_r. split; [done|constructor]. Qed.

Lemma follows_lock {K C} (w w' : World K C) uid :
  trace (daemon w') = (trace (daemon w) ++ [Locked uid; Unlocked uid])%list -> follows w w'.
Proof. intros H. exists [Locked uid; Unlocked uid]. split; [done|by repeat constructor]. Qed.

Section Discipline.
  Context {K C : Type} `{UnicodeTables, ProtoLib, Kernel K, Pcap K, MapIter K}
    `{RestClient C, GrpcClient C, Informer C, RL : RetryLaws}.
  Implicit Types (w : World K C).

(** A computation that leaves a part of the state alone. *)
Definition keeps {X A} (p : World K C -> X) (m : go (World K C) A) : Prop :=
  forall w, wlp m (fun _ w' => p w' = p w) w.

Definition the_trace w : list event := trace (daemon w).

Lemma keeps_kernel {X A} (p : World K C -> X) (m : go K A) :
  (forall k w, p (set_kernel k w) = p w) -> keeps p (on_kernel m).
Proof. intros Hp w. apply wlp_kernel, wlp_any. intros. apply Hp. Qed.

Lemma keeps_cluster {X A} (p : World K C -> X) (m : go C A) :
  (forall c w, p (set_cluster c w) = p w) -> keeps p (on_cluster m).
Proof. intros Hp w. apply wlp_cluster, wlp_any. intros. apply Hp. Qed.

Lemma keeps_wires {X A} (p : World K C -> X) (m : go (K * WireState) A) :
  (forall k ws w, p (mkWorld k (cluster w) (set_wireState ws (daemon w))) = p w) ->
  keeps p (on_wires m : go (World K C) A).
Proof. intros Hp w. apply wlp_zoom, wlp_any. intros. apply Hp. Qed.

Lemma keeps_bind {X A B} (p : World K C -> X) (m : go (World K C) A) (k : A -> go (World K C) B) :
  keeps p m -> (forall a, keeps p (k a)) -> keeps p (bind m k).
Proof.
  intros Hm Hk w. apply wlp_bind. eapply wlp_mono; [apply Hm|]. intros a w' Hw.
  eapply wlp_mono; [apply Hk|]. intros b w'' Hw'. congruence.
Qed.

Lemma keeps_ret {X A} (p : World K C -> X) (a : A) : keeps p (ret a).
Proof. by intros w. Qed.

Lemma keeps_mod {X} (p : World K C -> X) f :
  (forall w, p (set_daemon (f (daemon w)) w) = p w) -> keeps p (mod_daemon f).
Proof. intros Hf w. apply Hf. Qed.

Lemma keeps_retry {X} (p : World K C -> X) (fn : go (World K C) (option error)) :
  keeps p fn -> keeps p (RetryOnConflict fn).
Proof.
  intros Hf w. unfold wlp. pose proof (retry_attempts _ fn w) as Ha.
  apply (attempts_invariant fn (fun w' => p w' = p w)
           (fun x => match x with (Val _, w') => p w' = p w | _ => True end) w) in Ha; [done| | |done].
  - intros w1 Hw1. pose proof (Hf w1) as Hw. unfold wlp in Hw.
    destruct (fn w1) as [[a| |] w2]; [congruence|done..].
  - intros w1 e w2 Hw1 Hr. pose proof (Hf w1) as Hw. unfold wlp in Hw. rewrite Hr in Hw. congruence.
Qed.

Lemma keeps_holding {X A} (p : World K C -> X) uid (m : go (World K C) A) :
  (forall e w, p (set_daemon (log_event e (daemon w)) w) = p w) -> keeps p m -> keeps p (holding uid m).
Proof.
  intros Hp Hm w. apply wlp_holding. eapply wlp_mono; [apply Hm|]. intros a w' Hw. by rewrite Hp, Hw, Hp.
Qed.

(** Descends through a computation none of whose steps writes the part. *)
Ltac keep :=
  lazymatch goal with
  | |- keeps _ (bind _ _) => apply keeps_bind; [keep|intros ?; keep]
  | |- keeps _ (ret _) => apply keeps_ret
  | |- keeps _ (on_kernel _) => apply keeps_kernel; reflexivity
  | |- keeps _ (on_cluster _) => apply keeps_cluster; reflexivity
  | |- keeps _ (on_wires _) => apply keeps_wires; reflexivity
  | |- keeps _ (RetryOnConflict _) => apply keeps_retry; keep
  | |- keeps _ (holding _ _) => apply keeps_holding; [reflexivity|keep]
  | |- keeps _ get_daemon => by intros ?
  | |- keeps _ (mod_daemon _) => apply keeps_mod; reflexivity
  | |- keeps _ (panic _) => by intros ?
  | |- keeps _ (exit _) => by intros ?
  | |- keeps _ (match ?x with _ => _ end) => destruct x; keep
  | |- keeps _ (let _ := _ in _) => cbv zeta; keep
  | |- keeps _ ?m => let h := head_of m in unfold h; keep
  end.

Lemma silent_SetAlive pod : keeps the_trace (SetAlive pod).
Proof. keep. Qed.

(** The node, the records and the settings. *)
Definition the_node w : K * VxlanManager * Settings := (kernel w, vxlanManager (daemon w), settings (daemon w)).

Lemma SetAlive_keeps_node pod : keeps the_node (SetAlive pod).
Proof. keep. Qed.

Lemma Get_keeps_node q : keeps the_node (Get q).
Proof. keep. Qed.

(** A handler whose every run is disciplined. *)
Definition orderly {A} (m : go (World K C) A) : Prop := forall w, wlp m (fun _ w' => follows w w') w.

Lemma orderly_silent {A} (m : go (World K C) A) : keeps the_trace m -> orderly m.
Proof. intros Hm w. eapply wlp_mono; [apply Hm|]. intros a w'. apply follows_same. Qed.

Lemma orderly_bind {A B} (m : go (World K C) A) (k : A -> go (World K C) B) :
  orderly m -> (forall a, orderly (k a)) -> orderly (bind m k).
Proof.
  intros Hm Hk w. apply wlp_bind. eapply wlp_mono; [apply Hm|]. intros a w' Hw.
  eapply wlp_mono; [apply Hk|]. intros b w''. by apply follows_trans.
Qed.

Lemma orderly_holding {A} uid (m : go (World K C) A) : keeps the_trace m -> orderly (holding uid m).
Proof.
  intros Hm w. apply wlp_holding. eapply wlp_mono; [apply Hm|]. intros a w' Hw.
  unfold the_trace in Hw. apply (follows_lock _ _ uid). cbn. rewrite Hw. cbn. by rewrite <- app_assoc.
Qed.

Lemma orderly_call localPod peerPod link : orderly (call_remote localPod peerPod link).
Proof.
  apply orderly_bind; [|intros ?; apply orderly_silent, keeps_cluster; reflexivity].
  intros w. eexists [_]. split; [reflexivity|repeat constructor].
Qed.

Lemma orderly_Update ctx pod : orderly (Update ctx pod).
Proof.
  unfold Update. cbv zeta. apply orderly_bind; [apply orderly_silent; keep|]. intros t.
  apply orderly_bind; [by intros w; apply follows_refl|]. intros d. apply orderly_holding. keep.
Qed.

Lemma orderly_addLink_remote ctx t localPod peerPod link :
  orderly (addLink_remote ctx t localPod peerPod link).
Proof.
  unfold addLink_remote. apply orderly_bind; [by intros w; apply follows_refl|]. intros d. cbv zeta.
  intros w. wp_step. d_step. wp_step. eapply wlp_mono; [apply (keeps_kernel the_trace); reflexivity|]. intros err w1 Hw1.
  assert (forall w2, trace (daemon w2) = trace (daemon w1) ->
            follows w (set_daemon (log_event (Unlocked (pb_Uid link)) (daemon w2)) w2)) as Hf.
  { intros w2 Hw2. unfold the_trace in Hw1. apply (follows_lock _ _ (pb_Uid link)). cbn. rewrite Hw2, Hw1. cbn. by rewrite <- app_assoc. }
  destruct err as [er|]; [do 3 d_step; by apply Hf|]. do 4 d_step.
  wp_step. eapply wlp_mono; [apply orderly_call|]. intros err w2 Hw2.
  assert (follows w w2) as Hw by (eapply follows_trans; [|exact Hw2]; by apply Hf).
  destruct err as [er|]; [by wp_step|].
  eapply wlp_mono; [apply (orderly_silent (link_added t)); keep|]. intros r w3. by apply follows_trans.
Qed.

Lemma orderly_addLink ctx localPod link : orderly (addLink ctx localPod link).
Proof.
  unfold addLink. apply orderly_bind; [by intros w; apply follows_refl|]. intros d. cbv zeta.
  apply orderly_bind; [apply orderly_silent; keep|]. intros t.
  destruct (MakeVeth _ _ _ _) as [myVeth|er]; [|by intros w; apply follows_refl].
  destruct (String.eqb _ _); [apply orderly_silent, keeps_kernel; reflexivity|].
  destruct (HasPrefix _ _).
  { apply orderly_bind; [apply orderly_Update|]. intros [response err]. apply orderly_silent.
    destruct (negb _); [keep|destruct err; keep]. }
  apply orderly_bind; [apply orderly_silent; keep|]. intros [l|er]; [|apply orderly_silent; keep].
  apply orderly_bind; [apply orderly_silent; keep|]. intros tp.
  destruct (ToProtoPod tp) as [peerPod|er]; [|apply orderly_silent; keep].
  destruct (negb _); [apply orderly_silent; keep|].
  destruct (String.eqb _ _); [|apply orderly_addLink_remote].
  unfold addLink_local. destruct (MakeVeth _ _ _ _) as [peerVeth|er]; [|apply orderly_silent; keep].
  apply orderly_holding. keep.
Qed.

(** [Update] holds one lock, that of its VNI's link. *)
Lemma Update_trace ctx pod w :
  wlp (Update ctx pod) (fun _ w' => the_trace w' =
    (the_trace w ++ [Locked (GetUidFromVni (rp_Vni pod)); Unlocked (GetUidFromVni (rp_Vni pod))])%list) w.
Proof.
  unfold Update. cbv zeta. apply wlp_bind. assert (keeps the_trace time_Now) as Ht by keep.
  eapply wlp_mono; [apply Ht|]. intros t w1 Hw1. apply wlp_bind. apply wlp_get_daemon. apply wlp_holding.
  match goal with |- wlp ?m _ _ => assert (keeps the_trace m) as Hm by keep end.
  eapply wlp_mono; [apply Hm|]. intros a w' Hw.
  unfold the_trace in *. cbn. rewrite Hw. cbn. by rewrite Hw1, <- app_assoc.
Qed.

(** The settings never change. *)
Definition the_settings w : Settings := settings (daemon w).

Lemma addLink_keeps_settings ctx pod link : keeps the_settings (addLink ctx pod link).
Proof. keep. Qed.

Lemma Update_keeps_settings ctx pod : keeps the_settings (Update ctx pod).
Proof. keep. Qed.

(** Updates and local links need no other node. *)
Lemma Update_keeps_cluster ctx pod : keeps cluster (Update ctx pod : go (World K C) _).
Proof. keep. Qed.

Lemma addLink_local_keeps_cluster ctx t pod peerPod link a : keeps cluster (addLink_local ctx t pod peerPod link a : go (World K C) _).
Proof. keep. Qed.

Lemma SetAlive_keeps_settings pod : keeps the_settings (SetAlive pod).
Proof. keep. Qed.

Lemma orderly_loop f links : (forall l, orderly (f l)) -> orderly (links_loop f links).
Proof.
  intros Hf. induction links as [|l links IH]; cbn [links_loop]; [by intros w; apply follows_refl|].
  apply orderly_bind; [done|]. intros [er|]; [by intros w; apply follows_refl|done].
Qed.

Lemma orderly_AddLinks ctx q : orderly (AddLinks ctx q).
Proof.
  unfold AddLinks, with_pod. destruct (lbq_LocalPod q); [|by intros w].
  apply orderly_loop. intros l. apply orderly_addLink.
Qed.

Lemma silent_loop f links : (forall l, keeps the_trace (f l)) -> keeps the_trace (links_loop f links).
Proof.
  intros Hf. induction links as [|l links IH]; cbn [links_loop]; [apply keeps_ret|].
  apply keeps_bind; [done|]. intros [er|]; [apply keeps_ret|done].
Qed.

(** The handlers that take no lock. *)
Lemma silent_DelLinks ctx q : keeps the_trace (DelLinks ctx q).
Proof.
  unfold DelLinks, with_pod. destruct (lbq_LocalPod q); [|by intros w]. apply silent_loop. intros l. keep.
Qed.

Lemma silent_UpdateLinks ctx q : keeps the_trace (UpdateLinks ctx q).
Proof.
  unfold UpdateLinks, with_pod. destruct (lbq_LocalPod q); [|by intros w].
  apply keeps_bind; [by intros w|]. intros d. apply silent_loop. intros l. keep.
Qed.

Lemma silent_DestroyPod ctx q : keeps the_trace (DestroyPod ctx q).
Proof.
  unfold DestroyPod. cbv zeta. apply keeps_bind; [keep|]. intros []. apply keeps_bind; [keep|].
  intros [r err]. destruct (_ || _); [keep|]. apply keeps_bind; [keep|]. intros [p|er]; [|keep].
  apply keeps_bind; [apply silent_SetAlive|]. intros [ok [er|]]; [keep|].
  apply keeps_bind; [apply silent_DelLinks|]. intros [resp err']. destruct (_ || _); keep.
Qed.

Lemma orderly_SetupPod ctx q : orderly (SetupPod ctx q).
Proof.
  unfold SetupPod. cbv zeta. apply orderly_bind; [apply orderly_silent; keep|].
  intros [p|er]; [|apply orderly_silent; keep].
  apply orderly_bind; [by intros w; apply follows_refl|]. intros d.
  apply orderly_bind; [apply orderly_silent, silent_SetAlive|]. intros [ok err].
  destruct (_ || _); [apply orderly_silent; keep|].
  apply orderly_bind; [apply orderly_AddLinks|]. intros [resp err'].
  destruct (_ || _); apply orderly_silent; keep.
Qed.

End Discipline.

(** ** What the handlers establish *)

(** One end of a tunnel: a VXLAN with the VNI towards the other node. *)
Definition tunnel_end (v : net_view) (ns intf : string) (vni : Z) (vtep : string) : Prop :=
  exists grp, links v !! (ns, intf) = Some (NlVxlan vni grp) /\ IP_Equal grp (ParseIP vtep) = true.

(** What the manager finds for the VNI names the namespace. *)
Definition names (m : VxlanManager) (vni : Z) (ns : string) : Prop :=
  exists c, VxlanManager_Get vni m = Some c /\ deref m c = ns.

(** The manager records the VNI in the namespace, in a variable it allocated. *)
Definition recorded (m : VxlanManager) (vni : Z) (ns : string) : Prop :=
  exists c, VxlanManager_Get vni m = Some c /\ (c < fresh_cell m)%nat /\ deref m c = ns.

Lemma recorded_new m vni s :
  recorded (let '(c, m) := new_cell s m in VxlanManager_Add vni c m) vni s.
Proof.
  exists (fresh_cell m). unfold VxlanManager_Get, deref. cbn. rewrite !lookup_insert_eq. split_and!; [done|lia|done].
Qed.

Section Establish.
  Context {K C : Type} `{UnicodeTables, ProtoLib, KL : KernelLaws K, Pcap K, MapIter K}
    `{RestClient C, GrpcClient C, Informer C, RL : RetryLaws}.
  Implicit Types (w : World K C).

Lemma wlp_SetupVxLan ctx v p k :
  vs_SrcIntf v <> "" ->
  wlp (SetupVxLan ctx v p)
    (fun r k' => r = None -> tunnel_end (view k') (vs_NetNs v) (vs_IntfName v) (vs_Vni v) (vs_PeerVtep v) /\
       shaped (view k') (vs_NetNs v, vs_IntfName v) (tcpIpBypass ctx) p) k.
Proof. intros Hs. apply wlp_wp, (SetupVxLan_wp ctx v p k Hs). Qed.

Lemma update_vxlan_wlp ctx v pod t w :
  vs_SrcIntf v <> "" ->
  wlp (update_vxlan ctx v pod t)
    (fun r w' => (exists e, r = refuse e) \/
       r = accept /\
       tunnel_end (view (kernel w')) (vs_NetNs v) (vs_IntfName v) (vs_Vni v) (vs_PeerVtep v) /\
       shaped (view (kernel w')) (vs_NetNs v, vs_IntfName v) (tcpIpBypass ctx) (rp_Properties pod) /\
       recorded (vxlanManager (daemon w')) (rp_Vni pod) (rp_NetNs pod)) w.
Proof.
  intros Hv. unfold update_vxlan. wp_step. apply wlp_kernel.
  eapply wlp_mono; [by apply wlp_SetupVxLan|]. intros [er|] k' Hk; [wp_step; eauto|].
  repeat d_step. right. split; [done|]. split; [by apply Hk|]. split; [by apply Hk|apply recorded_new].
Qed.

Lemma Update_wlp ctx pod w :
  vxlanIntf (settings (daemon w)) <> "" ->
  wlp (Update ctx pod)
    (fun r w' => (exists e, r = refuse e) \/
       r = accept /\
       tunnel_end (view (kernel w')) (rp_NetNs pod) (rp_IntfName pod) (rp_Vni pod) (rp_PeerVtep pod) /\
       shaped (view (kernel w')) (rp_NetNs pod, rp_IntfName pod) (tcpIpBypass ctx) (rp_Properties pod) /\
       recorded (vxlanManager (daemon w')) (rp_Vni pod) (rp_NetNs pod)) w.
Proof.
  intros Hv. unfold Update. cbv zeta. do 6 d_step. apply wlp_any. intros [] w1.
  eapply wlp_mono; [by apply update_vxlan_wlp|]. done.
Qed.

(** Reading a topology changes neither the node nor the daemon's records. *)
Lemma getPod_wlp name ns w :
  wlp (getPod name ns) (fun _ w' => kernel w' = kernel w /\ exists h, daemon w' = set_heap h (daemon w)) w.
Proof.
  unfold getPod. cbv zeta. wp_step. apply wlp_cluster, wlp_any. intros obj c.
  assert (wlp (bind (on_cluster (topologyClient_Get (if String.eqb ns "" then "default" else ns) name))
      (fun '(t, err) => match err with
        | Some e => ret (Err e)
        | None => bind get_daemon (fun d => let '(l, h) := alloc t (heap d) in
                    bind (mod_daemon (set_heap h)) (fun _ => ret (Ok l))) end))
      (fun _ w' => kernel w' = kernel w /\ exists h, daemon w' = set_heap h (daemon w)) (set_cluster c w)) as Hget.
  { wp_step. apply wlp_cluster, wlp_any. intros [t [er|]] c'.
    - wp_step. cbn. split; [done|]. exists (heap (daemon w)). by destruct (daemon w).
    - repeat d_step. cbn. eauto. }
  destruct obj as [er| |id t]; [exact Hget|exact Hget|]. repeat d_step. cbn. eauto.
Qed.

(** The peer's topology as [addLink] reads it. *)
Definition peer_read w (name ns : string) (t : Topology) : Prop :=
  exists l w1, getPod name ns (set_daemon (tick (daemon w)) w) = (Val (Ok l), w1) /\
               load l (heap (daemon w1)) = t.

(** What a link is after [addLink] returned nil, by where its peer is. *)
Inductive link_added_as (localPod : pb_Pod) (link : pb_Link) w w' : Prop :=
| AsMacvlan :
    pb_PeerPod link = Localhost ->
    links (view (kernel w')) =
      <[(pod_NetNs localPod, pb_LocalIntf link) := NlOther "macvlan"]> (links (view (kernel w))) ->
    link_added_as localPod link w w'
| AsPhysical :
    HasPrefix (pb_PeerPod link) physical_prefix = true ->
    tunnel_end (view (kernel w')) (pod_NetNs localPod) (pb_LocalIntf link) (GetVniFromUid (pb_Uid link))
      (TrimPrefix (pb_PeerPod link) physical_prefix) ->
    shaped (view (kernel w')) (pod_NetNs localPod, pb_LocalIntf link) (TCPIPBypass (settings (daemon w)))
      (pb_Properties link) ->
    recorded (vxlanManager (daemon w')) (GetVniFromUid (pb_Uid link)) (pod_NetNs localPod) ->
    link_added_as localPod link w w'
| AsPending t :
    peer_read w (pb_PeerPod link) (pod_KubeNs localPod) t ->
    is_alive (SrcIP (Status t)) (NetNs (Status t)) = false ->
    kernel w' = kernel w -> vxlanManager (daemon w') = vxlanManager (daemon w) ->
    link_added_as localPod link w w'
| AsVeth t a b :
    peer_read w (pb_PeerPod link) (pod_KubeNs localPod) t ->
    SrcIP (Status t) = pod_SrcIp localPod ->
    veth_key a = (pod_NetNs localPod, pb_LocalIntf link) ->
    veth_key b = (NetNs (Status t), pb_PeerIntf link) ->
    veth_up (TCPIPBypass (settings (daemon w))) (pb_Properties link) a b (view (kernel w)) (view (kernel w')) ->
    link_added_as localPod link w w'
| AsTunnel t peerPod :
    peer_read w (pb_PeerPod link) (pod_KubeNs localPod) t ->
    SrcIP (Status t) <> pod_SrcIp localPod ->
    ToProtoPod t = Ok peerPod ->
    tunnel_end (view (kernel w')) (pod_NetNs localPod) (pb_LocalIntf link) (GetVniFromUid (pb_Uid link))
      (SrcIP (Status t)) ->
    shaped (view (kernel w')) (pod_NetNs localPod, pb_LocalIntf link) (TCPIPBypass (settings (daemon w)))
      (pb_Properties link) ->
    recorded (vxlanManager (daemon w')) (GetVniFromUid (pb_Uid link)) (pod_NetNs localPod) ->
    trace (daemon w') = (trace (daemon w) ++ [Locked (pb_Uid link); Unlocked (pb_Uid link);
      RemoteCall (remote_url peerPod) (remote_payload localPod peerPod link)])%list ->
    link_added_as localPod link w w'.

Lemma MakeVeth_key ns name ip mac v : MakeVeth ns name ip mac = Ok v -> veth_key v = (ns, name).
Proof. unfold MakeVeth. repeat case_goal; intros; simplify_eq; done. Qed.

Lemma ToProtoPod_fields t p :
  ToProtoPod t = Ok p -> pod_SrcIp p = SrcIP (Status t) /\ pod_NetNs p = NetNs (Status t).
Proof. unfold ToProtoPod. case_goal; [|done]. by intros [= <-]. Qed.

Lemma addLink_local_wlp ctx t localPod peerPod link a w :
  wlp (addLink_local ctx t localPod peerPod link a)
    (fun r w' => r = None ->
       exists b, veth_key b = (pod_NetNs peerPod, pb_PeerIntf link) /\
                 veth_up (tcpIpBypass ctx) (pb_Properties link) a b (view (kernel w)) (view (kernel w'))) w.
Proof.
  unfold addLink_local. destruct (MakeVeth _ _ _ _) as [b|er] eqn:Hb; [|by wp_step].
  apply MakeVeth_key in Hb. d_step. wp_step. apply wlp_kernel.
  eapply wlp_mono; [apply wlp_wp, SetupVeth_wp|]. intros [er|] k' Hk; [by wp_step|].
  repeat d_step. intros _. exists b. split; [done|]. by apply Hk.
Qed.

Lemma addLink_remote_wlp ctx t localPod peerPod link w :
  vxlanIntf (settings (daemon w)) <> "" ->
  wlp (addLink_remote ctx t localPod peerPod link)
    (fun r w' => r = None ->
       tunnel_end (view (kernel w')) (pod_NetNs localPod) (pb_LocalIntf link) (GetVniFromUid (pb_Uid link))
         (pod_SrcIp peerPod) /\
       shaped (view (kernel w')) (pod_NetNs localPod, pb_LocalIntf link) (tcpIpBypass ctx) (pb_Properties link) /\
       recorded (vxlanManager (daemon w')) (GetVniFromUid (pb_Uid link)) (pod_NetNs localPod) /\
       trace (daemon w') = (trace (daemon w) ++ [Locked (pb_Uid link); Unlocked (pb_Uid link);
         RemoteCall (remote_url peerPod) (remote_payload localPod peerPod link)])%list) w.
Proof.
  intros Hv. unfold addLink_remote. do 2 d_step. cbv zeta. do 3 d_step. apply wlp_kernel.
  eapply wlp_mono; [by apply wlp_SetupVxLan|]. intros [er|] k' Hk; [by repeat d_step|].
  unfold call_remote. do 7 d_step. apply wlp_cluster, wlp_any. intros [er|] c'; [by wp_step|].
  repeat d_step. intros _. split; [by apply Hk|]. split; [by apply Hk|]. split; [apply recorded_new|].
  cbn. by rewrite <- !app_assoc.
Qed.

Lemma addLink_wlp ctx localPod link w :
  vxlanIntf (settings (daemon w)) <> "" ->
  wlp (addLink ctx localPod link) (fun r w' => r = None -> link_added_as localPod link w w') w.
Proof.
  intros Hv. unfold addLink. do 2 d_step. cbv zeta. do 2 d_step.
  destruct (MakeVeth _ _ _ _) as [a|er] eqn:Ha; [|by wp_step]. apply MakeVeth_key in Ha.
  destruct (String.eqb_spec (pb_PeerPod link) Localhost) as [Hloc|_].
  { apply wlp_kernel, wlp_wp, wp_call. intros r k Hr ->. apply law_MakeMacVLan in Hr as [Hr _]. rewrite Ha in Hr.
    by apply AsMacvlan. }
  destruct (HasPrefix (pb_PeerPod link) physical_prefix) eqn:Hphy.
  { wp_step. eapply wlp_mono; [by apply Update_wlp|]. intros r w1 [[e ->]|(-> & Ht & Hs & Hr)];
      unfold refuse, accept; cbn [Response negb]; wp_step; [done|].
    intros _. by apply AsPhysical. }
  wp_step. apply wlp_intro. intros [l|er] w1 Hg; [|by wp_step].
  pose proof (wlp_run _ _ _ _ _ (getPod_wlp _ _ _) Hg) as [Hk [h Hd]]. cbn in Hk.
  do 3 d_step. set (t := load l (heap (daemon w1))).
  assert (peer_read w (pb_PeerPod link) (pod_KubeNs localPod) t) as Hpeer by (by exists l, w1).
  destruct (ToProtoPod t) as [peerPod|er] eqn:Hp; [|by wp_step].
  destruct (ToProtoPod_fields _ _ Hp) as [Hsrc Hns]. rewrite Hsrc, Hns.
  destruct (is_alive _ _) eqn:Halive; cbn [negb].
  2: { wp_step. intros _. eapply AsPending; [done..|]. by rewrite Hd. }
  destruct (String.eqb_spec (SrcIP (Status t)) (pod_SrcIp localPod)) as [Hsame|Hdiff].
  - eapply wlp_mono; [apply addLink_local_wlp|]. intros r w' Hw Hr. destruct (Hw Hr) as (b & Hb & Hup).
    rewrite Hk in Hup. rewrite Hns in Hb. by eapply AsVeth.
  - eapply wlp_mono; [apply addLink_remote_wlp; by rewrite Hd|]. intros r w' Hw Hr.
    destruct (Hw Hr) as (Ht & Hs & Hrec & Htr). rewrite Hsrc in Ht. rewrite Hd in Htr. by eapply AsTunnel.
Qed.

End Establish.

(** ** Deleting links and pods *)

(** An interface outside the daemon's own namespace, and not the other end of
    one inside it. *)
Definition out_of_reach (v : net_view) (k : string * string) : Prop :=
  k.1 <> "" /\ forall name, peers v !! ("", name) <> Some k.

(** From [v] to [v'] nothing out of reach changed. *)
Definition spares (v v' : net_view) : Prop :=
  peers v' ⊆ peers v /\ forall k, out_of_reach v k -> links v' !! k = links v !! k.

Lemma spares_refl v : spares v v.
Proof. by split. Qed.

Lemma spares_trans v1 v2 v3 : spares v1 v2 -> spares v2 v3 -> spares v1 v3.
Proof.
  intros [P1 L1] [P2 L2]. split; [by transitivity (peers v2)|]. intros k [Hk Hp].
  rewrite L2; [by apply L1|]. split; [done|]. intros name Hn. apply (Hp name).
  by eapply lookup_weaken.
Qed.

(** Every recorded namespace has a name. *)
Definition named_records (m : VxlanManager) : Prop :=
  forall vni c, VxlanManager_Get vni m = Some c -> deref m c <> "".

Section Deleting.
  Context {K C : Type} `{UnicodeTables, ProtoLib, KL : KernelLaws K, Pcap K, MI : MapIter K, MIL : !MapIterLaws K, MIV : !MapIterView K}
    `{RestClient C, GrpcClient C, Informer C, RL : RetryLaws}.
  Implicit Types (w : World K C).

(** What deleting a link does for any pod: one removal, and the record goes if
    it names the pod's namespace. *)
Lemma delLink_wlp ctx pod link w :
  wlp (delLink ctx pod link)
    (fun r w' => settings (daemon w') = settings (daemon w) /\
       (vxlanManager (daemon w') = vxlanManager (daemon w) \/
        names (vxlanManager (daemon w)) (GetVniFromUid (pb_Uid link)) (pod_NetNs pod) /\
        vxlanManager (daemon w') = VxlanManager_Delete (GetVniFromUid (pb_Uid link)) (vxlanManager (daemon w))) /\
       (view (kernel w') = view (kernel w) \/
        links (view (kernel w')) = unlink (view (kernel w)) (pod_NetNs pod, pb_LocalIntf link) /\
        peers (view (kernel w')) ⊆ peers (view (kernel w)))) w.
Proof.
  unfold delLink. do 2 d_step. destruct (MakeVeth _ _ _ _) as [v|er] eqn:Hv; [|wp_step; auto].
  apply MakeVeth_key in Hv. wp_step. apply wlp_kernel, wlp_wp, wp_call. intros r k Hr. cbv zeta. cbn [set_daemon kernel] in Hr.
  assert (view k = view (kernel w) \/
    links (view k) = unlink (view (kernel w)) (pod_NetNs pod, pb_LocalIntf link) /\
    peers (view k) ⊆ peers (view (kernel w))) as Hview.
  { destruct r as [er|]; [left; by eapply law_RemoveVethLink_fail|right].
    apply law_RemoveVethLink in Hr as (_ & -> & Hp & _). by rewrite Hv. }
  do 3 d_step. cbn [daemon set_kernel set_daemon tick vxlanManager].
  destruct (VxlanManager_Get _ _) as [c|] eqn:Hc; cbn [fmap option_fmap option_map].
  - destruct (String.eqb_spec (deref (vxlanManager (daemon w)) c) (pod_NetNs pod)) as [Hn|Hn].
    + repeat d_step. cbn. split; [done|]. split; [right; split; [by exists c|done]|done].
    + repeat d_step. cbn. auto.
  - repeat d_step. cbn. auto.
Qed.

(** The record of a link is dropped if it names the pod's namespace. *)
Definition record_dropped (pod : pb_Pod) (link : pb_Link) (m : VxlanManager) : VxlanManager :=
  if bool_decide (deref m <$> VxlanManager_Get (GetVniFromUid (pb_Uid link)) m = Some (pod_NetNs pod))
  then VxlanManager_Delete (GetVniFromUid (pb_Uid link)) m else m.

(** Once the interface's addresses are parsed it returns nil, whatever comes of the
    removal. *)
Lemma delLink_run ctx pod link v w :
  MakeVeth (pod_NetNs pod) (pb_LocalIntf link) (pb_LocalIp link) (pb_LocalMac link) = Ok v ->
  exists w', delLink ctx pod link w = (Val None, w') /\
    kernel w' = (koko_RemoveVethLink v (kernel w)).2 /\
    vxlanManager (daemon w') = record_dropped pod link (vxlanManager (daemon w)).
Proof.
  intros Hv. destruct w as [k c d]. unfold delLink, record_dropped. rewrite Hv.
  unfold vxlan_netns, vxlan_delete, Since, Observe, time_Now, on_kernel, mod_daemon, get_daemon, zoom, call, bind, ret, modify. cbn.
  destruct (koko_RemoveVethLink v k) as [r k']. cbn. destruct (VxlanManager_Get _ _) as [x|]; cbn.
  - destruct (String.eqb_spec (deref (vxlanManager d) x) (pod_NetNs pod)) as [Hn|Hn]; cbn; eexists; (split_and!; [reflexivity..|]); cbn.
    + by rewrite bool_decide_true by congruence.
    + by rewrite bool_decide_false by congruence.
  - eexists. split_and!; [reflexivity..|]. by rewrite bool_decide_false by done.
Qed.

(** For a pod whose namespace is empty. *)
Lemma delLink_dead ctx pod link w :
  pod_NetNs pod = "" -> named_records (vxlanManager (daemon w)) ->
  wlp (delLink ctx pod link)
    (fun _ w' => spares (view (kernel w)) (view (kernel w')) /\
                 vxlanManager (daemon w') = vxlanManager (daemon w)) w.
Proof.
  intros Hns Hrec. eapply wlp_mono; [apply delLink_wlp|]. intros r w' (_ & Hm & Hv). rewrite Hns in Hm, Hv. split.
  - destruct Hv as [->|[HL HP]]; [apply spares_refl|]. split; [done|]. intros k [Hk Hp]. rewrite HL.
    apply unlink_other; [intros ->; by apply Hk|]. intros [_ Hj]. by apply Hp in Hj.
  - destruct Hm as [->|[(c & Hc & Hd) _]]; [done|]. by apply Hrec in Hc.
Qed.

Lemma DelLinks_dead ctx pod links w :
  pod_NetNs pod = "" -> named_records (vxlanManager (daemon w)) ->
  wlp (links_loop (delLink ctx pod) links)
    (fun _ w' => spares (view (kernel w)) (view (kernel w')) /\
                 vxlanManager (daemon w') = vxlanManager (daemon w)) w.
Proof.
  intros Hns. revert w. induction links as [|l links IH]; intros w Hrec; cbn [links_loop].
  - wp_step. split; [apply spares_refl|done].
  - wp_step. eapply wlp_mono; [by apply delLink_dead|]. intros [er|] w1 [S1 M1]; [by wp_step|].
    eapply wlp_mono; [apply IH; by rewrite M1|]. intros r w2 [S2 M2]. split; [by eapply spares_trans|congruence].
Qed.

(** Without an error no wire was there to remove. *)
Lemma RemGRPCWire_wlp d w :
  wlp (RemGRPCWire d)
    (fun r w' => r.2 = None -> view (kernel w') = view (kernel w) /\
                 vxlanManager (daemon w') = vxlanManager (daemon w)) w.
Proof.
  unfold RemGRPCWire. wp_step. apply wlp_zoom, wlp_intro. intros r p Hr.
  destruct r as [er|]; [by wp_step|]. wp_step. intros _. cbn. split; [|done].
  set (s := (kernel w, wireState (daemon w))) in *.
  destruct (GetWiresByPod_run (wd_KubeNs d) (wd_LocalPodName d) s) as (ws & e' & Hg & Hin).
  unfold DeleteWiresByPod in Hr. rewrite (bind_run _ _ _ _ _ Hg) in Hr.
  destruct ws as [|w0 ws].
  - cbn in Hr. injection Hr as <-. cbn.
    unfold GetWiresByPod, on_ext, get_st, zoom, call, bind, ret in Hg. cbn in Hg.
    destruct (map_order _ (kernel w)) as [all k] eqn:Ho. injection Hg as _ <-. by apply map_order_view in Ho.
  - cbn [negb orb length Nat.eqb] in Hr. pose proof (remove_all_outcome w0 ws (e', s.2)) as Ho.
    unfold bind, ret in Hr. destruct (remove_all _ _) as [[[|er errs]| |] s1]; naive_solver.
Qed.

Lemma DestroyPod_wlp ctx pod w :
  named_records (vxlanManager (daemon w)) ->
  wlp (DestroyPod ctx pod)
    (fun r w' => r.2 = None -> spares (view (kernel w)) (view (kernel w')) /\
                 vxlanManager (daemon w') = vxlanManager (daemon w)) w.
Proof.
  intros Hrec. unfold DestroyPod. cbv zeta. do 3 d_step.
  eapply wlp_mono; [apply RemGRPCWire_wlp|]. intros [resp err] w1 HR. cbn in HR.
  destruct err as [er|]; [by wp_step|]. destruct (HR eq_refl) as [V1 M1]. cbn in V1, M1.
  rewrite <- V1, <- M1 in *.
  destruct (bool_decide _ || _); [by wp_step|].
  wp_step. eapply wlp_mono; [apply Get_keeps_node|]. intros r w2 N2. unfold the_node in N2.
  injection N2 as N2k N2m N2c.
  destruct r as [p|er]; [|wp_step; intros _; rewrite N2k, N2m; split; [apply spares_refl|done]].
  wp_step. eapply wlp_mono; [apply SetAlive_keeps_node|]. intros [ok err] w3 N3. unfold the_node in N3.
  injection N3 as N3k N3m N3c.
  destruct err as [er|]; [by wp_step|]. wp_step. unfold DelLinks, with_pod. cbn [lbq_LocalPod lbq_Links].
  eapply wlp_mono; [apply DelLinks_dead; [done|by rewrite N3m, N2m]|]. intros [resp' err'] w4 [S4 M4].
  destruct (bool_decide _ || _); wp_step; intros _; (split; [congruence|congruence]).
Qed.

End Deleting.

(** ** Whole pods *)

Section Pods.
  Context {K C : Type} `{UnicodeTables, ProtoLib, KL : KernelLaws K, Pcap K, MapIter K}
    `{RestClient C, GrpcClient C, Informer C, RL : RetryLaws}.
  Implicit Types (w : World K C).

(** Every link of a list was added, one after the other. *)
Inductive added_all (pod : pb_Pod) : list pb_Link -> World K C -> World K C -> Prop :=
| added_nil w : added_all pod [] w w
| added_cons l ls w w1 w2 :
    link_added_as pod l w w1 -> added_all pod ls w1 w2 -> added_all pod (l :: ls) w w2.

Lemma add_loop_wlp ctx pod links w :
  vxlanIntf (settings (daemon w)) <> "" ->
  wlp (links_loop (addLink ctx pod) links)
    (fun r w' => (exists e, r = refuse e) \/ r = accept /\ added_all pod links w w') w.
Proof.
  revert w. induction links as [|l links IH]; intros w Hv; cbn [links_loop].
  - wp_step. right. split; [done|constructor].
  - wp_step. apply wlp_intro. intros r w1 Hr.
    pose proof (wlp_run _ _ _ _ _ (addLink_keeps_settings ctx pod l w) Hr) as Hc. unfold the_settings in Hc.
    pose proof (wlp_run _ _ _ _ _ (addLink_wlp ctx pod l w Hv) Hr) as Ha. cbn beta in Ha.
    destruct r as [er|]; [wp_step; eauto|].
    eapply wlp_mono; [apply IH; congruence|]. intros r w2 [Hx|[-> Hall]]; [by left|right].
    split; [done|]. econstructor; [by apply Ha|done].
Qed.

(** The pod as [SetupPod] marks it. *)
Definition marked_pod (w : World K C) (q : pb_SetupPodQuery) (p : pb_Pod) : pb_Pod :=
  set_pod_alive (nodeIP (settings (daemon w))) (spq_NetNs q) p.

Lemma SetupPod_wlp ctx q w :
  vxlanIntf (settings (daemon w)) <> "" ->
  wlp (SetupPod ctx q)
    (fun r w' => r = accept ->
       (exists e, Get (mk_pb_PodQuery (spq_Name q) (spq_KubeNs q)) w = (Val (Err e), w')) \/
       (exists p w1 w2,
          Get (mk_pb_PodQuery (spq_Name q) (spq_KubeNs q)) w = (Val (Ok p), w1) /\
          SetAlive (marked_pod w q p) w1 = (Val (accept), w2) /\
          added_all (marked_pod w q p) (pod_Links p) w2 w')) w.
Proof.
  intros Hv. unfold SetupPod. cbv zeta. wp_step. apply wlp_intro. intros [p|er] w1 Hg; [|wp_step; eauto].
  pose proof (wlp_run _ _ _ _ _ (Get_keeps_node _ w) Hg) as N1. injection N1 as N1k N1m N1c.
  do 2 d_step. rewrite N1c. fold (marked_pod w q p).
  wp_step. apply wlp_intro. intros [[ok] err] w2 Hs.
  pose proof (wlp_run _ _ _ _ _ (SetAlive_keeps_settings _ w1) Hs) as C2. unfold the_settings in C2.
  destruct err as [er|]; [by wp_step|]. destruct ok; [|by wp_step]. cbn [negb Response].
  rewrite bool_decide_false by (by intros []). cbn [orb].
  wp_step. unfold AddLinks, with_pod. cbn [lbq_LocalPod lbq_Links].
  eapply wlp_mono; [apply add_loop_wlp; congruence|]. intros r w3 [[e ->]|[-> Hall]].
  - unfold refuse. cbn [Response negb]. rewrite orb_true_r. by wp_step.
  - unfold accept. cbn [Response negb]. rewrite bool_decide_false by (by intros []). cbn [orb]. wp_step. intros _.
    right. by exists p, w1, w2.
Qed.

(** The last part of a successful [SetupPod] is a batch of its own. *)
Lemma SetupPod_batch ctx q w p w1 w2 w' :
  Get (mk_pb_PodQuery (spq_Name q) (spq_KubeNs q)) w = (Val (Ok p), w1) ->
  SetAlive (marked_pod w q p) w1 = (Val accept, w2) -> SetupPod ctx q w = (Val accept, w') ->
  AddLinks (WithLogger ctx) (mk_pb_LinksBatchQuery (Some (marked_pod w q p)) (pod_Links p)) w2 = (Val accept, w').
Proof.
  intros Hg Hs Hr. pose proof (wlp_run _ _ _ _ _ (Get_keeps_node _ w) Hg) as N1. injection N1 as _ _ N1c.
  unfold SetupPod, bind at 1 in Hr. rewrite Hg in Hr. unfold bind at 1, get_daemon in Hr. rewrite N1c in Hr.
  fold (marked_pod w q p) in Hr. unfold bind at 1 in Hr. rewrite Hs in Hr. cbn [Response accept negb] in Hr.
  rewrite bool_decide_false in Hr by (by intros []). cbn [orb] in Hr.
  apply bind_Val in Hr as ([[ok] err] & w3 & Ha & Hr). destruct err as [er|], ok; cbn in Hr; try done.
  injection Hr as <-. exact Ha.
Qed.

End Pods.

(** ** Changing properties *)

Section Reshaping.
  Context {K C : Type} `{UnicodeTables, ProtoLib, KernelLaws K}.
  Implicit Types (w : World K C).

(** The interface with index [i] of the pod carries what the link asks for. *)
Definition reshaped (bypass : bool) (ns : string) (k : K) (l : pb_Link) (i : Z) : Prop :=
  forall qs, MakeQdiscs (pb_Properties l) = Ok qs -> fits bypass qs (shape_at (view k) ns i).

Definition has_index (ns : string) (k : K) (l : pb_Link) (i : Z) : Prop :=
  ifindex (view k) !! (ns, pb_LocalIntf l) = Some i.

Lemma updateLink_wlp ctx pod l i w :
  has_index (pod_NetNs pod) (kernel w) l i ->
  wlp (updateLink ctx pod l)
    (fun r w' => r = None -> only_shape (pod_NetNs pod) i (kernel w) (kernel w') /\
                 reshaped (tcpIpBypass ctx) (pod_NetNs pod) (kernel w') l i) w.
Proof.
  intros Hi. unfold updateLink. do 2 d_step. destruct (MakeVeth _ _ _ _) as [v|er] eqn:Hv; [|by wp_step].
  apply MakeVeth_key in Hv. assert (NsName v = pod_NetNs pod) as Hn by (unfold veth_key in Hv; congruence).
  destruct (MakeQdiscs (pb_Properties l)) as [qs|er] eqn:Hq; [|by wp_step].
  apply wlp_bind, wlp_kernel, wlp_wp. eapply wp_mono.
  { eapply SetVethQdiscs_wp. exact Hq. }
  rewrite Hv, Hn. change (ifindex (view (kernel w)) !! (pod_NetNs pod, pb_LocalIntf l) = Some i) in Hi.
  cbn [kernel set_daemon]. rewrite Hi. intros [er|] k (Ho & Hs & _); [by wp_step|].
  do 5 d_step. intros _. split; [exact Ho|]. intros qs' Hq'. rewrite Hq in Hq'. simplify_eq. by eapply set_on_fits, Hs.
Qed.

(** Nothing changed but the shaping of some interfaces of a namespace. *)
Definition only_shapes (ns : string) (ixs : list Z) (k k' : K) : Prop :=
  links (view k') = links (view k) /\ ifindex (view k') = ifindex (view k) /\
  (forall n i, (n = ns -> i ∉ ixs) -> shapes (view k') !! (n, i) = shapes (view k) !! (n, i)).

Lemma updateLinks_wlp ctx pod ls ixs w :
  NoDup ixs -> Forall2 (has_index (pod_NetNs pod) (kernel w)) ls ixs ->
  wlp (links_loop (updateLink ctx pod) ls)
    (fun r w' => r = accept -> only_shapes (pod_NetNs pod) ixs (kernel w) (kernel w') /\
                 Forall2 (reshaped (tcpIpBypass ctx) (pod_NetNs pod) (kernel w')) ls ixs) w.
Proof.
  revert ixs w. induction ls as [|l ls IH]; intros ixs w Hnd Hix; cbn [links_loop].
  { inversion Hix; subst. wp_step. by intros _. }
  inversion Hix as [|? i ? ixs0 Hi His]; subst. apply NoDup_cons in Hnd as [Hnew Hnd].
  wp_step. eapply wlp_mono; [by apply updateLink_wlp|]. intros [er|] w1 Hd1; [by wp_step|].
  destruct (Hd1 eq_refl) as [Ho Hs]. pose proof Ho as (HL & HI & _).
  eapply wlp_mono; [apply (IH ixs0); [done|]|].
  { eapply Forall2_impl; [exact His|]. unfold has_index. by rewrite HI. }
  intros r w2 Hd2 ->. destruct (Hd2 eq_refl) as [(HL2 & HI2 & HS2) Hsh]. split.
  - split_and!; [congruence..|]. intros n j Hj. rewrite HS2 by set_solver.
    eapply only_shape_other; [exact Ho|]. set_solver.
  - constructor; [|done]. intros qs Hq. unfold shape_at. rewrite HS2 by set_solver. by apply Hs.
Qed.

End Reshaping.
