(* ===== verification/HandlerProps.v ===== *)
(** * Properties of the daemon

    What the handlers promise, and where they do not keep it: the state of a
    link after [addLink], both ends of a link that spans two nodes, the order
    of locks and remote calls, setting up a pod, changing properties, what
    destroying a pod leaves behind, start-up, and delivery over a wire.  The
    simulated cluster at the top is used by the
    witnesses. *)

From stdpp Require Import base strings gmap list.
From Stdlib Require Import ZArith Lia.
From S2P Require Import Prelude GoStr GoNum GoNet Proto ApiV1 K8s Kernel SimKernel Qdisc.
From S2P Require Import LinkUtil Vxlan Decode Wire Metrics Daemon Handler.

Local Open Scope string_scope.

(** ** A simulated cluster *)

Module SimC.

Record State := mkState { db : gmap (string * string) Topology; calls : list (string * rpc_request) }.

Definition missing : error := mkError NotFound "topologies not found".

(** GET reads (an object's key is its name), PUT on the status replaces the
    status, PUT replaces the rest. *)
Definition Into (r : Request) : eff State (Topology * option error) := fun s =>
  match req_name r with
  | None => ((zero_topology, Some missing), s)
  | Some name =>
      match db s !! (req_ns r, name), req_body r with
      | None, _ => ((zero_topology, Some missing), s)
      | Some old, None =>
          ((mkTopology name (req_ns r) (Finalizers old) (ResourceVersion old) (Spec old) (Status old), None), s)
      | Some old, Some t =>
          let new := match req_subresource r with
                     | Some _ => set_status (Status t) old
                     | None => mkTopology (Name old) (Namespace old) (Finalizers t) (ResourceVersion t)
                                 (Spec t) (Status old)
                     end in
          ((new, None), mkState (<[(req_ns r, name) := new]> (db s)) (calls s))
      end
  end.

#[global] Instance rest : RestClient State :=
  {| rest_Into := Into;
     rest_IntoList r s := ((snd <$> map_to_list (db s), None), s);
     rest_Error r s := (None, s) |}.

#[global] Instance grpc : GrpcClient State :=
  {| grpc_Dial target s := (None, s);
     grpc_Invoke target method req s :=
       (Ok (mk_pb_BoolResponse true), mkState (db s) (calls s ++ [(target, req)])%list) |}.

#[global] Instance informer : Informer State := {| store_GetByKey key s := (StoreMissing, s) |}.

End SimC.

(** ** A sample: two pods with one link *)

Definition link12 : Link :=
  mkLink "eth1" "10.0.0.1/24" "" "eth1" "10.0.0.2/24" "" "r2" 1
    (mkLinkProperties "10ms" "" "" "" "" "" 0 "" "" "" "" "" "").

Definition topo (name srcIP netNs : string) (ls : list Link) : Topology :=
  mkTopology name "default" [] 1 (mkTopologySpec (Some ls)) (mkTopologyStatus None srcIP netNs None).

Definition daemon0 (ip : string) : KubeDTN :=
  mkKubeDTN (mkSettings true ip "ens3") empty_heap ∅ NewVxlanManager init_wires [] [] (fun n => Z.of_nat n) 0 [].

Definition node (ns : list string) : Sim.State := Sim.mkState Sim.empty_view ns [].

(** [r2] runs on node 192.168.0.2 in /ns/b. *)
Definition sample_cluster : SimC.State :=
  SimC.mkState {[ ("default", "r1") := topo "r1" "" "" [link12];
                  ("default", "r2") := topo "r2" "192.168.0.2" "/ns/b" [] ]} [].

Definition worldA : World Sim.State SimC.State := mkWorld (node ["/ns/a"]) sample_cluster (daemon0 "192.168.0.1").
Definition worldB : World Sim.State SimC.State := mkWorld (node ["/ns/b"]) sample_cluster (daemon0 "192.168.0.2").

Definition podA : pb_Pod := mk_pb_Pod "r1" "192.168.0.1" "/ns/a" "default" [Link_ToProto link12].

Definition podB : pb_Pod := mk_pb_Pod "r2" "192.168.0.2" "/ns/b" "default" [].

#[local] Existing Instance ascii_tables.

(** ** Properties *)



(** A link between two nodes: when [addLink] succeeds on the first node
    and the second daemon accepts the update it was sent, each end is a VXLAN
    in its pod's namespace with the same VNI, and each points to the other
    pod's node. *)
Theorem link_end_to_end {K C : Type} `{UnicodeTables, ProtoLib, KernelLaws K}
    `{RestClient C, GrpcClient C, Informer C}
    (ctx ctxB : Ctx) (pod : pb_Pod) (link : pb_Link) (peer : Topology) (peerPod : pb_Pod)
    (wA wA' wB wB' : World K C) :
  vxlanIntf (settings (daemon wA)) <> "" -> vxlanIntf (settings (daemon wB)) <> "" ->
  pb_PeerPod link <> Localhost -> HasPrefix (pb_PeerPod link) physical_prefix = false ->
  peer_read wA (pb_PeerPod link) (pod_KubeNs pod) peer -> ToProtoPod peer = Ok peerPod ->
  is_alive (pod_SrcIp peerPod) (pod_NetNs peerPod) = true -> pod_SrcIp peerPod <> pod_SrcIp pod ->
  addLink ctx pod link wA = (Val None, wA') ->
  Update ctxB (remote_payload pod peerPod link) wB = (Val accept, wB') ->
  In (RemoteCall (remote_url peerPod) (remote_payload pod peerPod link)) (trace (daemon wA')) /\
  tunnel_end (view (kernel wA')) (pod_NetNs pod) (pb_LocalIntf link) (GetVniFromUid (pb_Uid link))
    (pod_SrcIp peerPod) /\
  tunnel_end (view (kernel wB')) (pod_NetNs peerPod) (pb_PeerIntf link) (GetVniFromUid (pb_Uid link))
    (pod_SrcIp pod).
Proof.
  intros HvA HvB Hloc Hphy (l & w1 & Hg & Hpeer) Hp Halive Hdiff Ha Hu.
  destruct (ToProtoPod_fields _ _ Hp) as [Hsrc Hns]. rewrite Hsrc, Hns in Halive. rewrite Hsrc in Hdiff.
  destruct (wlp_run _ _ _ _ _ (Update_wlp ctxB _ wB HvB) Hu) as [[e He]|(_ & Ht & _)]; [done|].
  cbn in Ht. rewrite Hsrc.
  destruct (wlp_run _ _ _ _ _ (addLink_wlp ctx pod link wA HvA) Ha eq_refl)
    as [Hm _|Hph _ _ _|t (l1 & w2 & Hg1 & Ht1) Hd _ _|t a b (l1 & w2 & Hg1 & Ht1) Hs _ _ _
       |t pp (l1 & w2 & Hg1 & Ht1) _ Hpp Htun _ _ Htr]; try congruence.
  assert (t = peer) as -> by congruence. assert (pp = peerPod) as -> by congruence.
  split_and!; [|done|done]. rewrite Htr. apply in_or_app. right. cbn. auto.
Qed.

Lemma link_end_to_end_witness :
  exists wA' wB',
  addLink [] podA (Link_ToProto link12) worldA = (Val None, wA') /\
  Update [] (remote_payload podA podB (Link_ToProto link12)) worldB = (Val accept, wB') /\
  tunnel_end (view (kernel wA')) "/ns/a" "eth1" 5001 "192.168.0.2" /\
  tunnel_end (view (kernel wB')) "/ns/b" "eth1" 5001 "192.168.0.1".
Proof.
  eexists _, _. split; [vm_compute; reflexivity|]. split; [vm_compute; reflexivity|].
  eapply (link_end_to_end [] [] podA (Link_ToProto link12) (topo "r2" "192.168.0.2" "/ns/b" []) podB worldA _ worldB).
  - discriminate.
  - discriminate.
  - discriminate.
  - reflexivity.
  - eexists _, _. split; [vm_compute; reflexivity|]. vm_compute. reflexivity.
  - vm_compute. reflexivity.
  - reflexivity.
  - discriminate.
  - vm_compute. reflexivity.
  - vm_compute. reflexivity.
Defined.

(** C11: locks of links are taken one at a time and released before any other
    daemon is called: every run of the handlers that lock extends the trace by
    lock/unlock pairs and remote calls outside them, on every path that
    returns. *)
Theorem handlers_lock_discipline {K C : Type} `{UnicodeTables, ProtoLib, Kernel K}
    `{RestClient C, GrpcClient C, Informer C, RetryLaws}
    (ctx : Ctx) (q : pb_LinksBatchQuery) (s : pb_SetupPodQuery) (p : pb_RemotePod) :
  orderly (AddLinks ctx q : go (World K C) _) /\
  orderly (SetupPod ctx s : go (World K C) _) /\
  orderly (Update ctx p : go (World K C) _).
Proof. split_and!; [apply orderly_AddLinks|apply orderly_SetupPod|apply orderly_Update]. Qed.

Lemma handlers_lock_discipline_witness :
  orderly (SetupPod [] (mk_pb_SetupPodQuery "r1" "default" "/ns/a") : go (World Sim.State SimC.State) _).
Proof.
  apply (handlers_lock_discipline [] (mk_pb_LinksBatchQuery None [])
    (mk_pb_SetupPodQuery "r1" "default" "/ns/a") (remote_payload podA podB (Link_ToProto link12))).
Defined.

(** When [SetupPod] answers true without an error, either the pod has no
    usable topology (and nothing else was done), or it was marked alive with
    this node's address and the given namespace, and then every link of its
    spec was added in order. *)
Theorem SetupPod_sets_up {K C : Type} `{UnicodeTables, ProtoLib, KernelLaws K}
    `{RestClient C, GrpcClient C, Informer C, RetryLaws}
    (ctx : Ctx) (q : pb_SetupPodQuery) (w w' : World K C) :
  vxlanIntf (settings (daemon w)) <> "" ->
  SetupPod ctx q w = (Val accept, w') ->
  (exists e, Get (mk_pb_PodQuery (spq_Name q) (spq_KubeNs q)) w = (Val (Err e), w')) \/
  (exists p w1 w2,
     Get (mk_pb_PodQuery (spq_Name q) (spq_KubeNs q)) w = (Val (Ok p), w1) /\
     SetAlive (marked_pod w q p) w1 = (Val accept, w2) /\
     added_all (marked_pod w q p) (pod_Links p) w2 w').
Proof. intros Hv Hr. by apply (wlp_run _ _ _ _ _ (SetupPod_wlp ctx q w Hv) Hr). Qed.

Lemma SetupPod_sets_up_witness :
  let q := mk_pb_SetupPodQuery "r1" "default" "/ns/a" in
  exists w', SetupPod [] q worldA = (Val accept, w') /\
  ((exists e, Get (mk_pb_PodQuery (spq_Name q) (spq_KubeNs q)) worldA = (Val (Err e), w')) \/
   (exists p w1 w2,
     Get (mk_pb_PodQuery (spq_Name q) (spq_KubeNs q)) worldA = (Val (Ok p), w1) /\
     SetAlive (marked_pod worldA q p) w1 = (Val accept, w2) /\
     added_all (marked_pod worldA q p) (pod_Links p) w2 w')).
Proof.
  eexists. split; [vm_compute; reflexivity|].
  apply (SetupPod_sets_up [] (mk_pb_SetupPodQuery "r1" "default" "/ns/a") worldA); [discriminate|vm_compute; reflexivity].
Defined.

(** C17: changing the properties of a pod's links: when [UpdateLinks] answers
    true, every interface it was asked to change carries what the new properties
    of its link ask for (netem, TBF when there is a rate, the filter when the
    bypass is on), all links of the batch together; and what they do not ask for
    is gone, also when they ask for nothing at all, provided that requests of
    the node fail only for cause: the errors of the deletions are only logged
    ([fits]).  No interface has come or gone and no other interface was
    touched. *)
Theorem UpdateLinks_reshapes {K C : Type} `{UnicodeTables, ProtoLib, KernelLaws K}
    (ctx : Ctx) (q : pb_LinksBatchQuery) (pod : pb_Pod) (ixs : list Z) (w w' : World K C) :
  lbq_LocalPod q = Some pod -> NoDup ixs ->
  Forall2 (has_index (pod_NetNs pod) (kernel w)) (lbq_Links q) ixs ->
  UpdateLinks ctx q w = (Val accept, w') ->
  Forall2 (reshaped (TCPIPBypass (settings (daemon w))) (pod_NetNs pod) (kernel w')) (lbq_Links q) ixs /\
  only_shapes (pod_NetNs pod) ixs (kernel w) (kernel w').
Proof.
  intros Hp Hnd Hix Hr. unfold UpdateLinks, with_pod in Hr. rewrite Hp in Hr. unfold bind, get_daemon in Hr.
  destruct (wlp_run _ _ _ _ _ (updateLinks_wlp _ pod _ ixs w Hnd Hix) Hr eq_refl). by split.
Qed.

(** The sample link without its properties. *)
Definition plain12 : pb_Link := mk_pb_Link "r2" "eth1" "eth1" "10.0.0.1/24" "10.0.0.2/24" 1 None "" "".

(** The shaping of the sample interface is changed, and removed. *)
Lemma UpdateLinks_reshapes_witness :
  let w' l := (UpdateLinks [] (mk_pb_LinksBatchQuery (Some podA) [l])
                 (mkWorld sample_node sample_cluster (daemon0 "192.168.0.1"))).2 in
  let i := Sim.index_of ("/ns/a", "eth1") in
  Forall2 (reshaped true "/ns/a" (kernel (w' (Link_ToProto link12)))) [Link_ToProto link12] [i] /\
  cleared (shape_at (view (kernel (w' plain12))) "/ns/a" i) = shape_at (view (kernel (w' plain12))) "/ns/a" i.
Proof.
  assert (forall l, has_index "/ns/a" sample_node l (Sim.index_of ("/ns/a", "eth1")) ->
    (UpdateLinks [] (mk_pb_LinksBatchQuery (Some podA) [l]) (mkWorld sample_node sample_cluster (daemon0 "192.168.0.1"))).1 = Val accept ->
    Forall2 (reshaped true "/ns/a" (kernel (UpdateLinks [] (mk_pb_LinksBatchQuery (Some podA) [l])
       (mkWorld sample_node sample_cluster (daemon0 "192.168.0.1"))).2)) [l] [Sim.index_of ("/ns/a", "eth1")]) as Hall.
  { intros l Hl Hr. apply (UpdateLinks_reshapes [] (mk_pb_LinksBatchQuery (Some podA) [l]) podA
      [Sim.index_of ("/ns/a", "eth1")] (mkWorld sample_node sample_cluster (daemon0 "192.168.0.1")));
      [reflexivity|apply NoDup_singleton|apply Forall2_cons; split; [exact Hl|by apply Forall2_nil]|by apply fst_pair]. }
  split; [apply Hall; [reflexivity|vm_compute; reflexivity]|].
  destruct (Forall2_cons_1 _ _ _ _ _ (Hall plain12 eq_refl ltac:(vm_compute; reflexivity))) as [Hp _].
  destruct (Hp [] eq_refl) as [_ Hw]. exact (Hw Sim.sim_works).
Defined.

(** C30: deleting a link whose addresses can be parsed.  [delLink] returns nil.
    On a node where requests fail only for cause the link's interface in the pod's
    namespace is gone afterwards, with its other end if it was a veth, and every
    other interface is there.  Without such an interface, or when its removal
    fails (an error that is only logged), the node is as it was.  The record of the
    VNI is dropped exactly when it names the pod's namespace. *)
Theorem delLink_deletes {K C : Type} `{KernelLaws K} (ctx : Ctx) (pod : pb_Pod) (link : pb_Link) (v : VEth) (w : World K C) :
  let key := (pod_NetNs pod, pb_LocalIntf link) in
  MakeVeth (pod_NetNs pod) (pb_LocalIntf link) (pb_LocalIp link) (pb_LocalMac link) = Ok v ->
  exists w', delLink ctx pod link w = (Val None, w') /\
    (KernelWorks K -> is_Some (links (view (kernel w)) !! key) ->
     links (view (kernel w')) = unlink (view (kernel w)) key) /\
    (links (view (kernel w)) !! key = None -> view (kernel w') = view (kernel w)) /\
    (links (view (kernel w')) = unlink (view (kernel w)) key \/ view (kernel w') = view (kernel w)) /\
    vxlanManager (daemon w') = record_dropped pod link (vxlanManager (daemon w)).
Proof.
  intros key Hv. destruct (delLink_run ctx pod link v w Hv) as (w' & Hr & Hk & Hm). apply MakeVeth_key in Hv.
  fold key in Hv.
  exists w'. rewrite Hk. destruct (koko_RemoveVethLink v (kernel w)) as [r k] eqn:Hc. cbn [snd].
  destruct r as [er|]; [pose proof (law_RemoveVethLink_fail _ _ _ _ Hc) as Hs|pose proof (law_RemoveVethLink _ _ _ Hc) as (Hl & Hu & _)].
  - split_and!; [done| |done|by right|done]. intros HW Hl. rewrite <- Hv in Hl.
    by discriminate (works_None _ _ _ _ Hc (works_RemoveVethLink v (kernel w) Hl)).
  - rewrite Hv in Hl, Hu. split_and!; [done|done| |by left|done]. intros Hn. rewrite Hn in Hl. by destruct Hl.
Qed.

(** A node that has the tunnel of the sample link. *)
Definition worldA_up : World Sim.State SimC.State := (addLink [] podA (Link_ToProto link12) worldA).2.

Lemma delLink_deletes_witness :
  exists w', delLink [] podA (Link_ToProto link12) worldA_up = (Val None, w') /\
    links (view (kernel w')) = unlink (view (kernel worldA_up)) ("/ns/a", "eth1") /\
    vxlanManager (daemon w') = VxlanManager_Delete 5001 (vxlanManager (daemon worldA_up)).
Proof.
  destruct (delLink_deletes [] podA (Link_ToProto link12) (mkVEth "/ns/a" "eth1" [mkIPNet (IPv4 10 0 0 1) [255; 255; 255; 0]%Z] []) worldA_up)
    as (w' & Hr & Hd & _ & _ & Hm); [vm_compute; reflexivity|].
  exists w'. split; [exact Hr|]. split; [apply Hd; [apply Sim.sim_works|vm_compute; by eexists]|exact Hm].
Defined.

(** C37: [DestroyPod] does not delete the pod's links: it clears the pod's
    namespace before it deletes them, so every interface outside the daemon's
    own namespace stays (but for other ends of interfaces in it), and all VXLAN
    records stay as well. *)
Theorem DestroyPod_keeps_links {K C : Type} `{KernelLaws K, MI : MapIter K, !MapIterLaws K, !MapIterView K}
    `{RestClient C, Informer C, RetryLaws}
    (ctx : Ctx) (pod : pb_PodQuery) (w w' : World K C) :
  named_records (vxlanManager (daemon w)) ->
  DestroyPod ctx pod w = (Val accept, w') ->
  (forall k, out_of_reach (view (kernel w)) k ->
     links (view (kernel w')) !! k = links (view (kernel w)) !! k) /\
  vxlanManager (daemon w') = vxlanManager (daemon w).
Proof.
  intros Hn Hr. destruct (wlp_run _ _ _ _ _ (DestroyPod_wlp ctx pod w Hn) Hr eq_refl) as [[_ Hs] Hm].
  by split.
Qed.

(** The pod r1 is up, with its tunnel. *)
Definition worldA_pod : World Sim.State SimC.State :=
  (SetupPod [] (mk_pb_SetupPodQuery "r1" "default" "/ns/a") worldA).2.

Lemma DestroyPod_keeps_links_witness :
  exists w', DestroyPod [] (mk_pb_PodQuery "r1" "default") worldA_pod = (Val accept, w') /\
    links (view (kernel w')) !! ("/ns/a", "eth1") = links (view (kernel worldA_pod)) !! ("/ns/a", "eth1") /\
    is_Some (links (view (kernel worldA_pod)) !! ("/ns/a", "eth1")).
Proof.
  eexists. split; [vm_compute; reflexivity|]. split; [|vm_compute; by eexists].
  eapply (DestroyPod_keeps_links [] (mk_pb_PodQuery "r1" "default") worldA_pod).
  - intros vni c Hc. vm_compute in Hc. repeat case_in Hc; simplify_eq. vm_compute. discriminate.
  - vm_compute. reflexivity.
  - split; [discriminate|]. intros name Hn. vm_compute in Hn. discriminate.
Defined.

(** A pod with a gRPC wire cannot be destroyed: [DestroyPod] never answers
    true for it, and an answer comes with an error. *)
Theorem DestroyPod_blocked_by_wire {K C : Type} `{KernelLaws K, MI : MapIter K, !MapIterLaws K}
    `{RestClient C, Informer C, Retry}
    (ctx : Ctx) (pod : pb_PodQuery) (k : linkKey) (wire : GRPCWire) (w w' : World K C)
    (r : pb_BoolResponse * option error) :
  wm_wires (wires (wireState (daemon w))) !! k = Some wire ->
  LocalPodName wire = pq_Name pod -> w_Namespace wire = pq_KubeNs pod ->
  DestroyPod ctx pod w = (Val r, w') ->
  Response r.1 = false /\ r.2 <> None.
Proof.
  intros Hk Hp Hn Hr. unfold DestroyPod in Hr. cbv zeta in Hr.
  apply bind_Val in Hr as ([] & w1 & E1 & Hr). unfold mod_daemon, modify in E1. injection E1 as <-.
  apply bind_Val in Hr as ([resp err] & w2 & E2 & Hr). unfold RemGRPCWire in E2.
  apply bind_Val in E2 as (err' & w3 & E3 & E2). unfold on_wires, zoom in E3. cbn in E3.
  destruct (DeleteWiresByPod_wire (pq_KubeNs pod) (pq_Name pod) k wire (kernel w, wireState (daemon w)) Hk Hp Hn)
    as [Hno _].
  destruct (DeleteWiresByPod _ _ _) as [o s1]. injection E3 as -> <-.
  destruct err' as [er|]; [|by destruct (Hno s1)]. cbn in E2. injection E2 as <- <- <-.
  cbn in Hr. unfold ret in Hr. by injection Hr as <- <-.
Qed.

Definition wired_world : World Sim.State SimC.State :=
  mkWorld wired.1 sample_cluster (set_wireState wired.2 (daemon0 "192.168.0.1")).

Lemma DestroyPod_blocked_by_wire_witness :
  exists r w', DestroyPod [] (mk_pb_PodQuery "r1" "default") wired_world = (Val r, w') /\
    Response r.1 = false /\ r.2 <> None.
Proof.
  eexists _, _. split; [vm_compute; reflexivity|].
  eapply (DestroyPod_blocked_by_wire [] (mk_pb_PodQuery "r1" "default") ("/ns/a", 1%Z) sample_wire wired_world);
    [reflexivity|reflexivity|reflexivity|vm_compute; reflexivity].
Defined.

(** ** Start-up *)

Lemma filterLocalTopologies_eq ts ip : filterLocalTopologies ts ip = filter (fun t => SrcIP (Status t) = ip) ts.
Proof.
  unfold filterLocalTopologies.
  assert (forall acc, foldl (fun filtered t => if String.eqb (SrcIP (Status t)) ip then (filtered ++ [t])%list else filtered) acc ts
            = (acc ++ filter (fun t => SrcIP (Status t) = ip) ts)%list) as Hf; [|apply Hf].
  induction ts as [|t0 ts IH]; intros acc; cbn [foldl]; [by rewrite app_nil_r|]. rewrite IH, filter_cons.
  destruct (String.eqb_spec (SrcIP (Status t0)) ip); [|by rewrite decide_False].
  by rewrite decide_True, <- app_assoc.
Qed.

Lemma filterLocalTopologies_named ts ip name :
  filter (fun t => Name t = name) (filterLocalTopologies ts ip)
  = filter (fun t => SrcIP (Status t) = ip /\ Name t = name) ts.
Proof.
  rewrite filterLocalTopologies_eq, list_filter_filter. apply list_filter_iff. tauto.
Qed.

Lemma GetVxlanSource_run `{Kernel K} ip k r k' :
  GetVxlanSource ip k = (Val (Ok r), k') ->
  exists ifaces i, net_Interfaces k = (ifaces, k') /\ In i ifaces /\ r = (ip, if_Name i) /\
    exists a, In a (if_Addrs i) /\ IP_Equal (ParseIP ip) a = true.
Proof.
  unfold GetVxlanSource. destruct (String.eqb ip ""); [by intros [=]|].
  destruct (ParseIP ip) as [|b bs] eqn:Hp; [by intros [=]|]. unfold bind, call, ret.
  destruct (net_Interfaces k) as [ifaces k1] eqn:Hi. destruct (find_iface _ ifaces) as [i|] eqn:Hf; [|by intros [=]].
  intros [= <- <-]. apply List.find_some in Hf as [Hin He]. exists ifaces, i. split_and!; [done..|].
  by apply existsb_exists in He.
Qed.

(** What the daemon starts with: its own address, the interface of the node
    that has this address, no wires, and a manager that holds, under each name,
    the last listed topology of that name that runs on this node, in an object
    of its own. *)
Lemma newState_initialises {K C : Type} `{Kernel K, RestClient C}
    (bypass : bool) (hostIP : string) (clk : nat -> Z) (s s' : K * C) (d : KubeDTN) :
  newState bypass hostIP NewTopologyManager clk s = (Val (Ok d), s') ->
  exists topologies c i k ifaces k',
    topologyClient_List "" s.2 = (Val (topologies, None), c) /\
    net_Interfaces k = (ifaces, k') /\ In i ifaces /\
    (exists a, In a (if_Addrs i) /\ IP_Equal (ParseIP hostIP) a = true) /\
    settings d = mkSettings bypass hostIP (if_Name i) /\ wireState d = init_wires /\
    (forall name, (fun l => load l (heap d)) <$> topologyManager d !! name
       = last (filter (fun t => SrcIP (Status t) = hostIP /\ Name t = name) topologies)) /\
    own_objects (heap d) (topologyManager d).
Proof.
  unfold newState. intros Hr. apply bind_Val in Hr as ([ts er] & s1 & Hl & Hr).
  unfold zoom in Hl. destruct (topologyClient_List "" s.2) as [o c] eqn:Hls. destruct o; try by inversion Hl.
  injection Hl as -> <-. destruct er as [er|]; [by inversion Hr|].
  assert (own_objects empty_heap NewTopologyManager) as He by (split; by intros ??).
  pose proof (fun name => Init_loads (filterLocalTopologies ts hostIP) empty_heap NewTopologyManager name He) as Hk.
  destruct (TopologyManager_Init _ _ _) as [h m]. cbn [fst snd] in Hk.
  apply bind_Val in Hr as (vm & s2 & _ & Hr). apply bind_Val in Hr as (src & s3 & Hsrc & Hr).
  unfold zoom in Hsrc. destruct (GetVxlanSource hostIP s2.1) as [[v| |] k3] eqn:Hg; [|by inversion Hsrc..].
  injection Hsrc as -> <-. destruct src as [[ip0 intf]|er]; [|by inversion Hr]. injection Hr as <- <-.
  apply GetVxlanSource_run in Hg as (ifaces & i & Hi & Hin & [= -> ->] & Ha).
  exists ts, c, i, s2.1, ifaces, k3. cbn. split_and!; try done; [|apply (Hk "")].
  intros name. destruct (Hk name) as [_ ->]. rewrite filterLocalTopologies_named. by destruct (last _).
Qed.

(** The node of [r2], with its address. *)
Definition nodeB : Sim.State := Sim.mkState Sim.empty_view ["/ns/b"] [mkInterface "ens3" 2 [ParseIP "192.168.0.2"]].

(** ** Delivery over a wire *)

(** A frame sent over a wire reaches the local pod: after
    [AddGRPCWireLocal] accepted, a receive thread of the wire is running, the
    wire exists for its peer, and a packet for the wire's interface is written
    to the handle that was opened on it, with the answer of that write. *)
Theorem AddGRPCWireLocal_delivers {K C : Type} `{Kernel K, Pcap K} (d : pb_WireDef) (frame : list Z)
    (w w' : World K C) :
  AddGRPCWireLocal d w = (Val accept, w') ->
  exists i h wire k1 k2,
    net_InterfaceByName (wd_VethNameLocalHost d) (kernel w) = (Ok i, k1) /\
    pcap_OpenLive (wd_VethNameLocalHost d) 65365 k1 = (Ok h, k2) /\
    threads (daemon w') = wire :: threads (daemon w) /\
    LocalNodeIfaceID wire = if_Index i /\ PeerIfaceID wire = wd_PeerIntfId d /\ IsReady wire = true /\
    GRPCWireExists d w' = (Val (mk_pb_WireCreateResponse true (wd_PeerIntfId d), None), w') /\
    SendToOnce (mk_pb_Packet (if_Index i) frame) w' =
      (let '(err, k) := pcap_WritePacketData h frame (kernel w') in
       (Val (match err with Some e => refuse e | None => accept end), set_kernel k w')).
Proof.
  destruct w as [k c dm]. unfold AddGRPCWireLocal, on_kernel, on_wires, mod_daemon, zoom, call, bind, ret, modify. cbn.
  destruct (net_InterfaceByName _ k) as [[i|er] k1] eqn:Hi; cbn; [|by intros [=]].
  destruct (pcap_OpenLive _ _ k1) as [[h|er] k2] eqn:Ho; cbn; [|by intros [=]].
  intros [= <-]. eexists i, h, _, k1, k2. split_and!; [done|done|reflexivity|done..| |].
  - unfold GRPCWireExists, GetWireByUID, wireMap_GetWire, on_wires, zoom, bind, ret, get_st. cbn.
    unfold wire_key. cbn. by rewrite lookup_insert_eq.
  - unfold SendToOnce, GetHostIntfHndl, wireMap_GetHandle, on_wires, on_kernel, zoom, bind, ret, get_st, call. cbn.
    rewrite lookup_insert_eq. cbn. destruct (pcap_WritePacketData h frame k2) as [[e|] k3]; reflexivity.
Qed.

(** A node with the host end of a wire. *)
Definition wire_node : Sim.State :=
  Sim.mkState (Sim.add_link ("", "r1eth1-0001") (NlOther "veth") Sim.empty_view) ["/ns/a"]
    [mkInterface "r1eth1-0001" 7 []].

Definition wiredef_local : pb_WireDef :=
  mk_pb_WireDef 9 "192.168.0.2" "eth1" "/ns/a" 1 "r1" "r1eth1-0001" "default" "".

Lemma AddGRPCWireLocal_delivers_witness :
  let w := mkWorld wire_node sample_cluster (daemon0 "192.168.0.1") in
  let w' := (AddGRPCWireLocal wiredef_local w).2 in
  (exists i h, SendToOnce (mk_pb_Packet (if_Index i) [1; 2; 3]%Z) w' =
    (let '(err, k) := pcap_WritePacketData h [1; 2; 3]%Z (kernel w') in
     (Val (match err with Some e => refuse e | None => accept end), set_kernel k w'))) /\
  length (threads (daemon w')) = 1%nat.
Proof.
  intros w w'. destruct (AddGRPCWireLocal_delivers wiredef_local [1; 2; 3]%Z w w')
    as (i & h & wire & k1 & k2 & _ & _ & Ht & _ & _ & _ & _ & Hs).
  - vm_compute. reflexivity.
  - split; [by exists i, h|]. rewrite Ht. reflexivity.
Defined.
