(* ===== verification/Invariant.v ===== *)
(** * Invariants of the daemon's state

    What holds of the daemon's memory after any sequence of requests: it starts
    with the state [New] makes, every handler preserves the invariants, and
    between two requests the node and the cluster may change at will.  The
    VXLAN manager, which maps VNIs to pointers, then implements a map from
    VNIs to namespaces. *)

From stdpp Require Import base strings gmap list.
From Stdlib Require Import ZArith Lia.
From S2P Require Import Prelude GoStr GoNum GoNet Proto ApiV1 K8s Kernel SimKernel Qdisc.
From S2P Require Import LinkUtil Vxlan Decode Wire Metrics Daemon Handler HandlerProps.

Local Open Scope string_scope.

(** ** The invariants *)

(** Recorded VNIs are 32 bits wide and point to allocated cells. *)
Definition vxlan_typed (m : VxlanManager) : Prop :=
  (forall vni c, vxlans m !! vni = Some c -> in_int 32 vni /\ is_Some (cells m !! c)) /\
  (forall c, is_Some (cells m !! c) -> (c < fresh_cell m)%nat).

(** Objects the program allocated are below the next address. *)
Definition heap_typed (h : Heap) : Prop :=
  forall n, is_Some (objects h !! (inr n : loc)) -> (n < next_loc h)%Z.

Definition allocated (h : Heap) (l : loc) : Prop := is_Some (objects h !! l).

Definition methods : list string := ["add"; "del"; "update"; "remoteUpdate"].

(** The parts of the state that hold pointers, identifiers and labels. *)
Record typed (d : KubeDTN) : Prop := {
  typed_vxlan : vxlan_typed (vxlanManager d);
  typed_heap : heap_typed (heap d);
  typed_entries : forall k l, topologyManager d !! k = Some l -> allocated (heap d) l;
  typed_index : in_int 64 (currId (wireState d));
  typed_labels : Forall (fun p => p.1 ∈ methods) (histograms d)
}.

(** Registered wires: filed under their own key, ready, each with a stop channel
    of its own that was made, and with a receive thread that was started. *)
Record wires_ok (ws : WireState) (ts : list GRPCWire) : Prop := {
  wires_own k x : wm_wires (wires ws) !! k = Some x ->
    wire_key x = k /\ IsReady x = true /\ (StopC x < chans ws)%nat /\ x ∈ ts;
  wires_distinct k k' x x' : wm_wires (wires ws) !! k = Some x -> wm_wires (wires ws) !! k' = Some x' ->
    StopC x = StopC x' -> k = k';
  wires_closed c : c ∈ closed ws -> (c < chans ws)%nat
}.

Definition wires_inv (d : KubeDTN) : Prop := wires_ok (wireState d) (threads d).

(** ** Lemmas on the parts *)

Lemma vxlan_typed_add m vni s :
  in_int 32 vni -> vxlan_typed m ->
  vxlan_typed (let '(c, m) := new_cell s m in VxlanManager_Add vni c m).
Proof.
  intros Hv [H1 H2]. split; cbn.
  - intros v c. destruct (decide (v = vni)) as [->|Hne].
    + rewrite lookup_insert_eq. intros [= <-]. by rewrite lookup_insert_eq.
    + rewrite lookup_insert_ne by done. intros [Hr [x Hx]]%H1. split; [done|].
      destruct (decide (c = fresh_cell m)) as [->|]; [by rewrite lookup_insert_eq|by rewrite lookup_insert_ne, Hx].
  - intros c. destruct (decide (c = fresh_cell m)) as [->|]; [lia|]. rewrite lookup_insert_ne by done.
    intros Hc%H2. lia.
Qed.

Lemma vxlan_typed_delete m vni : vxlan_typed m -> vxlan_typed (VxlanManager_Delete vni m).
Proof. intros [H1 H2]. split; cbn; [|done]. intros v c [_ Hc]%lookup_delete_Some. by apply H1. Qed.

Lemma heap_typed_alloc h t : heap_typed h -> heap_typed (alloc t h).2.
Proof.
  intros Hh n. cbn. destruct (decide (n = next_loc h)) as [->|Hne]; [lia|].
  rewrite lookup_insert_ne by congruence. intros Hn%Hh. lia.
Qed.

Lemma heap_typed_store h l t : allocated h l -> heap_typed h -> heap_typed (store l t h).
Proof.
  intros Hl Hh n. cbn. destruct (decide (l = inr n)) as [->|Hne]; [by intros _; apply Hh|].
  rewrite lookup_insert_ne by done. apply Hh.
Qed.

Lemma heap_typed_share h id t : heap_typed h -> heap_typed (share id t h).2.
Proof.
  intros Hh. cbn. destruct (objects h !! (inl id : loc)); [done|]. intros n. cbn.
  rewrite lookup_insert_ne by done. apply Hh.
Qed.

Lemma allocated_store h l l' t : allocated h l' -> allocated (store l t h) l'.
Proof.
  intros Hl. unfold allocated. cbn. destruct (decide (l = l')) as [->|].
  - by rewrite lookup_insert_eq.
  - by rewrite lookup_insert_ne.
Qed.

Lemma allocated_alloc h l t : allocated h l -> allocated (alloc t h).2 l.
Proof.
  unfold allocated. cbn. destruct (decide (inr (next_loc h) = l)) as [->|].
  - by rewrite lookup_insert_eq.
  - by rewrite lookup_insert_ne.
Qed.

Lemma allocated_share h id l t : allocated h l -> allocated (share id t h).2 l.
Proof. cbn. destruct (objects h !! (inl id : loc)); [done|apply allocated_store]. Qed.

Lemma share_allocated h id t : allocated (share id t h).2 (share id t h).1.
Proof.
  unfold allocated. cbn. destruct (objects h !! (inl id : loc)) eqn:E; [by rewrite E|]. cbn. by rewrite lookup_insert_eq.
Qed.

Lemma alloc_allocated h t : allocated (alloc t h).2 (alloc t h).1.
Proof. unfold allocated. cbn. by rewrite lookup_insert_eq. Qed.

(** ** Preservation *)

Section Preservation.
  Context {K C : Type} `{UnicodeTables, ProtoLib, Kernel K, Pcap K, MapIter K}
    `{RestClient C, GrpcClient C, Informer C, RL : RetryLaws}.
  Local Abbreviation M := (go (World K C)).
  Implicit Types (w : World K C).

(** Every value [m] can return satisfies [Q], and the daemon's state [I]. *)
Definition upholds {A} (I : KubeDTN -> Prop) (m : M A) (Q : A -> KubeDTN -> Prop) : Prop :=
  forall w, I (daemon w) -> wlp m (fun a w' => I (daemon w') /\ Q a (daemon w')) w.

Definition preserves {A} (I : KubeDTN -> Prop) (m : M A) : Prop := upholds I m (fun _ _ => True).

Lemma preserves_bind {A B} (I : KubeDTN -> Prop) (m : M A) (k : A -> M B) :
  preserves I m -> (forall a, preserves I (k a)) -> preserves I (bind m k).
Proof.
  intros Hm Hk w Hw. apply wlp_bind. eapply wlp_mono; [by apply Hm|]. intros a w' [Hw' _]. by apply Hk.
Qed.

Lemma preserves_ret {A} I (a : A) : preserves I (ret a).
Proof. by intros w Hw. Qed.

Lemma preserves_kernel {A} I (m : go K A) : preserves I (on_kernel m).
Proof. intros w Hw. by apply wlp_kernel, wlp_any. Qed.

Lemma preserves_cluster {A} I (m : go C A) : preserves I (on_cluster m).
Proof. intros w Hw. by apply wlp_cluster, wlp_any. Qed.

Lemma preserves_mod (I : KubeDTN -> Prop) f : (forall d, I d -> I (f d)) -> preserves I (mod_daemon f).
Proof. intros Hf w Hw. split; [by apply Hf|done]. Qed.

Lemma preserves_get I : preserves I get_daemon.
Proof. by intros w Hw. Qed.

Lemma preserves_holding {A} (I : KubeDTN -> Prop) uid (m : M A) :
  (forall e d, I d -> I (log_event e d)) -> preserves I m -> preserves I (holding uid m).
Proof.
  intros He Hm w Hw. apply wlp_holding. eapply wlp_mono; [apply Hm, He, Hw|].
  intros a w' [Hw' _]. split; [by apply He|done].
Qed.

Lemma preserves_retry (I : KubeDTN -> Prop) (fn : M (option error)) :
  preserves I fn -> preserves I (RetryOnConflict fn).
Proof.
  intros Hf w Hw. unfold wlp. pose proof (retry_attempts _ fn w) as Ha.
  apply (attempts_invariant fn (fun w' => I (daemon w'))
           (fun x => match x with (Val _, w') => I (daemon w') /\ True | _ => True end) w) in Ha; [done| | |done].
  - intros w1 Hw1. apply (Hf w1 Hw1).
  - intros w1 e w2 Hw1 Hr. pose proof (Hf w1 Hw1) as Hp. unfold wlp in Hp. rewrite Hr in Hp. apply Hp.
Qed.

Lemma preserves_wires {A} (I : KubeDTN -> Prop) (m : go (K * WireState) A) :
  (forall k d, I d -> wlp m (fun _ p => I (set_wireState p.2 d)) (k, wireState d)) ->
  preserves I (on_wires m : M A).
Proof.
  intros Hm w Hw. apply wlp_zoom. eapply wlp_mono; [by apply Hm|]. intros a [k ws] Hp. split; [exact Hp|done].
Qed.

Lemma upholds_preserves {A} I (m : M A) Q : upholds I m Q -> preserves I m.
Proof. intros Hm w Hw. eapply wlp_mono; [by apply Hm|]. by intros a w' [? _]. Qed.

(** Steps of the daemon that an invariant does not see. *)
Definition blind (I : KubeDTN -> Prop) : Prop :=
  (forall d, I d -> I (tick d)) /\ (forall e d, I d -> I (log_event e d)) /\
  (forall meth ms d, meth ∈ methods -> I d -> I (observe meth ms d)).

Lemma preserves_time_Now I : blind I -> preserves I time_Now.
Proof.
  intros (Ht & _). apply preserves_bind; [apply preserves_get|]. intros d.
  apply preserves_bind; [by apply preserves_mod|]. intros []. apply preserves_ret.
Qed.

Lemma preserves_Since I start : blind I -> preserves I (Since start).
Proof. intros Hb. apply preserves_bind; [by apply preserves_time_Now|]. intros. apply preserves_ret. Qed.

Lemma preserves_Observe I meth ms : blind I -> meth ∈ methods -> preserves I (Observe meth ms).
Proof. intros (_ & _ & Ho) Hm. apply preserves_mod. intros d. by apply Ho. Qed.

Lemma preserves_log I e : blind I -> preserves I (mod_daemon (log_event e)).
Proof. intros (_ & Hl & _). apply preserves_mod. apply Hl. Qed.

Lemma preserves_held {A} I uid (m : M A) : blind I -> preserves I m -> preserves I (holding uid m).
Proof. intros (_ & Hl & _). by apply preserves_holding. Qed.

End Preservation.

(** Descends through a handler; [base] is for the steps an invariant sees. *)
Ltac pres base :=
  lazymatch goal with
  | |- preserves _ (ret _) => apply preserves_ret
  | |- preserves _ (panic _) => by intros ?
  | |- preserves _ (exit _) => by intros ?
  | |- preserves _ (on_kernel _) => apply preserves_kernel
  | |- preserves _ (on_cluster _) => apply preserves_cluster
  | |- preserves _ get_daemon => apply preserves_get
  | |- preserves _ time_Now => apply preserves_time_Now; base
  | |- preserves _ (Since _) => apply preserves_Since; base
  | |- preserves _ (Observe _ _) => apply preserves_Observe; [base|decide_now]
  | |- preserves _ (Lock _) => apply preserves_log; base
  | |- preserves _ (Unlock _) => apply preserves_log; base
  | |- preserves _ (mod_daemon (log_event _)) => apply preserves_log; base
  | |- preserves _ (holding _ _) => apply preserves_held; [base|pres base]
  | |- preserves _ (RetryOnConflict _) => apply preserves_retry; pres base
  | |- preserves _ (bind _ _) => apply preserves_bind; [pres base|intros ?; pres base]
  | |- preserves _ (match ?x with _ => _ end) => destruct x; pres base
  | |- preserves _ (let _ := _ in _) => cbv zeta; pres base
  | |- preserves _ ?m => first [progress base | let h := head_of m in unfold h; pres base]
  end.

(** ** The typing of the state *)

Lemma typed_blind : blind typed.
Proof. split_and!; intros; match goal with H : typed _ |- _ => destruct H end; constructor; cbn; auto. Qed.

Section Typing.
  Context {K C : Type} `{UnicodeTables, ProtoLib, Kernel K, Pcap K, MapIter K}
    `{RestClient C, GrpcClient C, Informer C, RL : RetryLaws}.
  Local Abbreviation M := (go (World K C)).

(** A larger heap. *)
Lemma typed_set_heap d h :
  typed d -> heap_typed h -> (forall l, allocated (heap d) l -> allocated h l) -> typed (set_heap h d).
Proof. intros [] Hh Ha. constructor; cbn; [done..| |done|done]. eauto. Qed.

Lemma typed_set_manager d m :
  typed d -> (forall k l, m !! k = Some l -> allocated (heap d) l) -> typed (set_topologyManager m d).
Proof. intros [] Hm. by constructor. Qed.

Lemma typed_set_vxlan d m : typed d -> vxlan_typed m -> typed (set_vxlanManager m d).
Proof. intros [] Hm. by constructor. Qed.

Lemma typed_update d l f : typed d -> allocated (heap d) l -> typed (set_heap (store l (f (load l (heap d))) (heap d)) d).
Proof.
  intros Hd Hl. apply typed_set_heap; [done| |].
  - apply heap_typed_store; [done|]. apply Hd.
  - intros l'. apply allocated_store.
Qed.

Lemma getPod_typed name ns :
  upholds typed (getPod name ns : M (result loc))
    (fun r d => match r with Ok l => allocated (heap d) l | Err _ => True end).
Proof.
  intros w Hw. unfold getPod. apply wlp_bind, wlp_cluster, wlp_any. intros obj c.
  assert (forall l h, allocated h l -> heap_typed h -> (forall l', allocated (heap (daemon w)) l' -> allocated h l') ->
    forall c', typed (daemon (set_daemon (set_heap h (daemon w)) (set_cluster c' w))) /\ allocated h l) as Hset.
  { intros l h Hl Hh Hm c'. split; [by apply typed_set_heap|done]. }
  destruct obj as [e| |id t].
  1, 2: apply wlp_bind, wlp_cluster, wlp_any; intros [t er] c2; destruct er as [er|]; [by apply wlp_ret|];
    apply wlp_bind, wlp_get_daemon; cbn [alloc]; apply wlp_bind, wlp_mod_daemon, wlp_ret;
    apply Hset; [apply (alloc_allocated _ t)|apply (heap_typed_alloc _ t), Hw|intros l'; apply (allocated_alloc _ _ t)].
  apply wlp_bind, wlp_get_daemon. cbn [share]. apply wlp_bind, wlp_mod_daemon, wlp_ret.
  apply Hset; [apply (share_allocated _ id t)|apply (heap_typed_share _ id t), Hw|intros l'; apply (allocated_share _ id _ t)].
Qed.


(** What follows [getPod] may rely on its object. *)
Lemma typed_with_pod {A} name ns (k : result loc -> M A) :
  (forall e, preserves typed (k (Err e))) ->
  (forall l w, typed (daemon w) -> allocated (heap (daemon w)) l -> wlp (k (Ok l)) (fun _ w' => typed (daemon w') /\ True) w) ->
  preserves typed (bind (getPod name ns) k).
Proof.
  intros He Hk w Hw. apply wlp_bind. eapply wlp_mono; [by apply getPod_typed|].
  intros [l|e] w' [Hw' Hl]; [by apply Hk|by apply He].
Qed.

Lemma set_alive_status_typed pod alive : preserves typed (set_alive_status pod alive : M _).
Proof.
  apply typed_with_pod; [intros e; apply preserves_ret|]. intros l w Hw Hl.
  apply wlp_bind. apply (wlp_mono _ (fun _ w' => typed (daemon w') /\ allocated (heap (daemon w')) l)).
  { destruct alive; apply wlp_mod_daemon; (split; [|exact Hl]); apply typed_set_manager; [done| |done|].
    - intros k l'. unfold TopologyManager_Add. destruct (decide (topology_key (Namespace (load l (heap (daemon w)))) (Name (load l (heap (daemon w)))) = k)) as [<-|].
      + rewrite lookup_insert_eq. by intros [= <-].
      + rewrite lookup_insert_ne by done. apply Hw.
    - unfold TopologyManager_Delete. intros k l' [_ Hk]%lookup_delete_Some. by eapply Hw. }
  intros [] w1 [Hw1 Hl1]. apply wlp_bind, wlp_mod_daemon.
  apply wlp_bind, wlp_bind, wlp_get_daemon, wlp_ret, wlp_bind, wlp_cluster, wlp_any. intros [t er] c. apply wlp_ret.
  split; [by apply typed_update|done].
Qed.

Lemma set_alive_finalizers_typed pod alive : preserves typed (set_alive_finalizers pod alive : M _).
Proof.
  apply typed_with_pod; [intros e; apply preserves_ret|]. intros l w Hw Hl.
  apply wlp_bind, wlp_mod_daemon. apply wlp_bind, wlp_bind, wlp_get_daemon, wlp_ret.
  apply wlp_bind, wlp_cluster, wlp_any. intros [t er] c. apply wlp_ret. split; [by apply typed_update|done].
Qed.

Lemma vxlan_add_typed vni s : in_int 32 vni -> preserves typed (vxlan_add vni s : M unit).
Proof.
  intros Hv. apply preserves_mod. intros d Hd. cbn. apply typed_set_vxlan; [done|].
  apply (vxlan_typed_add _ vni s Hv), Hd.
Qed.

Lemma vxlan_delete_typed vni : preserves typed (vxlan_delete vni : M unit).
Proof. apply preserves_mod. intros d Hd. apply typed_set_vxlan; [done|]. apply vxlan_typed_delete, Hd. Qed.

Lemma GetVniFromUid_range uid : in_int 32 (GetVniFromUid uid).
Proof. apply wrapS_range. lia. Qed.

(** Operations on the wires keep the index in range. *)
Lemma typed_wires {A} (m : go (K * WireState) A) :
  (forall s, in_int 64 (currId s.2) -> wlp m (fun _ s' => in_int 64 (currId s'.2)) s) ->
  preserves typed (on_wires m : M A).
Proof.
  intros Hm. apply preserves_wires. intros k d Hd. eapply wlp_mono; [apply Hm, Hd|].
  intros a [k' ws] Hi. destruct Hd. by constructor.
Qed.

End Typing.

Ltac typed_base :=
  lazymatch goal with
  | |- blind typed => apply typed_blind
  | |- preserves typed (getPod _ _) => eapply upholds_preserves, getPod_typed
  | |- preserves typed (set_alive_status _ _) => apply set_alive_status_typed
  | |- preserves typed (set_alive_finalizers _ _) => apply set_alive_finalizers_typed
  | |- preserves typed (vxlan_add _ _) => apply vxlan_add_typed; first [assumption | apply GetVniFromUid_range]
  | |- preserves typed (vxlan_delete _) => apply vxlan_delete_typed
  end.

Section Handlers.
  Context {K C : Type} `{UnicodeTables, ProtoLib, Kernel K, Pcap K, MapIter K}
    `{RestClient C, GrpcClient C, Informer C, RL : RetryLaws}.
  Local Abbreviation M := (go (World K C)).

Lemma SetAlive_typed pod : preserves typed (SetAlive pod : M _).
Proof. pres ltac:(idtac; typed_base). Qed.

Lemma Update_typed ctx pod : in_int 32 (rp_Vni pod) -> preserves typed (Update ctx pod : M _).
Proof. intros Hv. pres ltac:(idtac; typed_base). Qed.


Lemma preserves_links_loop I (f : pb_Link -> M (option error)) links :
  (forall l, preserves I (f l)) -> preserves I (links_loop f links).
Proof.
  intros Hf. induction links as [|l links IH]; [apply preserves_ret|]. apply preserves_bind; [apply Hf|].
  intros [e|]; [apply preserves_ret|apply IH].
Qed.

Lemma addLink_typed ctx pod link : preserves typed (addLink ctx pod link : M _).
Proof.
  assert (in_int 32 (rp_Vni (physical_payload pod link))) as Hv by apply GetVniFromUid_range.
  pres ltac:(idtac; typed_base).
Qed.

Lemma delLink_typed ctx pod link : preserves typed (delLink ctx pod link : M _).
Proof. pres ltac:(idtac; typed_base). Qed.

Lemma updateLink_typed ctx pod link : preserves typed (updateLink ctx pod link : M _).
Proof. pres ltac:(idtac; typed_base). Qed.

Ltac loop_base :=
  lazymatch goal with
  | |- preserves typed (links_loop _ _) => apply preserves_links_loop; intros ?;
      first [apply addLink_typed | apply delLink_typed | apply updateLink_typed]
  | |- preserves typed (SetAlive _) => apply SetAlive_typed
  | |- _ => typed_base
  end.

Lemma AddLinks_typed ctx q : preserves typed (AddLinks ctx q : M _).
Proof. pres ltac:(idtac; loop_base). Qed.

Lemma DelLinks_typed ctx q : preserves typed (DelLinks ctx q : M _).
Proof. pres ltac:(idtac; loop_base). Qed.

Lemma UpdateLinks_typed ctx q : preserves typed (UpdateLinks ctx q : M _).
Proof. pres ltac:(idtac; loop_base). Qed.

Lemma SetupPod_typed ctx q : preserves typed (SetupPod ctx q : M _).
Proof. pres ltac:(idtac; loop_base). Qed.

(** *** Wires *)

Lemma remove_all_index (ws : list GRPCWire) (s : K * WireState) :
  in_int 64 (currId s.2) -> wlp (remove_all ws) (fun _ s' => in_int 64 (currId s'.2)) s.
Proof.
  revert s. induction ws as [|x ws IH]; intros s Hs; cbn [remove_all]; [by apply wlp_ret|].
  apply wlp_bind. apply (wlp_mono _ (fun _ s' => in_int 64 (currId s'.2))).
  - unfold RemoveWire, close_chan, DeleteWire, on_ext. 
    repeat (cbn [fst snd]; first [wp_step | apply wlp_zoom, wlp_any; intros]); done.
  - intros e s' Hs'. apply wlp_bind. eapply wlp_mono; [by apply IH|]. intros. by apply wlp_ret.
Qed.

Ltac wires_index :=
  apply typed_wires; intros s Hs;
  unfold DeleteWiresByPod, GetWiresByPod, make_chan, AddWire, GetHostIntfHndl, CreateGRPCWireRemoteTriggered,
    GetWireByUID, GenNodeIfaceName, NextIndex, on_ext;
  repeat (cbn [fst snd currId set_wires];
          first [wp_step | eapply wlp_mono; [apply remove_all_index|intros ? ? ?]
                | apply wlp_zoom, wlp_any; intros]);
  first [done | apply wrapS_range; lia].

Lemma RemGRPCWire_typed d : preserves typed (RemGRPCWire d : M _).
Proof. apply preserves_bind; [|intros []; apply preserves_ret]. wires_index. Qed.


Lemma AddGRPCWireLocal_typed d : preserves typed (AddGRPCWireLocal d : M _).
Proof.
  assert (preserves typed (on_wires make_chan : M _)) as Hm by wires_index.
  assert (forall x h, preserves typed (on_wires (AddWire x h) : M _)) as Ha by (intros; wires_index).
  assert (forall t, preserves typed (mod_daemon (add_thread t) : M _)) as Ht.
  { intros t. apply preserves_mod. intros dd []. by constructor. }
  pres ltac:(idtac; first [apply Hm | apply Ha | apply Ht]).
Qed.

Lemma AddGRPCWireRemote_typed d : preserves typed (AddGRPCWireRemote d : M _).
Proof.
  assert (preserves typed (on_wires make_chan : M _)) as Hm by wires_index.
  assert (forall c, preserves typed (on_wires (CreateGRPCWireRemoteTriggered d c) : M _)) as Hc by (intros; wires_index).
  assert (forall t, preserves typed (mod_daemon (add_thread t) : M _)) as Ht.
  { intros t. apply preserves_mod. intros dd []. by constructor. }
  pres ltac:(idtac; first [apply Hm | apply Hc | apply Ht]).
Qed.

Lemma GRPCWireExists_typed d : preserves typed (GRPCWireExists d : M _).
Proof. apply preserves_bind; [wires_index|]. intros []; apply preserves_ret. Qed.

Lemma GenerateNodeInterfaceName_typed q : preserves typed (GenerateNodeInterfaceName q : M _).
Proof. apply preserves_bind; [wires_index|]. intros; apply preserves_ret. Qed.

Lemma SendToOnce_typed pkt : preserves typed (SendToOnce pkt : M _).
Proof.
  assert (forall i, preserves typed (on_wires (GetHostIntfHndl i) : M _)) as Hh by (intros; wires_index).
  pres ltac:(idtac; apply Hh).
Qed.

Lemma DestroyPod_typed ctx q : preserves typed (DestroyPod ctx q : M _).
Proof.
  assert (preserves typed (mod_daemon (fun d =>
    set_topologyManager (TopologyManager_Delete (pq_Name q) (pq_KubeNs q) (topologyManager d)) d) : M _)) as Hd.
  { apply preserves_mod. intros d Hd. apply typed_set_manager; [done|].
    unfold TopologyManager_Delete. intros k l [_ Hk]%lookup_delete_Some. by eapply Hd. }
  pres ltac:(idtac; lazymatch goal with
    | |- preserves typed (RemGRPCWire _) => apply RemGRPCWire_typed
    | |- preserves typed (mod_daemon _) => apply Hd
    | _ => loop_base end).
Qed.

End Handlers.

(** ** The wires *)

Lemma wires_blind : blind wires_inv.
Proof. by split_and!. Qed.

Lemma wires_ok_chan ws ts :
  wires_ok ws ts -> wires_ok (mkWireState (wires ws) (currId ws) (S (chans ws)) (closed ws)) ts.
Proof.
  intros [H1 H2 H3]. constructor; cbn; [|done|intros c Hc%H3; lia].
  intros k x (? & ? & ? & ?)%H1. split_and!; [done..|lia|done].
Qed.

Lemma wires_ok_index ws ts n : wires_ok ws ts -> wires_ok (mkWireState (wires ws) n (chans ws) (closed ws)) ts.
Proof. by intros []. Qed.

Lemma wires_ok_close ws ts c :
  wires_ok ws ts -> (c < chans ws)%nat ->
  wires_ok (mkWireState (wires ws) (currId ws) (chans ws) ({[c]} ∪ closed ws)) ts.
Proof. intros [H1 H2 H3] Hc. constructor; cbn; [done..|]. intros c' [->%elem_of_singleton|?]%elem_of_union; auto. Qed.

Lemma wires_ok_delete ws ts x : wires_ok ws ts -> wires_ok (set_wires (wireMap_Delete x (wires ws)) ws) ts.
Proof.
  intros [H1 H2 H3]. constructor; cbn; [| |done].
  - intros k y [_ Hy]%lookup_delete_Some. by apply H1.
  - intros k k' y y' [_ Hy]%lookup_delete_Some [_ Hy']%lookup_delete_Some. by apply H2.
Qed.

(** A wire with a channel no registered wire has. *)
Lemma wires_ok_add ws ts x h :
  wires_ok ws ts -> (StopC x < chans ws)%nat -> (forall k y, wm_wires (wires ws) !! k = Some y -> StopC y <> StopC x) ->
  wires_ok (set_wires (wireMap_Add (set_ready x) h (wires ws)) ws) (set_ready x :: ts).
Proof.
  intros [H1 H2 H3] Hx Hne. constructor; cbn; [| |done].
  - intros k y [[<- <-]|[_ Hy]]%lookup_insert_Some; [split_and!; [done..|constructor]|].
    apply H1 in Hy as (? & ? & ? & ?). split_and!; [done..|by constructor].
  - intros k k' y y' [[<- <-]|[_ Hy]]%lookup_insert_Some [[<- <-]|[_ Hy']]%lookup_insert_Some He; [done| | |by eapply H2].
    + by destruct (Hne _ _ Hy').
    + by destruct (Hne _ _ Hy).
Qed.

Lemma wires_ok_thread ws ts t : wires_ok ws ts -> wires_ok ws (t :: ts).
Proof.
  intros [H1 H2 H3]. constructor; [|done..]. intros k x (? & ? & ? & ?)%H1. split_and!; [done..|by constructor].
Qed.

Ltac wires_base :=
  lazymatch goal with
  | |- blind wires_inv => apply wires_blind
  | |- preserves wires_inv (links_loop _ _) =>
      apply preserves_links_loop; intros ?; pres ltac:(idtac; wires_base)
  | |- preserves wires_inv (mod_daemon _) => apply preserves_mod; intros ? Hd; exact Hd
  end.

Section WireHandlers.
  Context {K C : Type} `{UnicodeTables, ProtoLib, Kernel K, Pcap K, MapIter K, !MapIterLaws K}
    `{RestClient C, GrpcClient C, Informer C, RL : RetryLaws}.
  Local Abbreviation M := (go (World K C)).

Lemma SetAlive_wires pod : preserves wires_inv (SetAlive pod : M _).
Proof. pres ltac:(idtac; wires_base). Qed.

Lemma Get_wires q : preserves wires_inv (Get q : M _).
Proof. pres ltac:(idtac; wires_base). Qed.

Lemma Update_wires ctx pod : preserves wires_inv (Update ctx pod : M _).
Proof. pres ltac:(idtac; wires_base). Qed.

Lemma AddLinks_wires ctx q : preserves wires_inv (AddLinks ctx q : M _).
Proof. pres ltac:(idtac; wires_base). Qed.

Lemma DelLinks_wires ctx q : preserves wires_inv (DelLinks ctx q : M _).
Proof. pres ltac:(idtac; wires_base). Qed.

Lemma UpdateLinks_wires ctx q : preserves wires_inv (UpdateLinks ctx q : M _).
Proof. pres ltac:(idtac; wires_base). Qed.

Lemma SetupPod_wires ctx q : preserves wires_inv (SetupPod ctx q : M _).
Proof. pres ltac:(idtac; wires_base). Qed.

(** Removing wires that were registered. *)
Lemma remove_all_wires (xs : list GRPCWire) (ts : list GRPCWire) n (s : K * WireState) :
  Forall (fun x => (StopC x < n)%nat) xs -> wires_ok s.2 ts -> chans s.2 = n ->
  wlp (remove_all xs) (fun _ s' => wires_ok s'.2 ts) s.
Proof.
  intros Hxs. revert s. induction Hxs as [|x xs Hx Hxs IH]; intros s Hs Hn; cbn [remove_all]; [by apply wlp_ret|].
  apply wlp_bind. apply (wlp_mono _ (fun _ s' => wires_ok s'.2 ts /\ chans s'.2 = n)).
  - assert (wires_ok (mkWireState (wires s.2) (currId s.2) (chans s.2) ({[StopC x]} ∪ closed s.2)) ts) as Hc
      by (apply wires_ok_close; [done|lia]).
    unfold RemoveWire, close_chan, DeleteWire, on_ext.
    repeat (cbn [fst snd]; first [wp_step | apply wlp_zoom, wlp_any; intros]);
      first [done | split; [by apply (wires_ok_delete _ ts x Hc)|done]].
  - intros e s' [Hs' Hn']. apply wlp_bind. eapply wlp_mono; [by apply IH|]. intros. by apply wlp_ret.
Qed.

Lemma RemGRPCWire_wires d : preserves wires_inv (RemGRPCWire d : M _).
Proof.
  apply preserves_bind; [|intros []; apply preserves_ret]. apply preserves_wires. intros k dm Hd.
  unfold DeleteWiresByPod, GetWiresByPod. apply wlp_bind, wlp_bind, wlp_wp, wp_get_st. apply wlp_bind, wlp_wp, wp_ext.
  intros all k1 Hall. apply map_order_perm in Hall. cbn [fst snd] in *. apply wlp_ret. cbv beta iota. cbn [negb orb].
  case_match; [by apply wlp_ret|]. apply wlp_bind.
  eapply wlp_mono; [apply (remove_all_wires _ (threads dm) (chans (wireState dm))); [|exact Hd|done]|].
  - apply Forall_forall. intros x [Hx _]%list_elem_of_In%filter_In. apply list_elem_of_In in Hx. rewrite <- Hall in Hx.
    apply list_elem_of_fmap in Hx as ([key y] & -> & Hy). apply elem_of_map_to_list in Hy. by apply Hd in Hy as (_ & _ & ? & _).
  - intros errs s Hs. repeat wp_step; done.
Qed.

Lemma DestroyPod_wires ctx q : preserves wires_inv (DestroyPod ctx q : M _).
Proof.
  pres ltac:(idtac; lazymatch goal with
    | |- preserves wires_inv (RemGRPCWire _) => apply RemGRPCWire_wires
    | _ => wires_base end).
Qed.


(** The channel a handler has just made is no registered wire's. *)
Lemma fresh_chan ws ts k x : wires_ok ws ts -> wm_wires (wires ws) !! k = Some x -> StopC x <> chans ws.
Proof. intros Ho Hx. apply (wires_own _ _ Ho) in Hx as (_ & _ & ? & _). lia. Qed.

Lemma AddGRPCWireLocal_wires d : preserves wires_inv (AddGRPCWireLocal d : M _).
Proof.
  unfold AddGRPCWireLocal. apply preserves_bind; [apply preserves_kernel|]. intros [i|e]; [|apply preserves_ret].
  apply preserves_bind; [apply preserves_kernel|]. intros [h|e]; [|by intros ?].
  intros w Hw. unfold wlp, bind, on_wires, make_chan, AddWire, zoom, mod_daemon, modify, ret. cbn.
  split; [|done]. unfold wires_inv. cbn.
  apply (wires_ok_add _ _ (mkGRPCWire _ _ _ _ _ _ _ _ _ _ _ _ _ _) h (wires_ok_chan _ _ Hw)); cbn; [lia|].
  intros k y Hy. by eapply fresh_chan.
Qed.

Lemma AddGRPCWireRemote_wires d : preserves wires_inv (AddGRPCWireRemote d : M _).
Proof.
  intros w Hw. unfold AddGRPCWireRemote. apply wlp_bind. unfold wlp at 1, on_wires at 1, make_chan, zoom, bind, ret. cbn.
  set (w1 := mkWorld _ _ _). set (c := chans (wireState (daemon w))).
  assert (wires_inv (daemon w1)) as Hw1 by apply (wires_ok_chan _ _ Hw).
  apply wlp_bind. apply (wlp_mono _ (fun r w' => match r with
    | Ok x => wires_ok (wireState (daemon w')) (x :: threads (daemon w'))
    | Err _ => wires_inv (daemon w') end)).
  - apply wlp_zoom. unfold CreateGRPCWireRemoteTriggered, GetWireByUID, GenNodeIfaceName, NextIndex, AddWire, on_ext.
    repeat (cbn [fst snd]; first [wp_step | apply wlp_zoom, wlp_any; intros]); try done.
    all: try (by apply (wires_ok_index _ _ _ Hw1)); try (by apply wires_ok_thread).
    match goal with |- wires_ok (wireState (daemon (mkWorld _ _ (set_wireState (_, set_wires (wireMap_Add (set_ready ?x) ?h _) _).2 _)))) _ =>
      apply (wires_ok_add _ _ x h (wires_ok_index _ _ _ Hw1)) end; cbn; [lia|].
    intros k y Hy. by eapply (fresh_chan (wireState (daemon w))).
  - intros [x|e] w' Hr; repeat first [apply wlp_bind, wlp_mod_daemon | apply wlp_ret]; done.
Qed.

Lemma GRPCWireExists_wires d : preserves wires_inv (GRPCWireExists d : M _).
Proof. apply preserves_bind; [by apply preserves_wires|]. intros []; apply preserves_ret. Qed.

Lemma GenerateNodeInterfaceName_wires q : preserves wires_inv (GenerateNodeInterfaceName q : M _).
Proof. apply preserves_bind; [|intros; apply preserves_ret]. apply preserves_wires. intros k dm Hd. by apply wires_ok_index. Qed.

Lemma SendToOnce_wires pkt : preserves wires_inv (SendToOnce pkt : M _).
Proof.
  apply preserves_bind; [|intros []; pres ltac:(idtac; wires_base)].
  apply preserves_wires. intros k dm Hd. unfold GetHostIntfHndl. repeat wp_step; done.
Qed.

End WireHandlers.

(** ** The stop channels *)

(** The stop channels that are closed are those of [c]. *)
Definition stop_inv (c : gset nat) (d : KubeDTN) : Prop := closed (wireState d) = c.

Lemma stop_blind c : blind (stop_inv c).
Proof. by split_and!. Qed.

Ltac stop_base :=
  lazymatch goal with
  | |- blind (stop_inv _) => apply stop_blind
  | |- preserves (stop_inv _) (links_loop _ _) =>
      apply preserves_links_loop; intros ?; pres ltac:(idtac; stop_base)
  | |- preserves (stop_inv _) (mod_daemon _) => apply preserves_mod; intros ? Hd; exact Hd
  | |- preserves (stop_inv _) (on_wires _) =>
      let Hd := fresh in apply preserves_wires; intros ? ? Hd; unfold stop_inv in Hd;
      unfold CreateGRPCWireRemoteTriggered, make_chan, AddWire, GetWireByUID, GenNodeIfaceName, NextIndex,
        GetHostIntfHndl, on_ext;
      repeat (cbn [fst snd]; first [wp_step | apply wlp_zoom, wlp_any; intros]); by rewrite <- Hd
  end.

(** ** Sequences of requests *)

(** The requests of the three services. *)
Inductive request :=
| RGet (q : pb_PodQuery)
| RSetAlive (p : pb_Pod)
| RAddLinks (ctx : Ctx) (q : pb_LinksBatchQuery)
| RDelLinks (ctx : Ctx) (q : pb_LinksBatchQuery)
| RUpdateLinks (ctx : Ctx) (q : pb_LinksBatchQuery)
| RSetupPod (ctx : Ctx) (q : pb_SetupPodQuery)
| RDestroyPod (ctx : Ctx) (q : pb_PodQuery)
| RGRPCWireExists (d : pb_WireDef)
| RAddGRPCWireLocal (d : pb_WireDef)
| RRemGRPCWire (d : pb_WireDef)
| RGenerateNodeInterfaceName (q : pb_GenerateNodeInterfaceNameRequest)
| RUpdate (ctx : Ctx) (p : pb_RemotePod)
| RAddGRPCWireRemote (d : pb_WireDef)
| RSendToOnce (pkt : pb_Packet).

(** The requests that remove wires. *)
Definition removal (r : request) : bool :=
  match r with RRemGRPCWire _ | RDestroyPod _ _ => true | _ => false end.

(** What decoding gives: the VNI of an update is a 32-bit field. *)
Definition request_ok (r : request) : Prop :=
  match r with RUpdate _ p => in_int 32 (rp_Vni p) | _ => True end.

Section Requests.
  Context {K C : Type} `{UnicodeTables, ProtoLib, Kernel K, Pcap K, MapIter K, !MapIterLaws K}
    `{RestClient C, GrpcClient C, Informer C, RL : RetryLaws}.
  Local Abbreviation M := (go (World K C)).
  Local Open Scope go_scope.
  Implicit Types (w : World K C).

(** The handler of a request, without its answer. *)
Definition serve (r : request) : M unit :=
  match r with
  | RGet q => Get q ;; ret tt
  | RSetAlive p => SetAlive p ;; ret tt
  | RAddLinks ctx q => AddLinks ctx q ;; ret tt
  | RDelLinks ctx q => DelLinks ctx q ;; ret tt
  | RUpdateLinks ctx q => UpdateLinks ctx q ;; ret tt
  | RSetupPod ctx q => SetupPod ctx q ;; ret tt
  | RDestroyPod ctx q => DestroyPod ctx q ;; ret tt
  | RGRPCWireExists d => GRPCWireExists d ;; ret tt
  | RAddGRPCWireLocal d => AddGRPCWireLocal d ;; ret tt
  | RRemGRPCWire d => RemGRPCWire d ;; ret tt
  | RGenerateNodeInterfaceName q => GenerateNodeInterfaceName q ;; ret tt
  | RUpdate ctx p => Update ctx p ;; ret tt
  | RAddGRPCWireRemote d => AddGRPCWireRemote d ;; ret tt
  | RSendToOnce pkt => SendToOnce pkt ;; ret tt
  end.

(** The states of a daemon from its start, as long as it has not crashed. *)
Inductive reachable : World K C -> Prop :=
| reach_start bypass hostIP clk s s' d k c :
    newState bypass hostIP NewTopologyManager clk s = (Val (Ok d), s') -> reachable (mkWorld k c d)
| reach_serve w w' r :
    reachable w -> request_ok r -> serve r w = (Val tt, w') -> reachable w'
| reach_outside w k c :
    reachable w -> reachable (mkWorld k c (daemon w)).

Lemma preserves_drop {A} I (m : M A) : preserves I m -> preserves I (m ;; ret tt).
Proof. intros Hm. apply preserves_bind; [done|]. intros. apply preserves_ret. Qed.

Lemma serve_typed r : request_ok r -> preserves typed (serve r).
Proof.
  intros Hr. destruct r; apply preserves_drop;
    first [pres ltac:(idtac; typed_base) | apply SetAlive_typed | apply AddLinks_typed | apply DelLinks_typed
          | apply UpdateLinks_typed | apply SetupPod_typed | apply DestroyPod_typed | apply GRPCWireExists_typed
          | apply AddGRPCWireLocal_typed | apply RemGRPCWire_typed | apply GenerateNodeInterfaceName_typed
          | by apply Update_typed | apply AddGRPCWireRemote_typed | apply SendToOnce_typed].
Qed.

Lemma serve_wires r : preserves wires_inv (serve r).
Proof.
  destruct r; apply preserves_drop;
    first [apply Get_wires | apply SetAlive_wires | apply AddLinks_wires | apply DelLinks_wires
          | apply UpdateLinks_wires | apply SetupPod_wires | apply DestroyPod_wires | apply GRPCWireExists_wires
          | apply AddGRPCWireLocal_wires | apply RemGRPCWire_wires | apply GenerateNodeInterfaceName_wires
          | apply Update_wires | apply AddGRPCWireRemote_wires | apply SendToOnce_wires].
Qed.

(** Only a removal closes a stop channel. *)
Lemma serve_stop r c : removal r = false -> preserves (stop_inv c) (serve r).
Proof. intros Hr. destruct r; try discriminate Hr; apply preserves_drop; pres ltac:(idtac; stop_base). Qed.

(** An invariant of the start that every handler preserves. *)
Lemma reachable_ind_inv (I : KubeDTN -> Prop) :
  (forall (s s' : K * C) bypass hostIP clk d,
     newState bypass hostIP NewTopologyManager clk s = (Val (Ok d), s') -> I d) ->
  (forall r, request_ok r -> preserves I (serve r)) ->
  forall w, reachable w -> I (daemon w).
Proof.
  intros Hstart Hserve w Hw. induction Hw as [bypass hostIP clk s s' d k c Hn|w w' r Hw IH Hr Hs|w k c Hw IH].
  - by eapply Hstart.
  - pose proof (Hserve r Hr w IH) as Hp. unfold wlp in Hp. rewrite Hs in Hp. apply Hp.
  - done.
Qed.


(** *** The start *)

Lemma Init_typed ts h m :
  heap_typed h -> (forall k l, m !! k = Some l -> allocated h l) ->
  heap_typed (TopologyManager_Init ts h m).1 /\
  forall k l, (TopologyManager_Init ts h m).2 !! k = Some l -> allocated (TopologyManager_Init ts h m).1 l.
Proof.
  revert h m. induction ts as [|t ts IH]; intros h m Hh Hm; [done|]. cbn. apply IH.
  - apply (heap_typed_alloc h t Hh).
  - intros k l [[_ <-]|[_ Hl%Hm]]%lookup_insert_Some; [apply (alloc_allocated h t)|by apply (allocated_alloc h l t)].
Qed.

Lemma store_vxlans_typed c links m :
  is_Some (cells m !! c) -> vxlan_typed m ->
  vxlan_typed (store_vxlans c links m) /\ cells (store_vxlans c links m) = cells m.
Proof.
  unfold store_vxlans. revert m. induction links as [|l links IH]; intros m Hc Hm; [done|]. cbn.
  destruct (nl_Kind l) as [id grp|]; [|by apply IH]. destruct (IH (VxlanManager_Add (int32 id) c m)) as [Ht He]; [done| |done].
  destruct Hm as [Hv Hf]. split; [|done]. cbn. intros v c' [[<- <-]|[_ Hl]]%lookup_insert_Some; [|by apply Hv].
  split; [apply wrapS_range; lia|done].
Qed.

Lemma set_cell_typed c x m : is_Some (cells m !! c) -> vxlan_typed m -> vxlan_typed (set_cell c x m).
Proof.
  intros Hc [Hv Hf]. split; cbn.
  - intros v c' [Hr Hs]%Hv. split; [done|]. destruct (decide (c = c')) as [->|]; [by rewrite lookup_insert_eq|by rewrite lookup_insert_ne].
  - intros c'. destruct (decide (c = c')) as [->|]; [by intros _; apply Hf|]. rewrite lookup_insert_ne by done. apply Hf.
Qed.

Lemma init_loop_typed c items (s : K * VxlanManager) :
  is_Some (cells s.2 !! c) -> vxlan_typed s.2 -> wlp (init_loop c items) (fun _ s' => vxlan_typed s'.2) s.
Proof.
  revert s. induction items as [|t items IH]; intros s Hc Hm; cbn [init_loop]; [by apply wlp_ret|].
  apply wlp_bind, wlp_wp, wp_st. apply wlp_bind.
  assert (vxlan_typed (set_cell c (NetNs (Status t)) s.2)) as Hs by (by apply set_cell_typed).
  assert (is_Some (cells (set_cell c (NetNs (Status t)) s.2) !! c)) as Hc' by (cbn; by rewrite lookup_insert_eq).
  apply (wlp_mono _ (fun _ s' => vxlan_typed s'.2 /\ is_Some (cells s'.2 !! c))).
  - unfold on_ext. repeat (cbn [fst snd]; first [wp_step | apply wlp_zoom, wlp_any; intros]); try done.
    match goal with |- context [store_vxlans c ?ls _] => destruct (store_vxlans_typed c ls _ Hc' Hs) as [Ht He] end.
    split; [exact Ht|]. cbn [fst snd]. by rewrite He.
  - intros [] s' [Hs' Hc'']. by apply IH.
Qed.

Lemma newState_run (s s' : K * C) bypass hostIP tm clk d :
  newState bypass hostIP tm clk s = (Val (Ok d), s') ->
  exists ts vm k k' settings,
    VxlanManager_Init ts (k, NewVxlanManager) = (Val tt, (k', vm)) /\
    d = mkKubeDTN settings (TopologyManager_Init ts empty_heap tm).1 (TopologyManager_Init ts empty_heap tm).2
          vm init_wires [] [] clk 0 [].
Proof.
  unfold newState. intros Hr. apply bind_Val in Hr as ([ts er] & s1 & _ & Hr). destruct er; [done|].
  destruct (TopologyManager_Init _ _ _) as [h m] eqn:Hi. apply bind_Val in Hr as (vm & s2 & Hv & Hr).
  destruct (VxlanManager_Init _ _) as [[[]| |] [k' vm']] eqn:HV; [|done..]. injection Hv as -> <-.
  apply bind_Val in Hr as ([[ip intf]|] & s3 & _ & Hr); [|done]. injection Hr as <- <-.
  eexists _, vm, _, k', _. split; [exact HV|]. by rewrite Hi.
Qed.

Lemma newState_typed (s s' : K * C) bypass hostIP clk d :
  newState bypass hostIP NewTopologyManager clk s = (Val (Ok d), s') -> typed d.
Proof.
  intros (ts & vm & k & k' & st & Hv & ->)%newState_run.
  destruct (Init_typed ts empty_heap NewTopologyManager) as [Hh He].
  { by intros n [x Hx]. }
  { by intros n x Hx. }
  constructor; cbn; [|done|done|split; lia|constructor].
  assert (wlp (VxlanManager_Init ts) (fun _ s' => vxlan_typed s'.2) (k, NewVxlanManager)) as Hw.
  { unfold VxlanManager_Init. apply wlp_bind, wlp_wp, wp_get_st. cbv beta iota zeta delta [new_cell].
    apply wlp_bind, wlp_wp, wp_st. apply init_loop_typed; cbn; [by rewrite lookup_insert_eq|].
    split; cbn; [done|]. intros c [x [[<- _]|[_ Hx]]%lookup_insert_Some]; [lia|done]. }
  by apply (wlp_run _ _ _ _ _ Hw Hv).
Qed.

Lemma newState_wires (s s' : K * C) bypass hostIP clk d :
  newState bypass hostIP NewTopologyManager clk s = (Val (Ok d), s') -> wires_inv d.
Proof. intros (ts & vm & k & k' & st & _ & ->)%newState_run. by constructor; cbn; intros. Qed.

(** In every state the daemon reaches from its start by any sequence of requests,
    whatever the node and the cluster do in between, its pointers point to
    allocated variables. *)
Lemma reachable_typed (w : World K C) : reachable w -> typed (daemon w).
Proof. apply reachable_ind_inv; [intros *; apply newState_typed|apply serve_typed]. Qed.

Lemma reachable_wires_inv (w : World K C) : reachable w -> wires_inv (daemon w).
Proof.
  apply (reachable_ind_inv wires_inv); [intros *; apply newState_wires|]. intros r _. apply serve_wires.
Qed.

(** C15: in every state the daemon reaches from its start by any sequence of requests,
    every registered wire is filed under its own namespace and link, is marked
    ready, has a stop channel that it shares with no other registered wire, and a
    receive thread was started for it; that thread has not been told to stop
    unless the wire's channel was closed.  Only a removal of wires closes one: on
    every other request that returns, the wires that are registered afterwards and
    whose channel was not closed before have a thread that is not told to stop. *)
Theorem reachable_wires (w : World K C) : reachable w ->
  (forall k x, wm_wires (wires (wireState (daemon w))) !! k = Some x ->
     wire_key x = k /\ IsReady x = true /\ x ∈ threads (daemon w) /\
     (x ∈ running (daemon w) \/ StopC x ∈ closed (wireState (daemon w)))) /\
  (forall k k' x x', wm_wires (wires (wireState (daemon w))) !! k = Some x ->
     wm_wires (wires (wireState (daemon w))) !! k' = Some x' -> StopC x = StopC x' -> k = k') /\
  (forall r w' k x, request_ok r -> removal r = false -> serve r w = (Val tt, w') ->
     wm_wires (wires (wireState (daemon w'))) !! k = Some x ->
     x ∈ running (daemon w') \/ StopC x ∈ closed (wireState (daemon w))).
Proof.
  intros Hw. assert (forall d, wires_inv d -> forall k x, wm_wires (wires (wireState d)) !! k = Some x ->
    x ∈ running d \/ StopC x ∈ closed (wireState d)) as Hrun.
  { intros d Hd k x Hx. destruct (wires_own _ _ Hd _ _ Hx) as (_ & _ & _ & Ht).
    destruct (decide (StopC x ∈ closed (wireState d))); [by right|left]. by apply list_elem_of_filter. }
  pose proof (reachable_wires_inv w Hw) as Hi. split_and!.
  - intros k x Hx. destruct (wires_own _ _ Hi _ _ Hx) as (? & ? & _ & ?). eauto 10.
  - apply (wires_distinct _ _ Hi).
  - intros r w' k x Hok Hr Hs Hx.
    pose proof (serve_stop r (closed (wireState (daemon w))) Hr w eq_refl) as Hc. unfold wlp in Hc. rewrite Hs in Hc.
    destruct Hc as [Hc _]. rewrite <- Hc. eapply Hrun; [|exact Hx].
    apply reachable_wires_inv. by eapply reach_serve.
Qed.

End Requests.

(** A wire the peer asks for a second time gets a second receive thread: when
    the wire is registered already (both ends trigger its creation),
    [AddGRPCWireRemote] accepts and starts a thread for the existing wire next
    to the one that was started before, so each frame of the pod is forwarded twice. *)
Theorem AddGRPCWireRemote_second_thread `{Kernel K, Pcap K} {C} (d : pb_WireDef) (x : GRPCWire) (w : World K C) :
  wires_inv (daemon w) -> wireMap_GetWire (wd_LocalPodNetNs d) (wd_LinkUid d) (wires (wireState (daemon w))) = Some x ->
  x ∈ threads (daemon w) /\
  exists w', AddGRPCWireRemote d w = (Val (mk_pb_WireCreateResponse true (LocalNodeIfaceID x), None), w') /\
    threads (daemon w') = x :: threads (daemon w) /\ kernel w' = kernel w.
Proof.
  intros Hw Hx. destruct (wires_own _ _ Hw _ _ Hx) as (_ & Hr & _ & Ht). split; [done|].
  eexists. split.
  - unfold AddGRPCWireRemote, CreateGRPCWireRemoteTriggered, GetWireByUID, on_wires, make_chan, zoom, bind, ret, mod_daemon, modify. cbn.
    rewrite Hx, Hr. cbn. reflexivity.
  - done.
Qed.

(** ** The record of VNIs as a map *)

(** What the handlers need of the record: a finite map from VNIs to namespaces
    that [add], [remove] and [find] update and read. *)
Class VniMap (S : Type) := {
  vm_ok : S -> Prop;
  vm_abs : S -> gmap Z string;
  vm_empty : S;
  vm_add : Z -> string -> S -> S;
  vm_remove : Z -> S -> S;
  vm_find : Z -> S -> option string;
  vm_empty_ok : vm_ok vm_empty /\ vm_abs vm_empty = ∅;
  vm_add_ok vni s m : in_int 32 vni -> vm_ok m -> vm_ok (vm_add vni s m) /\ vm_abs (vm_add vni s m) = <[vni := s]> (vm_abs m);
  vm_remove_ok vni m : vm_ok m -> vm_ok (vm_remove vni m) /\ vm_abs (vm_remove vni m) = delete vni (vm_abs m);
  vm_find_ok vni m : vm_ok m -> vm_find vni m = vm_abs m !! vni
}.

(** The namespace each VNI points to. *)
Definition vxlan_abs (m : VxlanManager) : gmap Z string := deref m <$> vxlans m.

(** A new variable changes no recorded one. *)
Lemma vxlan_abs_add m vni s :
  vxlan_typed m -> vxlan_abs (let '(c, m) := new_cell s m in VxlanManager_Add vni c m) = <[vni := s]> (vxlan_abs m).
Proof.
  intros [Hv Hf]. unfold vxlan_abs. cbn. rewrite fmap_insert. unfold deref at 1. cbn. rewrite lookup_insert_eq. cbn.
  f_equal. apply map_fmap_ext. intros v c [_ Hc]%Hv. unfold deref. cbn. rewrite lookup_insert_ne; [done|].
  apply Hf in Hc. lia.
Qed.

#[export] Instance VxlanManager_VniMap : VniMap VxlanManager.
Proof.
  refine {| vm_ok := vxlan_typed; vm_abs := vxlan_abs; vm_empty := NewVxlanManager;
            vm_add vni s m := let '(c, m) := new_cell s m in VxlanManager_Add vni c m;
            vm_remove := VxlanManager_Delete;
            vm_find vni m := deref m <$> VxlanManager_Get vni m |}.
  - split; [|done]. split; [done|]. by intros c [x Hx].
  - intros vni s m Hv Hm. split; [by apply (vxlan_typed_add m vni s)|by apply (vxlan_abs_add m vni s)].
  - intros vni m Hm. split; [by apply vxlan_typed_delete|]. unfold vxlan_abs. cbn. by rewrite fmap_delete.
  - intros vni m _. unfold vxlan_abs. by rewrite lookup_fmap.
Defined.

Section Records.
  Context {K C : Type}.
  Implicit Types (w : World K C).

(** The VNIs the daemon has recorded. *)
Definition records w : gmap Z string := vxlan_abs (vxlanManager (daemon w)).

(** C21: the pointers of the VXLAN manager implement a map from VNIs to
    namespaces: in a well-typed daemon, recording a VNI changes this VNI's
    namespace and no other's (although each namespace is a variable that is
    pointed to), deleting removes it, and a lookup reads what was last
    recorded; all three stay in well-typed states. *)
Theorem vxlan_records_refine (vni : Z) (s : string) w :
  typed (daemon w) -> in_int 32 vni ->
  (exists w1, vxlan_add vni s w = (Val tt, w1) /\ typed (daemon w1) /\ records w1 = <[vni := s]> (records w)) /\
  (exists w2, vxlan_delete vni w = (Val tt, w2) /\ typed (daemon w2) /\ records w2 = delete vni (records w)) /\
  vxlan_netns vni w = (Val (records w !! vni), w).
Proof.
  intros Hw Hv. pose proof (typed_vxlan _ Hw) as Hm. split_and!.
  - eexists. split; [reflexivity|]. destruct (@vm_add_ok _ VxlanManager_VniMap vni s (vxlanManager (daemon w)) Hv Hm) as [Ht Ha].
    split; [by apply typed_set_vxlan|exact Ha].
  - eexists. split; [reflexivity|]. destruct (@vm_remove_ok _ VxlanManager_VniMap vni (vxlanManager (daemon w)) Hm) as [Ht Ha].
    split; [by apply typed_set_vxlan|exact Ha].
  - pose proof (@vm_find_ok _ VxlanManager_VniMap vni (vxlanManager (daemon w)) Hm) as Hf. cbn in Hf.
    unfold vxlan_netns, bind, get_daemon, ret, records. by rewrite Hf.
Qed.

End Records.

(** ** Witnesses *)

#[local] Existing Instance ascii_tables.

Definition start_run : outcome (result KubeDTN) * (Sim.State * SimC.State) :=
  newState true "192.168.0.2" NewTopologyManager Z.of_nat (nodeB, sample_cluster).

(** A daemon that has accepted a wire. *)
Definition wire_run (d : KubeDTN) : outcome unit * World Sim.State SimC.State :=
  serve (RAddGRPCWireLocal wiredef_local) (mkWorld wire_node sample_cluster d).

Definition wired_start : option (World Sim.State SimC.State) :=
  match start_run.1 with
  | Val (Ok d) => match (wire_run d).1 with Val tt => Some (wire_run d).2 | _ => None end
  | _ => None
  end.

Lemma wired_start_reachable w : wired_start = Some w -> reachable w.
Proof.
  unfold wired_start. destruct start_run as [o s'] eqn:Hn. cbn [fst]. destruct o as [[d|]| |]; [|intros Hw; discriminate Hw..].
  destruct (wire_run d) as [o w'] eqn:Hs. cbn [fst snd]. destruct o as [[]| |]; [|intros Hw; discriminate Hw..].
  intros Hw. injection Hw as <-.
  apply (reach_serve (mkWorld wire_node sample_cluster d) w' (RAddGRPCWireLocal wiredef_local)); [|exact I|exact Hs].
  eapply reach_start. exact Hn.
Qed.

(** The wire of the sample request has a thread that runs, also after the peer asks
    for it again. *)
Lemma reachable_wires_witness :
  exists w x, wired_start = Some w /\ wireMap_GetWire "/ns/a" 1 (wires (wireState (daemon w))) = Some x /\
    x ∈ running (daemon w) /\ forall w', serve (RAddGRPCWireRemote wiredef_local) w = (Val tt, w') ->
    wireMap_GetWire "/ns/a" 1 (wires (wireState (daemon w'))) = Some x -> x ∈ running (daemon w').
Proof.
  assert (match wired_start with
          | Some w => wireMap_GetWire "/ns/a" 1 (wires (wireState (daemon w))) <> None /\ closed (wireState (daemon w)) = ∅
          | None => False end) as Ht by (vm_compute; split; [discriminate|reflexivity]).
  destruct wired_start as [w|] eqn:Hw; [|by destruct Ht]. destruct Ht as [Ht Hc].
  destruct (wireMap_GetWire "/ns/a" 1 (wires (wireState (daemon w)))) as [x|] eqn:Hx; [|by destruct Ht].
  exists w, x. split; [done|]. split; [done|].
  destruct (reachable_wires w (wired_start_reachable w Hw)) as (Hown & _ & Hstep). rewrite Hc in Hown, Hstep. split.
  - destruct (Hown ("/ns/a", 1%Z) x Hx) as (_ & _ & _ & [Hr|Hn]); [exact Hr|destruct (not_elem_of_empty _ Hn)].
  - intros w' Hs Hx'. destruct (Hstep (RAddGRPCWireRemote wiredef_local) w' ("/ns/a", 1%Z) x I eq_refl Hs Hx') as [Hr|Hn];
      [exact Hr|destruct (not_elem_of_empty _ Hn)].
Defined.

Lemma vxlan_records_refine_witness :
  exists w, wired_start = Some w /\
    exists w1, vxlan_add 5007 "/ns/b" w = (Val tt, w1) /\ typed (daemon w1) /\
      records w1 = <[5007%Z := "/ns/b"]> (records w).
Proof.
  destruct wired_start as [w|] eqn:Hw; [|vm_compute in Hw; discriminate Hw]. exists w. split; [done|].
  apply (vxlan_records_refine 5007 "/ns/b" w).
  - by eapply reachable_ind_inv; [intros *; apply newState_typed|apply serve_typed|apply wired_start_reachable].
  - split; vm_compute; congruence.
Defined.

Lemma AddGRPCWireRemote_second_thread_witness :
  exists w x, wired_start = Some w /\ x ∈ threads (daemon w) /\
    exists w', AddGRPCWireRemote wiredef_local w = (Val (mk_pb_WireCreateResponse true (LocalNodeIfaceID x), None), w') /\
      threads (daemon w') = x :: threads (daemon w) /\ kernel w' = kernel w.
Proof.
  destruct wired_start as [w|] eqn:Hw; [|vm_compute in Hw; discriminate Hw].
  destruct (wireMap_GetWire "/ns/a" 1 (wires (wireState (daemon w)))) as [x|] eqn:Hx.
  - exists w, x. split; [done|]. apply (AddGRPCWireRemote_second_thread wiredef_local x w); [|exact Hx].
    apply (reachable_ind_inv wires_inv); [intros *; apply newState_wires|intros r _; apply serve_wires|].
    by apply wired_start_reachable.
  - exfalso.
    assert (match wired_start with Some w => wireMap_GetWire "/ns/a" 1 (wires (wireState (daemon w))) <> None | None => True end) as Ht
      by (vm_compute; discriminate). rewrite Hw in Ht. exact (Ht Hx).
Defined.
