(* ===== verification/Alive.v ===== *)
(** * Marking pods alive

    What [SetAlive] of [daemon/kubedtn/handler.go] leaves in the API server and
    in the topology manager.  [ApiServer] states what the daemon relies on: PUT
    replaces the status or the rest of a stored object, a failed PUT changes
    nothing, and an object of the informer's cache belongs to one resource. *)

From stdpp Require Import base strings gmap list.
From Stdlib Require Import ZArith Lia.
From S2P Require Import Prelude GoStr Proto ApiV1 K8s Kernel SimKernel Metrics Daemon Handler HandlerProps.

Local Open Scope string_scope.

(** What PUT makes of the stored object. *)
Definition put (subresource : option string) (v : Z) (t old : Topology) : Topology :=
  match subresource with
  | Some _ => mkTopology (Name old) (Namespace old) (Finalizers old) v (Spec old) (Status t)
  | None => mkTopology (Name old) (Namespace old) (Finalizers t) v (Spec t) (Status old)
  end.

Class ApiServer (C : Type) `{RestClient C, Informer C} := {
  stored : C -> gmap (string * string) Topology;
  (** The resource (namespace, name) an object of the cache belongs to. *)
  owner : Z -> string * string;
  law_GET ns name c t er c' :
    rest_Into (mkRequest GET ns "topologies" (Some name) None false None) c = ((t, er), c') ->
    stored c' = stored c /\ (er = None -> Namespace t = ns /\ Name t = name);
  law_PUT ns name sub t c t' er c' :
    rest_Into (mkRequest PUT ns "topologies" (Some name) sub false (Some t)) c = ((t', er), c') ->
    match er with
    | Some _ => stored c' = stored c
    | None => exists old v, stored c !! (ns, name) = Some old /\
                            stored c' = <[(ns, name) := put sub v t old]> (stored c)
    end;
  law_store ns name c r c' :
    no_slash ns = true ->
    store_GetByKey (topology_key ns name) c = (r, c') ->
    stored c' = stored c /\
    (forall id t, r = Stored id t -> owner id = (ns, name) /\ Namespace t = ns /\ Name t = name)
}.

Section Alive.
  Context {K C : Type} `{ApiServer C, RL : RetryLaws}.
  Implicit Types (w : World K C).

(** Objects of the cache keep the name they were delivered with. *)
Definition cache_ok (h : Heap) : Prop :=
  forall id t, objects h !! (inl id : loc) = Some t -> (Namespace t, Name t) = owner id.

(** [l] is an object of the resource. *)
Definition named (h : Heap) (l : loc) (ns name : string) : Prop :=
  exists t, objects h !! l = Some t /\ Namespace t = ns /\ Name t = name /\
            (forall id, l = inl id -> owner id = (ns, name)).

Lemma share_named id t h ns name :
  cache_ok h -> owner id = (ns, name) -> Namespace t = ns -> Name t = name ->
  cache_ok (share id t h).2 /\ named (share id t h).2 (share id t h).1 ns name.
Proof.
  intros Hc Ho Hns Hn. unfold share. cbn. destruct (objects h !! (inl id : loc)) as [t0|] eqn:Ht.
  - split; [done|]. pose proof (Hc id t0 Ht) as Ho0. rewrite Ho in Ho0. simplify_eq.
    exists t0. split_and!; [done..|]. intros id' [= <-]. congruence.
  - split.
    + intros id' t' Hid. cbn in Hid. destruct (decide (id = id')) as [<-|Hne].
      * rewrite lookup_insert_eq in Hid. congruence.
      * rewrite lookup_insert_ne in Hid by congruence. by apply Hc.
    + exists t. cbn. rewrite lookup_insert_eq. split_and!; [done..|]. intros id' [= <-]. done.
Qed.

Lemma alloc_named t h ns name :
  cache_ok h -> Namespace t = ns -> Name t = name ->
  cache_ok (alloc t h).2 /\ named (alloc t h).2 (alloc t h).1 ns name.
Proof.
  intros Hc Hns Hn. split.
  - intros id t' Hid. cbn in Hid. rewrite lookup_insert_ne in Hid by done. by apply Hc.
  - exists t. cbn. rewrite lookup_insert_eq. by split_and!.
Qed.

Lemma named_load h l ns name : named h l ns name -> Namespace (load l h) = ns /\ Name (load l h) = name.
Proof. intros (t & Ht & Hns & Hn & _). unfold load. by rewrite Ht. Qed.

(** Assigning to fields other than the name. *)
Lemma store_named h l ns name f :
  (forall t, Namespace (f t) = Namespace t /\ Name (f t) = Name t) ->
  cache_ok h -> named h l ns name ->
  cache_ok (store l (f (load l h)) h) /\ named (store l (f (load l h)) h) l ns name.
Proof.
  intros Hf Hc Hl. destruct (named_load _ _ _ _ Hl) as [Hns Hn]. destruct (Hf (load l h)) as [Fns Fn].
  destruct Hl as (t & Ht & _ & _ & Ho). split.
  - intros id t' Hid. cbn in Hid. destruct (decide (l = inl id)) as [->|Hne].
    + rewrite lookup_insert_eq in Hid. injection Hid as <-. rewrite (Ho id eq_refl). congruence.
    + rewrite lookup_insert_ne in Hid by done. by apply Hc.
  - exists (f (load l h)). cbn. rewrite lookup_insert_eq. split_and!; [done|congruence..|done].
Qed.

(** What reading a pod leaves alone. *)
Definition same_records w w' : Prop :=
  stored (cluster w') = stored (cluster w) /\ topologyManager (daemon w') = topologyManager (daemon w).

Lemma getPod_named ns name w :
  ns <> "" -> no_slash ns = true -> cache_ok (heap (daemon w)) ->
  wlp (getPod name ns) (fun r w' => same_records w w' /\ cache_ok (heap (daemon w')) /\
    forall l, r = Ok l -> named (heap (daemon w')) l ns name) w.
Proof.
  intros Hne Hs Hc. unfold getPod. destruct (String.eqb_spec ns ""); [done|].
  wp_step. apply wlp_cluster, wlp_wp, wp_call. intros r c Hr.
  apply law_store in Hr as [Hst Hid]; [|done].
  assert (wlp ('(t, err) <- on_cluster (topologyClient_Get ns name) ;;
               match err with
               | Some e => ret (Err e)
               | None =>
                   d <- get_daemon ;;
                   let '(l, h) := alloc t (heap d) in
                   mod_daemon (set_heap h) ;; ret (Ok l)
               end)%go
            (fun r w' => same_records w w' /\ cache_ok (heap (daemon w')) /\
               forall l, r = Ok l -> named (heap (daemon w')) l ns name) (set_cluster c w)) as Hget.
  { wp_step. apply wlp_cluster, wlp_wp, wp_call. intros [t er] c' Hg.
    apply law_GET in Hg as [Hst' Ht]. cbn in Hst'. destruct er as [er|].
    - wp_step. split; [split; [cbn; congruence|done]|]. by split.
    - destruct (Ht eq_refl) as [Hns Hn]. repeat d_step. cbn [set_cluster set_daemon daemon cluster].
      destruct (alloc_named t (heap (daemon w)) ns name Hc Hns Hn) as [Hc' Hl].
      cbn [set_cluster daemon] in *. rewrite Heqp in Hc', Hl.
      split; [split; [cbn; congruence|done]|]. split; [exact Hc'|]. by intros l' [= <-]. }
  destruct r as [er| |id t]; [exact Hget|exact Hget|]. destruct (Hid id t eq_refl) as (Ho & Hns & Hn).
  destruct (share_named id t (heap (daemon w)) ns name Hc Ho Hns Hn) as [Hc' Hl].
  do 2 d_step. cbn [set_cluster daemon]. destruct (share id t (heap (daemon w))) as [l h] eqn:Hsh.
  repeat d_step. split; [by split|]. split; [exact Hc'|]. by intros l' [= <-].
Qed.

(** The manager after [Add] or [Delete] of the resource. *)
Definition registered w (ns name : string) (alive : bool) : Prop :=
  bool_decide (is_Some (TopologyManager_Get name ns (topologyManager (daemon w)))) = alive.

(** The resource's stored status says where the pod is. *)
Definition marked w (pod : pb_Pod) : Prop :=
  exists t, stored (cluster w) !! (pod_KubeNs pod, pod_Name pod) = Some t /\
            SrcIP (Status t) = pod_SrcIp pod /\ NetNs (Status t) = pod_NetNs pod.

(** No other resource is written. *)
Definition others_kept (pod : pb_Pod) w w' : Prop :=
  forall k, k <> (pod_KubeNs pod, pod_Name pod) -> stored (cluster w') !! k = stored (cluster w) !! k.

Section Marking.
  Variable pod : pb_Pod.
  Hypothesis Hns : pod_KubeNs pod <> "".
  Hypothesis Hslash : no_slash (pod_KubeNs pod) = true.
  Local Abbreviation ns := (pod_KubeNs pod).
  Local Abbreviation name := (pod_Name pod).

Lemma set_alive_status_wlp alive w :
  cache_ok (heap (daemon w)) ->
  wlp (set_alive_status pod alive)
    (fun r w' => cache_ok (heap (daemon w')) /\ others_kept pod w w' /\
       (r = None -> marked w' pod /\ registered w' ns name alive)) w.
Proof.
  intros Hc. unfold set_alive_status. wp_step.
  eapply wlp_mono; [by apply getPod_named|]. intros [l|er] w1 ([Hst Hm] & Hc1 & Hl).
  2: { wp_step. split_and!; [done| |done]. intros k _. by rewrite Hst. }
  specialize (Hl l eq_refl). destruct (named_load _ _ _ _ Hl) as [Lns Ln]. wp_step.
  assert (exists m, registered (set_daemon (set_topologyManager m (daemon w1)) w1) ns name alive /\
    (if alive
     then mod_daemon (fun d => set_topologyManager (TopologyManager_Add l (heap d) (topologyManager d)) d)
     else mod_daemon (fun d => let t := load l (heap d) in
            set_topologyManager (TopologyManager_Delete (Name t) (Namespace t) (topologyManager d)) d)) w1
    = (Val tt, set_daemon (set_topologyManager m (daemon w1)) w1)) as (m & Hreg & Hrun).
  { destruct alive; eexists; (split; [|reflexivity]); unfold registered, TopologyManager_Get; cbn;
      unfold TopologyManager_Add, TopologyManager_Delete; rewrite Lns, Ln;
      [rewrite lookup_insert_eq|rewrite lookup_delete_eq]; [by rewrite bool_decide_true by eauto|].
    by rewrite bool_decide_false by (by intros [? ?]). }
  apply wlp_intro. intros [] w2 Hw2. pose proof (eq_trans (eq_sym Hw2) Hrun) as Heq. injection Heq as ->. clear Hw2 Hrun.
  destruct (store_named (heap (daemon w1)) l ns name (set_alive (pod_SrcIp pod) (pod_NetNs pod))) as [Hc2 Hl2];
    [done..|]. destruct (named_load _ _ _ _ Hl2) as [Lns2 Ln2].
  do 2 d_step. unfold updateStatus. do 4 d_step. unfold topologyClient_UpdateStatus.
  apply wlp_cluster, wlp_wp, wp_call. intros [t' er] c' Hp. cbn [daemon set_daemon heap set_heap] in *.
  change (heap (set_topologyManager m (daemon w1))) with (heap (daemon w1)) in Hp. rewrite Ln2 in Hp. apply law_PUT in Hp. cbn in Hp. wp_step. split_and!; [exact Hc2| |].
  - intros k Hk. cbn. destruct er as [er|]; [by rewrite Hp, Hst|].
    destruct Hp as (old & v & _ & ->). rewrite lookup_insert_ne by done. by rewrite Hst.
  - intros ->. destruct Hp as (old & v & _ & Hp). split; [|exact Hreg].
    eexists. cbn. rewrite Hp, lookup_insert_eq. split; [reflexivity|]. cbn.
    unfold load. cbn. by rewrite lookup_insert_eq.
Qed.

Lemma set_alive_finalizers_wlp alive b w :
  cache_ok (heap (daemon w)) -> marked w pod -> registered w ns name b ->
  wlp (set_alive_finalizers pod alive)
    (fun r w' => cache_ok (heap (daemon w')) /\ others_kept pod w w' /\
       marked w' pod /\ registered w' ns name b) w.
Proof.
  intros Hc (t0 & Ht0 & Hsrc & Hnet) Hb. unfold set_alive_finalizers. wp_step.
  eapply wlp_mono; [by apply getPod_named|]. intros [l|er] w1 ([Hst Hm] & Hc1 & Hl).
  2: { wp_step. unfold registered, marked, others_kept. rewrite Hst, Hm. split_and!; eauto. }
  specialize (Hl l eq_refl).
  set (f := fun t => set_finalizers (if alive then (Finalizers t ++ [GroupVersion_Identifier])%list else []) t).
  destruct (store_named (heap (daemon w1)) l ns name f) as [Hc2 Hl2]; [done..|].
  destruct (named_load _ _ _ _ Hl2) as [Lns2 Ln2].
  do 5 d_step. unfold topologyClient_Update. wp_step.
  apply wlp_cluster, wlp_wp, wp_call. intros [t' er] c' Hp. cbn [daemon set_daemon heap set_heap] in *.
  fold f in Hp. rewrite Ln2 in Hp. apply law_PUT in Hp. cbn in Hp. wp_step.
  unfold registered, marked, others_kept in *. cbn. rewrite Hm.
  destruct er as [er|]; [rewrite Hp, Hst; split_and!; eauto|].
  destruct Hp as (old & v & Hold & Hp). rewrite Hst in Hold. assert (old = t0) as -> by congruence.
  split_and!; [exact Hc2| | |done].
  - intros k Hk. by rewrite Hp, Hst, lookup_insert_ne.
  - eexists. rewrite Hp, lookup_insert_eq. split; [reflexivity|]. by cbn.
Qed.

(** A retried closure: an invariant of its failing runs, and what its runs
    give. *)
Lemma wlp_retry (fn : go (World K C) (option error)) (P : World K C -> Prop)
    (Q : option error -> World K C -> Prop) w :
  (forall w1, P w1 -> wlp fn (fun r w' => P w' /\ Q r w') w1) -> P w ->
  wlp (RetryOnConflict fn) Q w.
Proof.
  intros Hfn Hw. unfold wlp. pose proof (retry_attempts _ fn w) as Ha.
  apply (attempts_invariant fn P (fun x => match x with (Val r, w') => Q r w' | _ => True end) w) in Ha;
    [done| | |done].
  - intros w1 Hp1. pose proof (Hfn w1 Hp1) as Hr. unfold wlp in Hr. destruct (fn w1) as [[r| |] w2]; [apply Hr|done..].
  - intros w1 e w2 Hp1 Hr. exact (proj1 (wlp_run _ _ _ _ _ (Hfn w1 Hp1) Hr)).
Qed.

Lemma others_kept_trans w1 w2 w3 : others_kept pod w1 w2 -> others_kept pod w2 w3 -> others_kept pod w1 w3.
Proof. intros H12 H23 k Hk. rewrite H23 by done. by apply H12. Qed.

Lemma SetAlive_wlp w :
  cache_ok (heap (daemon w)) ->
  wlp (SetAlive pod)
    (fun r w' => r = accept ->
       marked w' pod /\ registered w' ns name (is_alive (pod_SrcIp pod) (pod_NetNs pod)) /\
       others_kept pod w w' /\ cache_ok (heap (daemon w'))) w.
Proof.
  intros Hc. unfold SetAlive. set (alive := is_alive _ _). cbv zeta. wp_step.
  eapply wlp_mono.
  { apply (wlp_retry _ (fun w' => cache_ok (heap (daemon w')) /\ others_kept pod w w')
      (fun r w' => cache_ok (heap (daemon w')) /\ others_kept pod w w' /\
         (r = None -> marked w' pod /\ registered w' ns name alive))); [|by split].
    intros w1 [Hc1 Ho1]. eapply wlp_mono; [by apply set_alive_status_wlp|].
    intros r w2 (Hc2 & Ho2 & Hm). pose proof (others_kept_trans _ _ _ Ho1 Ho2). by split_and!. }
  intros [er|] w1 (Hc1 & Ho1 & Hm1); [by wp_step|]. destruct (Hm1 eq_refl) as [Hma1 Hr1]. wp_step.
  pose (P := fun w' => marked w' pod /\ registered w' ns name alive /\ others_kept pod w w' /\ cache_ok (heap (daemon w'))).
  eapply wlp_mono.
  { apply (wlp_retry _ P (fun _ => P)); [|by split_and!]. intros w2 (Hm2 & Hr2 & Ho2 & Hc2).
    eapply wlp_mono; [by eapply set_alive_finalizers_wlp|]. intros r w3 (Hc3 & Ho3 & Hm3 & Hr3).
    pose proof (others_kept_trans _ _ _ Ho2 Ho3). unfold P. by split_and!. }
  intros r w2 HP. wp_step. intros _. exact HP.
Qed.

End Marking.
End Alive.

(** ** The simulated cluster *)

#[global] Instance sim_api : ApiServer SimC.State.
Proof.
  refine {| stored := SimC.db; owner _ := ("", "") |}.
  - intros ns name c t er c'. cbn. unfold SimC.Into. cbn.
    destruct (SimC.db c !! (ns, name)); intros [= <- <- <-]; by split.
  - intros ns name sub t c t' er c'. cbn. unfold SimC.Into. cbn.
    destruct (SimC.db c !! (ns, name)) as [old|]; intros [= <- <- <-]; [|done].
    destruct sub; [exists old, (ResourceVersion old)|exists old, (ResourceVersion t)]; by split.
  - intros ns name c r c' _ [= <- <-]. by split.
Defined.

(** ** Properties *)

(** C12: when [SetAlive] answers true, the API server's object of the pod says
    where the pod runs (or, for a pod that is going, that it runs nowhere), the
    topology manager holds the pod exactly when it is alive, and no other
    stored object was written; conflicts on the way were retried, also when
    the object was changed in the informer's cache before. *)
Theorem SetAlive_records {K C : Type} `{ApiServer C, RetryLaws} (pod : pb_Pod) (w w' : World K C) :
  pod_KubeNs pod <> "" -> no_slash (pod_KubeNs pod) = true -> cache_ok (heap (daemon w)) ->
  SetAlive pod w = (Val accept, w') ->
  marked w' pod /\
  registered w' (pod_KubeNs pod) (pod_Name pod) (is_alive (pod_SrcIp pod) (pod_NetNs pod)) /\
  others_kept pod w w' /\ cache_ok (heap (daemon w')).
Proof. intros Hns Hs Hc Hr. by apply (wlp_run _ _ _ _ _ (SetAlive_wlp pod Hns Hs w Hc) Hr). Qed.

Lemma SetAlive_records_witness :
  let w' := (SetAlive podA worldA).2 in
  marked w' podA /\ registered w' "default" "r1" true /\ others_kept podA worldA w'.
Proof.
  destruct (SetAlive_records podA worldA (SetAlive podA worldA).2) as (Hm & Hr & Ho & _).
  - discriminate.
  - reflexivity.
  - intros id t Hid. vm_compute in Hid. discriminate.
  - vm_compute. reflexivity.
  - by split_and!.
Defined.
