(* ===== verification/LinkLock.v ===== *)
(** * Interleaving of link locks

    Handlers of several daemons run concurrently and call each other: a
    handler that adds a link holds the link's lock on its own node while it
    makes its end, and [UpdateRemote] waits for [Update] on the other node,
    which takes the lock of the same link there.  The actions of a handler are
    its trace (see [Daemon.event]); a remote call is the locking and unlocking
    of the callee.  A step relation interleaves the threads, and the discipline
    proved of the handlers is enough to exclude a deadlock. *)

From stdpp Require Import base strings gmap list.
From Stdlib Require Import ZArith Lia.
From S2P Require Import Prelude GoStr Proto ApiV1 K8s Kernel SimKernel Qdisc LinkUtil.
From S2P Require Import Wire Daemon Handler HandlerProps.

#[local] Existing Instance ascii_tables.

Local Open Scope string_scope.

(** ** Threads *)

(** A lock: the daemon (by the address it is called at) and the link's UID. *)
Definition lock : Type := string * Z.

Inductive act := Acq (l : lock) | Rel (l : lock).

(** What a handler that runs on daemon [d] does to locks.  The callee of a
    remote call is [Update], which holds the lock of the VNI's UID on its own
    node. *)
Fixpoint acts (d : string) (t : list event) : list act :=
  match t with
  | [] => []
  | Locked uid :: t' => Acq (d, uid) :: acts d t'
  | Unlocked uid :: t' => Rel (d, uid) :: acts d t'
  | RemoteCall url p :: t' =>
      Acq (url, GetUidFromVni (rp_Vni p)) :: Rel (url, GetUidFromVni (rp_Vni p)) :: acts d t'
  end.

Record sys := mkSys { held : gset lock; threads : list (list act) }.

(** One thread takes a free lock, or releases one. *)
Inductive step : sys -> sys -> Prop :=
| step_acq h ts i l p :
    ts !! i = Some (Acq l :: p) -> l ∉ h ->
    step (mkSys h ts) (mkSys ({[l]} ∪ h) (<[i := p]> ts))
| step_rel h ts i l p :
    ts !! i = Some (Rel l :: p) ->
    step (mkSys h ts) (mkSys (h ∖ {[l]}) (<[i := p]> ts)).

Inductive reaches : sys -> sys -> Prop :=
| reaches_refl s : reaches s s
| reaches_step s s1 s2 : step s s1 -> reaches s1 s2 -> reaches s s2.

Definition finished (s : sys) : Prop := Forall (fun p => p = []) (threads s).

Definition deadlocked (s : sys) : Prop := ~ finished s /\ forall s', ~ step s s'.

(** The handlers as they start. *)
Definition start (hs : list (string * list event)) : sys :=
  mkSys ∅ ((fun h => acts h.1 h.2) <$> hs).

(** ** Invariant *)

(** A thread between critical sections, or inside one. *)
Inductive calm : list act -> Prop :=
| calm_nil : calm []
| calm_section l p : calm p -> calm (Acq l :: Rel l :: p).

Definition inside (l : lock) (p : list act) : Prop := exists q, p = Rel l :: q /\ calm q.

(** Every thread is calm or inside a section, and a held lock belongs to a
    thread that is inside its section. *)
Definition inv (s : sys) : Prop :=
  Forall (fun p => calm p \/ exists l, inside l p) (threads s) /\
  (forall l, l ∈ held s -> exists i p, threads s !! i = Some p /\ inside l p).

Lemma acts_calm d t : disciplined t -> calm (acts d t).
Proof. induction 1; cbn; by constructor. Qed.

Lemma inv_start hs : Forall (fun h => disciplined h.2) hs -> inv (start hs).
Proof.
  intros Hd. split; cbn.
  - apply Forall_fmap. eapply Forall_impl; [exact Hd|]. intros h Hh. left. by apply acts_calm.
  - intros l Hl. by apply not_elem_of_empty in Hl.
Qed.

Lemma inv_step s s' : inv s -> step s s' -> inv s'.
Proof.
  intros [Hall Hheld] Hs. destruct Hs as [h ts i l p Hi Hl|h ts i l p Hi]; cbn in *.
  - rewrite Forall_lookup in Hall. destruct (Hall i _ Hi) as [Hc|(l' & q & Hq & _)]; [|done].
    inversion Hc as [|l' q Hq]; subst.
    assert (i < length ts)%nat as Hlt by (by eapply lookup_lt_Some). split; cbn.
    + apply Forall_insert; [by apply Forall_lookup|]. right. by exists l, q.
    + intros k [->%elem_of_singleton|Hk]%elem_of_union.
      * exists i, (Rel l :: q). split; [by apply list_lookup_insert_eq|by exists q].
      * destruct (Hheld k Hk) as (j & pj & Hj & Hin). exists j, pj. split; [|done].
        rewrite list_lookup_insert_ne; [done|]. intros <-. rewrite Hi in Hj. injection Hj as <-.
        by destruct Hin as (q' & ? & _).
  - rewrite Forall_lookup in Hall.
    destruct (Hall i _ Hi) as [Hc|(l' & q & [= <- <-] & Hq)]; [by inversion Hc|]. split; cbn.
    + apply Forall_insert; [by apply Forall_lookup|]. by left.
    + intros k [Hk Hkl]%elem_of_difference. destruct (Hheld k Hk) as (j & pj & Hj & Hin).
      exists j, pj. split; [|done]. rewrite list_lookup_insert_ne; [done|]. intros <-.
      rewrite Hi in Hj. injection Hj as <-. destruct Hin as (q' & [= -> _] & _). set_solver.
Qed.

Lemma inv_reaches s s' : inv s -> reaches s s' -> inv s'.
Proof. intros Hi Hr. induction Hr; [done|]. eauto using inv_step. Qed.

(** Under the invariant some thread can always move. *)
Lemma inv_progress s : inv s -> ~ finished s -> exists s', step s s'.
Proof.
  intros [Hall Hheld] Hf. destruct s as [h ts]; cbn in *.
  destruct (decide (Exists (fun p : list act => p <> []) ts)) as [He|He].
  2: { exfalso. apply Hf. unfold finished. cbn. apply not_Exists_Forall in He; [|solve_decision].
       eapply Forall_impl; [exact He|]. intros p Hp. by destruct p; [|destruct Hp]. }
  apply Exists_exists in He as (p & Hin & Hp). apply list_elem_of_lookup in Hin as [i Hi].
  destruct p as [|[l|l] p]; [done| |by eexists; eapply step_rel].
  destruct (decide (l ∈ h)) as [Hl|Hl]; [|by eexists; eapply step_acq].
  destruct (Hheld l Hl) as (j & pj & Hj & q & -> & _). by eexists; eapply step_rel.
Qed.

(** Actions still to be done. *)
Fixpoint total (ts : list (list act)) : nat :=
  match ts with
  | [] => 0
  | p :: ts' => length p + total ts'
  end.

Definition remaining (s : sys) : nat := total (threads s).

Lemma total_insert (ts : list (list act)) i p q :
  ts !! i = Some p -> total (<[i := q]> ts) + length p = total ts + length q.
Proof.
  revert i. induction ts as [|t ts IH]; intros [|i] Hi; [done..| |].
  - injection Hi as ->. cbn. lia.
  - specialize (IH i Hi). change (<[S i := q]> (t :: ts)) with (t :: <[i := q]> ts). cbn [total]. lia.
Qed.

Lemma step_remaining s s' : step s s' -> remaining s = S (remaining s').
Proof.
  unfold remaining. destruct 1 as [h ts i l p Hi _|h ts i l p Hi]; cbn [threads];
    pose proof (total_insert ts i _ p Hi) as Hs; cbn in Hs; lia.
Qed.

(** A disciplined system never stops early, and each step brings it nearer to
    its end. *)
Lemma disciplined_progress (hs : list (string * list event)) (s : sys) :
  Forall (fun h => disciplined h.2) hs ->
  reaches (start hs) s ->
  ~ deadlocked s /\ (finished s \/ exists s', step s s' /\ remaining s = S (remaining s')).
Proof.
  intros Hd Hr. assert (inv s) as Hi by (eapply inv_reaches; [by apply inv_start|done]).
  assert (finished s \/ exists s', step s s') as Hp.
  { destruct (decide (Forall (fun p : list act => p = []) (threads s))); [by left|right; by apply inv_progress]. }
  split.
  - intros [Hf Hno]. destruct Hp as [|[s' Hs']]; [done|by apply (Hno s')].
  - destruct Hp as [|[s' Hs']]; [by left|right]. exists s'. split; [done|by apply step_remaining].
Qed.

(** ** The handlers' runs *)

Section Runs.
  Context {K C : Type} `{UnicodeTables, ProtoLib, Kernel K, Pcap K, MapIter K}
    `{RestClient C, GrpcClient C, Informer C, RetryLaws}.

(** [t] is what a run of [m] that returns adds to the trace. *)
Definition traces {A} (m : go (World K C) A) (t : list event) : Prop :=
  exists w a w', m w = (Val a, w') /\ the_trace w' = (the_trace w ++ t)%list.

(** The requests a daemon serves that concern links and pods. *)
Inductive served (t : list event) : Prop :=
| served_AddLinks ctx q : traces (AddLinks ctx q) t -> served t
| served_DelLinks ctx q : traces (DelLinks ctx q) t -> served t
| served_UpdateLinks ctx q : traces (UpdateLinks ctx q) t -> served t
| served_SetupPod ctx q : traces (SetupPod ctx q) t -> served t
| served_DestroyPod ctx q : traces (DestroyPod ctx q) t -> served t
| served_Update ctx p : traces (Update ctx p) t -> served t.

Lemma orderly_traces {A} (m : go (World K C) A) t : orderly m -> traces m t -> disciplined t.
Proof.
  intros Ho (w & a & w' & Hr & Ht). destruct (wlp_run _ _ _ _ _ (Ho w) Hr) as (t' & Ht' & Hd).
  unfold the_trace in Ht. rewrite Ht in Ht'. by apply app_inv_head in Ht' as ->.
Qed.

Lemma served_disciplined t : served t -> disciplined t.
Proof.
  intros [ctx q Ht|ctx q Ht|ctx q Ht|ctx q Ht|ctx q Ht|ctx p Ht]; eapply orderly_traces; try exact Ht;
    eauto using orderly_silent, orderly_AddLinks, orderly_SetupPod, orderly_Update,
      silent_DelLinks, silent_UpdateLinks, silent_DestroyPod.
Qed.

(** The actions of a remote call are those of the [Update] it runs. *)
Lemma acts_of_callee d url p ctx t : traces (Update ctx p) t -> acts d [RemoteCall url p] = acts url t.
Proof.
  intros (w & a & w' & Hr & Ht). pose proof (wlp_run _ _ _ _ _ (Update_trace ctx p w) Hr) as Hu.
  cbv beta in Hu. rewrite Ht in Hu. by apply app_inv_head in Hu as ->.
Qed.

End Runs.

(** ** Properties *)

(** C9: whatever requests any number of daemons serve at the same time, and
    however they are interleaved, a deadlock on the link locks is not
    reachable, and every step brings the system nearer to the state in which
    all requests are served. *)
Theorem daemons_deadlock_free {K C : Type} `{UnicodeTables, ProtoLib, Kernel K, Pcap K, MapIter K}
    `{RestClient C, GrpcClient C, Informer C, RetryLaws}
    (hs : list (string * list event)) (s : sys) :
  Forall (fun h => served (K := K) (C := C) h.2) hs ->
  reaches (start hs) s ->
  ~ deadlocked s /\ (finished s \/ exists s', step s s' /\ remaining s = S (remaining s')).
Proof.
  intros Hs. apply disciplined_progress. eapply Forall_impl; [exact Hs|]. intros h. apply served_disciplined.
Qed.

(** The actions of adding a remote link, with the lock kept until the call
    has returned. *)
Definition late_unlock_trace (uid : Z) (peer : string) (p : pb_RemotePod) : list event :=
  [Locked uid; RemoteCall peer p; Unlocked uid].

Definition payload (uid : Z) : pb_RemotePod := mk_pb_RemotePod "" "" "" "" "" (GetVniFromUid uid) None "".

Definition addA_trace : list event :=
  [Locked 1; Unlocked 1; RemoteCall (remote_url podB) (remote_payload podA podB (Link_ToProto link12))].

Definition updateB_trace : list event := [Locked 1; Unlocked 1].

Lemma daemons_deadlock_free_witness :
  ~ deadlocked (start [("a", addA_trace); ("b", updateB_trace)]).
Proof.
  apply (daemons_deadlock_free (K := Sim.State) (C := SimC.State) [("a", addA_trace); ("b", updateB_trace)]).
  - repeat constructor.
    + apply (served_AddLinks _ [] (mk_pb_LinksBatchQuery (Some podA) [Link_ToProto link12])).
      exists worldA. eexists _, _. split; vm_compute; reflexivity.
    + apply (served_Update _ [] (remote_payload podA podB (Link_ToProto link12))).
      exists worldB. eexists _, _. split; vm_compute; reflexivity.
  - apply reaches_refl.
Defined.

(** Releasing the lock before the remote call is needed: if it were held
    until the call has returned, two daemons that add the same link (with a
    UID of 32 bits) at the same time could block each other forever. *)
Theorem late_unlock_deadlocks (uid : Z) (a b : string) :
  in_int 32 uid -> a <> b ->
  exists s, reaches (start [(a, late_unlock_trace uid b (payload uid)); (b, late_unlock_trace uid a (payload uid))]) s
            /\ deadlocked s.
Proof.
  intros Hu Hab. unfold start, late_unlock_trace, payload; cbn [fmap list_fmap fst snd acts rp_Vni].
  rewrite GetUid_GetVni, wrapS_small by (done || lia).
  exists (mkSys ({[(b, uid)]} ∪ ({[(a, uid)]} ∪ ∅))
     [[Acq (b, uid); Rel (b, uid); Rel (a, uid)]; [Acq (a, uid); Rel (a, uid); Rel (b, uid)]]).
  split.
  - eapply reaches_step; [eapply (step_acq _ _ 0); [reflexivity|set_solver]|].
    eapply reaches_step; [eapply (step_acq _ _ 1); [reflexivity|]|apply reaches_refl].
    intros [[= Hba]%elem_of_singleton|Hin]%elem_of_union; [congruence|set_solver].
  - split; [intros Hf; by inversion Hf|]. intros s' Hs.
    inversion Hs as [h ts i l p Hi Hl|h ts i l p Hi]; subst; destruct i as [|[|i]]; cbn in Hi; simplify_eq; set_solver.
Qed.

Lemma late_unlock_deadlocks_witness :
  exists s, reaches (start [("a", late_unlock_trace 1 "b" (payload 1)); ("b", late_unlock_trace 1 "a" (payload 1))]) s
            /\ deadlocked s.
Proof. apply (late_unlock_deadlocks 1 "a" "b"); [by split|discriminate]. Defined.
