(* ===== verification/Plugin.v ===== *)
(** * The CNI plugin, its installation, and the physical-host tool

    [plugin/kube_dtn.go] (ADD and DEL), [daemon/cni/cni.go] (installing the
    plugin's configuration) and [cmd/main.go] (the tool that makes the physical
    host's end of a link).  JSON, libcni, files and the command line are
    library code: the class [CniLib]. *)

From stdpp Require Import base strings gmap list sorting.
From Stdlib Require Import ZArith Lia Ascii.
From S2P Require Import Prelude GoStr GoNum GoNet Proto ApiV1 Kernel SimKernel Qdisc.
From S2P Require Import LinkUtil Vxlan.

Local Open Scope string_scope.

(** ** Data *)

(** What an [interface{}] of a configuration holds: decoded JSON, or a
    [*types.NetConf] of which only these two fields are set. *)
Inductive json :=
| JNull | JBool (b : bool) | JNum (s : string) | JStr (s : string)
| JArr (l : list json) | JObj (l : list (string * json))
| JNetConf (Type_ Name_ : string).

(** The fields of [common.NetConf] the plugin uses. *)
Record NetConf := mkNetConf { CNIVersion : string; RawPrevResult : option json; PrevResult : option json }.

(** [current.Result], opaque but for its text. *)
Definition CniResult : Type := option json.

Record K8sArgs := mkK8sArgs { K8S_POD_NAME : string; K8S_POD_NAMESPACE : string }.

Record CmdArgs := mkCmdArgs { StdinData : string; Args : string; Netns : string }.

(** [libcni.NetworkConfigList] and [libcni.NetworkConfig]: what is read. *)
Record ConfList := mkConfList { cl_Plugins : nat; cl_Bytes : string }.
Record Conf := mkConf { conf_Type : string; conf_Bytes : string }.

Class CniLib (E : Type) := {
  json_NetConf : string -> result NetConf;
  version_ParsePrevResult : NetConf -> result NetConf;
  current_NewResult : NetConf -> result CniResult;
  types_LoadArgs : string -> result K8sArgs;
  types_PrintResult : CniResult -> string -> eff E (option error);
  libcni_ConfFiles : string -> list string -> eff E (result (list string));
  libcni_ConfListFromFile : string -> eff E (result ConfList);
  libcni_ConfFromFile : string -> eff E (result Conf);
  libcni_ConfListFromConf : Conf -> eff E (result ConfList);
  (** [json.Unmarshal] into a map: what was decoded, and the error. *)
  json_Unmarshal : string -> gmap string json * option error;
  json_MarshalIndent : gmap string json -> result string;
  os_Getenv : string -> eff E string;
  os_WriteFile : string -> string -> eff E (option error);
  os_Remove : string -> eff E (option error);
  os_ReadFile : string -> eff E (result string);
  (** [os.OpenFile] of a log file that is appended to, and its [Close], which
      fails on nil. *)
  os_OpenAppend : string -> eff E (result Z);
  file_Close : option Z -> eff E (option error);
  (** [skel.PluginMainWithError(add, check, del, ...)]: reads the command and
      calls one of the three. *)
  skel_PluginMainWithError :
    (CmdArgs -> go E (option error)) -> (CmdArgs -> option error) -> (CmdArgs -> go E (option error)) ->
    go E (option error)
}.

(** ** The plugin *)

Section Plugin.
  Context {E : Type} `{CniLib E, GrpcClient E}.
  Local Open Scope go_scope.

Definition loadConf (bytes : string) : result (NetConf * CniResult) :=
  match json_NetConf bytes with
  | Err e => Err (errorf ("failed to load netconf: " ++ err_msg e))
  | Ok n =>
      match RawPrevResult n with
      | None => Ok (n, None)
      | Some _ =>
          match version_ParsePrevResult n with
          | Err e => Err (errorf ("could not parse prevResult: " ++ err_msg e))
          | Ok n =>
              match current_NewResult n with
              | Err e => Err (errorf ("could not convert result to current version: " ++ err_msg e))
              | Ok result => Ok (n, result)
              end
          end
      end
  end.

Definition cmdAdd (args : CmdArgs) : go E (option error) :=
  match loadConf (StdinData args) with
  | Err e => ret (Some e)
  | Ok (n, result) =>
      match types_LoadArgs (Args args) with
      | Err e => ret (Some e)
      | Ok cniArgs =>
          err <- call (grpc_Dial LocalDaemon) ;;
          match err with
          | Some e => ret (Some e)
          | None =>
              '(ok, err) <- localClient_SetupPod LocalDaemon
                              (mk_pb_SetupPodQuery (K8S_POD_NAME cniArgs) (K8S_POD_NAMESPACE cniArgs) (Netns args)) ;;
              match err with
              | Some e => ret (Some e)
              | None =>
                  match ok with
                  | None => panic "invalid memory address or nil pointer dereference"
                  | Some r =>
                      if negb (Response r) then ret None
                      else call (types_PrintResult result (CNIVersion n))
                  end
              end
          end
      end
  end.

Definition cmdDel (args : CmdArgs) : go E (option error) :=
  match types_LoadArgs (Args args) with
  | Err e => ret (Some e)
  | Ok cniArgs =>
      match loadConf (StdinData args) with
      | Err e => ret (Some e)
      | Ok (n, result) =>
          err <- call (grpc_Dial LocalDaemon) ;;
          match err with
          | Some e => ret (Some e)
          | None =>
              '(ok, err) <- localClient_DestroyPod LocalDaemon
                              (mk_pb_PodQuery (K8S_POD_NAME cniArgs) (K8S_POD_NAMESPACE cniArgs)) ;;
              match ok with
              | None => panic "invalid memory address or nil pointer dereference"
              | Some r =>
                  if negb (Response r) then
                    match err with
                    | Some e => ret (Some e)
                    | None => call (types_PrintResult result (CNIVersion n))
                    end
                  else ret None
              end
          end
      end
  end.

Definition cmdCheck (args : CmdArgs) : option error := Some (errorf "not implemented").

(** The package variable [interNodeLinkType] after the call. *)
Definition SetInterNodeLinkType (interNodeLinkType : string) : go E string :=
  r <- call (os_ReadFile "/etc/cni/net.d/kubedtn-inter-node-link-type") ;;
  match r with
  | Err _ => ret interNodeLinkType
  | Ok b => ret b
  end.

Definition plugin_main : go E unit :=
  r <- call (os_OpenAppend "/var/log/kubedtn-cni.log") ;;
  let fp := match r with Ok f => Some f | Err _ => None end in
  interNodeLinkType <- SetInterNodeLinkType INTER_NODE_LINK_VXLAN ;;
  e <- skel_PluginMainWithError cmdAdd cmdCheck cmdDel ;;
  let retCode := match e with Some _ => 1%Z | None => 0%Z end in
  _err <- call (file_Close fp) ;;
  exit retCode.

End Plugin.

(** ** Installing the configuration *)

Definition defaultNetDir : string := "/etc/cni/net.d".
Definition defaultCNIFile : string := "00-kubedtn.conflist".
Definition interNodeLinkConf : string := "/etc/cni/net.d/kubedtn-inter-node-link-type".
Definition defaultPluginName : string := "kubedtn".
Definition kubedtnCNIPath : string := defaultNetDir ++ "/" ++ defaultCNIFile.

(** [%q] of a string without special characters. *)
Definition quote (s : string) : string := String "034"%char (s ++ String "034"%char EmptyString).

(** [sort.Strings], by bytes. *)
Fixpoint insert_sorted (x : string) (l : list string) : list string :=
  match l with
  | [] => [x]
  | y :: l' => if String.leb x y then x :: l else y :: insert_sorted x l'
  end.

Fixpoint sort_Strings (l : list string) : list string :=
  match l with
  | [] => []
  | x :: l' => insert_sorted x (sort_Strings l')
  end.

Section Install.
  Context {E : Type} `{CniLib E}.
  Local Open Scope go_scope.

(** One configuration file: the list it gives, [None] when it is skipped. *)
Definition load_file (confFile : string) : go E (option ConfList) :=
  confList <-
    (if HasSuffix confFile ".conflist" then
       r <- call (libcni_ConfListFromFile confFile) ;;
       match r with Err _ => ret None | Ok confList => ret (Some confList) end
     else
       r <- call (libcni_ConfFromFile confFile) ;;
       match r with
       | Err _ => ret None
       | Ok conf =>
           if String.eqb (conf_Type conf) "" then ret None
           else
             r <- call (libcni_ConfListFromConf conf) ;;
             match r with Err _ => ret None | Ok confList => ret (Some confList) end
       end) ;;
  match confList with
  | None => ret None
  | Some confList => if (cl_Plugins confList =? 0)%nat then ret None else ret (Some confList)
  end.

(** The loop over the sorted files. *)
Fixpoint first_valid (confFiles : list string) : go E (gmap string json * option error) :=
  match confFiles with
  | [] => ret (∅, Some (errorf ("no valid network configurations found in " ++ quote defaultNetDir)))
  | confFile :: rest =>
      r <- load_file confFile ;;
      match r with
      | Some confList => ret (json_Unmarshal (cl_Bytes confList))
      | None => first_valid rest
      end
  end.

Definition conf_candidates (files : list string) : list string :=
  sort_Strings (List.filter (fun f => negb (Contains f "kubedtn")) files).

Definition loadConfList : go E (gmap string json * option error) :=
  files <- call (libcni_ConfFiles defaultNetDir [".conf"; ".conflist"; ".json"]) ;;
  match files with
  | Err e => ret (∅, Some e)
  | Ok [] => ret (∅, Some (errorf ("no net configurations found in " ++ defaultNetDir)))
  | Ok files => first_valid (conf_candidates files)
  end.

(** Both files are written with the mode 06444. *)
Definition saveConfList (m : gmap string json) : go E (option error) :=
  match json_MarshalIndent m with
  | Err e => ret (Some e)
  | Ok bytes => call (os_WriteFile kubedtnCNIPath bytes)
  end.

Definition saveInterNodeLinkConf : go E (option error) :=
  v <- call (os_Getenv "INTER_NODE_LINK_TYPE") ;;
  call (os_WriteFile interNodeLinkConf v).

Definition removeInterNodeLinkConf : go E (option error) :=
  err <- call (os_Remove interNodeLinkConf) ;;
  match err with
  | Some e => ret (Some (errorf ("failed to remove " ++ interNodeLinkConf ++ ": " ++ err_msg e)))
  | None => ret None
  end.

(** The entry that is appended. *)
Definition kubedtn_plugin : json := JNetConf defaultPluginName defaultPluginName.

Definition Init : go E (option error) :=
  '(conf, err) <- loadConfList ;;
  match err with
  | Some e => ret (Some e)
  | None =>
      match conf !! "plugins" with
      | Some (JArr plugins) =>
          let conf := <["plugins" := JArr (plugins ++ [kubedtn_plugin])%list]>
                        (<["cniVersion" := JStr "0.3.0"]> conf) in
          err <- saveInterNodeLinkConf ;;
          match err with
          | Some e => ret (Some e)
          | None => saveConfList conf
          end
      | _ => panic "interface conversion: interface {} is not []interface {}"
      end
  end.

Definition Cleanup : go E unit :=
  _err <- call (os_Remove kubedtnCNIPath) ;;
  _err <- removeInterNodeLinkConf ;;
  ret tt.

End Install.

(** ** The physical host's tool *)

(** The configuration file and the command line. *)
Record Query := mkQuery { q_Link : pb_Link; q_RemoteIP : string }.

Class CmdLib (E : Type) := {
  (** [flag.Parse()]: the values of -i, -a and -f, empty by default; it leaves
      the process when the arguments are wrong. *)
  flag_cmd : go E (string * string * string);
  cmd_ReadFile : string -> eff E (result string);
  yaml_Unmarshal : string -> result Query
}.

Section Cmd.
  Context {E : Type} `{UnicodeTables, ProtoLib, Kernel E}.
  Local Open Scope go_scope.

(** [srcIntf] is accepted and not used. *)
Definition cmd_addLink (link : pb_Link) (srcIntf peerVtep : string) : go E (option error) :=
  let vxlanSpec :=
    {| vs_NetNs := "";
       vs_IntfName := pb_PeerIntf link;
       vs_IntfIp := pb_PeerIp link;
       vs_PeerVtep := peerVtep;
       vs_Vni := GetVniFromUid (pb_Uid link);
       vs_SrcIp := "";
       vs_SrcIntf := "" |} in
  err <- SetupVxLan (WithLogger []) vxlanSpec (pb_Properties link) ;;
  match err with
  | Some e => ret (Some e)
  | None => ret None
  end.

(** [main] after the file was read: [intf] and [ip] are the flags;
    the results of the two lookups are (IP, interface) and are assigned to
    (interface, IP). *)
Definition cmd_link (intf ip : string) (link : pb_Link) (remoteIP : string) : go E (option error) :=
  if negb (HasPrefix (pb_PeerPod link) "physical/") then exit 1
  else
    let ip := TrimPrefix (pb_PeerPod link) "physical/" in
    src <-
      (if String.eqb intf "" && String.eqb ip "" then
         r <- GetDefaultVxlanSource ;;
         match r with
         | Err e => ret (Err e)
         | Ok (a, b) => ret (Ok (a, b))
         end
       else if String.eqb intf "" then
         r <- GetVxlanSource ip ;;
         match r with
         | Err e => ret (Err e)
         | Ok (a, _) => ret (Ok (a, ip))
         end
       else ret (Ok (intf, ip))) ;;
    match src with
    | Err e => exit 1
    | Ok (intf, ip) =>
        if String.eqb intf "" || String.eqb ip "" then exit 1
        else cmd_addLink link intf remoteIP
    end.

(** [log.Fatalf] leaves the process with code 1; an error of [addLink] is
    printed. *)
Definition cmd_main `{!CmdLib E} : go E unit :=
  '(intf, ip, path) <- flag_cmd ;;
  if String.eqb path "" then exit 1
  else
    file <- call (cmd_ReadFile path) ;;
    match file with
    | Err _ => exit 1
    | Ok file =>
        match yaml_Unmarshal file with
        | Err _ => exit 1
        | Ok query =>
            _err <- cmd_link intf ip (q_Link query) (q_RemoteIP query) ;;
            ret tt
        end
    end.

End Cmd.

(** ** Lemmas *)

Lemma String_leb_total a b : String.leb a b = false -> String.leb b a = true.
Proof.
  unfold String.leb. rewrite (String.compare_antisym a b). by destruct (String.compare b a).
Qed.

Lemma insert_sorted_perm x l : insert_sorted x l ≡ₚ x :: l.
Proof.
  induction l as [|y l IH]; cbn; [done|]. destruct (String.leb x y); [done|].
  rewrite IH. apply Permutation_swap.
Qed.

Lemma sort_Strings_perm l : sort_Strings l ≡ₚ l.
Proof. induction l as [|x l IH]; cbn; [done|]. by rewrite insert_sorted_perm, IH. Qed.

Definition str_le (a b : string) : Prop := String.leb a b = true.

Lemma insert_sorted_sorted x l : Sorted str_le l -> Sorted str_le (insert_sorted x l).
Proof.
  induction l as [|y l IH]; intros Hs; cbn; [by repeat constructor|].
  destruct (String.leb x y) eqn:Hxy; [by constructor; [|constructor]|].
  inversion Hs as [|? ? Hl Hhd]; subst. constructor; [by apply IH|].
  destruct l as [|z l]; cbn; [constructor; by apply String_leb_total|].
  destruct (String.leb x z); constructor; [by apply String_leb_total|by inversion Hhd].
Qed.

Lemma sort_Strings_sorted l : Sorted str_le (sort_Strings l).
Proof. induction l as [|x l IH]; cbn; [constructor|by apply insert_sorted_sorted]. Qed.

Lemma str_le_trans : Transitive str_le.
Proof.
  unfold str_le, String.leb. intros a. induction a as [|x a IH]; intros [|y b] [|z c]; cbn; try done.
  unfold Ascii.compare. specialize (IH b c).
  destruct (N.compare_spec (N_of_ascii x) (N_of_ascii y)) as [Hxy|Hxy|Hxy];
    destruct (N.compare_spec (N_of_ascii y) (N_of_ascii z)) as [Hyz|Hyz|Hyz];
    destruct (N.compare_spec (N_of_ascii x) (N_of_ascii z)) as [Hxz|Hxz|Hxz]; try done; lia.
Qed.

(** Sorting depends only on which strings there are, and how often. *)
Lemma sort_Strings_same l1 l2 : l1 ≡ₚ l2 -> sort_Strings l1 = sort_Strings l2.
Proof.
  intros Hp. assert (AntiSymm eq str_le) by (intros a b; apply String.leb_antisym).
  apply (StronglySorted_unique str_le); [apply Sorted_StronglySorted, sort_Strings_sorted; apply str_le_trans..|].
  by rewrite !sort_Strings_perm.
Qed.

Lemma conf_candidates_elem l p : p ∈ conf_candidates l <-> p ∈ l /\ Contains p "kubedtn" = false.
Proof.
  unfold conf_candidates. by rewrite sort_Strings_perm, !list_elem_of_In, filter_In, negb_true_iff.
Qed.

Lemma conf_candidates_same l1 l2 :
  NoDup l1 -> NoDup l2 -> (forall p, Contains p "kubedtn" = false -> p ∈ l1 <-> p ∈ l2) ->
  conf_candidates l1 = conf_candidates l2.
Proof.
  intros N1 N2 Hs. apply sort_Strings_same, NoDup_Permutation.
  1, 2: by apply NoDup_ListNoDup, List.NoDup_filter, NoDup_ListNoDup.
  intros p. rewrite !list_elem_of_In, !filter_In, <- !list_elem_of_In, !negb_true_iff. naive_solver.
Qed.

Section PluginProofs.
  Context {E : Type} `{CniLib E}.

(** The files before the chosen one were all skipped. *)
Inductive skipped : list string -> E -> E -> Prop :=
| skipped_nil e : skipped [] e e
| skipped_cons f fs e e1 e2 :
    load_file f e = (Val None, e1) -> skipped fs e1 e2 -> skipped (f :: fs) e e2.

Lemma first_valid_picks fs e conf e' :
  first_valid fs e = (Val (conf, None), e') ->
  exists pre f post cl e1, fs = (pre ++ f :: post)%list /\ skipped pre e e1 /\
    load_file f e1 = (Val (Some cl), e') /\ json_Unmarshal (cl_Bytes cl) = (conf, None).
Proof.
  revert e. induction fs as [|f fs IH]; intros e Hr; cbn [first_valid] in Hr; [by inversion Hr|].
  apply bind_Val in Hr as (r & e1 & Hf & Hr). destruct r as [cl|].
  - injection Hr as Hj ->. exists [], f, fs, cl, e. split_and!; [done|constructor|done|done].
  - destruct (IH e1 Hr) as (pre & g & post & cl & e2 & -> & Hs & Hl & Hj).
    exists (f :: pre), g, post, cl, e2. split_and!; [done|by econstructor|done|done].
Qed.

End PluginProofs.

(** ** Properties *)

(** Installing starts from the first usable configuration: when
    [loadConfList] succeeds, the configuration comes from a file of the
    directory that is not one of this project's own, and every candidate that
    sorts before it (the candidates are sorted, and are exactly the foreign
    files) was tried and skipped. *)
Theorem loadConfList_first_valid `{CniLib E} (e e' : E) (conf : gmap string json) :
  loadConfList e = (Val (conf, None), e') ->
  exists files e0 pre f post cl e1,
    libcni_ConfFiles defaultNetDir [".conf"; ".conflist"; ".json"] e = (Ok files, e0) /\
    conf_candidates files = (pre ++ f :: post)%list /\
    Sorted str_le (conf_candidates files) /\
    (forall g, In g (conf_candidates files) <-> In g files /\ Contains g "kubedtn" = false) /\
    skipped pre e0 e1 /\ load_file f e1 = (Val (Some cl), e') /\
    json_Unmarshal (cl_Bytes cl) = (conf, None).
Proof.
  unfold loadConfList. intros Hr. apply bind_Val in Hr as (files & e0 & Hf & Hr).
  unfold call in Hf. destruct (libcni_ConfFiles _ _ e) as [r e2] eqn:Hl. injection Hf as -> ->.
  destruct files as [[|f0 files]|er]; [by inversion Hr| |by inversion Hr].
  apply first_valid_picks in Hr as (pre & f & post & cl & e1 & Hc & Hs & Hlf & Hj).
  exists (f0 :: files), e0, pre, f, post, cl, e1. split_and!; try done.
  - apply sort_Strings_sorted.
  - intros g. rewrite <- !list_elem_of_In. apply conf_candidates_elem.
Qed.

(** [cmdAdd] returns on every input; it never dereferences a missing
    response. *)
Theorem cmdAdd_total `{CniLib E, GrpcClient E} (args : CmdArgs) (e : E) :
  exists r e', cmdAdd args e = (Val r, e').
Proof.
  enough (wp (cmdAdd args) (fun _ _ => True) e) as Hw.
  { apply wp_exists in Hw as (r & e' & Hr & _). eauto. }
  unfold cmdAdd.
  destruct (loadConf _) as [[n result]|er]; [|by wp_step].
  destruct (types_LoadArgs _) as [cniArgs|er]; [|by wp_step].
  wp_call as [er|] e1 C1; [by wp_step|].
  wp_step. unfold localClient_SetupPod, stub. wp_call as r e2 C2.
  destruct r as [resp|er]; repeat wp_step; done.
Qed.

(** When the daemon's DestroyPod fails with a gRPC error (its way to report
    every failure), [cmdDel] panics: it reads the response before the error,
    and a failed call has no response. *)
Theorem cmdDel_panics_on_error `{CniLib E, GrpcClient E} (args : CmdArgs) (k : K8sArgs)
    (n : NetConf) (result : CniResult) (er : error) (e e1 e2 : E) :
  types_LoadArgs (Args args) = Ok k -> loadConf (StdinData args) = Ok (n, result) ->
  grpc_Dial LocalDaemon e = (None, e1) ->
  grpc_Invoke LocalDaemon "/proto.v1.Local/DestroyPod"
    (ReqDestroyPod (mk_pb_PodQuery (K8S_POD_NAME k) (K8S_POD_NAMESPACE k))) e1 = (Err er, e2) ->
  cmdDel args e = (Panic "invalid memory address or nil pointer dereference", e2).
Proof.
  intros Ha Hc Hd Hi. unfold cmdDel. rewrite Ha, Hc.
  unfold localClient_DestroyPod, stub, bind, call, ret. by rewrite Hd, Hi.
Qed.

(** The flags of the physical host's tool have no effect: whatever
    interface is given, and whatever local address, the tool makes the same
    tunnel, from the interface of the default route. *)
Theorem cmd_link_ignores_flags `{UnicodeTables, ProtoLib, Kernel E} (intf intf' ip ip' : string)
    (link : pb_Link) (remoteIP : string) (e : E) :
  intf <> "" -> intf' <> "" ->
  cmd_link intf ip link remoteIP e = cmd_link intf' ip' link remoteIP e.
Proof.
  intros Hi Hi'. unfold cmd_link. destruct (negb _); [done|].
  apply String.eqb_neq in Hi, Hi'. rewrite Hi, Hi'. cbn [andb]. unfold bind, ret. by rewrite Hi, Hi'.
Qed.

(** ** A library for the witnesses: one foreign configuration file *)

Definition sample_conf : gmap string json := {[ "plugins" := JArr [JObj [("type", JStr "bridge")]] ]}.

Definition sample_lib : CniLib unit :=
  {| json_NetConf s := Ok (mkNetConf "0.3.0" None None);
     version_ParsePrevResult n := Ok n;
     current_NewResult n := Ok None;
     types_LoadArgs s := Ok (mkK8sArgs "r1" "default");
     types_PrintResult r v e := (None, e);
     libcni_ConfFiles dir exts e :=
       (Ok ["/etc/cni/net.d/10-b.conflist"; "/etc/cni/net.d/05-a.conflist"; "/etc/cni/net.d/00-kubedtn.conflist"], e);
     libcni_ConfListFromFile f e :=
       (if Contains f "05-a" then Err (errorf "bad file") else Ok (mkConfList 1 "conf"), e);
     libcni_ConfFromFile f e := (Err (errorf "no file"), e);
     libcni_ConfListFromConf c e := (Err (errorf "no file"), e);
     json_Unmarshal s := (sample_conf, None);
     json_MarshalIndent m := Ok "text";
     os_Getenv v e := ("VXLAN", e);
     os_WriteFile p b e := (None, e);
     os_Remove p e := (None, e);
     os_ReadFile p e := (Ok "GRPC", e);
     os_OpenAppend p e := (Ok 3%Z, e);
     file_Close f e := (None, e);
     skel_PluginMainWithError add check del := add (mkCmdArgs "" "" "/ns/a") |}.

Lemma loadConfList_first_valid_witness :
  exists files e0 pre f post cl e1,
    @libcni_ConfFiles _ sample_lib defaultNetDir [".conf"; ".conflist"; ".json"] tt = (Ok files, e0) /\
    conf_candidates files = (pre ++ f :: post)%list /\
    Sorted str_le (conf_candidates files) /\
    (forall g, In g (conf_candidates files) <-> In g files /\ Contains g "kubedtn" = false) /\
    @skipped _ sample_lib pre e0 e1 /\ @load_file _ sample_lib f e1 = (Val (Some cl), tt) /\
    @json_Unmarshal _ sample_lib (cl_Bytes cl) = (sample_conf, None).
Proof. apply (@loadConfList_first_valid _ sample_lib tt tt sample_conf). vm_compute. reflexivity. Defined.

(** A daemon that fails. *)
Definition failing : GrpcClient unit :=
  {| grpc_Dial target e := (None, e);
     grpc_Invoke target method req e := (Err (errorf "could not remove grpc wire"), e) |}.

Lemma cmdDel_panics_on_error_witness :
  @cmdDel _ sample_lib failing (mkCmdArgs "" "" "/ns/a") tt
  = (Panic "invalid memory address or nil pointer dereference", tt).
Proof.
  apply (@cmdDel_panics_on_error _ sample_lib failing (mkCmdArgs "" "" "/ns/a") (mkK8sArgs "r1" "default")
    (mkNetConf "0.3.0" None None) None (errorf "could not remove grpc wire") tt tt tt); reflexivity.
Defined.

Lemma cmd_link_ignores_flags_witness :
  let link := mk_pb_Link "physical/192.168.0.9" "eth1" "eth1" "" "" 7 None "" "" in
  @cmd_link _ ascii_tables _ _ "ens3" "" link "192.168.0.1" sample_node
  = @cmd_link _ ascii_tables _ _ "ens4" "10.0.0.1" link "192.168.0.1" sample_node.
Proof. apply cmd_link_ignores_flags; discriminate. Defined.
