(* ===== verification/Controller.v ===== *)
(** * The topology controller

    [controllers/topology_controller.go]: [CalcDiff], the three RPC senders and
    [Reconcile].  Logging and timing are left out; [Reconcile] returns its
    error (the [ctrl.Result] is always empty). *)

From stdpp Require Import base strings gmap list.
From Stdlib Require Import ZArith Lia.
From S2P Require Import Prelude GoStr Proto ApiV1 K8s LinkUtil.

Local Open Scope string_scope.


(** ** The difference of two link lists *)

Definition EqualWithoutProperties (a b : Link) : bool :=
  String.eqb (LocalIntf a) (LocalIntf b) &&
  String.eqb (LocalIP a) (LocalIP b) &&
  String.eqb (LocalMAC a) (LocalMAC b) &&
  String.eqb (PeerIntf a) (PeerIntf b) &&
  String.eqb (PeerIP a) (PeerIP b) &&
  String.eqb (PeerMAC a) (PeerMAC b) &&
  String.eqb (PeerPod a) (PeerPod b) &&
  (UID a =? UID b)%Z.

(** [CalcDiff] returns [(add, del, propertiesChanged)]. *)
Definition CalcDiff (old new : list Link) : list Link * list Link * list Link :=
  let '(propertiesChanged, del) :=
    foldl (fun '(propertiesChanged, del) oldLink =>
             match List.find (fun newLink => EqualWithoutProperties oldLink newLink) new with
             | Some newLink =>
                 (if negb (bool_decide (Properties oldLink = Properties newLink))
                  then (propertiesChanged ++ [newLink])%list else propertiesChanged, del)
             | None => (propertiesChanged, (del ++ [oldLink])%list)
             end) ([], []) old in
  let add :=
    foldl (fun add newLink =>
             if List.existsb (fun oldLink => EqualWithoutProperties oldLink newLink) old
             then add else (add ++ [newLink])%list) [] new in
  (add, del, propertiesChanged).

Section Reconciler.
  Context {E : Type} `{K8sClient E} `{GrpcClient E} `{Retry}.
  Local Open Scope go_scope.

(** The target [ConnectDaemon] dials. *)
Definition daemonAddr (ip : string) : string := "passthrough:///" ++ ip ++ ":" ++ DefaultPort.

Definition ConnectDaemon (ip : string) : go E (result string) :=
  err <- call (grpc_Dial (daemonAddr ip)) ;;
  match err with
  | Some e => ret (Err e)
  | None => ret (Ok (daemonAddr ip))
  end.

(** The query all three senders build. *)
Definition linksQuery (topology : Topology) (links : list Link) : pb_LinksBatchQuery :=
  {| lbq_LocalPod :=
       Some {| pod_Name := Name topology;
               pod_SrcIp := SrcIP (Status topology);
               pod_NetNs := NetNs (Status topology);
               pod_KubeNs := Namespace topology;
               pod_Links := [] |};
     lbq_Links := Map links Link_ToProto |}.

(** The body the three senders share, up to the RPC: nothing to do for an
    empty list; otherwise connect, call, and report [err] (not the response)
    when the call failed or the daemon answered false. *)
Definition sendLinks
    (rpc : string -> pb_LinksBatchQuery -> go E (option pb_BoolResponse * option error))
    (topology : Topology) (links : list Link) : go E (option error) :=
  match links with
  | [] => ret None
  | _ =>
      conn <- ConnectDaemon (SrcIP (Status topology)) ;;
      match conn with
      | Err e => ret (Some e)
      | Ok target =>
          '(result, err) <- rpc target (linksQuery topology links) ;;
          if (match err with Some _ => true | None => false end) || negb (GetResponse result)
          then ret err
          else ret None
      end
  end.

Definition AddLinks := sendLinks localClient_AddLinks.

Definition DelLinks := sendLinks localClient_DelLinks.

Definition UpdateLinks := sendLinks localClient_UpdateLinks.

(** The function retried on conflicts: read the object again and copy the
    links of its spec to its status. *)
Definition updateStatusLinks (ns name : string) : go E (option error) :=
  r <- call (client_Get ns name) ;;
  match r with
  | Err e => ret (IgnoreNotFound e)
  | Ok topology =>
      call (client_StatusUpdate (set_status_links (spec_Links (Spec topology)) topology))
  end.

(** The RPCs of a change, in the order del, add, update; the first failure
    ends it. *)
Definition applyDiff (topology : Topology) (old new : list Link) : go E (option error) :=
  let '(add, del, propertiesChanged) := CalcDiff old new in
  err <- DelLinks topology del ;;
  match err with
  | Some e => ret (Some e)
  | None =>
      err <- AddLinks topology add ;;
      match err with
      | Some e => ret (Some e)
      | None => UpdateLinks topology propertiesChanged
      end
  end.

Definition Reconcile (ns name : string) : go E (option error) :=
  r <- call (client_Get ns name) ;;
  match r with
  | Err e => ret (IgnoreNotFound e)
  | Ok topology =>
      if bool_decide (status_Links (Status topology) = spec_Links (Spec topology)) then ret None
      else
        err <- (match status_Links (Status topology) with
                | None => ret None
                | Some old => applyDiff topology old (slice (spec_Links (Spec topology)))
                end) ;;
        match err with
        | Some e => ret (Some e)
        | None => RetryOnConflict (updateStatusLinks ns name)
        end
  end.

End Reconciler.

(** ** What [CalcDiff] is for

    The identity of a link is every field but its properties.  The state of a
    pod's links, as its daemon is told to set them up, is a map from identities
    to properties. *)

Abbreviation link_key := (string * string * string * string * string * string * string * Z)%type.

Definition link_id (l : Link) : link_key :=
  (LocalIntf l, LocalIP l, LocalMAC l, PeerIntf l, PeerIP l, PeerMAC l, PeerPod l, UID l).

Definition view (ls : list Link) : gmap link_key LinkProperties :=
  foldr (fun l m => <[link_id l := Properties l]> m) ∅ ls.

(** Deleting links, and setting links up (or their properties anew). *)
Definition apply_del (ls : list Link) (m : gmap link_key LinkProperties) :=
  foldl (fun m l => delete (link_id l) m) m ls.

Definition apply_set (ls : list Link) (m : gmap link_key LinkProperties) :=
  foldl (fun m l => <[link_id l := Properties l]> m) m ls.

Lemma EqualWithoutProperties_spec a b :
  EqualWithoutProperties a b = true <-> link_id a = link_id b.
Proof.
  unfold EqualWithoutProperties, link_id.
  rewrite !andb_true_iff, !String.eqb_eq, Z.eqb_eq. split; [|naive_solver].
  intros [[[[[[[-> ->] ->] ->] ->] ->] ->] ->]. done.
Qed.

Lemma find_id_Some o new n :
  List.find (fun n => EqualWithoutProperties o n) new = Some n -> n ∈ new /\ link_id o = link_id n.
Proof.
  intros [Hin Heq]%find_some. rewrite list_elem_of_In. by apply EqualWithoutProperties_spec in Heq.
Qed.

Lemma find_id_None o new n :
  List.find (fun n => EqualWithoutProperties o n) new = None -> n ∈ new -> link_id o <> link_id n.
Proof.
  intros Hf Hin%list_elem_of_In Heq. eapply find_none in Hf; [|done].
  apply EqualWithoutProperties_spec in Heq. congruence.
Qed.

Lemma existsb_id old n :
  List.existsb (fun o => EqualWithoutProperties o n) old = true <->
  exists o, o ∈ old /\ link_id o = link_id n.
Proof.
  rewrite existsb_exists. setoid_rewrite EqualWithoutProperties_spec.
  by setoid_rewrite list_elem_of_In.
Qed.

(** The links whose properties differ, as a function of the old list. *)
Definition changed_of (new : list Link) (o : Link) : option Link :=
  match List.find (fun n => EqualWithoutProperties o n) new with
  | Some n => if bool_decide (Properties o = Properties n) then None else Some n
  | None => None
  end.

Definition dropped (new : list Link) (o : Link) : bool :=
  match List.find (fun n => EqualWithoutProperties o n) new with Some _ => false | None => true end.

Definition fresh_in (old : list Link) (n : Link) : bool :=
  negb (List.existsb (fun o => EqualWithoutProperties o n) old).

Lemma CalcDiff_eq old new :
  CalcDiff old new =
    (List.filter (fresh_in old) new, List.filter (dropped new) old, omap (changed_of new) old).
Proof.
  unfold CalcDiff.
  assert (forall ch dl,
    foldl (fun '(ch, dl) o =>
             match List.find (fun n => EqualWithoutProperties o n) new with
             | Some n => (if negb (bool_decide (Properties o = Properties n)) then (ch ++ [n])%list else ch, dl)
             | None => (ch, (dl ++ [o])%list)
             end) (ch, dl) old
    = ((ch ++ omap (changed_of new) old)%list, (dl ++ List.filter (dropped new) old)%list)) as ->.
  { induction old as [|o old IH]; intros ch dl; cbn; [by rewrite !app_nil_r|].
    unfold changed_of at 1, dropped at 1.
    destruct (List.find _ new) as [n|]; rewrite IH; [case_bool_decide|]; cbn;
      by rewrite <- ?app_assoc. }
  assert (forall ad,
    foldl (fun add n => if List.existsb (fun o => EqualWithoutProperties o n) old
                        then add else (add ++ [n])%list) ad new
    = (ad ++ List.filter (fresh_in old) new)%list) as ->; [|done].
  induction new as [|n new IH]; intros ad; cbn; [by rewrite app_nil_r|].
  unfold fresh_in at 1. destruct (List.existsb _ old); cbn; rewrite IH; by rewrite <- ?app_assoc.
Qed.

Lemma filter_elem {A} (f : A -> bool) l x : x ∈ List.filter f l <-> x ∈ l /\ f x = true.
Proof. by rewrite !list_elem_of_In, filter_In. Qed.

Lemma fresh_in_spec old n : fresh_in old n = true <-> forall o, o ∈ old -> link_id o <> link_id n.
Proof.
  unfold fresh_in. rewrite negb_true_iff, <- not_true_iff_false, existsb_id. split.
  - intros Hn o Ho Heq. apply Hn. eauto.
  - intros Ha [o [Ho Heq]]. by eapply Ha.
Qed.

Lemma dropped_spec new o : dropped new o = true <-> forall n, n ∈ new -> link_id o <> link_id n.
Proof.
  unfold dropped. destruct (List.find _ new) as [n|] eqn:F.
  - apply find_id_Some in F as [Hn Heq]. split; [done|]. intros Ha. by destruct (Ha n Hn).
  - split; [|done]. intros _ n. by apply find_id_None.
Qed.

Lemma changed_of_Some new o n :
  changed_of new o = Some n -> n ∈ new /\ link_id o = link_id n /\ Properties o <> Properties n.
Proof.
  unfold changed_of. destruct (List.find _ new) as [m|] eqn:F; [|done].
  case_bool_decide; [done|]. intros [= ->]. apply find_id_Some in F as [? ?]. done.
Qed.

(** *** Lookups in the three views *)

Lemma view_None ls k : (forall l, l ∈ ls -> link_id l <> k) -> view ls !! k = None.
Proof.
  induction ls as [|l ls IH]; intros Hk; cbn; [by rewrite lookup_empty|].
  rewrite lookup_insert_ne by (apply Hk; left). apply IH. intros l' ?. apply Hk. by right.
Qed.

Lemma view_Some ls k p :
  (exists l, l ∈ ls /\ link_id l = k) ->
  (forall l, l ∈ ls -> link_id l = k -> Properties l = p) -> view ls !! k = Some p.
Proof.
  induction ls as [|l ls IH]; intros [l0 [Hin Hid]] Hall; cbn; [set_solver|].
  destruct (decide (link_id l = k)) as [<-|Hne].
  - rewrite lookup_insert_eq. f_equal. apply Hall; [left|done].
  - rewrite lookup_insert_ne by done. apply IH; [|intros; apply Hall; [by right|done]].
    exists l0. apply elem_of_cons in Hin as [->|]; [congruence|done].
Qed.

Lemma apply_del_None ls m k : m !! k = None -> apply_del ls m !! k = None.
Proof.
  unfold apply_del. revert m. induction ls as [|l ls IH]; intros m Hm; cbn; [done|].
  apply IH. rewrite lookup_delete. by case_decide.
Qed.

Lemma apply_del_hit ls m k :
  (exists l, l ∈ ls /\ link_id l = k) -> apply_del ls m !! k = None.
Proof.
  revert m. induction ls as [|l ls IH]; intros m [l0 [Hin Hid]]; [set_solver|].
  change (apply_del ls (delete (link_id l) m) !! k = None).
  apply elem_of_cons in Hin as [->|?]; [|eauto].
  apply apply_del_None. subst k. apply lookup_delete_eq.
Qed.

Lemma apply_del_miss ls m k :
  (forall l, l ∈ ls -> link_id l <> k) -> apply_del ls m !! k = m !! k.
Proof.
  unfold apply_del. revert m. induction ls as [|l ls IH]; intros m Hk; cbn; [done|].
  rewrite IH by set_solver. apply lookup_delete_ne, Hk. by left.
Qed.

Lemma apply_set_miss ls m k :
  (forall l, l ∈ ls -> link_id l <> k) -> apply_set ls m !! k = m !! k.
Proof.
  unfold apply_set. revert m. induction ls as [|l ls IH]; intros m Hk; cbn; [done|].
  rewrite IH by set_solver. apply lookup_insert_ne, Hk. by left.
Qed.

Lemma apply_set_hit ls m k p :
  (exists l, l ∈ ls /\ link_id l = k) ->
  (forall l, l ∈ ls -> link_id l = k -> Properties l = p) -> apply_set ls m !! k = Some p.
Proof.
  assert (forall ls m, m !! k = Some p ->
    (forall l, l ∈ ls -> link_id l = k -> Properties l = p) -> apply_set ls m !! k = Some p) as Hkeep.
  { clear ls m. unfold apply_set. induction ls as [|l ls IH]; intros m Hm Hall; cbn; [done|].
    apply IH; [|intros; apply Hall; [by right|done]].
    rewrite lookup_insert. case_decide; [|done]. f_equal. apply Hall; [left|done]. }
  revert m. induction ls as [|l ls IH]; intros m [l0 [Hin Hid]] Hall; [set_solver|].
  change (apply_set ls (<[link_id l := Properties l]> m) !! k = Some p).
  assert (forall l, l ∈ ls -> link_id l = k -> Properties l = p) as Htl
    by (intros; apply Hall; [by right|done]).
  apply elem_of_cons in Hin as [->|?]; [|eauto].
  apply Hkeep; [|done]. subst k. rewrite lookup_insert_eq. f_equal. apply Hall; [left|done].
Qed.

(** The abstract effect of the three batches, in the order they are sent. *)
Definition apply_diff (d : list Link * list Link * list Link) (m : gmap link_key LinkProperties) :=
  let '(add, del, propertiesChanged) := d in
  apply_set propertiesChanged (apply_set add (apply_del del m)).

Lemma unique_id new n n' :
  NoDup (link_id <$> new) -> n ∈ new -> n' ∈ new -> link_id n = link_id n' -> n = n'.
Proof. apply NoDup_fmap_eq. Qed.

Lemma changed_elem (old new : list Link) n :
  n ∈ omap (changed_of new) old ->
  exists o, o ∈ old /\ n ∈ new /\ link_id o = link_id n /\ Properties o <> Properties n.
Proof. intros (o & Ho & Hc)%list_elem_of_omap. apply changed_of_Some in Hc. eauto. Qed.

Lemma changed_complete (old new : list Link) o n :
  NoDup (link_id <$> new) -> o ∈ old -> n ∈ new -> link_id o = link_id n ->
  Properties o <> Properties n -> n ∈ omap (changed_of new) old.
Proof.
  intros Hnd Ho Hn Heq Hp. apply list_elem_of_omap. exists o. split; [done|].
  unfold changed_of. destruct (List.find _ new) as [m|] eqn:F.
  - apply find_id_Some in F as [Hm Hid].
    assert (m = n) as -> by (eapply unique_id; eauto; congruence).
    by rewrite bool_decide_false.
  - by destruct (find_id_None _ _ _ F Hn).
Qed.

(** The effect on an identity that the new list has. *)
Lemma diff_lookup_kept old new n :
  NoDup (link_id <$> new) -> n ∈ new ->
  apply_diff (CalcDiff old new) (view old) !! link_id n = Some (Properties n).
Proof.
  intros Hnd Hn. rewrite CalcDiff_eq. unfold apply_diff.
  destruct (decide (n ∈ omap (changed_of new) old)) as [Hch|Hch].
  { apply apply_set_hit; [eauto|]. intros l (o & _ & Hl & _)%changed_elem Hid.
    by rewrite (unique_id new l n). }
  rewrite apply_set_miss; cycle 1.
  { intros l Hl Hid. apply Hch. destruct (changed_elem _ _ _ Hl) as (o & ? & Hl' & _).
    by rewrite (unique_id new n l). }
  destruct (fresh_in old n) eqn:Fr.
  { apply apply_set_hit; [exists n; by rewrite filter_elem|].
    intros l [Hl _]%filter_elem Hid. by rewrite (unique_id new l n). }
  rewrite apply_set_miss; cycle 1.
  { intros l [Hl Hf]%filter_elem Hid. rewrite (unique_id new l n) in Hf by done. congruence. }
  unfold fresh_in in Fr. apply negb_false_iff, existsb_id in Fr as (o & Ho & Heq).
  rewrite apply_del_miss; cycle 1.
  { intros l [_ Hd]%filter_elem Hid. rewrite dropped_spec in Hd. by apply (Hd n). }
  apply view_Some; [eauto|]. intros l Hl Hid.
  destruct (decide (Properties l = Properties n)); [done|].
  destruct Hch. by eapply changed_complete.
Qed.

(** The effect on an identity that the new list does not have. *)
Lemma diff_lookup_gone old new k :
  (forall n, n ∈ new -> link_id n <> k) ->
  apply_diff (CalcDiff old new) (view old) !! k = None.
Proof.
  intros Hk. rewrite CalcDiff_eq. unfold apply_diff.
  rewrite apply_set_miss by (intros l (o & _ & Hl & _)%changed_elem; auto).
  rewrite apply_set_miss by (intros l [Hl _]%filter_elem; auto).
  destruct (decide (Exists (fun o => link_id o = k) old)) as [Hex|Hno].
  - apply Exists_exists in Hex as (o & Ho & <-). apply apply_del_hit. exists o. split; [|done].
    rewrite filter_elem, dropped_spec. split; [done|]. intros n Hn Heq. by apply (Hk n).
  - rewrite apply_del_None; [done|]. apply view_None. intros l Hl Heq.
    apply Hno, Exists_exists. eauto.
Qed.

(** C8: sending what [CalcDiff] computes (the deletions, then the additions,
    then the property updates) brings the links a daemon was told about from
    the old list to exactly the new one, whatever the old list was; the new
    list may hold the identity of a link only once. *)
Theorem CalcDiff_refines old new :
  NoDup (link_id <$> new) -> apply_diff (CalcDiff old new) (view old) = view new.
Proof.
  intros Hnd. apply map_eq. intros k.
  destruct (decide (Exists (fun n => link_id n = k) new)) as [Hex|Hno].
  - apply Exists_exists in Hex as (n & Hn & <-). rewrite diff_lookup_kept by done.
    symmetry. apply view_Some; [eauto|]. intros l Hl Hid. by rewrite (unique_id new l n).
  - assert (forall n, n ∈ new -> link_id n <> k) as Hk.
    { intros n Hn Heq. apply Hno, Exists_exists. eauto. }
    by rewrite diff_lookup_gone, view_None.
Qed.

(** [CalcDiff] asks for nothing superfluous: what it adds is in the new
    list and has no counterpart in the old one, what it deletes is in the old
    list and has no counterpart in the new one, and what it updates is in the
    new list and has a counterpart in the old one with other properties. *)
Theorem CalcDiff_minimal old new add del changed :
  CalcDiff old new = (add, del, changed) ->
  (forall l, l ∈ add <-> l ∈ new /\ forall o, o ∈ old -> link_id o <> link_id l) /\
  (forall l, l ∈ del <-> l ∈ old /\ forall n, n ∈ new -> link_id l <> link_id n) /\
  (forall l, l ∈ changed -> l ∈ new /\
     exists o, o ∈ old /\ link_id o = link_id l /\ Properties o <> Properties l).
Proof.
  rewrite CalcDiff_eq. intros [= <- <- <-]. split_and!; intros l.
  - by rewrite filter_elem, fresh_in_spec.
  - by rewrite filter_elem, dropped_spec.
  - intros (o & ? & ? & ? & ?)%changed_elem. eauto 10.
Qed.

(** ** Reconciliation *)

Section ReconcileProofs.
  Context {E : Type} `{ClusterLaws E} `{RetryLaws}.

(** The request a batch amounts to: none when it is empty. *)
Definition batch (c : pb_LinksBatchQuery -> rpc_request) (t : Topology) (ls : list Link)
  : list (string * rpc_request) :=
  match ls with
  | [] => []
  | _ => [(daemonAddr (SrcIP (Status t)), c (linksQuery t ls))]
  end.

(** The RPCs a topology calls for: none if its status is up to date or it is
    seen for the first time, otherwise the deletions, additions and updates. *)
Definition plan (t : Topology) : list (string * rpc_request) :=
  if bool_decide (status_Links (Status t) = spec_Links (Spec t)) then []
  else
    match status_Links (Status t) with
    | None => []
    | Some old =>
        let '(add, del, changed) := CalcDiff old (slice (spec_Links (Spec t))) in
        (batch ReqDelLinks t del ++ batch ReqAddLinks t add ++ batch ReqUpdateLinks t changed)%list
    end.

(** [m] issues the RPCs [p] and leaves the stored objects alone; if it fails,
    it has issued a prefix of [p]. *)
Definition sends (p : list (string * rpc_request)) (m : go E (option error)) : Prop :=
  forall e, exists r e' q,
    m e = (Val r, e') /\ undisturbed e e' /\ rpcs e' = (rpcs e ++ q)%list /\
    q `prefix_of` p /\ (r = None -> q = p).

Lemma sends_none : sends [] (ret None).
Proof. intros e. exists None, e, []. rewrite app_nil_r. split_and!; auto using undisturbed_refl. Qed.

Lemma sends_seq p1 p2 (m1 m2 : go E (option error)) :
  sends p1 m1 -> sends p2 m2 ->
  sends (p1 ++ p2) (bind m1 (fun err => match err with Some er => ret (Some er) | None => m2 end)).
Proof.
  intros S1 S2 e. destruct (S1 e) as (r1 & e1 & q1 & R1 & D1 & P1 & Q1 & N1).
  unfold bind. rewrite R1. destruct r1 as [er|].
  - exists (Some er), e1, q1. split_and!; try done. by apply prefix_app_r.
  - destruct (S2 e1) as (r2 & e2 & q2 & R2 & D2 & P2 & Q2 & N2).
    exists r2, e2, (q1 ++ q2)%list. rewrite (N1 eq_refl) in *. split_and!; eauto using undisturbed_trans.
    + by rewrite P2, P1, app_assoc.
    + by apply prefix_app.
    + intros Hr. by rewrite N2.
Qed.

Lemma sendLinks_sends method c t ls :
  sends (batch c t ls) (sendLinks (fun target q => stub target method (c q)) t ls).
Proof.
  unfold sendLinks, batch. destruct ls as [|l ls]; [apply sends_none|]. intros e.
  unfold ConnectDaemon, stub, bind, call, ret.
  destruct (grpc_Dial _ e) as [[er|] e1] eqn:D; apply law_Dial in D as [D1 D2].
  { exists (Some er), e1, []. rewrite app_nil_r. split_and!; try done. apply prefix_nil. }
  destruct (grpc_Invoke _ _ _ e1) as [[m|er] e2] eqn:I; apply law_Invoke in I as [I1 I2];
    cbn; [destruct (Response m); cbn|]; eexists _, e2, _; rewrite I2, D2; eauto 10 using undisturbed_trans.
Qed.

Lemma applyDiff_sends t old new add del changed :
  CalcDiff old new = (add, del, changed) ->
  sends (batch ReqDelLinks t del ++ batch ReqAddLinks t add ++ batch ReqUpdateLinks t changed)
    (applyDiff t old new).
Proof.
  intros HD. unfold applyDiff. rewrite HD.
  apply sends_seq; [apply sendLinks_sends|]. apply sends_seq; apply sendLinks_sends.
Qed.

(** The part of [Reconcile] before the status update. *)
Lemma reconcile_sends t :
  status_Links (Status t) <> spec_Links (Spec t) ->
  sends (plan t) (match status_Links (Status t) with
                  | None => ret None
                  | Some old => applyDiff t old (slice (spec_Links (Spec t)))
                  end).
Proof.
  intros Hne. unfold plan. rewrite bool_decide_false by done.
  destruct (status_Links (Status t)) as [old|]; [|apply sends_none].
  destruct (CalcDiff old _) as [[add del] changed] eqn:HD. by apply applyDiff_sends.
Qed.

(** A topology's links are up to date in [e']: [t'] is [t] but for the status
    links, which are those of the spec, and the resource version. *)
Definition synced (t t' : Topology) : Prop :=
  t' = mkTopology (Name t) (Namespace t) (Finalizers t) (ResourceVersion t') (Spec t)
         (Status (set_status_links (spec_Links (Spec t)) t)).

(** What one attempt, or all of them, to write the status can come to: an error
    and no change; or the stored object's own spec written to its status, whatever
    was read before; or the object is gone from the cache and nothing is written.
    The last does not happen while the cache shows the stored object. *)
Definition status_written (ns name : string) (e : E) (x : outcome (option error) * E) : Prop :=
  exists r e', x = (Val r, e') /\ rpcs e' = rpcs e /\
    match r with
    | Some _ => undisturbed e e'
    | None =>
        (exists t t', db e !! (ns, name) = Some t /\ synced t t' /\ db e' = <[(ns, name) := t']> (db e)) \/
        (db e' = db e /\ (exists er e1, client_Get ns name e1 = (Err er, e') /\ IsNotFound er = true) /\
         (is_Some (db e !! (ns, name)) -> cache e !! (ns, name) <> db e !! (ns, name)))
    end.

Lemma updateStatusLinks_run ns name (e : E) :
  coherent e -> status_written ns name e (updateStatusLinks ns name e).
Proof.
  intros Hco. unfold status_written, updateStatusLinks, bind, call.
  destruct (cache e !! (ns, name)) as [t|] eqn:Ht.
  - destruct (coherent_cache _ _ _ _ Hco Ht) as (<- & <- & Hv).
    destruct (law_Get_found _ _ _ _ Ht) as (e1 & G & U1 & P1). rewrite G.
    destruct (client_StatusUpdate _ e1) as [r e2] eqn:U.
    pose proof (law_StatusUpdate _ _ _ _ U) as [P2 L]. exists r, e2. split_and!; [done|congruence|].
    destruct r as [er|]; [by eapply undisturbed_trans|].
    destruct L as (_ & old & v & Hold & HRV & D2). cbn in *. destruct U1 as (D1 & _).
    rewrite D1 in Hold, D2. pose proof (Hv _ Hold HRV) as <-. left. eexists t, _. split_and!; [done| |exact D2].
    by unfold synced.
  - destruct (law_Get_missing _ _ _ Ht) as (er & e1 & G & Hnf & U1 & P1). rewrite G. unfold IgnoreNotFound.
    rewrite Hnf. exists None, e1. split_and!; [done|done|]. right. split_and!; [apply U1|exists er, e; by rewrite G|].
    intros [t0 ->] [=].
Qed.

Lemma retry_updateStatusLinks ns name (e : E) :
  coherent e -> status_written ns name e (RetryOnConflict (updateStatusLinks ns name) e).
Proof.
  intros Hco. pose proof (retry_attempts E (updateStatusLinks ns name) e) as Ha.
  assert (forall s, undisturbed e s /\ rpcs s = rpcs e -> status_written ns name e (updateStatusLinks ns name s)) as HPQ.
  { intros s [Us Ps]. destruct Us as (Ds & Cs & Ss).
    destruct (updateStatusLinks_run ns name s (Cs Hco)) as (r & s' & R & P' & L).
    exists r, s'. split_and!; [done|congruence|]. destruct r as [er|].
    - eapply undisturbed_trans; [|exact L]. by unfold undisturbed.
    - rewrite Ds in L. destruct L as [L|(D & Hr & Hf)]; [by left|]. right. split_and!; [done|done|].
      intros Hs Hc. apply (Hf Hs). rewrite (Ss _ Hc). by rewrite Ds. }
  eapply (attempts_invariant (updateStatusLinks ns name)); [exact HPQ| | |exact Ha].
  - intros s er s1 Ps R. destruct (HPQ s Ps) as (r & s' & R' & HP & L). rewrite R in R'. injection R' as <- <-. done.
  - by split; [apply undisturbed_refl|].
Qed.

(** Everything a run of [Reconcile] can do when its first read is answered with
    [t], which may be an older version than the stored one. *)
Lemma Reconcile_run ns name t (e : E) :
  coherent e -> cache e !! (ns, name) = Some t ->
  exists r e', Reconcile ns name e = (Val r, e') /\
    match r with
    | None => rpcs e' = (rpcs e ++ plan t)%list /\
        (db e' = db e /\ status_Links (Status t) = spec_Links (Spec t) \/
         exists e1, db e1 = db e /\ (cache e !! (ns, name) = db e !! (ns, name) -> cache e1 !! (ns, name) = db e !! (ns, name)) /\
           status_written ns name e1 (Val None, e'))
    | Some _ => undisturbed e e' /\ exists q, q `prefix_of` plan t /\ rpcs e' = (rpcs e ++ q)%list
    end.
Proof.
  intros Hco Ht. destruct (law_Get_found _ _ _ _ Ht) as (e1 & G & U1 & P1).
  unfold Reconcile, bind, call. rewrite G. case_bool_decide as Hb.
  { exists None, e1. split; [done|]. unfold plan. rewrite bool_decide_true by done.
    rewrite app_nil_r. split; [done|]. left. split; [apply U1|done]. }
  destruct (reconcile_sends t Hb e1) as (r & e2 & q & R & U2 & P2 & Q2 & N2).
  pose proof (undisturbed_trans _ _ _ U1 U2) as U12. destruct r as [er|].
  { exists (Some er), e2. unfold bind in R. rewrite R. split_and!; [done|done|].
    exists q. by rewrite P2, P1. }
  rewrite R. destruct U12 as (D12 & C12 & S12).
  destruct (retry_updateStatusLinks ns name e2 (C12 Hco)) as (r & e3 & R3 & P3 & L3).
  exists r, e3. rewrite R3. split; [done|]. rewrite (N2 eq_refl) in *. destruct r as [er|].
  - split; [eapply undisturbed_trans; [|exact L3]; by unfold undisturbed|].
    exists (plan t). split; [done|]. by rewrite P3, P2, P1.
  - split; [by rewrite P3, P2, P1|]. right. exists e2. split_and!; [done| |by exists None, e3].
    intros Hc. rewrite <- D12. auto.
Qed.

(** The stored object, seen by the first read, is the one whose status is written. *)
Lemma Reconcile_synced ns name t (e e' : E) :
  coherent e -> cache e !! (ns, name) = Some t -> db e !! (ns, name) = Some t ->
  Reconcile ns name e = (Val None, e') ->
  exists t', synced t t' /\ db e' = <[(ns, name) := t']> (db e).
Proof.
  intros Hco Ht Hd R. destruct (Reconcile_run ns name t e Hco Ht) as (r & e2 & R2 & L).
  rewrite R in R2. injection R2 as <- <-. destruct L as [_ [[D Hs]|(e1 & D1 & Hc & r & e3 & [= <- <-] & _ & L)]].
  - exists t. rewrite insert_id by congruence. split; [|done].
    unfold synced, set_status_links, set_status. rewrite <- Hs. by destruct t as [???? ? []].
  - rewrite D1, Hd in *. destruct L as [(t0 & t' & [= <-] & L)|(_ & _ & Hn)]; [by exists t'|].
    destruct Hn; [by eexists|]. apply Hc. congruence.
Qed.

(** C7: when [Reconcile] reports success and its first read was answered with the
    object [t], it has issued exactly the RPCs planned from [t] (deletions,
    additions, updates, in that order).  If [t] is the stored object, the stored
    status links are the spec's links afterwards, and nothing else of the object or
    of the store has changed (the resource version apart).  If the cache showed an
    older version, what is stored afterwards is still either unchanged (the old
    version needed nothing, or the object was gone at the last read) or the stored
    object with its own spec as its status. *)
Theorem Reconcile_converges ns name t (e e' : E) :
  coherent e -> cache e !! (ns, name) = Some t ->
  Reconcile ns name e = (Val None, e') ->
  rpcs e' = (rpcs e ++ plan t)%list /\
  (db e !! (ns, name) = Some t -> exists t', synced t t' /\ db e' = <[(ns, name) := t']> (db e)) /\
  ((exists t0 t', db e !! (ns, name) = Some t0 /\ synced t0 t' /\ db e' = <[(ns, name) := t']> (db e)) \/
   db e' = db e /\ (status_Links (Status t) = spec_Links (Spec t) \/
     exists er e1, client_Get ns name e1 = (Err er, e') /\ IsNotFound er = true)).
Proof.
  intros Hco Ht R. destruct (Reconcile_run ns name t e Hco Ht) as (r & e2 & R2 & L).
  rewrite R in R2. injection R2 as <- <-. destruct L as [P L].
  split_and!; [done|intros Hd; by eapply Reconcile_synced|].
  destruct L as [[D Hs]|(e1 & D1 & _ & r & e3 & [= <- <-] & _ & L)]; [auto|]. rewrite D1 in L.
  destruct L as [?|(? & ? & _)]; auto.
Qed.

(** C23: when [Reconcile] reports an error, it stopped somewhere along the plan
    and has left every stored object as it was, so that the status still says
    which links were set up before.  This holds whatever version of the object the
    first read was answered with. *)
Theorem Reconcile_error_keeps_status ns name t (e e' : E) er :
  coherent e -> cache e !! (ns, name) = Some t ->
  Reconcile ns name e = (Val (Some er), e') ->
  db e' = db e /\ exists q, q `prefix_of` plan t /\ rpcs e' = (rpcs e ++ q)%list.
Proof.
  intros Hco Ht R. destruct (Reconcile_run ns name t e Hco Ht) as (r & e2 & R2 & L).
  rewrite R in R2. injection R2 as <- <-. destruct L as [(D & _) L]. done.
Qed.

(** C22: after a run of [Reconcile] that read the stored object and succeeded, a
    run at any later moment at which the object has not been written again and
    the cache shows it succeeds without issuing a single RPC or touching the
    store.  A run before the cache has caught up, on the object as it was, issues
    the planned RPCs again if it succeeds, and leaves the store as it is or writes
    the spec to the status once more. *)
Theorem Reconcile_idempotent ns name t (e e' e1 : E) :
  coherent e -> cache e !! (ns, name) = Some t -> db e !! (ns, name) = Some t ->
  Reconcile ns name e = (Val None, e') ->
  db e1 !! (ns, name) = db e' !! (ns, name) ->
  (cache e1 !! (ns, name) = db e1 !! (ns, name) ->
   exists e2, Reconcile ns name e1 = (Val None, e2) /\ db e2 = db e1 /\ rpcs e2 = rpcs e1) /\
  (coherent e1 -> cache e1 !! (ns, name) = Some t ->
   exists r e2, Reconcile ns name e1 = (Val r, e2) /\
     (r = None -> rpcs e2 = (rpcs e1 ++ plan t)%list) /\
     (db e2 = db e1 \/ exists t0 t', db e1 !! (ns, name) = Some t0 /\ synced t t0 /\ synced t0 t' /\
        db e2 = <[(ns, name) := t']> (db e1))).
Proof.
  intros Hco Ht Hd R Hsame. destruct (Reconcile_synced ns name t e e' Hco Ht Hd R) as (t' & Hsy & D).
  rewrite D, lookup_insert_eq in Hsame. split.
  - intros Hc. rewrite Hsame in Hc. destruct (law_Get_found _ _ _ _ Hc) as (e2 & G & U & P).
    exists e2. unfold Reconcile, bind, call. rewrite G, bool_decide_true by (by rewrite Hsy).
    split_and!; [done|apply U|done].
  - intros Hco1 Hc. destruct (Reconcile_run ns name t e1 Hco1 Hc) as (r & e2 & R2 & L). exists r, e2.
    split; [done|]. destruct r as [er|]; [by destruct L as [(D2 & _) _]; split; [done|left]|].
    destruct L as [P L]. split; [done|].
    destruct L as [[D2 _]|(e3 & D3 & _ & r & e4 & [= <- <-] & _ & L)]; [by left|]. rewrite D3 in L.
    destruct L as [(t0 & t1 & Ht0 & Hs & L)|(? & _)]; [|by left]. right. exists t0, t1.
    split_and!; [done| |done|done]. congruence.
Qed.

End ReconcileProofs.

(** ** A cluster that satisfies the laws

    Objects in a map, optimistic concurrency on the resource version, a cache
    that shows the store as it was before the last write until some more reads
    have been made, and scripted daemons. *)

Record SimCluster := mkSim {
  sim_db : gmap (string * string) Topology;
  sim_log : list (string * rpc_request);
  sim_dial : option error;
  sim_reply : result pb_BoolResponse;
  (** The store before the last write, and the reads that are still answered from it. *)
  sim_old : gmap (string * string) Topology;
  sim_lag : nat;
  (** The reads the cache lags behind after a write. *)
  sim_delay : nat
}.

Definition sim_cache (e : SimCluster) : gmap (string * string) Topology :=
  match sim_lag e with O => sim_db e | S _ => sim_old e end.

Definition sim_read (e : SimCluster) : SimCluster :=
  mkSim (sim_db e) (sim_log e) (sim_dial e) (sim_reply e) (sim_old e) (pred (sim_lag e)) (sim_delay e).

Definition sim_bump (t : Topology) (old : Topology) : Topology :=
  mkTopology (Name old) (Namespace old) (Finalizers old) (ResourceVersion old + 1) (Spec old) (Status t).

#[export] Instance SimCluster_client : K8sClient SimCluster := {|
  client_Get ns name e :=
    (match sim_cache e !! (ns, name) with
     | Some t => Ok t
     | None => Err (mkError NotFound "not found")
     end, sim_read e);
  client_StatusUpdate t e :=
    match sim_db e !! (Namespace t, Name t) with
    | None => (Some (mkError NotFound "not found"), e)
    | Some old =>
        if (ResourceVersion t =? ResourceVersion old)%Z
        then (None, mkSim (<[(Namespace t, Name t) := sim_bump t old]> (sim_db e)) (sim_log e)
                      (sim_dial e) (sim_reply e) (sim_db e) (sim_delay e) (sim_delay e))
        else (Some (mkError Conflict "conflict"), e)
    end
|}.

#[export] Instance SimCluster_grpc : GrpcClient SimCluster := {|
  grpc_Dial _ e := (sim_dial e, e);
  grpc_Invoke target _ req e :=
    (sim_reply e, mkSim (sim_db e) (sim_log e ++ [(target, req)])%list (sim_dial e) (sim_reply e)
       (sim_old e) (sim_lag e) (sim_delay e))
|}.

(** Objects are stored under their own names, and [m] holds versions of them no
    younger than the stored ones. *)
Definition sim_versions (e : SimCluster) (m : gmap (string * string) Topology) : Prop :=
  forall k t, m !! k = Some t -> (Namespace t, Name t) = k /\
    forall t0, sim_db e !! k = Some t0 ->
      (ResourceVersion t <= ResourceVersion t0)%Z /\ (ResourceVersion t = ResourceVersion t0 -> t = t0).

Definition sim_coherent (e : SimCluster) : Prop :=
  sim_versions e (sim_db e) /\ sim_versions e (sim_old e).

Lemma sim_versions_write e e' t old :
  sim_versions e (sim_db e) -> sim_db e !! (Namespace t, Name t) = Some old ->
  sim_db e' = <[(Namespace t, Name t) := sim_bump t old]> (sim_db e) ->
  sim_versions e' (sim_db e) /\ sim_versions e' (sim_db e').
Proof.
  intros Hv Hold D. pose proof (proj1 (Hv _ _ Hold)) as [= HN Hn]. split; intros k u Hu.
  - split; [by eapply Hv|]. intros t0. rewrite D. destruct (decide ((Namespace t, Name t) = k)) as [<-|Hk].
    + rewrite lookup_insert_eq. intros [= <-]. cbn. rewrite Hold in Hu. injection Hu as <-. split; lia.
    + rewrite lookup_insert_ne by done. apply (Hv k u Hu).
  - rewrite D in Hu. destruct (decide ((Namespace t, Name t) = k)) as [<-|Hk].
    + rewrite lookup_insert_eq in Hu. injection Hu as <-. split; [cbn; congruence|].
      intros t0. rewrite D, lookup_insert_eq. by intros [= <-].
    + rewrite lookup_insert_ne in Hu by done. destruct (Hv k u Hu) as [? Hw]. split; [done|].
      intros t0. rewrite D, lookup_insert_ne by done. apply Hw.
Qed.

#[export, refine] Instance SimCluster_laws : ClusterLaws SimCluster :=
  {| db := sim_db; cache := sim_cache; rpcs := sim_log; coherent := sim_coherent |}.
Proof.
  - intros e ns name t [Hd Ho] Hc. unfold sim_cache in Hc.
    destruct (sim_lag e); [destruct (Hd _ _ Hc) as [[= -> ->] Hv]|destruct (Ho _ _ Hc) as [[= -> ->] Hv]];
      (split_and!; [done|done|]; intros t0 H0; by apply Hv).
  - intros ns name e t Ht. exists (sim_read e). cbn. rewrite Ht. split_and!; try done.
    intros k. unfold sim_cache. cbn. by destruct (sim_lag e) as [|[|]].
  - intros ns name e Ht. eexists _, (sim_read e). cbn. rewrite Ht. split_and!; try done.
    intros k. unfold sim_cache. cbn. by destruct (sim_lag e) as [|[|]].
  - intros t e r e'. cbn. destruct (sim_db e !! _) as [old|] eqn:Ho; [|by intros [= <- <-]].
    destruct (_ =? _)%Z eqn:Hv; intros [= <- <-]; [|done]. split; [done|]. split.
    + intros [Hd _]. match goal with |- sim_coherent ?e1 => destruct (sim_versions_write e e1 t old Hd Ho eq_refl) end. by split.
    + exists old, (ResourceVersion old + 1)%Z. split_and!; [done|by apply Z.eqb_eq|done].
  - intros target e r e'. cbn. by intros [= <- <-].
  - intros target method req e r e'. cbn. by intros [= <- <-].
Defined.

(** Sample objects. *)
Definition sample_props : LinkProperties :=
  mkLinkProperties "10ms" "" "" "" "" "" 0 "" "" "" "" "" "".
Definition sample_props2 : LinkProperties :=
  mkLinkProperties "" "" "" "" "" "100Mbit" 0 "" "" "" "" "" "".
Definition sample_link (uid : Z) (p : LinkProperties) : Link :=
  mkLink ("eth" ++ Sprint uid) "12.12.12.1/24" "" ("eth" ++ Sprint uid) "12.12.12.2/24" "" "r2" uid p.
Definition sample_topology (status spec : option (list Link)) : Topology :=
  mkTopology "r1" "default" [] 7 (mkTopologySpec spec)
    (mkTopologyStatus None "10.0.0.1" "/var/run/netns/a" status).

Definition sample_old : list Link := [sample_link 1 sample_props; sample_link 2 sample_props].
Definition sample_new : list Link := [sample_link 2 sample_props2; sample_link 3 sample_props].

(** A cluster whose cache has caught up, and lags one read behind every write. *)
Definition sample_cluster (dial : option error) (reply : result pb_BoolResponse) : SimCluster :=
  mkSim {[("default", "r1") := sample_topology (Some sample_old) (Some sample_new)]} [] dial reply ∅ 0 1.

Lemma sample_cluster_coherent dial reply : coherent (sample_cluster dial reply).
Proof.
  split; intros k t; cbn; [|by rewrite lookup_empty]. intros [<- <-]%lookup_singleton_Some. split; [done|].
  intros t0. cbn. by intros [_ <-]%lookup_singleton_Some.
Qed.

Definition reply_ok : result pb_BoolResponse := Ok (mk_pb_BoolResponse true).

Lemma CalcDiff_refines_witness :
  NoDup (link_id <$> sample_new) /\
  apply_diff (CalcDiff sample_old sample_new) (view sample_old) = view sample_new.
Proof.
  assert (NoDup (link_id <$> sample_new)) as Hnd by decide_now.
  split; [exact Hnd|]. apply (CalcDiff_refines sample_old sample_new Hnd).
Defined.

Lemma CalcDiff_minimal_witness :
  CalcDiff sample_old sample_new
    = ([sample_link 3 sample_props], [sample_link 1 sample_props], [sample_link 2 sample_props2]) /\
  sample_link 1 sample_props ∈ sample_old /\
  (forall n, n ∈ sample_new -> link_id (sample_link 1 sample_props) <> link_id n).
Proof.
  split; [vm_compute; reflexivity|].
  destruct (CalcDiff_minimal sample_old sample_new [sample_link 3 sample_props]
              [sample_link 1 sample_props] [sample_link 2 sample_props2]) as (_ & Hdel & _).
  - vm_compute. reflexivity.
  - apply Hdel. apply list_elem_of_singleton. reflexivity.
Defined.

Definition sample_run : outcome (option error) * SimCluster :=
  Reconcile "default" "r1" (sample_cluster None reply_ok).

Lemma Reconcile_converges_witness :
  sample_run.1 = Val None /\
  sim_log sample_run.2 = plan (sample_topology (Some sample_old) (Some sample_new)) /\
  exists t', synced (sample_topology (Some sample_old) (Some sample_new)) t' /\
    sim_db sample_run.2 !! ("default", "r1") = Some t'.
Proof.
  split; [vm_compute; reflexivity|].
  destruct (Reconcile_converges "default" "r1" (sample_topology (Some sample_old) (Some sample_new))
              (sample_cluster None reply_ok) sample_run.2) as (P & S & _).
  - apply sample_cluster_coherent.
  - vm_compute; reflexivity.
  - vm_compute. reflexivity.
  - split; [exact P|]. destruct S as (t' & Hs & D); [vm_compute; reflexivity|].
    exists t'. split; [exact Hs|]. change (sim_db sample_run.2) with (db sample_run.2). rewrite D. apply lookup_insert_eq.
Defined.

Definition refused : error := errorf "connection refused".

Lemma Reconcile_error_keeps_status_witness :
  db (Reconcile "default" "r1" (sample_cluster (Some refused) reply_ok)).2
  = db (sample_cluster (Some refused) reply_ok).
Proof.
  destruct (Reconcile_error_keeps_status "default" "r1"
              (sample_topology (Some sample_old) (Some sample_new))
              (sample_cluster (Some refused) reply_ok)
              (Reconcile "default" "r1" (sample_cluster (Some refused) reply_ok)).2 refused) as [D _].
  - apply sample_cluster_coherent.
  - vm_compute; reflexivity.
  - vm_compute. reflexivity.
  - exact D.
Defined.

Lemma sample_run_coherent : coherent sample_run.2.
Proof.
  pose (t := sample_topology (Some sample_old) (Some sample_new)).
  destruct (sim_versions_write (sample_cluster None reply_ok) sample_run.2 (set_status_links (Some sample_new) t) t)
    as [Ho Hn]; [apply (sample_cluster_coherent None reply_ok)|vm_compute; reflexivity|vm_compute; reflexivity|].
  split; [exact Hn|].
  replace (sim_old sample_run.2) with (sim_db (sample_cluster None reply_ok)) by (vm_compute; reflexivity). exact Ho.
Qed.

(** The cluster after the run, its cache one read behind, and once it has caught up. *)
Lemma Reconcile_idempotent_witness :
  (exists e2, Reconcile "default" "r1" (sim_read sample_run.2) = (Val None, e2) /\
    db e2 = db sample_run.2 /\ rpcs e2 = rpcs sample_run.2) /\
  rpcs (Reconcile "default" "r1" sample_run.2).2
  = (rpcs sample_run.2 ++ plan (sample_topology (Some sample_old) (Some sample_new)))%list.
Proof.
  pose proof (Reconcile_idempotent "default" "r1" (sample_topology (Some sample_old) (Some sample_new))
    (sample_cluster None reply_ok) sample_run.2) as Hall.
  split.
  - destruct (Hall (sim_read sample_run.2)) as [Hc _];
      [apply sample_cluster_coherent|vm_compute; reflexivity..|]. apply Hc. vm_compute. reflexivity.
  - destruct (Hall sample_run.2) as [_ Hs]; [apply sample_cluster_coherent|vm_compute; reflexivity..|].
    destruct Hs as (r & e2 & R & P & _); [apply sample_run_coherent|vm_compute; reflexivity|].
    rewrite R. apply P. pose proof (f_equal fst R) as Hr. vm_compute in Hr. by injection Hr as <-.
Defined.

(** A daemon that answers false without a gRPC error is taken for a
    success: the sender returns nil although the response was tested. *)
Theorem sendLinks_swallows_false (t : Topology) (l : Link) (ls : list Link) (db0 : gmap (string * string) Topology) :
  (AddLinks t (l :: ls) (mkSim db0 [] None (Ok (mk_pb_BoolResponse false)) ∅ 0 0)).1 = Val None /\
  (DelLinks t (l :: ls) (mkSim db0 [] None (Ok (mk_pb_BoolResponse false)) ∅ 0 0)).1 = Val None /\
  (UpdateLinks t (l :: ls) (mkSim db0 [] None (Ok (mk_pb_BoolResponse false)) ∅ 0 0)).1 = Val None.
Proof. done. Qed.

(** ** Concurrent edits of the spec

    A cluster in which users edit the spec between two reads: [race_edits] are
    the edits still to come, one after each read. *)

Record RaceCluster := mkRace {
  race_edits : list (option (list Link));
  race_obj : Topology;
  race_log : list (string * rpc_request)
}.

Definition race_next (e : RaceCluster) : RaceCluster :=
  match race_edits e with
  | [] => e
  | spec :: rest =>
      let t := race_obj e in
      mkRace rest (mkTopology (Name t) (Namespace t) (Finalizers t) (ResourceVersion t + 1)
                     (mkTopologySpec spec) (Status t)) (race_log e)
  end.

#[export] Instance RaceCluster_client : K8sClient RaceCluster := {|
  client_Get ns name e := (Ok (race_obj e), race_next e);
  client_StatusUpdate t e :=
    if (ResourceVersion (race_obj e) =? ResourceVersion t)%Z
    then (None, mkRace (race_edits e) (sim_bump t (race_obj e)) (race_log e))
    else (Some (mkError Conflict "conflict"), e)
|}.

#[export] Instance RaceCluster_grpc : GrpcClient RaceCluster := {|
  grpc_Dial _ e := (None, e);
  grpc_Invoke target _ req e :=
    (reply_ok, mkRace (race_edits e) (race_obj e) (race_log e ++ [(target, req)])%list)
|}.

(** The links a logged request carries. *)
Definition request_links (r : rpc_request) : list pb_Link :=
  match r with
  | ReqAddLinks q | ReqDelLinks q | ReqUpdateLinks q => lbq_Links q
  | _ => []
  end.

(** An edit of the spec that arrives between the two reads of one
    [Reconcile] is lost: there is a run in which a link added by such an edit
    is recorded in the status as set up, both this and the next [Reconcile]
    succeed, and no RPC ever mentions the link. *)
Theorem Reconcile_loses_concurrent_edit :
  exists (e e1 e2 : RaceCluster) (lost : Link),
    Reconcile "default" "r1" e = (Val None, e1) /\
    Reconcile "default" "r1" e1 = (Val None, e2) /\
    spec_Links (Spec (race_obj e2)) = status_Links (Status (race_obj e2)) /\
    (lost ∈ slice (status_Links (Status (race_obj e2)))) /\
    (lost ∉ slice (status_Links (Status (race_obj e)))) /\
    Forall (fun c => Link_ToProto lost ∉ request_links c.2) (race_log e2).
Proof.
  pose (e := mkRace [Some (sample_old ++ [sample_link 3 sample_props])%list]
               (sample_topology (Some [sample_link 1 sample_props]) (Some sample_old)) []).
  exists e, (Reconcile "default" "r1" e).2,
    (Reconcile "default" "r1" (Reconcile "default" "r1" e).2).2, (sample_link 3 sample_props).
  split_and!; [reflexivity|reflexivity|reflexivity| | |];
    decide_now.
Qed.
