(* ===== verification/Bpf.v ===== *)
(** * The BPF loader of the TCP/IP bypass

    [bpf/main.go] and the loaders bpf2go generated ([redir_bpf.go],
    [sockops_bpf.go], [redir_disable_bpf.go]).  The ebpf library, the cgroup
    query and the system calls are the class [Ebpf]; a pointer to a loaded map
    or program is an [option] of its handle.  [EbpfLaws] describes the calls by
    what they leave open, attached and mounted. *)

From stdpp Require Import base strings gmap list.
From Stdlib Require Import ZArith Lia.
From S2P Require Import Prelude.

Local Open Scope string_scope.

(** ** The library *)

Class Ebpf (E : Type) := {
  (** [ebpf.LoadCollectionSpecFromReader] on an embedded object file. *)
  ebpf_LoadCollectionSpec : string -> eff E (result Z);
  (** [spec.LoadAndAssign(obj, opts)]: the handle for each [ebpf] tag of the
      structure's fields; the structure is untouched when it fails. *)
  ebpf_LoadAndAssign : Z -> list string -> string -> eff E (result (string -> option Z));
  (** [m.FD()] of a map. *)
  map_FD : Z -> eff E Z;
  (** [link.RawAttachProgram] and [link.RawDetachProgram] of a verdict program
      to a socket map: target, program. *)
  link_RawAttachProgram : Z -> option Z -> eff E (option error);
  link_RawDetachProgram : Z -> option Z -> eff E (option error);
  (** [link.AttachCgroup] of a sock_ops program to a path; it gets a nil program
      when the loading failed, and may panic on it. *)
  link_AttachCgroup : string -> option Z -> go E (result Z);
  link_Close : Z -> eff E (option error);
  map_Unpin : Z -> eff E (option error);
  (** [Close] of a map or a program; on a nil pointer it does nothing. *)
  ebpf_Close : Z -> eff E (option error);
  cgroupv2_Enabled : eff E (bool * option error);
  unix_Setrlimit_memlock : eff E (option error);
  os_MkdirAll : string -> eff E (option error);
  os_Stat : string -> eff E (option error);
  os_IsNotExist : error -> bool;
  (** [unix.Statfs]: the type of the file system at a path. *)
  unix_Statfs : string -> eff E (result Z);
  (** [unix.Mount(source, target, fstype, 0, empty)]. *)
  unix_Mount : string -> string -> string -> eff E (option error)
}.

(** ** The generated loaders *)

Module Redir.
Record redirPrograms := mkPrograms { BpfRedirProxy : option Z }.
Record redirMaps := mkMaps {
  DebugMap : option Z; MapActiveEstab : option Z; MapProxy : option Z; MapRedir : option Z
}.
Record redirObjects := mkObjects { redirPrograms_of : redirPrograms; redirMaps_of : redirMaps }.
End Redir.

Module Sockops.
Record sockopsPrograms := mkPrograms { BpfSockmap : option Z }.
Record sockopsMaps := mkMaps {
  DebugMap : option Z; MapActiveEstab : option Z; MapProxy : option Z; MapRedir : option Z
}.
Record sockopsObjects := mkObjects { sockopsPrograms_of : sockopsPrograms; sockopsMaps_of : sockopsMaps }.
End Sockops.

Module RedirDisable.
Record redir_disableMaps := mkMaps {
  DebugMap : option Z; MapActiveEstab : option Z; MapProxy : option Z; MapRedir : option Z
}.
(** [redir_disablePrograms] has no fields. *)
Record redir_disableObjects := mkObjects { redir_disableMaps_of : redir_disableMaps }.
End RedirDisable.

Record BypassProgram := mkBypassProgram {
  sockops_Obj : Sockops.sockopsObjects;
  redir_Obj : Redir.redirObjects;
  SockopsCgroup : option Z
}.

(** [var prog BypassProgram]. *)
Definition no_program : BypassProgram :=
  mkBypassProgram
    (Sockops.mkObjects (Sockops.mkPrograms None) (Sockops.mkMaps None None None None))
    (Redir.mkObjects (Redir.mkPrograms None) (Redir.mkMaps None None None None))
    None.

Definition map_tags : list string := ["debug_map"; "map_active_estab"; "map_proxy"; "map_redir"].

Section Loaders.
  Context {E : Type} `{Ebpf E}.
  Local Open Scope go_scope.

Definition loadRedir : go E (result Z) :=
  r <- call (ebpf_LoadCollectionSpec "redir_bpf.o") ;;
  match r with
  | Err e => ret (Err (errorf ("can't load redir: " ++ err_msg e)))
  | Ok spec => ret (Ok spec)
  end.

Definition loadRedirObjects (obj : Redir.redirObjects) (pinPath : string)
  : go E (Redir.redirObjects * option error) :=
  r <- loadRedir ;;
  match r with
  | Err e => ret (obj, Some e)
  | Ok spec =>
      r <- call (ebpf_LoadAndAssign spec ("bpf_redir_proxy" :: map_tags) pinPath) ;;
      match r with
      | Err e => ret (obj, Some e)
      | Ok f =>
          ret (Redir.mkObjects (Redir.mkPrograms (f "bpf_redir_proxy"))
                 (Redir.mkMaps (f "debug_map") (f "map_active_estab") (f "map_proxy") (f "map_redir")), None)
      end
  end.

Definition loadSockops : go E (result Z) :=
  r <- call (ebpf_LoadCollectionSpec "sockops_bpf.o") ;;
  match r with
  | Err e => ret (Err (errorf ("can't load sockops: " ++ err_msg e)))
  | Ok spec => ret (Ok spec)
  end.

Definition loadSockopsObjects (obj : Sockops.sockopsObjects) (pinPath : string)
  : go E (Sockops.sockopsObjects * option error) :=
  r <- loadSockops ;;
  match r with
  | Err e => ret (obj, Some e)
  | Ok spec =>
      r <- call (ebpf_LoadAndAssign spec ("bpf_sockmap" :: map_tags) pinPath) ;;
      match r with
      | Err e => ret (obj, Some e)
      | Ok f =>
          ret (Sockops.mkObjects (Sockops.mkPrograms (f "bpf_sockmap"))
                 (Sockops.mkMaps (f "debug_map") (f "map_active_estab") (f "map_proxy") (f "map_redir")), None)
      end
  end.

Definition loadRedir_disable : go E (result Z) :=
  r <- call (ebpf_LoadCollectionSpec "redir_disable_bpf.o") ;;
  match r with
  | Err e => ret (Err (errorf ("can't load redir_disable: " ++ err_msg e)))
  | Ok spec => ret (Ok spec)
  end.

Definition loadRedir_disableObjects (obj : RedirDisable.redir_disableObjects) (pinPath : string)
  : go E (RedirDisable.redir_disableObjects * option error) :=
  r <- loadRedir_disable ;;
  match r with
  | Err e => ret (obj, Some e)
  | Ok spec =>
      r <- call (ebpf_LoadAndAssign spec map_tags pinPath) ;;
      match r with
      | Err e => ret (obj, Some e)
      | Ok f =>
          ret (RedirDisable.mkObjects
                 (RedirDisable.mkMaps (f "debug_map") (f "map_active_estab") (f "map_proxy") (f "map_redir")), None)
      end
  end.

(** [Close] of a pointer. *)
Definition close_ptr (p : option Z) : go E (option error) :=
  match p with
  | Some h => call (ebpf_Close h)
  | None => ret None
  end.

(** The loop the three packages' [Close] helpers share ([_RedirClose],
    [_SockopsClose], [_Redir_disableClose]): the first error ends it. *)
Fixpoint close_all (closers : list (go E (option error))) : go E (option error) :=
  match closers with
  | [] => ret None
  | closer :: rest =>
      err <- closer ;;
      match err with
      | Some e => ret (Some e)
      | None => close_all rest
      end
  end.

Definition redirMaps_Close (m : Redir.redirMaps) : go E (option error) :=
  close_all [close_ptr (Redir.DebugMap m); close_ptr (Redir.MapActiveEstab m);
             close_ptr (Redir.MapProxy m); close_ptr (Redir.MapRedir m)].

Definition redirPrograms_Close (p : Redir.redirPrograms) : go E (option error) :=
  close_all [close_ptr (Redir.BpfRedirProxy p)].

Definition redirObjects_Close (o : Redir.redirObjects) : go E (option error) :=
  close_all [redirPrograms_Close (Redir.redirPrograms_of o); redirMaps_Close (Redir.redirMaps_of o)].

Definition sockopsMaps_Close (m : Sockops.sockopsMaps) : go E (option error) :=
  close_all [close_ptr (Sockops.DebugMap m); close_ptr (Sockops.MapActiveEstab m);
             close_ptr (Sockops.MapProxy m); close_ptr (Sockops.MapRedir m)].

Definition sockopsPrograms_Close (p : Sockops.sockopsPrograms) : go E (option error) :=
  close_all [close_ptr (Sockops.BpfSockmap p)].

Definition sockopsObjects_Close (o : Sockops.sockopsObjects) : go E (option error) :=
  close_all [sockopsPrograms_Close (Sockops.sockopsPrograms_of o); sockopsMaps_Close (Sockops.sockopsMaps_of o)].

Definition redir_disableMaps_Close (m : RedirDisable.redir_disableMaps) : go E (option error) :=
  close_all [close_ptr (RedirDisable.DebugMap m); close_ptr (RedirDisable.MapActiveEstab m);
             close_ptr (RedirDisable.MapProxy m); close_ptr (RedirDisable.MapRedir m)].

Definition redir_disablePrograms_Close : go E (option error) := close_all [].

Definition redir_disableObjects_Close (o : RedirDisable.redir_disableObjects) : go E (option error) :=
  close_all [redir_disablePrograms_Close; redir_disableMaps_Close (RedirDisable.redir_disableMaps_of o)].

(** ** [bpf/main.go] *)

(** [unix.BPF_FS_MAGIC]. *)
Definition FilesystemTypeBPFFS : Z := 3405662737.
Definition MapsRoot : string := "/sys/fs/bpf".
Definition MapsPinpath : string := "/sys/fs/bpf/tc/globals".

Definition SetLimit : go E (option error) := call unix_Setrlimit_memlock.

Definition getCgroupPath : go E (string * option error) :=
  '(enabled, err) <- call cgroupv2_Enabled ;;
  ret (if negb enabled then "/sys/fs/cgroup" ++ "/" ++ "unified" else "/sys/fs/cgroup", err).

(** [m.FD()]: a nil map is dereferenced. *)
Definition ptr_FD (m : option Z) : go E Z :=
  match m with
  | Some h => call (map_FD h)
  | None => panic "invalid memory address or nil pointer dereference"
  end.

(** Errors are printed; the one returned is that of loading sockops (the
    [err] of the last [if] is a variable of its own). *)
Definition LoadProgram (prog : BypassProgram) : go E (BypassProgram * option error) :=
  _err <- call (os_MkdirAll MapsPinpath) ;;
  '(redir, _err) <- loadRedirObjects (redir_Obj prog) MapsPinpath ;;
  target <- ptr_FD (Redir.MapRedir (Redir.redirMaps_of redir)) ;;
  _err <- call (link_RawAttachProgram target (Redir.BpfRedirProxy (Redir.redirPrograms_of redir))) ;;
  '(sockops, err) <- loadSockopsObjects (sockops_Obj prog) MapsPinpath ;;
  '(cgroupPath, err') <- getCgroupPath ;;
  match err' with
  | Some _ => ret (mkBypassProgram sockops redir (SockopsCgroup prog), err)
  | None =>
      r <- link_AttachCgroup cgroupPath (Sockops.BpfSockmap (Sockops.sockopsPrograms_of sockops)) ;;
      ret (mkBypassProgram sockops redir (match r with Ok l => Some l | Err _ => None end), err)
  end.

(** [if m != nil { m.Unpin(); m.Close() }]. *)
Definition release_map (m : option Z) : go E unit :=
  match m with
  | Some h => _err <- call (map_Unpin h) ;; _err <- call (ebpf_Close h) ;; ret tt
  | None => ret tt
  end.

Definition CloseProgram (prog : BypassProgram) : go E unit :=
  (match SockopsCgroup prog with
   | Some l => _err <- call (link_Close l) ;; ret tt
   | None => ret tt
   end) ;;
  let redir := redir_Obj prog in
  (match Redir.BpfRedirProxy (Redir.redirPrograms_of redir) with
   | Some p =>
       target <- ptr_FD (Redir.MapRedir (Redir.redirMaps_of redir)) ;;
       _err <- call (link_RawDetachProgram target (Some p)) ;;
       ret tt
   | None => ret tt
   end) ;;
  let maps := Sockops.sockopsMaps_of (sockops_Obj prog) in
  release_map (Sockops.MapActiveEstab maps) ;;
  release_map (Sockops.MapProxy maps) ;;
  release_map (Sockops.MapRedir maps) ;;
  release_map (Sockops.DebugMap maps).

Definition CheckOrMountBPFFSDefault : go E (option error) :=
  err <- call (os_Stat MapsRoot) ;;
  made <-
    (match err with
     | Some e =>
         if os_IsNotExist e then
           err <- call (os_MkdirAll MapsRoot) ;;
           match err with
           | Some e => ret (Some (errorf ("unable to create bpf mount directory: " ++ err_msg e)))
           | None => ret None
           end
         else ret None
     | None => ret None
     end) ;;
  match made with
  | Some e => ret (Some e)
  | None =>
      fst <- call (unix_Statfs MapsRoot) ;;
      match fst with
      | Err e => ret (Some (errorf ("statfs " ++ MapsRoot ++ ": " ++ err_msg e)))
      | Ok ty =>
          if (ty =? FilesystemTypeBPFFS)%Z then ret None
          else
            err <- call (unix_Mount MapsRoot MapsRoot "bpf") ;;
            match err with
            | Some e => ret (Some (errorf ("failed to mount " ++ MapsRoot ++ ": " ++ err_msg e)))
            | None => ret None
            end
      end
  end.

End Loaders.

(** ** What the calls leave *)

Record bpf_view := mkBpfView {
  (** Handles of loaded maps and programs. *)
  opened : gset Z;
  (** Verdict programs by the socket map they are attached to. *)
  attached : gset (Z * Z);
  (** Links of programs to cgroups. *)
  cglinks : gset Z;
  (** The type of the file system at a path. *)
  fstypes : gmap string Z
}.

Class EbpfLaws (E : Type) `{Ebpf E} := {
  bview : E -> bpf_view;
  fd_of : Z -> Z;
  law_LoadSpec o e r e' : ebpf_LoadCollectionSpec o e = (r, e') -> bview e' = bview e;
  (** Loading gives a new handle for every tag. *)
  law_LoadAndAssign spec tags pin e r e' :
    ebpf_LoadAndAssign spec tags pin e = (r, e') -> NoDup tags ->
    match r with
    | Err _ => bview e' = bview e
    | Ok f => exists hs, f <$> tags = Some <$> hs /\ NoDup hs /\
        (forall h, h ∈ hs -> h ∉ opened (bview e)) /\
        bview e' = mkBpfView (opened (bview e) ∪ list_to_set hs) (attached (bview e))
                     (cglinks (bview e)) (fstypes (bview e))
    end;
  law_FD h e r e' : map_FD h e = (r, e') -> bview e' = bview e /\ r = fd_of h;
  law_RawAttach t p e r e' :
    link_RawAttachProgram t (Some p) e = (r, e') ->
    bview e' = match r with
               | Some _ => bview e
               | None => mkBpfView (opened (bview e)) ({[(t, p)]} ∪ attached (bview e))
                           (cglinks (bview e)) (fstypes (bview e))
               end;
  (** A call that reports an error has left the program attached, if it was. *)
  law_RawDetach t p e r e' :
    link_RawDetachProgram t (Some p) e = (r, e') ->
    bview e' = match r with
               | Some _ => bview e
               | None => mkBpfView (opened (bview e)) (attached (bview e) ∖ {[(t, p)]})
                           (cglinks (bview e)) (fstypes (bview e))
               end;
  law_AttachCgroup path p e r e' :
    link_AttachCgroup path p e = (Val r, e') ->
    bview e' = match r with
               | Err _ => bview e
               | Ok l => mkBpfView (opened (bview e)) (attached (bview e))
                           ({[l]} ∪ cglinks (bview e)) (fstypes (bview e))
               end;
  (** A link whose [Close] reports an error is still there. *)
  law_link_Close l e r e' :
    link_Close l e = (r, e') ->
    bview e' = match r with
               | Some _ => bview e
               | None => mkBpfView (opened (bview e)) (attached (bview e)) (cglinks (bview e) ∖ {[l]})
                           (fstypes (bview e))
               end;
  (** A file descriptor is released by close(2) whatever it reports. *)
  law_ebpf_Close h e r e' :
    ebpf_Close h e = (r, e') ->
    bview e' = mkBpfView (opened (bview e) ∖ {[h]}) (attached (bview e)) (cglinks (bview e)) (fstypes (bview e));
  law_Unpin h e r e' : map_Unpin h e = (r, e') -> bview e' = bview e;
  law_Setrlimit e r e' : unix_Setrlimit_memlock e = (r, e') -> bview e' = bview e;
  law_Enabled e r e' : cgroupv2_Enabled e = (r, e') -> bview e' = bview e;
  law_MkdirAll p e r e' : os_MkdirAll p e = (r, e') -> bview e' = bview e;
  law_Stat p e r e' : os_Stat p e = (r, e') -> bview e' = bview e;
  law_Statfs p e r e' :
    unix_Statfs p e = (r, e') ->
    bview e' = bview e /\ (forall ty, r = Ok ty -> fstypes (bview e) !! p = Some ty);
  law_Mount s t e r e' :
    unix_Mount s t "bpf" e = (r, e') ->
    bview e' = match r with
               | Some _ => bview e
               | None => mkBpfView (opened (bview e)) (attached (bview e)) (cglinks (bview e))
                           (<[t := FilesystemTypeBPFFS]> (fstypes (bview e)))
               end
}.

(** ** Lemmas *)

(** The handles of a program, by the structure that holds them. *)
Definition redir_handles (p : BypassProgram) : gset Z :=
  let r := redir_Obj p in
  list_to_set (omap id
    [Redir.BpfRedirProxy (Redir.redirPrograms_of r);
     Redir.DebugMap (Redir.redirMaps_of r); Redir.MapActiveEstab (Redir.redirMaps_of r);
     Redir.MapProxy (Redir.redirMaps_of r); Redir.MapRedir (Redir.redirMaps_of r)]).

Definition sockops_program (p : BypassProgram) : gset Z :=
  list_to_set (omap id [Sockops.BpfSockmap (Sockops.sockopsPrograms_of (sockops_Obj p))]).

Definition sockops_maps (p : BypassProgram) : gset Z :=
  let m := Sockops.sockopsMaps_of (sockops_Obj p) in
  list_to_set (omap id [Sockops.MapActiveEstab m; Sockops.MapProxy m; Sockops.MapRedir m; Sockops.DebugMap m]).

Section BpfProofs.
  Context {E : Type} `{EbpfLaws E}.
  Implicit Types (e : E).


(** Loading five objects gives five new handles. *)
Lemma LoadAndAssign_five spec (tags : list string) pin e f e' :
  ebpf_LoadAndAssign spec tags pin e = (Ok f, e') -> NoDup tags -> length tags = 5%nat ->
  exists p a b c d, f <$> tags = Some <$> [p; a; b; c; d] /\ p ∉ [a; b; c; d] /\
    (forall h, h ∈ [p; a; b; c; d] -> h ∉ opened (bview e)) /\
    bview e' = mkBpfView (opened (bview e) ∪ list_to_set [p; a; b; c; d]) (attached (bview e))
                 (cglinks (bview e)) (fstypes (bview e)).
Proof.
  intros C Hnd Hlen. apply law_LoadAndAssign in C as (hs & Hf & Hndh & Hfresh & Hv); [|done].
  assert (length hs = 5%nat) as Hl by (by rewrite <- Hlen, <- (length_fmap f tags), Hf, length_fmap).
  destruct hs as [|p [|x [|b [|c [|d [|? hs]]]]]]; try discriminate.
  apply NoDup_cons in Hndh as [Hp _]. by exists p, x, b, c, d.
Qed.

Lemma LoadAndAssign_err spec tags pin e er e' :
  ebpf_LoadAndAssign spec tags pin e = (Err er, e') -> NoDup tags -> bview e' = bview e.
Proof. intros C Hnd. by apply law_LoadAndAssign in C. Qed.

Ltac load_wp :=
  let e1 := fresh "e1" in let C1 := fresh "C1" in
  apply wp_bind, wp_call; intros ? e1 C1; cbv beta iota; apply law_LoadSpec in C1;
  repeat wp_step; try (by split); rewrite <- C1; subst;
  lazymatch goal with
  | C2 : ebpf_LoadAndAssign _ _ _ _ = (Ok _, _) |- _ =>
      apply LoadAndAssign_five in C2 as (p & a & b & c & d & Hf & Hp & Hfresh & Hv); [|decide_now|done];
      injection Hf as -> -> -> -> ->; by exists p, a, b, c, d
  | C2 : ebpf_LoadAndAssign _ _ _ _ = (Err _, _) |- _ =>
      apply LoadAndAssign_err in C2; [done|decide_now]
  end.

Lemma loadRedirObjects_wp obj pin e :
  wp (loadRedirObjects obj pin) (fun r e' =>
    match r with
    | (o, Some _) => o = obj /\ bview e' = bview e
    | (o, None) => exists p a b c d,
        o = Redir.mkObjects (Redir.mkPrograms (Some p)) (Redir.mkMaps (Some a) (Some b) (Some c) (Some d)) /\
        p ∉ [a; b; c; d] /\ (forall h, h ∈ [p; a; b; c; d] -> h ∉ opened (bview e)) /\
        bview e' = mkBpfView (opened (bview e) ∪ list_to_set [p; a; b; c; d]) (attached (bview e))
                     (cglinks (bview e)) (fstypes (bview e))
    end) e.
Proof. unfold loadRedirObjects, loadRedir. apply wp_bind. load_wp. Qed.

Lemma loadSockopsObjects_wp obj pin e :
  wp (loadSockopsObjects obj pin) (fun r e' =>
    match r with
    | (o, Some _) => o = obj /\ bview e' = bview e
    | (o, None) => exists p a b c d,
        o = Sockops.mkObjects (Sockops.mkPrograms (Some p)) (Sockops.mkMaps (Some a) (Some b) (Some c) (Some d)) /\
        p ∉ [a; b; c; d] /\ (forall h, h ∈ [p; a; b; c; d] -> h ∉ opened (bview e)) /\
        bview e' = mkBpfView (opened (bview e) ∪ list_to_set [p; a; b; c; d]) (attached (bview e))
                     (cglinks (bview e)) (fstypes (bview e))
    end) e.
Proof. unfold loadSockopsObjects, loadSockops. apply wp_bind. load_wp. Qed.


Lemma ptr_FD_wp h e Q :
  (forall e', bview e' = bview e -> Q (fd_of h) e') -> wp (ptr_FD (Some h)) Q e.
Proof. intros HQ. apply wp_call. intros r e' [C ->]%law_FD. by apply HQ. Qed.

(** Releasing a map closes its handle, if it has one. *)
Lemma release_map_wp (m : option Z) e :
  wp (release_map m) (fun _ e' =>
    bview e' = mkBpfView (opened (bview e) ∖ list_to_set (omap id [m])) (attached (bview e))
                 (cglinks (bview e)) (fstypes (bview e))) e.
Proof.
  destruct m as [h|]; cbn [release_map omap list_omap id].
  - wp_call as r1 e1 C1. wp_call as r2 e2 C2. wp_step.
    apply law_Unpin in C1. apply law_ebpf_Close in C2. rewrite C2, C1. f_equal. set_solver.
  - wp_step. destruct (bview e); cbn. f_equal. set_solver.
Qed.

(** The four socket maps are released, whichever of them there are. *)
Lemma release_all_wp (a b c d : option Z) e :
  wp (release_map a ;; release_map b ;; release_map c ;; release_map d)%go (fun _ e' =>
    bview e' = mkBpfView (opened (bview e) ∖ list_to_set (omap id [a; b; c; d])) (attached (bview e))
                 (cglinks (bview e)) (fstypes (bview e))) e.
Proof.
  wp_use release_map_wp as [] e1 V1. wp_use release_map_wp as [] e2 V2.
  wp_use release_map_wp as [] e3 V3. wp_use release_map_wp as [] e4 V4.
  rewrite V4, V3, V2, V1. cbn. f_equal. destruct a, b, c, d; set_solver.
Qed.

(** What [LoadProgram] has loaded and attached when it returns. *)
Definition loaded (p : BypassProgram) (v v1 : bpf_view) : Prop :=
  exists pr map att,
    Redir.BpfRedirProxy (Redir.redirPrograms_of (redir_Obj p)) = Some pr /\
    Redir.MapRedir (Redir.redirMaps_of (redir_Obj p)) = Some map /\
    att ⊆ {[(fd_of map, pr)]} /\
    sockops_program p ## sockops_maps p /\
    sockops_maps p ## opened v ∪ redir_handles p /\
    v1 = mkBpfView (opened v ∪ redir_handles p ∪ sockops_program p ∪ sockops_maps p) (att ∪ attached v)
           (list_to_set (omap id [SockopsCgroup p]) ∪ cglinks v) (fstypes v).

(** What loading the sockops objects leaves to [LoadProgram]. *)
Lemma loadSockops_handles (o0 : Sockops.sockopsObjects) e redir cg :
  o0 = sockops_Obj no_program ->
  wp (loadSockopsObjects o0 MapsPinpath) (fun r e' =>
    let p := mkBypassProgram r.1 redir cg in
    sockops_program p ## sockops_maps p /\ sockops_maps p ## opened (bview e) /\
    bview e' = mkBpfView (opened (bview e) ∪ sockops_program p ∪ sockops_maps p) (attached (bview e))
                 (cglinks (bview e)) (fstypes (bview e))) e.
Proof.
  intros ->. wp_use loadSockopsObjects_wp as [o [er|]] e1 V1.
  - destruct V1 as [-> ->]. unfold sockops_program, sockops_maps. cbn.
    split; [set_solver|]. split; [set_solver|]. destruct (bview e); cbn. f_equal. set_solver.
  - destruct V1 as (p & a & b & c & d & -> & Hp & Hf & ->). unfold sockops_program, sockops_maps. cbn.
    split; [clear Hf; set_solver|]. split; [|f_equal; clear; set_solver].
    intros h Hh. apply Hf. clear -Hh. set_solver.
Qed.

Lemma LoadProgram_wlp e :
  wlp (LoadProgram no_program) (fun r e' => loaded r.1 (bview e) (bview e')) e.
Proof.
  unfold LoadProgram. wp_call as r0 e0 C0. apply law_MkdirAll in C0.
  apply wlp_bind, wlp_wp. wp_use loadRedirObjects_wp as [o er] e1 V1.
  destruct er as [er|]; [by destruct V1 as [-> _]|].
  destruct V1 as (pr & a & b & c & d & -> & _ & _ & V1). cbn [Redir.MapRedir Redir.redirMaps_of].
  apply wlp_bind, wlp_wp, ptr_FD_wp. intros e2 V2.
  wp_call as r3 e3 C3. apply law_RawAttach in C3.
  apply wlp_bind, wlp_wp. wp_use loadSockops_handles as [so er] e4 V4; [done|]. cbv beta iota zeta.
  apply wlp_bind, wlp_wp, wp_bind, wp_call. intros [en er'] e5 C5%law_Enabled. apply wp_ret.
  assert (exists att, att ⊆ {[(fd_of d, pr)]} /\
    bview e3 = mkBpfView (opened (bview e) ∪ list_to_set [pr; a; b; c; d]) (att ∪ attached (bview e))
                 (cglinks (bview e)) (fstypes (bview e))) as (att & Hatt & V3).
  { rewrite C3, V2, V1, C0. destruct r3; [exists ∅|exists {[(fd_of d, pr)]}]; split; cbn; [set_solver| |done..].
    f_equal. set_solver. }
  destruct er' as [er'|].
  - wp_step. exists pr, d, att. destruct V4 as (D1 & D2 & V4).
    do 4 (split; [done|]). rewrite V3 in D2. split; [exact D2|]. rewrite C5, V4, V3. cbn. f_equal. set_solver.
  - apply wlp_bind, wlp_intro. intros r6 e6 C6%law_AttachCgroup. wp_step.
    exists pr, d, att. destruct V4 as (D1 & D2 & V4).
    do 4 (split; [done|]). rewrite V3 in D2. split; [exact D2|]. rewrite C6, C5, V4, V3.
    destruct r6; cbn; f_equal; set_solver.
Qed.

(** Detaching, or closing the link to the cgroup, failed on something that was
    attached in the state [v]. *)
Definition detach_failed (v : bpf_view) : Prop :=
  exists t p er e e', attached (bview e) = attached v /\ (t, p) ∈ attached v /\
    link_RawDetachProgram t (Some p) e = (Some er, e').

Definition unlink_failed (v : bpf_view) : Prop :=
  exists l er e e', cglinks (bview e) = cglinks v /\ l ∈ cglinks v /\ link_Close l e = (Some er, e').

(** What is left of a program that was loaded in [v] and closed in [v1]. *)
Definition program_closed (p : BypassProgram) (v v1 v2 : bpf_view) : Prop :=
  (attached v2 ⊆ attached v \/ attached v2 = attached v1 /\ detach_failed v1) /\
  (cglinks v2 ⊆ cglinks v \/ cglinks v2 = cglinks v1 /\ unlink_failed v1) /\
  opened v2 = opened v ∪ redir_handles p ∪ sockops_program p.

Lemma CloseProgram_wp p e v :
  loaded p v (bview e) -> wp (CloseProgram p) (fun _ e' => program_closed p v (bview e) (bview e')) e.
Proof.
  intros (pr & d & att & Hpr & Hd & Hatt & D1 & D2 & V). unfold CloseProgram.
  apply wp_bind. apply (wp_mono _ (fun _ e' => exists cg,
    (cg ⊆ cglinks v \/ cg = cglinks (bview e) /\ unlink_failed (bview e)) /\
    bview e' = mkBpfView (opened (bview e)) (attached (bview e)) cg (fstypes (bview e)))).
  { destruct (SockopsCgroup p) as [l|]; repeat wp_step.
    - match goal with H : link_Close _ _ = (?r, ?s) |- _ =>
        pose proof (law_link_Close _ _ _ _ H) as V1; destruct r as [er|];
        [exists (cglinks (bview e)); split;
          [right; split; [done|]; exists l, er, e, s; split; [done|]; split; [rewrite V; cbn; set_solver|done]
          |rewrite V1; by destruct (bview e)]
        |exists (cglinks (bview e) ∖ {[l]}); split; [left; rewrite V; cbn; set_solver|done]] end.
    - exists (cglinks (bview e)). split; [left; rewrite V; cbn; set_solver|by destruct (bview e)]. }
  intros [] e1 (cg & Hcg & V1). rewrite Hpr, Hd. cbv zeta beta iota. apply wp_bind, wp_bind, ptr_FD_wp.
  intros e2 V2. wp_call as r3 e3 C3. pose proof (law_RawDetach _ _ _ _ _ C3) as V3. wp_step.
  eapply wp_mono; [apply release_all_wp|]. intros [] e4 V4. rewrite V2, V1 in V3.
  assert (bview e4 = mkBpfView (opened (bview e) ∖ sockops_maps p) (attached (bview e3)) cg (fstypes (bview e))) as V5
    by (rewrite V4, V3; by destruct r3).
  rewrite V5. split_and!; cbn; [|done|rewrite V; cbn; set_solver]. rewrite V3. destruct r3 as [er|]; cbn.
  - destruct (decide ((fd_of d, pr) ∈ attached (bview e))) as [Hin|Hin].
    + right. split; [done|]. exists (fd_of d), pr, er, e2, e3. by rewrite V2, V1.
    + left. rewrite V in *. cbn in *. set_solver.
  - left. rewrite V. cbn. set_solver.
Qed.

(** C32: loading and then closing the bypass, on whatever path the loading returned.
    Nothing is left attached that was not attached before, neither a verdict
    program on a socket map nor a program on a cgroup, unless the call that takes
    it back fails on it, an error that is only printed; of the loaded objects
    exactly the four socket maps are closed again, and the redirector's maps and
    the two programs stay loaded. *)
Theorem CloseProgram_after_Load e p err e1 :
  LoadProgram no_program e = (Val (p, err), e1) ->
  exists e2, CloseProgram p e1 = (Val tt, e2) /\
    (attached (bview e2) ⊆ attached (bview e) \/
     attached (bview e2) = attached (bview e1) /\ detach_failed (bview e1)) /\
    (cglinks (bview e2) ⊆ cglinks (bview e) \/
     cglinks (bview e2) = cglinks (bview e1) /\ unlink_failed (bview e1)) /\
    opened (bview e2) = opened (bview e) ∪ redir_handles p ∪ sockops_program p.
Proof.
  intros L. pose proof (wlp_run _ _ _ _ _ (LoadProgram_wlp e) L) as V.
  apply CloseProgram_wp, wp_exists in V as ([] & e2 & Hrun & HQ). by exists e2.
Qed.

(** When the redirector's objects cannot be loaded, [LoadProgram] prints the
    error and goes on, and the nil map it then asks for its descriptor ends
    the process. *)
Theorem LoadProgram_panics e e1 e2 obj er :
  os_MkdirAll MapsPinpath e = (None, e1) ->
  loadRedirObjects (redir_Obj no_program) MapsPinpath e1 = (Val (obj, Some er), e2) ->
  exists w, LoadProgram no_program e = (Panic w, e2).
Proof.
  intros C1 C2. pose proof (wp_run _ _ _ _ _ (loadRedirObjects_wp _ _ _) C2) as [-> _].
  eexists. unfold LoadProgram, bind, call at 1. rewrite C1. cbn beta iota. by rewrite C2.
Qed.

(** When the check succeeds there is a BPF file system at [MapsRoot], and
    nothing else changed; one that is there already is left alone. *)
Theorem CheckOrMount_ensures e :
  wp CheckOrMountBPFFSDefault (fun r e' =>
    match r with
    | Some _ => bview e' = bview e
    | None => fstypes (bview e') !! MapsRoot = Some FilesystemTypeBPFFS /\
        bview e' = mkBpfView (opened (bview e)) (attached (bview e)) (cglinks (bview e))
                     (<[MapsRoot := FilesystemTypeBPFFS]> (fstypes (bview e)))
    end) e.
Proof.
  unfold CheckOrMountBPFFSDefault. wp_call as r0 e0 C0. apply law_Stat in C0.
  apply wp_bind. apply (wp_mono _ (fun _ e' => bview e' = bview e)).
  { repeat wp_step; try done; match goal with H : os_MkdirAll _ _ = _ |- _ => apply law_MkdirAll in H end; congruence. }
  intros [er|] e1 C1; [by wp_step|]. wp_call as r2 e2 C2. apply law_Statfs in C2 as [C2 Hty].
  destruct r2 as [ty|er]; [|wp_step; congruence]. case_match.
  - wp_step. assert (ty = FilesystemTypeBPFFS) as -> by lia. specialize (Hty _ eq_refl).
    rewrite C1 in Hty. rewrite C2, C1. rewrite insert_id by done. by destruct (bview e).
  - wp_call as r3 e3 C3. apply law_Mount in C3. destruct r3; wp_step; [congruence|].
    rewrite C3, C2, C1. cbn. by rewrite lookup_insert_eq.
Qed.

End BpfProofs.

(** ** A simulated node

    Handles count up from [sb_next]; [sb_bad] names the object files that
    cannot be read. *)

Record sim_bpf := mkSimBpf { sb_next : Z; sb_bad : list string; sb_view : bpf_view }.

Definition sb_set (e : sim_bpf) (v : bpf_view) : sim_bpf := mkSimBpf (sb_next e) (sb_bad e) v.

(** Five handles at most: the position of the tag. *)
Definition sb_assign (next : Z) (tags : list string) (t : string) : option Z :=
  (fun i : nat * string => next + Z.of_nat i.1)%Z <$> list_find (fun x => x = t) tags.

#[export] Instance SimEbpf : Ebpf sim_bpf := {
  ebpf_LoadCollectionSpec o e :=
    (if bool_decide (o ∈ sb_bad e) then Err (errorf "bad object") else Ok 0%Z, e);
  ebpf_LoadAndAssign _ tags _ e :=
    let v := sb_view e in
    let hs := (fun i : nat => sb_next e + Z.of_nat i)%Z <$> seq 0 (length tags) in
    if bool_decide (Forall (fun h => h ∉ opened v) hs) && bool_decide (NoDup tags) then
      (Ok (sb_assign (sb_next e) tags),
       mkSimBpf (sb_next e + Z.of_nat (length tags)) (sb_bad e)
         (mkBpfView (opened v ∪ list_to_set hs) (attached v) (cglinks v) (fstypes v)))
    else (Err (errorf "cannot load"), e);
  map_FD h e := (h, e);
  link_RawAttachProgram t p e :=
    match p with
    | Some p =>
        let v := sb_view e in
        (None, sb_set e (mkBpfView (opened v) ({[(t, p)]} ∪ attached v) (cglinks v) (fstypes v)))
    | None => (Some (errorf "no program"), e)
    end;
  link_RawDetachProgram t p e :=
    match p with
    | Some p =>
        let v := sb_view e in
        (None, sb_set e (mkBpfView (opened v) (attached v ∖ {[(t, p)]}) (cglinks v) (fstypes v)))
    | None => (Some (errorf "no program"), e)
    end;
  link_AttachCgroup _ p e :=
    match p with
    | Some _ =>
        let v := sb_view e in
        (Val (Ok (sb_next e)),
         mkSimBpf (sb_next e + 1) (sb_bad e)
           (mkBpfView (opened v) (attached v) ({[sb_next e]} ∪ cglinks v) (fstypes v)))
    | None => (Panic "nil program", e)
    end;
  link_Close l e :=
    let v := sb_view e in
    (None, sb_set e (mkBpfView (opened v) (attached v) (cglinks v ∖ {[l]}) (fstypes v)));
  map_Unpin _ e := (None, e);
  ebpf_Close h e :=
    let v := sb_view e in
    (None, sb_set e (mkBpfView (opened v ∖ {[h]}) (attached v) (cglinks v) (fstypes v)));
  cgroupv2_Enabled e := (true, None, e);
  unix_Setrlimit_memlock e := (None, e);
  os_MkdirAll _ e := (None, e);
  os_Stat _ e := (None, e);
  os_IsNotExist e := IsNotFound e;
  unix_Statfs p e :=
    (match fstypes (sb_view e) !! p with Some ty => Ok ty | None => Err (errorf "no such file") end, e);
  unix_Mount _ t ty e :=
    let v := sb_view e in
    if bool_decide (ty = "bpf") then
      (None, sb_set e (mkBpfView (opened v) (attached v) (cglinks v) (<[t := FilesystemTypeBPFFS]> (fstypes v))))
    else (Some (errorf "unknown file system"), e)
}.

(** The tags of a structure get the handles in order. *)
Lemma sb_assign_tags next tags :
  NoDup tags ->
  sb_assign next tags <$> tags = Some <$> ((fun i : nat => next + Z.of_nat i)%Z <$> seq 0 (length tags)).
Proof.
  intros Hnd. apply list_eq. intros i. rewrite !list_lookup_fmap.
  destruct (tags !! i) as [t|] eqn:Ht; cbn.
  - rewrite lookup_seq_lt by (by eapply lookup_lt_Some). cbn. unfold sb_assign.
    assert (list_find (fun x => x = t) tags = Some (i, t)) as ->; [|done].
    apply list_find_Some. split; [done|]. split; [done|]. intros j y Hj Hlt ->.
    pose proof (NoDup_lookup _ _ _ _ Hnd Hj Ht). lia.
  - rewrite lookup_seq_ge; [done|]. by apply lookup_ge_None.
Qed.

#[export] Instance SimEbpfLaws : EbpfLaws sim_bpf.
Proof.
  refine {| bview := sb_view; fd_of h := h |}; cbn; intros; simplify_eq; try done.
  - case_match eqn:Hc; simplify_eq; [|done]. apply andb_true_iff in Hc as [Hf%bool_decide_eq_true _].
    eexists. split; [by apply sb_assign_tags|]. split; [|split; [|done]].
    + apply NoDup_fmap_2; [intros x y ?; lia|apply NoDup_seq].
    + by apply Forall_forall.
  - case_match; by simplify_eq.
  - split; [done|]. intros ty Hty. by case_match; simplify_eq.
  - rewrite bool_decide_true in * by done. by simplify_eq.
Defined.

(** ** Witnesses *)

Definition bpf_node (bad : list string) : sim_bpf :=
  mkSimBpf 10 bad (mkBpfView {[3%Z]} {[(3, 4)%Z]} ∅ {[MapsRoot := 61267%Z]}).

Definition bpf_loaded : (BypassProgram * option error) * sim_bpf :=
  match LoadProgram no_program (bpf_node []) with
  | (Val r, e) => (r, e)
  | (_, e) => ((no_program, None), e)
  end.

Lemma CloseProgram_after_Load_witness :
  opened (sb_view bpf_loaded.2) = list_to_set [3; 10; 11; 12; 13; 14; 15; 16; 17; 18; 19]%Z /\
  attached (sb_view bpf_loaded.2) = {[(3, 4); (14, 10)]}%Z /\
  exists e2, CloseProgram bpf_loaded.1.1 bpf_loaded.2 = (Val tt, e2) /\
    attached (bview e2) ⊆ attached (bview (bpf_node [])) /\ cglinks (bview e2) ⊆ cglinks (bview (bpf_node [])) /\
    opened (bview e2) = opened (bview (bpf_node [])) ∪ redir_handles bpf_loaded.1.1 ∪ sockops_program bpf_loaded.1.1.
Proof.
  split; [decide_now|]. split; [decide_now|].
  destruct (CloseProgram_after_Load (bpf_node []) bpf_loaded.1.1 bpf_loaded.1.2 bpf_loaded.2)
    as (e2 & Hr & Ha & Hc & Ho); [vm_compute; reflexivity|].
  exists e2. split; [exact Hr|]. split; [|split; [|exact Ho]].
  - destruct Ha as [Ha|[_ (t & p & er & e & e' & _ & _ & Hf)]]; [exact Ha|discriminate Hf].
  - destruct Hc as [Hc|[_ (l & er & e & e' & _ & _ & Hf)]]; [exact Hc|discriminate Hf].
Defined.

Lemma LoadProgram_panics_witness :
  exists w, LoadProgram no_program (bpf_node ["redir_bpf.o"]) = (Panic w, bpf_node ["redir_bpf.o"]).
Proof.
  apply (LoadProgram_panics _ (bpf_node ["redir_bpf.o"]) _ (redir_Obj no_program)
           (errorf "can't load redir: bad object")); vm_compute; reflexivity.
Defined.

(** A node without the file system gets it. *)
Lemma CheckOrMount_witness :
  let '(r, e) := CheckOrMountBPFFSDefault (bpf_node []) in
  r = Val None /\ fstypes (sb_view e) !! MapsRoot = Some FilesystemTypeBPFFS.
Proof. vm_compute. done. Defined.
