(* ===== verification/DeepCopy.v ===== *)
(** * Deep copies of the resource types

    [api/v1/zz_generated.deepcopy.go] over a memory of blocks.  A structure is
    a value that may hold slices: headers that point into a block.  The
    metadata structures come from the Kubernetes libraries, so their types,
    what they point to and their [DeepCopyInto] are parameters.

    [DeepCopyInto] first assigns the whole receiver to its argument, so it is
    modelled as the function from the value of the receiver to the value it
    leaves in the argument, with its effects on memory.  The class [Reach]
    states, for a type of values in memory, what they stand for and which
    blocks they reach; a copy is isolated when it reaches new blocks only. *)

From stdpp Require Import base strings gmap list fin_maps.
From Stdlib Require Import ZArith Lia.
From S2P Require Import Prelude GoStr Proto ApiV1.

Local Open Scope string_scope.

(** ** Memory *)

(** A slice that is not nil: [s_len] elements of a block, from [s_off]. *)
Record gslice := mkSlice { s_addr : Z; s_off : nat; s_len : nat; s_cap : nat }.

(** A pointer that is not nil: an element of a block. *)
Record ptr := mkPtr { p_addr : Z; p_idx : nat }.

Record TypeMeta := mkTypeMeta { Kind : string; APIVersion : string }.

Record mTopologySpec := mkMSpec { m_Links : option gslice }.

Record mTopologyStatus := mkMStatus {
  m_Skipped : option gslice; m_SrcIP : string; m_NetNs : string; m_status_Links : option gslice
}.

(** [OM], [LM]: [metav1.ObjectMeta] and [metav1.ListMeta]; [O]: the contents of
    a block only they point to. *)
Record mTopology (OM : Type) := mkMTopology {
  m_TypeMeta : TypeMeta; m_ObjectMeta : OM; m_Spec : mTopologySpec; m_Status : mTopologyStatus
}.
Arguments mkMTopology {OM}.
Arguments m_TypeMeta {OM}.
Arguments m_ObjectMeta {OM}.
Arguments m_Spec {OM}.
Arguments m_Status {OM}.

Record mTopologyList (LM : Type) := mkMTopologyList {
  ml_TypeMeta : TypeMeta; ml_ListMeta : LM; ml_Items : option gslice
}.
Arguments mkMTopologyList {LM}.
Arguments ml_TypeMeta {LM}.
Arguments ml_ListMeta {LM}.
Arguments ml_Items {LM}.

Inductive block (OM LM O : Type) :=
| BLinks (x : list Link)
| BProps (x : list LinkProperties)
| BStrings (x : list string)
| BSpecs (x : list mTopologySpec)
| BStatuses (x : list mTopologyStatus)
| BTopologies (x : list (mTopology OM))
| BLists (x : list (mTopologyList LM))
| BOther (x : O).
Arguments BLinks {OM LM O}.
Arguments BProps {OM LM O}.
Arguments BStrings {OM LM O}.
Arguments BSpecs {OM LM O}.
Arguments BStatuses {OM LM O}.
Arguments BTopologies {OM LM O}.
Arguments BLists {OM LM O}.
Arguments BOther {OM LM O}.

Abbreviation Mem OM LM O := (gmap Z (block OM LM O)).

(** The element types of blocks, with their zero values. *)
Class Elem (OM LM O A : Type) := {
  inj_block : list A -> block OM LM O;
  proj_block : block OM LM O -> option (list A);
  zero : A;
  proj_inj l : proj_block (inj_block l) = Some l
}.

(** [DeepCopyInto] of the metadata, and the zero values. *)
Class Meta (OM LM O : Type) := {
  ObjectMeta_DeepCopyInto : OM -> eff (Mem OM LM O) OM;
  ListMeta_DeepCopyInto : LM -> eff (Mem OM LM O) LM;
  zero_OM : OM;
  zero_LM : LM
}.

Definition zero_props : LinkProperties := mkLinkProperties "" "" "" "" "" "" 0 "" "" "" "" "" "".
Definition zero_link : Link := mkLink "" "" "" "" "" "" "" 0 zero_props.
Definition zero_mspec : mTopologySpec := mkMSpec None.
Definition zero_mstatus : mTopologyStatus := mkMStatus None "" "" None.

Section Elements.
  Context {OM LM O : Type}.

#[export] Instance elem_link : Elem OM LM O Link :=
  {| inj_block := BLinks; proj_block b := match b with BLinks x => Some x | _ => None end;
     zero := zero_link; proj_inj l := eq_refl |}.

#[export] Instance elem_props : Elem OM LM O LinkProperties :=
  {| inj_block := BProps; proj_block b := match b with BProps x => Some x | _ => None end;
     zero := zero_props; proj_inj l := eq_refl |}.

#[export] Instance elem_string : Elem OM LM O string :=
  {| inj_block := BStrings; proj_block b := match b with BStrings x => Some x | _ => None end;
     zero := ""; proj_inj l := eq_refl |}.

#[export] Instance elem_spec : Elem OM LM O mTopologySpec :=
  {| inj_block := BSpecs; proj_block b := match b with BSpecs x => Some x | _ => None end;
     zero := zero_mspec; proj_inj l := eq_refl |}.

#[export] Instance elem_status : Elem OM LM O mTopologyStatus :=
  {| inj_block := BStatuses; proj_block b := match b with BStatuses x => Some x | _ => None end;
     zero := zero_mstatus; proj_inj l := eq_refl |}.

#[export] Instance elem_topology `{Meta OM LM O} : Elem OM LM O (mTopology OM) :=
  {| inj_block := BTopologies; proj_block b := match b with BTopologies x => Some x | _ => None end;
     zero := mkMTopology (mkTypeMeta "" "") zero_OM zero_mspec zero_mstatus; proj_inj l := eq_refl |}.

#[export] Instance elem_list `{Meta OM LM O} : Elem OM LM O (mTopologyList LM) :=
  {| inj_block := BLists; proj_block b := match b with BLists x => Some x | _ => None end;
     zero := mkMTopologyList (mkTypeMeta "" "") zero_LM None; proj_inj l := eq_refl |}.

End Elements.

(** ** Operations of the language *)

Section Language.
  Context {OM LM O A : Type} `{!Elem OM LM O A}.
  Local Abbreviation mem := (Mem OM LM O).
  Local Open Scope go_scope.

(** The elements of a block, if it is one of this type. *)
Definition block_at (m : mem) (a : Z) : option (list A) := m !! a ≫= proj_block.

(** A new block. *)
Definition alloc_block (l : list A) : go mem Z :=
  fun m => let a := fresh (dom m) in (Val a, <[a := inj_block l]> m).

(** [make([]A, n)]. *)
Definition make (n : nat) : go mem gslice :=
  a <- alloc_block (replicate n zero) ;; ret (mkSlice a 0 n n).

(** [new(A)]. *)
Definition new : go mem ptr := a <- alloc_block [zero] ;; ret (mkPtr a 0).

(** [s[i]]. *)
Definition index (s : gslice) (i : nat) : go mem A :=
  fun m =>
    match (if (i <? s_len s)%nat then block_at m (s_addr s) ≫= (.!! (s_off s + i)%nat) else None) with
    | Some x => (Val x, m)
    | None => (Panic "index out of range", m)
    end.

(** [s[i] = x]. *)
Definition set_index (s : gslice) (i : nat) (x : A) : go mem unit :=
  fun m =>
    match (if (i <? s_len s)%nat then block_at m (s_addr s) else None) with
    | Some l => (Val tt, <[s_addr s := inj_block (<[(s_off s + i)%nat := x]> l)]> m)
    | None => (Panic "index out of range", m)
    end.

(** [*p] and [*p = x] of a pointer that is not nil. *)
Definition deref (p : ptr) : go mem A := index (mkSlice (p_addr p) (p_idx p) 1 1) 0.
Definition assign (p : ptr) (x : A) : go mem unit := set_index (mkSlice (p_addr p) (p_idx p) 1 1) 0 x.

(** [for i := range src { body }], from an index on. *)
Fixpoint for_range (i n : nat) (body : nat -> go mem unit) : go mem unit :=
  match n with
  | 0 => ret tt
  | S n => body i ;; for_range (S i) n body
  end.

(** [copy(dst, src)], element by element; the code only copies into a new
    slice, so there is no overlap. *)
Definition copy (dst src : gslice) : go mem unit :=
  for_range 0 (min (s_len dst) (s_len src)) (fun i => x <- index src i ;; set_index dst i x).

End Language.

(** ** [zz_generated.deepcopy.go] *)

Section Copies.
  Context {OM LM O : Type} `{!Meta OM LM O}.
  Local Abbreviation mem := (Mem OM LM O).
  Local Open Scope go_scope.

Definition Link_DeepCopyInto (in_ : Link) : go mem Link :=
  let out := in_ in
  ret (mkLink (LocalIntf out) (LocalIP out) (LocalMAC out) (PeerIntf out) (PeerIP out) (PeerMAC out)
         (PeerPod out) (UID out) (Properties in_)).

Definition LinkProperties_DeepCopyInto (in_ : LinkProperties) : go mem LinkProperties := ret in_.

(** The copy of a slice of values without pointers. *)
Definition copy_slice (A : Type) `{!Elem OM LM O A} (in_ : option gslice) : go mem (option gslice) :=
  match in_ with
  | Some s => out <- make (A := A) (s_len s) ;; copy (A := A) out s ;; ret (Some out)
  | None => ret None
  end.

Definition TopologySpec_DeepCopyInto (in_ : mTopologySpec) : go mem mTopologySpec :=
  links <- copy_slice Link (m_Links in_) ;; ret (mkMSpec links).

Definition TopologyStatus_DeepCopyInto (in_ : mTopologyStatus) : go mem mTopologyStatus :=
  skipped <- copy_slice string (m_Skipped in_) ;;
  links <- copy_slice Link (m_status_Links in_) ;;
  ret (mkMStatus skipped (m_SrcIP in_) (m_NetNs in_) links).

Definition Topology_DeepCopyInto (in_ : mTopology OM) : go mem (mTopology OM) :=
  meta <- call (ObjectMeta_DeepCopyInto (m_ObjectMeta in_)) ;;
  spec <- TopologySpec_DeepCopyInto (m_Spec in_) ;;
  status <- TopologyStatus_DeepCopyInto (m_Status in_) ;;
  ret (mkMTopology (m_TypeMeta in_) meta spec status).

Definition TopologyList_DeepCopyInto (in_ : mTopologyList LM) : go mem (mTopologyList LM) :=
  meta <- call (ListMeta_DeepCopyInto (ml_ListMeta in_)) ;;
  items <-
    (match ml_Items in_ with
     | Some s =>
         out <- make (A := mTopology OM) (s_len s) ;;
         for_range 0 (s_len s) (fun i =>
           x <- index s i ;; y <- Topology_DeepCopyInto x ;; set_index out i y) ;;
         ret (Some out)
     | None => ret None
     end) ;;
  ret (mkMTopologyList (ml_TypeMeta in_) meta items).

(** The [DeepCopy] methods: nil for nil, else a new variable the receiver is
    copied into. *)
Definition DeepCopy_with {A} `{!Elem OM LM O A} (into : A -> go mem A) (in_ : option ptr) : go mem (option ptr) :=
  match in_ with
  | None => ret None
  | Some p =>
      out <- new (A := A) ;;
      x <- deref p ;;
      y <- into x ;;
      assign out y ;;
      ret (Some out)
  end.

Definition Link_DeepCopy : option ptr -> go mem (option ptr) := DeepCopy_with Link_DeepCopyInto.
Definition LinkProperties_DeepCopy : option ptr -> go mem (option ptr) := DeepCopy_with LinkProperties_DeepCopyInto.
Definition Topology_DeepCopy : option ptr -> go mem (option ptr) := DeepCopy_with Topology_DeepCopyInto.
Definition TopologyList_DeepCopy : option ptr -> go mem (option ptr) := DeepCopy_with TopologyList_DeepCopyInto.
Definition TopologySpec_DeepCopy : option ptr -> go mem (option ptr) := DeepCopy_with TopologySpec_DeepCopyInto.
Definition TopologyStatus_DeepCopy : option ptr -> go mem (option ptr) := DeepCopy_with TopologyStatus_DeepCopyInto.

(** A [runtime.Object]: nil, or the type that says which methods it has and a
    pointer. *)
Inductive Object := OTopology (p : ptr) | OTopologyList (p : ptr).

Definition Topology_DeepCopyObject (in_ : option ptr) : go mem (option Object) :=
  c <- Topology_DeepCopy in_ ;;
  match c with
  | Some c => ret (Some (OTopology c))
  | None => ret None
  end.

Definition TopologyList_DeepCopyObject (in_ : option ptr) : go mem (option Object) :=
  c <- TopologyList_DeepCopy in_ ;;
  match c with
  | Some c => ret (Some (OTopologyList c))
  | None => ret None
  end.

End Copies.

(** ** What a value in memory stands for *)

(** [valid]: every pointer leads to a block that is there, within its bounds;
    [refs]: the blocks reached.  Both, and the meaning, depend on no other
    block. *)
Class Reach (OM LM O A V : Type) := {
  value : Mem OM LM O -> A -> V;
  refs : Mem OM LM O -> A -> gset Z;
  valid : Mem OM LM O -> A -> Prop;
  valid_refs m a : valid m a -> refs m a ⊆ dom m;
  reach_local m m' a :
    valid m a -> (forall x, x ∈ refs m a -> m' !! x = m !! x) ->
    valid m' a /\ value m' a = value m a /\ refs m' a = refs m a
}.

(** A copy: the same meaning, in new blocks, with every other block as it was. *)
Definition copied {OM LM O A V} `{!Reach OM LM O A V} (m : Mem OM LM O) (a : A) (a' : A) (m' : Mem OM LM O)
  : Prop :=
  m ⊆ m' /\ valid m' a' /\ value m' a' = value m a /\ refs m' a' ## dom m.

Definition copier {OM LM O A V} `{!Reach OM LM O A V} (into : A -> go (Mem OM LM O) A) : Prop :=
  forall m a, valid m a -> wp (into a) (fun a' m' => copied m a a' m') m.

(** The documented behaviour of the metadata's [DeepCopyInto]. *)
Class MetaLaws (OM LM O MV LV : Type) `{!Meta OM LM O} := {
  #[global] reach_OM :: Reach OM LM O OM MV;
  #[global] reach_LM :: Reach OM LM O LM LV;
  law_OM_copy : copier (fun o => call (ObjectMeta_DeepCopyInto o));
  law_LM_copy : copier (fun o => call (ListMeta_DeepCopyInto o))
}.

Section ReachInstances.
  Context {OM LM O : Type}.
  Local Abbreviation mem := (Mem OM LM O).

(** Values without pointers. *)
Program Definition reach_flat (A : Type) : Reach OM LM O A A :=
  {| value m a := a; refs m a := ∅; valid m a := True |}.
Solve Obligations with (intros; set_solver).

#[export] Instance reach_link : Reach OM LM O Link Link := reach_flat Link.
#[export] Instance reach_props : Reach OM LM O LinkProperties LinkProperties := reach_flat LinkProperties.
#[export] Instance reach_string : Reach OM LM O string string := reach_flat string.

(** A pair reaches what its parts reach. *)
#[export] Program Instance reach_prod {A B V W} `{!Reach OM LM O A V, !Reach OM LM O B W}
  : Reach OM LM O (A * B) (V * W) :=
  {| value m p := (value m p.1, value m p.2); refs m p := refs m p.1 ∪ refs m p.2;
     valid m p := valid m p.1 /\ valid m p.2 |}.
Next Obligation. intros A B V W R1 R2 m [a b] [Ha Hb]. apply valid_refs in Ha, Hb. set_solver. Qed.
Next Obligation.
  intros A B V W R1 R2 m m' [a b] [Ha Hb] Hm.
  destruct (reach_local m m' a) as (? & ? & ?), (reach_local m m' b) as (? & ? & ?); [set_solver..|].
  cbn. by split; [|split; f_equal].
Qed.

(** A structure reaches what its pointers reach. *)
Program Definition reach_via {A V B W} (R : Reach OM LM O A V) (f : B -> A) (g : B -> V -> W)
  : Reach OM LM O B W :=
  {| value m b := g b (value m (f b)); refs m b := refs m (f b); valid m b := valid m (f b) |}.
Next Obligation. intros. by apply valid_refs. Qed.
Next Obligation.
  intros A V B W R f g m m' b Hb Hm. destruct (reach_local m m' (f b)) as (? & -> & ->); done.
Qed.

Section Slices.
  Context {A V : Type} `{!Elem OM LM O A, !Reach OM LM O A V}.

Definition elements (m : mem) (s : gslice) : list A :=
  take (s_len s) (drop (s_off s) (default [] (block_at m (s_addr s)))).

Definition slice_valid (m : mem) (s : gslice) : Prop :=
  match block_at (A := A) m (s_addr s) with
  | Some l => (s_off s + s_len s <= length l)%nat
  | None => False
  end /\ Forall (valid m) (elements m s).

Definition slice_refs (m : mem) (s : gslice) : gset Z := {[s_addr s]} ∪ ⋃ (refs m <$> elements m s).

Lemma slice_local m m' s :
  slice_valid m s -> (forall x, x ∈ slice_refs m s -> m' !! x = m !! x) ->
  elements m' s = elements m s /\ slice_valid m' s /\ value m' <$> elements m s = value m <$> elements m s /\
  slice_refs m' s = slice_refs m s.
Proof.
  unfold slice_refs. intros [Hs Hv] Hm.
  assert (block_at (A := A) m' (s_addr s) = block_at m (s_addr s)) as Hb.
  { unfold block_at. rewrite (Hm (s_addr s)) by set_solver. done. }
  assert (elements m' s = elements m s) as He by (unfold elements; by rewrite Hb).
  assert (Forall (fun a => valid m' a /\ value m' a = value m a /\ refs m' a = refs m a) (elements m s)) as Hl.
  { rewrite Forall_forall in Hv |- *. intros a Ha. apply reach_local; [by apply Hv|].
    intros x Hx. apply Hm. apply elem_of_union_r, elem_of_union_list. exists (refs m a).
    split; [|done]. apply list_elem_of_fmap. by exists a. }
  split; [done|]. split; [|split].
  - unfold slice_valid. rewrite Hb, He. split; [done|]. eapply Forall_impl; [done|]. by intros a (? & _).
  - apply list_fmap_ext. intros i a Ha. rewrite Forall_lookup in Hl. by apply (Hl i).
  - rewrite He. f_equal. f_equal. apply list_fmap_ext. intros i a Ha. rewrite Forall_lookup in Hl. by apply (Hl i).
Qed.

(** A slice, nil or not. *)
Program Definition reach_slice : Reach OM LM O (option gslice) (option (list V)) :=
  {| value m o := (fun s => value m <$> elements m s) <$> o;
     refs m o := from_option (slice_refs m) ∅ o;
     valid m o := from_option (slice_valid m) True o |}.
Next Obligation.
  intros m [s|] Hv x Hx; [|set_solver]. destruct Hv as [Hs Hv].
  cbn in Hx. unfold slice_refs in Hx. apply elem_of_union in Hx as [Hx|Hx].
  - apply elem_of_singleton in Hx as ->. unfold block_at in Hs. apply elem_of_dom.
    destruct (m !! s_addr s); [by eexists|done].
  - apply elem_of_union_list in Hx as (X & HX & Hx). apply list_elem_of_fmap in HX as (a & -> & Ha).
    rewrite Forall_forall in Hv. by apply (valid_refs m a (Hv a Ha)).
Qed.
Next Obligation.
  intros m m' [s|] Hv Hm; [|done]. destruct (slice_local m m' s Hv Hm) as (He & Hv' & Hval & Hr). cbn.
  split; [done|]. split; [|done]. by rewrite He, Hval.
Qed.

End Slices.
End ReachInstances.

Section Structures.
  Context {OM LM O MV LV : Type} `{!Meta OM LM O, !MetaLaws OM LM O MV LV}.

(** The values of the structures are the resource types of [ApiV1]. *)
#[export] Instance reach_spec : Reach OM LM O mTopologySpec TopologySpec :=
  reach_via (reach_slice (A := Link)) m_Links (fun _ => mkTopologySpec).

#[export] Instance reach_status : Reach OM LM O mTopologyStatus TopologyStatus :=
  reach_via (reach_prod (A := option gslice) (B := option gslice)
               (Reach0 := reach_slice (A := string)) (Reach1 := reach_slice (A := Link)))
    (fun s => (m_Skipped s, m_status_Links s))
    (fun s v => mkTopologyStatus v.1 (m_SrcIP s) (m_NetNs s) v.2).

#[export] Instance reach_topology
  : Reach OM LM O (mTopology OM) (TypeMeta * (MV * (TopologySpec * TopologyStatus))) :=
  reach_via (reach_prod (A := OM) (B := mTopologySpec * mTopologyStatus))
    (fun t => (m_ObjectMeta t, (m_Spec t, m_Status t))) (fun t v => (m_TypeMeta t, v)).

#[export] Instance reach_topologylist
  : Reach OM LM O (mTopologyList LM)
      (TypeMeta * (LV * option (list (TypeMeta * (MV * (TopologySpec * TopologyStatus)))))) :=
  reach_via (reach_prod (A := LM) (B := option gslice) (Reach1 := reach_slice (A := mTopology OM)))
    (fun l => (ml_ListMeta l, ml_Items l)) (fun l v => (ml_TypeMeta l, v)).

End Structures.

(** A variable behind a pointer is a slice of one element. *)
Definition ptr_slice (p : ptr) : gslice := mkSlice (p_addr p) (p_idx p) 1 1.

Definition reach_ptr {OM LM O A V} `{!Elem OM LM O A, !Reach OM LM O A V} : Reach OM LM O (option ptr) (option V) :=
  reach_via (reach_slice (A := A)) (fmap ptr_slice) (fun _ v => v ≫= head).

(** ** Lemmas *)

Section CopyProofs.
  Context {OM LM O : Type}.
  Local Abbreviation mem := (Mem OM LM O).
  Local Open Scope go_scope.

Lemma block_at_mono {A} `{!Elem OM LM O A} (m m' : mem) a l :
  m ⊆ m' -> block_at (A := A) m a = Some l -> block_at m' a = Some l.
Proof.
  unfold block_at. intros Hm Ha. destruct (m !! a) as [b|] eqn:Hb; [|done].
  by rewrite (lookup_weaken _ _ _ _ Hb Hm).
Qed.

Lemma block_at_insert {A} `{!Elem OM LM O A} (m : mem) a (l : list A) :
  block_at (<[a := inj_block l]> m) a = Some l.
Proof. unfold block_at. rewrite lookup_insert_eq. cbn. apply proj_inj. Qed.

(** A larger memory changes nothing for what is valid already. *)
Lemma reach_mono {A V} `{!Reach OM LM O A V} (m m' : mem) (a : A) :
  valid m a -> m ⊆ m' -> valid m' a /\ value m' a = value m a /\ refs m' a = refs m a.
Proof.
  intros Ha Hm. apply reach_local; [done|]. intros x Hx. apply valid_refs in Ha.
  assert (x ∈ dom m) as Hd by set_solver. apply elem_of_dom in Hd as [b Hb]. rewrite Hb. by eapply lookup_weaken.
Qed.

(** Copying one part after the other copies the whole. *)
Lemma copied_seq {A B V W} `{!Reach OM LM O A V, !Reach OM LM O B W} (m m1 m2 : mem) (a a' : A) (b b' : B) :
  valid m b -> copied m a a' m1 -> copied m1 b b' m2 -> copied m (a, b) (a', b') m2.
Proof.
  intros Hb (Hm1 & Va & Ea & Ra) (Hm2 & Vb & Eb & Rb).
  destruct (reach_mono m1 m2 a' Va Hm2) as (Va' & Ea' & Ra').
  destruct (reach_mono m m1 b Hb Hm1) as (_ & Eb1 & _).
  split; [by etrans|]. split; [done|]. cbn. split; [congruence|].
  rewrite Ra'. apply subseteq_dom in Hm1. set_solver.
Qed.

Lemma copied_via {A V B W} (R : Reach OM LM O A V) (f : B -> A) (g : B -> V -> W) (m m' : mem) (b b' : B) :
  copied m (f b) (f b') m' -> (forall v, g b' v = g b v) ->
  copied (Reach0 := reach_via R f g) m b b' m'.
Proof. intros (Hm & Vb & Eb & Rb) Hg. split; [done|]. split; [done|]. cbn. by rewrite Hg, Eb. Qed.

(** A copier can be called in any larger memory. *)
Lemma copier_wp {A V} `{!Reach OM LM O A V} (into : A -> go mem A) (m m1 : mem) (a : A) :
  copier into -> valid m a -> m ⊆ m1 ->
  wp (into a) (fun a' m' => copied m1 a a' m' /\ value m1 a = value m a) m1.
Proof.
  intros Hc Ha Hm. destruct (reach_mono m m1 a Ha Hm) as (Ha' & E & _).
  eapply wp_mono; [by apply Hc|]. done.
Qed.

Section Loop.
  Context {A V : Type} `{!Elem OM LM O A, !Reach OM LM O A V}.
  Context (into : A -> go mem A) (Hinto : copier into) (m0 : mem) (s out : gslice).
  Context (Hs : slice_valid (A := A) m0 s) (Hout : s_addr out ∉ dom m0) (Hoff : s_off out = 0%nat)
          (Hlen : s_len out = s_len s).

(** An element of the copy: it stands for the source's, in new blocks other
    than the one the copy is written to. *)
Definition elem_copied (m : mem) (x y : A) : Prop :=
  valid m y /\ value m y = value m0 x /\ refs m y ## dom m0 /\ s_addr out ∉ refs m y.

Definition copy_one (i : nat) : go mem unit :=
  x <- index s i ;; y <- into x ;; set_index out i y.

(** [i] elements are copied. *)
Definition loop_inv (i : nat) (m : mem) : Prop :=
  m0 ⊆ m /\ exists ys : list A, block_at m (s_addr out) = Some (ys ++ replicate (s_len s - i) zero)%list /\
    Forall2 (elem_copied m) (take i (elements m0 s)) ys.

Lemma elem_copied_keep m m' x y :
  (forall a, a <> s_addr out -> is_Some (m !! a) -> m' !! a = m !! a) -> elem_copied m x y -> elem_copied m' x y.
Proof.
  intros Hm (Vy & Ey & Ry & Oy).
  destruct (reach_local m m' y Vy) as (? & E & R).
  { intros a Ha. apply Hm; [set_solver|]. apply valid_refs in Vy. apply elem_of_dom. set_solver. }
  unfold elem_copied. rewrite E, R. done.
Qed.

Lemma source_elements :
  exists l, block_at m0 (s_addr s) = Some l /\ elements m0 s = take (s_len s) (drop (s_off s) l) /\
    length (elements m0 s) = s_len s.
Proof.
  destruct Hs as [Hb _]. unfold elements. destruct (block_at m0 (s_addr s)) as [l|]; [|done].
  exists l. split; [done|]. split; [done|]. cbn. rewrite length_take, length_drop. lia.
Qed.

Lemma copy_one_wp i m :
  (i < s_len s)%nat -> loop_inv i m -> wp (copy_one i) (fun _ => loop_inv (S i)) m.
Proof.
  intros Hi (Hm & ys & Hb & Hys). destruct source_elements as (l & Hl & He & Hle).
  assert (exists x, elements m0 s !! i = Some x) as [x Hx] by (apply lookup_lt_is_Some_2; lia).
  assert (length ys = i) as Hly by (apply Forall2_length in Hys; rewrite length_take in Hys; lia).
  apply wp_bind. unfold wp at 1, index. replace (i <? s_len s)%nat with true by (symmetry; apply Nat.ltb_lt; lia).
  rewrite (block_at_mono _ _ _ _ Hm Hl). cbn.
  assert (l !! (s_off s + i)%nat = Some x) as ->.
  { rewrite He, lookup_take_lt, lookup_drop in Hx by lia. done. }
  assert (valid m0 x) as Vx by (destruct Hs as [_ Hv]; rewrite Forall_lookup in Hv; by eapply Hv).
  apply wp_bind. eapply wp_mono; [by apply (copier_wp into m0)|].
  intros y m1 [(Hm1 & Vy & Ey & Ry) Ex]. unfold wp, set_index.
  replace (i <? s_len out)%nat with true by (symmetry; apply Nat.ltb_lt; lia).
  rewrite (block_at_mono _ _ _ _ Hm1 Hb), Hoff. cbn.
  assert (m0 ⊆ m1) as Hm01 by (by etrans).
  split; [by apply insert_subseteq_r; [apply not_elem_of_dom|]|].
  assert (is_Some (m !! s_addr out)) as Ho.
  { unfold block_at in Hb. destruct (m !! s_addr out); [by eexists|done]. }
  exists (ys ++ [y])%list. rewrite block_at_insert. split.
  - f_equal. rewrite insert_app_r_alt, Hly, Nat.sub_diag by lia.
    replace (s_len s - i)%nat with (S (s_len s - S i)) by lia. cbn. by rewrite <- app_assoc.
  - rewrite (take_S_r _ _ _ Hx). apply Forall2_app; [|constructor; [|constructor]].
    + eapply Forall2_impl; [done|]. intros x' y'. apply elem_copied_keep. intros a Ha [b Hb'].
      rewrite lookup_insert_ne by done. rewrite Hb'. by eapply lookup_weaken.
    + apply (elem_copied_keep m1).
      { intros a Ha _. by rewrite lookup_insert_ne. }
      split; [done|]. split; [congruence|]. apply subseteq_dom in Hm. apply elem_of_dom in Ho. set_solver.
Qed.

Lemma copy_loop_wp n i m :
  (i + n = s_len s)%nat -> loop_inv i m -> wp (for_range i n copy_one) (fun _ => loop_inv (s_len s)) m.
Proof.
  revert i m. induction n as [|n IH]; intros i m Hn Hi; cbn.
  - apply wp_ret. assert (i = s_len s) as -> by lia. done.
  - apply wp_bind. eapply wp_mono; [apply copy_one_wp; [lia|done]|]. intros [] m' Hi'. apply IH; [lia|done].
Qed.

(** After the last element the slice is copied. *)
Lemma loop_done m :
  loop_inv (s_len s) m -> copied (Reach0 := reach_slice (A := A)) m0 (Some s) (Some out) m.
Proof.
  intros (Hm & ys & Hb & Hys). destruct source_elements as (l & Hl & He & Hle).
  rewrite take_ge in Hys by lia. rewrite Nat.sub_diag, app_nil_r in Hb.
  assert (elements m out = ys) as Hel.
  { unfold elements. rewrite Hb, Hoff, Hlen, drop_0. cbn. apply Forall2_length in Hys. rewrite take_ge; [done|lia]. }
  split; [done|]. cbn. unfold slice_valid, slice_refs. rewrite Hel, Hb, Hoff, Hlen.
  pose proof (Forall2_length _ _ _ Hys) as Hlen'.
  split; [split; [lia|]|split].
  - apply Forall_forall. intros y Hy. apply list_elem_of_lookup_1 in Hy as [j Hy].
    destruct (Forall2_lookup_r _ _ _ _ _ Hys Hy) as (x & _ & Vy & _). done.
  - f_equal. apply list_eq. intros j. rewrite !list_lookup_fmap.
    destruct (ys !! j) as [y|] eqn:Hy.
    + destruct (Forall2_lookup_r _ _ _ _ _ Hys Hy) as (x & -> & _ & E & _). cbn. by rewrite E.
    + apply lookup_ge_None in Hy. rewrite lookup_ge_None_2; [done|lia].
  - apply disjoint_union_l. split; [set_solver|]. intros a Ha Hd. apply elem_of_union_list in Ha as (X & HX & Ha).
    apply list_elem_of_fmap in HX as (y & -> & Hy). apply list_elem_of_lookup_1 in Hy as [j Hy].
    destruct (Forall2_lookup_r _ _ _ _ _ Hys Hy) as (x & _ & _ & _ & D & _). set_solver.
Qed.

End Loop.

(** Allocation: a block at a new address, with the rest as it was. *)
Lemma alloc_block_wp {A} `{!Elem OM LM O A} (l : list A) (m : mem) :
  wp (alloc_block l) (fun a m' => a ∉ dom m /\ m ⊆ m' /\ block_at m' a = Some l) m.
Proof.
  unfold wp, alloc_block. split; [apply is_fresh|]. split; [|apply block_at_insert].
  apply insert_subseteq, not_elem_of_dom, is_fresh.
Qed.

(** The body of a copy: a new slice, filled element by element. *)
Lemma fill_wp {A V} `{!Elem OM LM O A, !Reach OM LM O A V} (into : A -> go mem A) s (m : mem) :
  copier into -> slice_valid (A := A) m s ->
  wp (out <- make (A := A) (s_len s) ;; for_range 0 (s_len s) (copy_one into s out) ;; ret (Some out))
    (fun o m' => copied (Reach0 := reach_slice (A := A)) m (Some s) o m') m.
Proof.
  intros Hc Hs. apply wp_bind, wp_bind. eapply wp_mono; [apply alloc_block_wp|]. intros a m1 (Ha & Hm & Hb).
  apply wp_ret, wp_bind. set (out := mkSlice a 0 (s_len s) (s_len s)).
  eapply wp_mono; [apply (copy_loop_wp into Hc m s out Hs Ha eq_refl eq_refl); [done|]|].
  { split; [done|]. exists []. rewrite Nat.sub_0_r. split; [done|constructor]. }
  intros [] m2 Hi. apply wp_ret. by eapply loop_done.
Qed.

Lemma copied_nil {A V} `{!Elem OM LM O A, !Reach OM LM O A V} (m : mem) :
  copied (Reach0 := reach_slice (A := A)) m None None m.
Proof. split; [done|]. split; [done|]. split; [done|]. apply disjoint_empty_l. Qed.

Lemma copier_flat {A} (R := reach_flat (OM := OM) (LM := LM) (O := O) A) : copier (fun a : A => ret a).
Proof. intros m a _. apply wp_ret. split; [done|]. split; [done|]. split; [done|]. apply disjoint_empty_l. Qed.

(** [copy] of values without pointers. *)
Lemma copy_slice_copier {A} `{!Elem OM LM O A} (R := reach_flat (OM := OM) (LM := LM) (O := O) A) :
  copier (Reach0 := reach_slice (A := A)) (copy_slice A).
Proof.
  intros m [s|] Hs; [|apply wp_ret, copied_nil].
  pose proof (fill_wp (fun a => ret a) s m copier_flat Hs) as Hw.
  unfold wp, copy_slice, make, bind, alloc_block, ret in Hw |- *. unfold copy. cbn [s_len] in *.
  rewrite Nat.min_id. exact Hw.
Qed.

Section Resources.
  Context {MV LV : Type} `{!Meta OM LM O, !MetaLaws OM LM O MV LV}.

Lemma Link_copier : copier (Link_DeepCopyInto : Link -> go mem (Link)).
Proof. intros m [] _. by apply copier_flat. Qed.

Lemma LinkProperties_copier : copier (LinkProperties_DeepCopyInto : LinkProperties -> go mem (LinkProperties)).
Proof. intros m p _. by apply copier_flat. Qed.

Lemma Spec_copier : copier (TopologySpec_DeepCopyInto : mTopologySpec -> go mem (mTopologySpec)).
Proof.
  intros m s Hs. apply wp_bind. eapply wp_mono; [by apply copy_slice_copier|].
  intros links m' Hc. apply wp_ret. by apply copied_via.
Qed.

Lemma Status_copier : copier (TopologyStatus_DeepCopyInto : mTopologyStatus -> go mem (mTopologyStatus)).
Proof.
  intros m s [H1 H2]. apply wp_bind. eapply wp_mono; [by apply copy_slice_copier|].
  intros skipped m1 C1. apply wp_bind.
  eapply wp_mono; [apply copy_slice_copier; eapply reach_mono; [exact H2|apply C1]|].
  intros links m2 C2. apply wp_ret. apply copied_via; [|done]. by eapply copied_seq.
Qed.

Lemma Topology_copier : copier (Topology_DeepCopyInto : mTopology OM -> go mem (mTopology OM)).
Proof.
  intros m t (H1 & H2 & H3). apply wp_bind. eapply wp_mono; [by apply law_OM_copy|].
  intros meta m1 C1. apply wp_bind.
  eapply wp_mono; [apply Spec_copier; eapply reach_mono; [exact H2|apply C1]|].
  intros spec m2 C2. apply wp_bind.
  eapply wp_mono; [apply Status_copier; eapply reach_mono; [exact H3|etrans; [apply C1|apply C2]]|].
  intros status m3 C3. apply wp_ret. apply copied_via; [|done].
  eapply copied_seq; [by split|done|]. eapply copied_seq; [|done..]. eapply reach_mono; [exact H3|apply C1].
Qed.

Lemma TopologyList_copier : copier (TopologyList_DeepCopyInto : mTopologyList LM -> go mem (mTopologyList LM)).
Proof.
  intros m l [H1 H2]. apply wp_bind. eapply wp_mono; [by apply law_LM_copy|].
  intros meta m1 C1. apply wp_bind.
  apply (wp_mono _ (fun items m2 => copied (Reach0 := reach_slice (A := mTopology OM)) m1 (ml_Items l) items m2)).
  - destruct (ml_Items l) as [s|]; [|apply wp_ret, copied_nil].
    apply (fill_wp Topology_DeepCopyInto); [apply Topology_copier|].
    apply (reach_mono (Reach0 := reach_slice (A := mTopology OM)) m m1 (Some s)); [exact H2|apply C1].
  - intros items m2 C2. apply wp_ret. apply copied_via; [|done]. by eapply copied_seq.
Qed.

End Resources.

(** A pointer to a new variable filled by a copier is a copy of the pointer. *)
Lemma DeepCopy_copier {A V} `{!Elem OM LM O A, !Reach OM LM O A V} (into : A -> go mem A) :
  copier into -> copier (Reach0 := reach_ptr (A := A)) (DeepCopy_with into).
Proof.
  intros Hc m [p|] Hv; [|by apply wp_ret, copied_via; [apply copied_nil|]].
  pose proof (fill_wp into (ptr_slice p) m Hc Hv) as Hw.
  unfold wp, DeepCopy_with, new, deref, assign, make, copy_one, bind, ret, alloc_block in Hw |- *.
  cbn [for_range s_len ptr_slice replicate p_addr p_idx] in Hw |- *. unfold bind, ret in Hw.
  fold (ptr_slice p). destruct (index (ptr_slice p) 0 _) as [[x| |] m1]; try done.
  destruct (into x m1) as [[y| |] m2]; try done.
  destruct (set_index _ 0 y m2) as [[[]| |] m3]; try done. by apply copied_via.
Qed.

(** What a copy gives its user: the same meaning, and from then on neither
    side sees what is written through the other. *)
Lemma copied_isolated {A V} `{!Reach OM LM O A V} (m m' : mem) (a a' : A) :
  valid m a -> copied m a a' m' ->
  value m' a' = value m a /\ value m' a = value m a /\
  (forall x b, x ∈ refs m' a' -> value (<[x := b]> m') a = value m a) /\
  (forall x b, x ∈ dom m -> value (<[x := b]> m') a' = value m a).
Proof.
  intros Va (Hm & Va' & E & R). destruct (reach_mono m m' a Va Hm) as (Vm & Em & Rm).
  pose proof (valid_refs m a Va) as Ha. split; [done|]. split; [done|]. split; intros x b Hx.
  - rewrite <- Em. apply reach_local; [done|]. intros z Hz. apply lookup_insert_ne. set_solver.
  - rewrite <- E. apply reach_local; [done|]. intros z Hz. apply lookup_insert_ne. set_solver.
Qed.

Lemma ptr_value_None {A V} `{!Elem OM LM O A, !Reach OM LM O A V} (m : mem) (p : option ptr) :
  valid (Reach := reach_ptr (A := A)) m p ->
  value (Reach := reach_ptr (A := A)) m p = None <-> p = None.
Proof.
  intros Hv. destruct p as [p|]; [|done]. split; [|done]. cbn in *. destruct Hv as [Hb _].
  unfold elements. cbn in *. destruct (block_at m (p_addr p)) as [l|]; [|done]. cbn.
  destruct (drop (p_idx p) l) as [|x l'] eqn:Hd; [|done].
  apply (f_equal length) in Hd. rewrite length_drop in Hd. cbn in Hd. lia.
Qed.

Lemma DeepCopy_isolated {A V} `{!Elem OM LM O A, !Reach OM LM O A V} (into : A -> go mem A)
    (R := reach_ptr (A := A)) (m : mem) (p : option ptr) :
  copier into -> valid m p ->
  wp (DeepCopy_with into p) (fun q m' =>
    (q = None <-> p = None) /\ value m' q = value m p /\
    (forall x b, x ∈ refs m' q -> value (<[x := b]> m') p = value m p) /\
    (forall x b, x ∈ dom m -> value (<[x := b]> m') q = value m p)) m.
Proof.
  intros Hc Hv. eapply wp_mono; [by apply DeepCopy_copier|]. intros q m' C.
  destruct (copied_isolated m m' p q Hv C) as (E & _ & H1 & H2). split; [|done].
  rewrite <- (ptr_value_None m p Hv), <- (ptr_value_None m' q) by apply C. unfold R in E. by rewrite E.
Qed.

Section Theorems.
  Context {MV LV : Type} `{!Meta OM LM O, !MetaLaws OM LM O MV LV}.
  Local Abbreviation topology_at m p := (value (Reach := reach_ptr (A := mTopology OM)) m p).
  Local Abbreviation list_at m p := (value (Reach := reach_ptr (A := mTopologyList LM)) m p).

(** [DeepCopy] of a topology returns nil for nil, and otherwise a pointer to
    a topology with the same type, metadata, spec and status (a nil slice
    stays nil, an empty one stays empty); writing to any block the copy
    reaches leaves the original as it was, and writing to any block that was
    there before leaves the copy as it was. *)
Theorem Topology_DeepCopy_isolated (m : mem) (p : option ptr) :
  valid (Reach := reach_ptr (A := mTopology OM)) m p ->
  wp (Topology_DeepCopy p) (fun q m' =>
    (q = None <-> p = None) /\ topology_at m' q = topology_at m p /\
    (forall x b, x ∈ refs (Reach := reach_ptr (A := mTopology OM)) m' q ->
       topology_at (<[x := b]> m') p = topology_at m p) /\
    (forall x b, x ∈ dom m -> topology_at (<[x := b]> m') q = topology_at m p)) m.
Proof. apply DeepCopy_isolated, Topology_copier. Qed.

(** C33: the same for a list of topologies, each of whose items is copied by the
    loop over [Items]. *)
Theorem TopologyList_DeepCopy_isolated (m : mem) (p : option ptr) :
  valid (Reach := reach_ptr (A := mTopologyList LM)) m p ->
  wp (TopologyList_DeepCopy p) (fun q m' =>
    (q = None <-> p = None) /\ list_at m' q = list_at m p /\
    (forall x b, x ∈ refs (Reach := reach_ptr (A := mTopologyList LM)) m' q ->
       list_at (<[x := b]> m') p = list_at m p) /\
    (forall x b, x ∈ dom m -> list_at (<[x := b]> m') q = list_at m p)) m.
Proof. apply DeepCopy_isolated, TopologyList_copier. Qed.

End Theorems.
End CopyProofs.

(** ** An instance

    Metadata with a name and a slice of finalizers, which [DeepCopyInto]
    copies like the slices above, and list metadata without pointers. *)

Record sim_meta := mkSimMeta { sm_name : string; sm_finalizers : option gslice }.

Abbreviation SimMem := (Mem sim_meta string unit).

(** A computation that cannot fail on valid data, as a call. *)
Definition to_eff {S A} (dflt : A) (m : go S A) : eff S A :=
  fun s => match m s with (Val a, s') => (a, s') | (_, s') => (dflt, s') end.

Definition sim_om_copy (o : sim_meta) : eff SimMem sim_meta :=
  to_eff o (f <- copy_slice string (sm_finalizers o) ;; ret (mkSimMeta (sm_name o) f))%go.

#[export] Instance SimMeta : Meta sim_meta string unit :=
  {| ObjectMeta_DeepCopyInto := sim_om_copy; ListMeta_DeepCopyInto l := fun m => (l, m);
     zero_OM := mkSimMeta "" None; zero_LM := "" |}.

Definition reach_sim_meta : Reach sim_meta string unit sim_meta (string * option (list string)) :=
  reach_via (reach_slice (A := string)) sm_finalizers (fun o v => (sm_name o, v)).

Lemma to_eff_wp {S A} dflt (m : go S A) Q s : wp m Q s -> wp (call (to_eff dflt m)) Q s.
Proof. unfold wp, call, to_eff. by destruct (m s) as [[a| |] s']. Qed.

#[export] Instance SimMetaLaws : MetaLaws sim_meta string unit (string * option (list string)) string.
Proof.
  refine {| reach_OM := reach_sim_meta; reach_LM := reach_flat string |}.
  - intros m o Ho. apply to_eff_wp, wp_bind. eapply wp_mono; [by apply copy_slice_copier|].
    intros f m' Hc. apply wp_ret. by apply copied_via.
  - intros m l _. by apply copier_flat.
Defined.

(** ** Witnesses *)

Definition sample_mem : SimMem :=
  list_to_map
    [(1%Z, BTopologies [mkMTopology (mkTypeMeta "Topology" "v1") (mkSimMeta "r1" (Some (mkSlice 2 0 1 1)))
                          (mkMSpec (Some (mkSlice 3 0 2 2))) (mkMStatus None "" "" (Some (mkSlice 3 1 0 1)))]);
     (2%Z, BStrings ["finalizer"]);
     (3%Z, BLinks [zero_link; mkLink "eth1" "" "" "eth2" "" "" "r2" 7 zero_props]);
     (4%Z, BLists [mkMTopologyList (mkTypeMeta "TopologyList" "v1") "42" (Some (mkSlice 1 0 1 1))])].

Definition sample_topology_ptr : option ptr := Some (mkPtr 1 0).
Definition sample_list_ptr : option ptr := Some (mkPtr 4 0).

Lemma sample_topology_valid : valid (Reach := reach_ptr (A := mTopology sim_meta)) sample_mem sample_topology_ptr.
Proof. vm_compute. repeat (constructor || exact I). Qed.

Lemma sample_list_valid : valid (Reach := reach_ptr (A := mTopologyList string)) sample_mem sample_list_ptr.
Proof. vm_compute. repeat (constructor || exact I). Qed.

(** The status' links of the sample share a block with the spec's and are
    empty but not nil; the copy has them in blocks of their own. *)
Lemma Topology_DeepCopy_witness :
  (exists q m', Topology_DeepCopy sample_topology_ptr sample_mem = (Val (Some q), m') /\
     m' !! p_addr q =
       Some (BTopologies [mkMTopology (mkTypeMeta "Topology" "v1") (mkSimMeta "r1" (Some (mkSlice 6 0 1 1)))
                            (mkMSpec (Some (mkSlice 7 0 2 2))) (mkMStatus None "" "" (Some (mkSlice 8 0 0 0)))])) /\
  wp (Topology_DeepCopy sample_topology_ptr) (fun q m' =>
    (q = None <-> sample_topology_ptr = None) /\
    value (Reach := reach_ptr (A := mTopology sim_meta)) m' q =
      value (Reach := reach_ptr (A := mTopology sim_meta)) sample_mem sample_topology_ptr /\
    (forall x b, x ∈ refs (Reach := reach_ptr (A := mTopology sim_meta)) m' q ->
       value (Reach := reach_ptr (A := mTopology sim_meta)) (<[x := b]> m') sample_topology_ptr =
       value (Reach := reach_ptr (A := mTopology sim_meta)) sample_mem sample_topology_ptr) /\
    (forall x b, x ∈ dom sample_mem ->
       value (Reach := reach_ptr (A := mTopology sim_meta)) (<[x := b]> m') q =
       value (Reach := reach_ptr (A := mTopology sim_meta)) sample_mem sample_topology_ptr)) sample_mem.
Proof.
  split; [eexists _, _; split; vm_compute; reflexivity|].
  apply (Topology_DeepCopy_isolated sample_mem sample_topology_ptr), sample_topology_valid.
Defined.

Lemma TopologyList_DeepCopy_witness :
  (exists q m', TopologyList_DeepCopy sample_list_ptr sample_mem = (Val (Some q), m') /\ size m' = 9%nat) /\
  wp (TopologyList_DeepCopy sample_list_ptr) (fun q m' =>
    (q = None <-> sample_list_ptr = None) /\
    value (Reach := reach_ptr (A := mTopologyList string)) m' q =
      value (Reach := reach_ptr (A := mTopologyList string)) sample_mem sample_list_ptr /\
    (forall x b, x ∈ refs (Reach := reach_ptr (A := mTopologyList string)) m' q ->
       value (Reach := reach_ptr (A := mTopologyList string)) (<[x := b]> m') sample_list_ptr =
       value (Reach := reach_ptr (A := mTopologyList string)) sample_mem sample_list_ptr) /\
    (forall x b, x ∈ dom sample_mem ->
       value (Reach := reach_ptr (A := mTopologyList string)) (<[x := b]> m') q =
       value (Reach := reach_ptr (A := mTopologyList string)) sample_mem sample_list_ptr)) sample_mem.
Proof.
  split; [eexists _, _; split; vm_compute; reflexivity|].
  apply (TopologyList_DeepCopy_isolated sample_mem sample_list_ptr), sample_list_valid.
Defined.
