(* ===== verification/Startup.v ===== *)
(** * Start-up and shutdown of the processes

    [daemon/main.go], [New], [Serve] and [Stop] of
    [daemon/kubedtn/kubedtn.go], [NewForConfig] and [Topology] of
    [api/clientset/v1beta1/topology.go], [daemon/metrics/main.go], and
    [main.go] of the controller.  A process has the node's network ([K]), the
    cluster ([C]), the node's files and environment ([F]) and the BPF
    subsystem ([B]).  Deferred calls run when a function returns or panics,
    and do not run when the process is left with [os.Exit]. *)

From stdpp Require Import base strings gmap list.
From Stdlib Require Import ZArith Lia Ascii.
From S2P Require Import Prelude GoStr GoNum GoNet Proto ApiV1 K8s Kernel SimKernel Qdisc.
From S2P Require Import LinkUtil Vxlan Decode Wire Metrics Daemon Handler HandlerProps.
From S2P Require Import Plugin Bpf.

Local Open Scope string_scope.

(** ** The language and its library *)

(** [strconv.Atoi]: an optional sign and decimal digits, within 64 bits. *)
Definition Atoi (s : string) : result Z :=
  let '(neg, digits) :=
    match s with
    | String "-"%char s' => (true, s')
    | String "+"%char s' => (false, s')
    | _ => (false, s)
    end in
  match ParseUint digits with
  | Err e => Err e
  | Ok n =>
      if neg then (if (2 ^ 63 <? n)%Z then Err (errorf "value out of range") else Ok (- n)%Z)
      else (if (2 ^ 63 <=? n)%Z then Err (errorf "value out of range") else Ok n)
  end.

(** [filepath.Clean] on the elements of a path, the cleaned ones so far in
    reverse: empty elements and "." vanish, ".." takes back an element. *)
Fixpoint clean_elems (rooted : bool) (acc elems : list string) : list string :=
  match elems with
  | [] => rev acc
  | x :: rest =>
      if String.eqb x "" || String.eqb x "." then clean_elems rooted acc rest
      else if String.eqb x ".." then
        match acc with
        | [] => if rooted then clean_elems rooted [] rest else clean_elems rooted [x] rest
        | y :: acc' =>
            if String.eqb y ".." then clean_elems rooted (x :: acc) rest
            else clean_elems rooted acc' rest
        end
      else clean_elems rooted (x :: acc) rest
  end.

Fixpoint split_slash (s : string) : list string :=
  match s with
  | "" => [""]
  | String c s' =>
      if Ascii.eqb c "/"%char then "" :: split_slash s'
      else match split_slash s' with
           | x :: rest => String c x :: rest
           | [] => [String c ""]
           end
  end.

Definition filepath_Clean (path : string) : string :=
  if String.eqb path "" then "."
  else
    let rooted := HasPrefix path "/" in
    let body := String.concat "/" (clean_elems rooted [] (split_slash path)) in
    if rooted then "/" ++ body else if String.eqb body "" then "." else body.

(** [filepath.Join]: empty arguments are ignored. *)
Definition filepath_Join (elems : list string) : string :=
  match List.filter (fun x => negb (String.eqb x "")) elems with
  | [] => ""
  | l => filepath_Clean (String.concat "/" l)
  end.

(** ** Prometheus *)

Inductive collector :=
| BuildInfoCollector | GoCollector | ProcessCollector
| InterfaceStatisticsCollector
| Histograms (name : string).

#[export] Instance collector_eq_dec : EqDecision collector.
Proof. solve_decision. Defined.

(** The registered collectors. *)
Abbreviation Registry := (list collector).

(** [MustRegister] panics on a collector that is registered already. *)
Fixpoint MustRegister {S} (reg : Registry) (cs : list collector) : go S Registry :=
  match cs with
  | [] => ret reg
  | c :: cs' =>
      if bool_decide (c ∈ reg) then panic "duplicate metrics collector registration attempted"
      else MustRegister (reg ++ [c])%list cs'
  end.

(** The collector of interface statistics reads the manager it is given; it is
    modelled in [Metrics]. *)
Definition NewRegistry {S} : go S Registry :=
  MustRegister [] [BuildInfoCollector; GoCollector; ProcessCollector; InterfaceStatisticsCollector].

Definition NewLatencyHistograms : collector := Histograms "kubedtnd_request_duration_milliseconds".

Definition LatencyHistograms_Register {S} (l : collector) (registry : Registry) : go S Registry :=
  MustRegister registry [l].

(** ** Clients, listener and server *)

Record RestConfig := mkRestConfig {
  rc_Host : string;
  rc_GroupVersion : option string;
  rc_APIPath : string;
  rc_NegotiatedSerializer : string;
  rc_UserAgent : string
}.

Class StartLib (C : Type) := {
  rest_InClusterConfig : eff C (result RestConfig);
  homedir_HomeDir : eff C string;
  clientcmd_BuildConfigFromFlags : string -> string -> eff C (result RestConfig);
  kubernetes_NewForConfig : RestConfig -> eff C (result Z);
  dynamic_NewForConfig : RestConfig -> eff C (result Z);
  rest_RESTClientFor : RestConfig -> eff C (result Z);
  (** [dInterface.Namespace(ns).Get(name, subresources...)]. *)
  dynamic_Get : Z * (string * string * string) -> string -> string -> list string -> eff C (result string);
  rest_DefaultKubernetesUserAgent : string;
  scheme_Codecs : string;
  net_Listen : string -> string -> eff C (result Z);
  (** [cache.NewInformer] on the topologies of a client, and [go Run]: the
      store. *)
  cache_NewInformer : Z -> string -> eff C Z;
  (** [grpc.NewServer] with the logging interceptors. *)
  grpc_NewServer : eff C Z;
  grpc_RegisterService : Z -> string -> eff C unit;
  reflection_Register : Z -> eff C unit;
  grpc_Serve : Z -> Z -> eff C (option error);
  grpc_Stop : Z -> eff C unit;
  (** [flag.Parse()] with the flag -d; it leaves the process when the
      arguments are wrong. *)
  flag_debug : go C bool;
  (** [go http.ListenAndServe] of a registry's metrics. *)
  http_metrics : string -> Registry -> eff C unit
}.

(** [schema.GroupVersionResource] and the clients of a clientset. *)
Definition gvr : string * string * string := ("y-young.github.io", "v1", "topologies").

Record Clientset := mkClientset { dInterface : Z * (string * string * string); restClient : Z }.

Record topologyClient := mkTopologyClient {
  tc_dInterface : Z * (string * string * string); tc_restClient : Z; tc_ns : string
}.

Definition Clientset_Topology (c : Clientset) (namespace : string) : topologyClient :=
  mkTopologyClient (dInterface c) (restClient c) namespace.

Section Clients.
  Context {C : Type} `{StartLib C}.
  Local Open Scope go_scope.

(** The dynamic client gets the configuration as it was passed, the REST client
    the changed copy. *)
Definition NewForConfig (c : RestConfig) : go C (result Clientset) :=
  let config := mkRestConfig (rc_Host c) (Some GroupVersion_Identifier) "/apis" scheme_Codecs
                  rest_DefaultKubernetesUserAgent in
  r <- call (dynamic_NewForConfig c) ;;
  match r with
  | Err e => ret (Err e)
  | Ok dClient =>
      r <- call (rest_RESTClientFor config) ;;
      match r with
      | Err e => ret (Err e)
      | Ok rClient => ret (Ok (mkClientset (dClient, gvr) rClient))
      end
  end.

Definition topologyClient_Unstructured (t : topologyClient) (name : string) (subresources : list string)
  : go C (result string) :=
  call (dynamic_Get (tc_dInterface t) (tc_ns t) name subresources).

Definition restConfig : go C (result RestConfig) :=
  r <- call rest_InClusterConfig ;;
  match r with
  | Ok rCfg => ret (Ok rCfg)
  | Err _ =>
      home <- call homedir_HomeDir ;;
      let kubecfg := filepath_Join [".kube"; "config"] in
      let kubecfg := if String.eqb home "" then kubecfg else filepath_Join [home; kubecfg] in
      r <- call (clientcmd_BuildConfigFromFlags "" kubecfg) ;;
      match r with
      | Err e => ret (Err e)
      | Ok rCfg => ret (Ok rCfg)
      end
  end.

End Clients.

(** ** The daemon *)

Record Config := mkConfig { Port : Z; cfg_TCPIPBypass : bool }.

(** What [New] returns: the daemon's state with its clients, listener and
    server. *)
Record Server := mkServer {
  sv_config : Config;
  sv_rCfg : RestConfig;
  sv_kClient : Z;
  sv_tClient : Clientset;
  sv_lis : Z;
  sv_s : Z;
  sv_topologyStore : Z;
  sv_state : KubeDTN
}.

Record Node (K C F B : Type) := mkNode { nd_kernel : K; nd_cluster : C; nd_files : F; nd_bpf : B }.
Arguments mkNode {K C F B}.
Arguments nd_kernel {K C F B}.
Arguments nd_cluster {K C F B}.
Arguments nd_files {K C F B}.
Arguments nd_bpf {K C F B}.

Section Main.
  Context {K C F B : Type} `{Kernel K, RestClient C, StartLib C, CniLib F, Ebpf B}.
  Local Open Scope go_scope.
  Local Abbreviation M := (go (Node K C F B)).

Definition at_cluster {A} (m : go C A) : M A :=
  zoom nd_cluster (fun c n => mkNode (nd_kernel n) c (nd_files n) (nd_bpf n)) m.
Definition at_files {A} (m : go F A) : M A :=
  zoom nd_files (fun f n => mkNode (nd_kernel n) (nd_cluster n) f (nd_bpf n)) m.
Definition at_bpf {A} (m : go B A) : M A :=
  zoom nd_bpf (fun b n => mkNode (nd_kernel n) (nd_cluster n) (nd_files n) b) m.
Definition at_network {A} (m : go (K * C) A) : M A :=
  zoom (fun n => (nd_kernel n, nd_cluster n)) (fun p n => mkNode p.1 p.2 (nd_files n) (nd_bpf n)) m.

Definition Getenv (name : string) : M string := at_files (call (os_Getenv name)).

(** [newServerWithLogging] and the registration of the three services. *)
Definition newServer : M Z :=
  s <- at_cluster (call grpc_NewServer) ;;
  at_cluster (call (grpc_RegisterService s "proto.v1.Local")) ;;
  at_cluster (call (grpc_RegisterService s "proto.v1.Remote")) ;;
  at_cluster (call (grpc_RegisterService s "proto.v1.WireProtocol")) ;;
  at_cluster (call (reflection_Register s)) ;;
  ret s.

(** The clients and the listener, as [New] makes them first. *)
Definition connect (cfg : Config) : M (result (RestConfig * Z * Clientset * Z)) :=
  r <- at_cluster restConfig ;;
  match r with
  | Err e => ret (Err e)
  | Ok rCfg =>
      r <- at_cluster (call (kubernetes_NewForConfig rCfg)) ;;
      match r with
      | Err e => ret (Err e)
      | Ok kClient =>
          r <- at_cluster (NewForConfig rCfg) ;;
          match r with
          | Err e => ret (Err e)
          | Ok tClient =>
              r <- at_cluster (call (net_Listen "tcp" (":" ++ Sprint (Port cfg)))) ;;
              match r with
              | Err e => ret (Err e)
              | Ok lis => ret (Ok (rCfg, kClient, tClient, lis))
              end
          end
      end
  end.

Definition New (cfg : Config) (topologyManager : TopologyManager) (clock : nat -> Z) : M (result Server) :=
  r <- connect cfg ;;
  match r with
  | Err e => ret (Err e)
  | Ok (rCfg, kClient, tClient, lis) =>
      nodeIP <- Getenv "HOST_IP" ;;
      r <- at_network (newState (cfg_TCPIPBypass cfg) nodeIP topologyManager clock) ;;
      match r with
      | Err e => ret (Err e)
      | Ok m =>
          store <- at_cluster (call (cache_NewInformer (restClient tClient) "")) ;;
          s <- newServer ;;
          ret (Ok (mkServer cfg rCfg kClient tClient lis s store m))
      end
  end.

Definition Serve (m : Server) : M (option error) := at_cluster (call (grpc_Serve (sv_s m) (sv_lis m))).

Definition Stop (m : Server) : M unit := at_cluster (call (grpc_Stop (sv_s m))).

(** [New] and [Serve] as [main] calls them. *)
Definition run_daemon (grpcPort : Z) (tcpIpBypass : bool) (clock : nat -> Z) : M unit :=
  r <- New (mkConfig grpcPort tcpIpBypass) NewTopologyManager clock ;;
  match r with
  | Err _ => exit 1
  | Ok m =>
      err <- Serve m ;;
      match err with
      | Some _ => exit 1
      | None => ret tt
      end
  end.

(** The branch of [main] for the bypass: the program is closed when the rest
    returns. *)
Definition with_bypass (rest : M unit) : M unit :=
  err <- at_bpf CheckOrMountBPFFSDefault ;;
  match err with
  | Some _ => ret tt
  | None =>
      err <- at_bpf SetLimit ;;
      match err with
      | Some _ => ret tt
      | None =>
          '(prog, err) <- at_bpf (LoadProgram no_program) ;;
          match err with
          | Some _ => ret tt
          | None => defer (at_bpf (CloseProgram prog)) rest
          end
      end
  end.

(** The port of the environment, or the default. *)
Definition parse_port (env : string) : M Z :=
  match (match Atoi env with Ok p => if (p =? 0)%Z then None else Some p | Err _ => None end) with
  | Some p => ret p
  | None =>
      match Atoi DefaultPort with
      | Ok p => ret p
      | Err _ => panic "Failed to parse default port"
      end
  end.

Definition daemon_main (clock : nat -> Z) : M unit :=
  err <- at_files Init ;;
  match err with
  | Some _ => exit 1
  | None =>
      defer (at_files Cleanup) (
        env <- Getenv "GRPC_PORT" ;;
        grpcPort <- parse_port env ;;
        httpAddr <- Getenv "HTTP_ADDR" ;;
        let httpAddr := if String.eqb httpAddr "" then HttpAddr else httpAddr in
        isDebug <- at_cluster flag_debug ;;
        reg <- NewRegistry ;;
        reg <- LatencyHistograms_Register NewLatencyHistograms reg ;;
        at_cluster (call (http_metrics httpAddr reg)) ;;
        env <- Getenv "TCPIP_BYPASS" ;;
        let tcpIpBypass := String.eqb env "1" in
        let rest := run_daemon grpcPort tcpIpBypass clock in
        if tcpIpBypass then with_bypass rest else rest)
  end.

End Main.

(** ** The controller's process *)

Record ManagerOptions := mkManagerOptions {
  MetricsBindAddress : string; mgr_Port : Z; HealthProbeBindAddress : string;
  LeaderElection : bool; LeaderElectionID : string
}.

Class CtrlLib (E : Type) := {
  (** [flag.Parse()] with the defaults of the three flags; it leaves the process
      when the arguments are wrong. *)
  flag_controller : string -> string -> bool -> go E (string * string * bool);
  ctrl_GetConfigOrDie : go E Z;
  ctrl_NewManager : Z -> ManagerOptions -> eff E (result Z);
  (** [ctrl.NewControllerManagedBy(mgr).For(...).WithOptions(...).Complete(r)]:
      the kind watched and the number of concurrent reconciles. *)
  builder_Complete : Z -> string -> Z -> eff E (option error);
  mgr_AddHealthzCheck : Z -> string -> eff E (option error);
  mgr_AddReadyzCheck : Z -> string -> eff E (option error);
  mgr_Start : Z -> eff E (option error)
}.

Section ControllerMain.
  Context {E : Type} `{CtrlLib E}.
  Local Open Scope go_scope.

Definition SetupWithManager (mgr : Z) : go E (option error) := call (builder_Complete mgr "Topology" 32).

(** [if err := ...; err != nil { os.Exit(1) }]. *)
Definition or_exit (m : go E (option error)) : go E unit :=
  err <- m ;; match err with Some _ => exit 1 | None => ret tt end.

Definition controller_main : go E unit :=
  '(metricsAddr, probeAddr, enableLeaderElection) <- flag_controller ":8080" ":8081" false ;;
  cfg <- ctrl_GetConfigOrDie ;;
  r <- call (ctrl_NewManager cfg (mkManagerOptions metricsAddr 9443 probeAddr enableLeaderElection
                                    "ac2ba29f.y-young.github.io")) ;;
  match r with
  | Err _ => exit 1
  | Ok mgr =>
      or_exit (SetupWithManager mgr) ;;
      or_exit (call (mgr_AddHealthzCheck mgr "healthz")) ;;
      or_exit (call (mgr_AddReadyzCheck mgr "readyz")) ;;
      or_exit (call (mgr_Start mgr))
  end.

End ControllerMain.

(** ** Laws of the node's files *)

Class FilesLaws (F : Type) `{CniLib F} := {
  fs : F -> gmap string string;
  law_Getenv v f r f' : os_Getenv v f = (r, f') -> fs f' = fs f;
  law_ConfFiles d x f r f' : libcni_ConfFiles d x f = (r, f') -> fs f' = fs f;
  law_ConfListFromFile p f r f' : libcni_ConfListFromFile p f = (r, f') -> fs f' = fs f;
  law_ConfFromFile p f r f' : libcni_ConfFromFile p f = (r, f') -> fs f' = fs f;
  law_ConfListFromConf c f r f' : libcni_ConfListFromConf c f = (r, f') -> fs f' = fs f;
  law_WriteFile p b f f' : os_WriteFile p b f = (None, f') -> fs f' = <[p := b]> (fs f);
  law_Remove p f r f' :
    os_Remove p f = (r, f') -> fs f' = match r with None => delete p (fs f) | Some _ => fs f end
}.

(** Reading configuration files when it fails only for cause: what is read depends
    on the contents of the file, and the listing of a directory on which files
    there are. *)
Class FilesRead (F : Type) `{FilesLaws F} : Prop := {
  read_ConfListFromFile p f1 f2 :
    fs f1 !! p = fs f2 !! p -> (libcni_ConfListFromFile p f1).1 = (libcni_ConfListFromFile p f2).1;
  read_ConfFromFile p f1 f2 :
    fs f1 !! p = fs f2 !! p -> (libcni_ConfFromFile p f1).1 = (libcni_ConfFromFile p f2).1;
  read_ConfListFromConf c f1 f2 : (libcni_ConfListFromConf c f1).1 = (libcni_ConfListFromConf c f2).1;
  read_ConfFiles d x f : exists l, (libcni_ConfFiles d x f).1 = Ok l /\ NoDup l /\ forall p, p ∈ l -> is_Some (fs f !! p);
  read_ConfFiles_same d x f1 f2 l1 l2 p :
    (libcni_ConfFiles d x f1).1 = Ok l1 -> (libcni_ConfFiles d x f2).1 = Ok l2 ->
    (is_Some (fs f1 !! p) <-> is_Some (fs f2 !! p)) -> p ∈ l1 <-> p ∈ l2
}.

(** ** Lemmas *)

Section MainProofs.
  Context {K C F B : Type} `{Kernel K, RestClient C, StartLib C, FilesLaws F, EbpfLaws B}.
  Local Abbreviation N := (Node K C F B).
  Local Abbreviation M := (go N).

(** [m] leaves a part of the state as it was, however it ends. *)
Definition leaves {S P A} (part : S -> P) (m : go S A) : Prop := forall s, part (m s).2 = part s.

Lemma leaves_ret {S P A} (part : S -> P) (a : A) : leaves part (ret a).
Proof. done. Qed.

Lemma leaves_exit {S P A} (part : S -> P) c : leaves (A := A) part (exit c).
Proof. done. Qed.

Lemma leaves_panic {S P A} (part : S -> P) w : leaves (A := A) part (panic w).
Proof. done. Qed.

Lemma leaves_bind {S P A A'} (part : S -> P) (m : go S A) (k : A -> go S A') :
  leaves part m -> (forall a, leaves part (k a)) -> leaves part (bind m k).
Proof.
  intros Hm Hk s. specialize (Hm s). unfold bind. destruct (m s) as [[a| |] s1]; cbn in *; [|done..].
  by rewrite Hk.
Qed.

Lemma leaves_defer {S P A} (part : S -> P) d (m : go S A) :
  leaves part d -> leaves part m -> leaves part (defer d m).
Proof.
  intros Hd Hm s. specialize (Hm s). unfold defer. destruct (m s) as [[a|w|c] s1]; cbn in *; [..|done].
  - rewrite <- Hm. apply leaves_bind; [done|]. intros. apply leaves_ret.
  - rewrite <- Hm. apply leaves_bind; [done|]. intros. apply leaves_panic.
Qed.

(** A computation on another part. *)
Lemma leaves_zoom {S T P A} (part : S -> P) (g : S -> T) (f : T -> S -> S) (m : go T A) :
  (forall t s, part (f t s) = part s) -> leaves part (zoom g f m).
Proof. intros Hf s. unfold zoom. destruct (m (g s)). apply Hf. Qed.

Ltac leaves_step :=
  lazymatch goal with
  | |- leaves _ (bind _ _) => apply leaves_bind; [|intros ?]
  | |- leaves _ (ret _) => apply leaves_ret
  | |- leaves _ (exit _) => apply leaves_exit
  | |- leaves _ (panic _) => apply leaves_panic
  | |- leaves _ (defer _ _) => apply leaves_defer
  | |- leaves _ (zoom _ _ _) => apply leaves_zoom; done
  | |- leaves _ (match ?x with _ => _ end) => destruct x
  end.

Lemma Getenv_leaves (v : string) : leaves (fun n : N => fs (nd_files n)) (Getenv v).
Proof.
  intros n. unfold Getenv, at_files, zoom, call. destruct (os_Getenv v (nd_files n)) as [r f'] eqn:Hg.
  by apply law_Getenv in Hg.
Qed.

Lemma MustRegister_leaves {S P} (part : S -> P) reg cs : leaves part (MustRegister reg cs).
Proof. revert reg. induction cs as [|c cs IH]; intros reg; cbn; repeat leaves_step. apply IH. Qed.

Lemma run_daemon_leaves_files port bypass clk :
  leaves (fun n : N => fs (nd_files n)) (run_daemon port bypass clk).
Proof.
  unfold run_daemon, New, connect, Serve, newServer, at_cluster, at_network.
  repeat first [apply Getenv_leaves | leaves_step].
Qed.

Lemma run_daemon_leaves_bpf port bypass clk : leaves (fun n : N => nd_bpf n) (run_daemon port bypass clk).
Proof.
  unfold run_daemon, New, connect, Serve, newServer, Getenv, at_cluster, at_network, at_files. repeat leaves_step.
Qed.


(** *** The CNI configuration *)

Lemma load_file_leaves p : leaves fs (load_file (E := F) p).
Proof.
  unfold load_file. assert (forall X (c : eff F X), (forall f r f', c f = (r, f') -> fs f' = fs f) -> leaves fs (call c)) as Hc.
  { intros X c Hc f. unfold call. destruct (c f) as [r f'] eqn:E. by apply (Hc f r f'). }
  repeat first [apply Hc; intros *; first [apply law_ConfListFromFile | apply law_ConfFromFile | apply law_ConfListFromConf]
               | leaves_step].
Qed.

Lemma first_valid_leaves l : leaves fs (first_valid (E := F) l).
Proof. induction l as [|p l IH]; cbn; repeat first [apply load_file_leaves | apply IH | leaves_step]. Qed.

Lemma loadConfList_leaves : leaves fs (loadConfList (E := F)).
Proof.
  apply leaves_bind.
  { intros f. unfold call. destruct (libcni_ConfFiles _ _ f) eqn:E. by apply law_ConfFiles in E. }
  intros r. repeat first [apply first_valid_leaves | leaves_step].
Qed.

(** What an installation that succeeds has read and written. *)
Definition with_plugin (conf : gmap string json) (plugins : list json) : gmap string json :=
  <["plugins" := JArr (plugins ++ [kubedtn_plugin])%list]> (<["cniVersion" := JStr "0.3.0"]> conf).

Lemma Init_inv f f1 :
  Init f = (Val None, f1) ->
  exists conf plugins v bytes f2 f3 f4,
    loadConfList f = (Val (conf, None), f2) /\ conf !! "plugins" = Some (JArr plugins) /\
    os_Getenv "INTER_NODE_LINK_TYPE" f2 = (v, f3) /\ os_WriteFile interNodeLinkConf v f3 = (None, f4) /\
    json_MarshalIndent (with_plugin conf plugins) = Ok bytes /\ os_WriteFile kubedtnCNIPath bytes f4 = (None, f1) /\
    fs f1 = <[kubedtnCNIPath := bytes]> (<[interNodeLinkConf := v]> (fs f)).
Proof.
  unfold Init. intros Hr. apply bind_Val in Hr as ([conf err] & f2 & Hl & Hr).
  pose proof (loadConfList_leaves f) as Hk. rewrite Hl in Hk. cbn in Hk.
  destruct err as [er|]; [by inversion Hr|].
  destruct (conf !! "plugins") as [[| | | |plugins| |]|] eqn:Hp; try by inversion Hr.
  apply bind_Val in Hr as (err & f3 & Hs & Hr). destruct err as [er|]; [by inversion Hr|].
  apply bind_Val in Hs as (v & f4 & Hv & Hs). unfold call in Hv, Hs.
  destruct (os_Getenv _ f2) as [v' f5] eqn:Hg. pose proof (law_Getenv _ _ _ _ Hg). injection Hv as <- <-.
  destruct (os_WriteFile interNodeLinkConf v' f5) as [w f6] eqn:Hw. injection Hs as -> ->.
  pose proof (law_WriteFile _ _ _ _ Hw).
  unfold saveConfList, call in Hr. fold (with_plugin conf plugins) in Hr.
  destruct (json_MarshalIndent (with_plugin conf plugins)) as [bytes|er] eqn:Hm; [|by inversion Hr].
  destruct (os_WriteFile _ _ f3) as [w f7] eqn:Hw2. injection Hr as -> ->. pose proof (law_WriteFile _ _ _ _ Hw2).
  exists conf, plugins, v', bytes, f2, f5, f3. split_and!; try done. congruence.
Qed.

(** A file the clean-up was to remove is gone, or removing it failed and it is as it was. *)
Definition removed (p : string) (m m' : gmap string string) : Prop :=
  m' !! p = None \/
  m' !! p = m !! p /\ exists (f : F) er f', fs f !! p = m !! p /\ os_Remove p f = (Some er, f').

Definition cleaned (m m' : gmap string string) : Prop :=
  removed kubedtnCNIPath m m' /\ removed interNodeLinkConf m m' /\
  forall p, p <> kubedtnCNIPath -> p <> interNodeLinkConf -> m' !! p = m !! p.

Lemma Cleanup_wp f : wp (Cleanup (E := F)) (fun _ f' => cleaned (fs f) (fs f')) f.
Proof.
  unfold Cleanup, removeInterNodeLinkConf. wp_call as r1 f1 C1. apply wp_bind.
  wp_call as r2 f2 C2. pose proof (law_Remove _ _ _ _ C1) as V1. pose proof (law_Remove _ _ _ _ C2) as V2.
  assert (cleaned (fs f) (fs f2)) as Hc; [|by destruct r2; repeat wp_step].
  assert (kubedtnCNIPath <> interNodeLinkConf) as Hne by done.
  assert (fs f1 !! interNodeLinkConf = fs f !! interNodeLinkConf) as E1.
  { rewrite V1. destruct r1; [done|]. by rewrite lookup_delete_ne. }
  assert (forall p, p <> interNodeLinkConf -> fs f2 !! p = fs f1 !! p) as E2.
  { intros p Hp. rewrite V2. destruct r2; [done|]. by rewrite lookup_delete_ne. }
  split_and!.
  - unfold removed. rewrite E2 by done. rewrite V1. destruct r1 as [er|]; [right|left; apply lookup_delete_eq].
    split; [done|]. by exists f, er, f1.
  - unfold removed. rewrite V2. destruct r2 as [er|]; [right|left; apply lookup_delete_eq].
    split; [done|]. by exists f1, er, f2.
  - intros p Hp1 Hp2. rewrite E2, V1 by done. destruct r1; [done|]. by rewrite lookup_delete_ne.
Qed.

(** The clean-up runs unless the process is left. *)
Lemma defer_cleanup {A} (m : M A) n :
  leaves (fun n : N => fs (nd_files n)) m ->
  match defer (at_files Cleanup) m n with
  | (Exit _, n') => fs (nd_files n') = fs (nd_files n)
  | (_, n') => cleaned (fs (nd_files n)) (fs (nd_files n'))
  end.
Proof.
  intros Hm. specialize (Hm n). cbv beta in Hm. rewrite <- Hm. unfold defer.
  destruct (m n) as [[a|w|c] n1]; cbn [snd]; [..|done];
    unfold bind, at_files, zoom; pose proof (Cleanup_wp (nd_files n1)) as Hc; unfold wp in Hc;
    destruct (Cleanup (nd_files n1)) as [[[]| |] f2]; done.
Qed.

Lemma with_bypass_leaves_files (rest : M unit) :
  leaves (fun n : N => fs (nd_files n)) rest -> leaves (fun n : N => fs (nd_files n)) (with_bypass rest).
Proof. intros Hr. unfold with_bypass, at_bpf. repeat first [apply Hr | leaves_step]. Qed.

(** C28: the daemon's process leaves the node's CNI configuration the way it ends.
    When [main] returns or panics after the installation, each of the two files it
    wrote is gone, unless [os.Remove] reported an error for it (which is only
    logged), in which case it is as installed; every other file is as before the
    start.  When the process is left with [os.Exit] (the flags, [New] or [Serve]
    failed), both files stay installed, because deferred calls do not run. *)
Theorem daemon_main_files (clk : nat -> Z) (n n' : N) (f1 : F) (o : outcome unit) :
  Init (nd_files n) = (Val None, f1) -> daemon_main clk n = (o, n') ->
  match o with
  | Exit _ => fs (nd_files n') = fs f1 /\
      is_Some (fs (nd_files n') !! kubedtnCNIPath) /\ is_Some (fs (nd_files n') !! interNodeLinkConf)
  | _ => removed kubedtnCNIPath (fs f1) (fs (nd_files n')) /\ removed interNodeLinkConf (fs f1) (fs (nd_files n')) /\
      forall p, p <> kubedtnCNIPath -> p <> interNodeLinkConf -> fs (nd_files n') !! p = fs (nd_files n) !! p
  end.
Proof.
  intros Hi Hm. pose proof (Init_inv _ _ Hi) as (_ & _ & v & bytes & _ & _ & _ & _ & _ & _ & _ & _ & _ & Hf).
  unfold daemon_main in Hm. unfold bind at 1, at_files at 1, zoom in Hm. rewrite Hi in Hm.
  match type of Hm with defer _ ?m ?n1 = _ => pose proof (defer_cleanup m n1) as Hd end.
  rewrite Hm in Hd. cbn [nd_files] in Hd.
  match type of Hd with ?P -> _ => assert P as Hk end.
  { unfold at_cluster, NewRegistry, LatencyHistograms_Register, parse_port.
    repeat first [apply Getenv_leaves | apply MustRegister_leaves | apply with_bypass_leaves_files
                 | apply run_daemon_leaves_files | leaves_step]. }
  specialize (Hd Hk).
  assert (forall p, p <> kubedtnCNIPath -> p <> interNodeLinkConf -> fs f1 !! p = fs (nd_files n) !! p) as He.
  { intros p Hp1 Hp2. rewrite Hf. by rewrite !lookup_insert_ne. }
  destruct o; [by destruct Hd as (? & ? & Hp); split_and!; [..|intros p Hp1 Hp2; rewrite Hp, He]..|].
  split; [done|]. rewrite Hd, Hf. split; [by rewrite lookup_insert_eq|].
  by rewrite lookup_insert_ne, lookup_insert_eq by done.
Qed.

(** *** Installing again *)

Lemma load_file_same `{!FilesRead F} p f1 f2 :
  fs f1 !! p = fs f2 !! p -> (load_file p f1).1 = (load_file p f2).1.
Proof.
  intros Hp. unfold load_file, bind, call, ret. destruct (HasSuffix p ".conflist").
  - pose proof (read_ConfListFromFile p f1 f2 Hp) as He.
    destruct (libcni_ConfListFromFile p f1) as [r1 g1], (libcni_ConfListFromFile p f2) as [r2 g2]. cbn in He. subst r2.
    destruct r1 as [cl|]; [|done]. by destruct (_ =? _)%nat.
  - pose proof (read_ConfFromFile p f1 f2 Hp) as He.
    destruct (libcni_ConfFromFile p f1) as [r1 g1], (libcni_ConfFromFile p f2) as [r2 g2]. cbn in He. subst r2.
    destruct r1 as [c|]; [|done]. destruct (String.eqb _ ""); [done|].
    pose proof (read_ConfListFromConf c g1 g2) as He.
    destruct (libcni_ConfListFromConf c g1) as [r1 h1], (libcni_ConfListFromConf c g2) as [r2 h2]. cbn in He. subst r2.
    destruct r1 as [cl|]; [|done]. by destruct (_ =? _)%nat.
Qed.

Lemma first_valid_same `{!FilesRead F} l f1 f2 :
  (forall p, p ∈ l -> fs f1 !! p = fs f2 !! p) -> (first_valid l f1).1 = (first_valid l f2).1.
Proof.
  revert f1 f2. induction l as [|p l IH]; intros f1 f2 Hl; cbn [first_valid]; [done|]. unfold bind.
  pose proof (load_file_same p f1 f2 ltac:(apply Hl; left)) as He.
  pose proof (load_file_leaves p f1) as L1. pose proof (load_file_leaves p f2) as L2.
  destruct (load_file p f1) as [r1 g1], (load_file p f2) as [r2 g2]. cbn in He, L1, L2. subst r2.
  destruct r1 as [[cl|]| |]; try done. apply IH. intros q Hq. rewrite L1, L2. apply Hl. by right.
Qed.

(** Files named after the plugin are not read. *)
Lemma loadConfList_same `{!FilesRead F} f1 f2 :
  (forall p, Contains p "kubedtn" = false -> fs f1 !! p = fs f2 !! p) ->
  forall conf g, loadConfList f1 = (Val (conf, None), g) -> (loadConfList f2).1 = Val (conf, None).
Proof.
  intros Hf conf g Hr. unfold loadConfList, bind, call in *.
  destruct (read_ConfFiles defaultNetDir [".conf"; ".conflist"; ".json"] f1) as (l1 & R1 & N1 & _).
  destruct (read_ConfFiles defaultNetDir [".conf"; ".conflist"; ".json"] f2) as (l2 & R2 & N2 & _).
  pose proof (fun p => read_ConfFiles_same _ _ f1 f2 l1 l2 p R1 R2) as Hs.
  destruct (libcni_ConfFiles _ _ f1) as [r1 g1] eqn:C1, (libcni_ConfFiles _ _ f2) as [r2 g2] eqn:C2.
  cbn in R1, R2. subst r1 r2. apply law_ConfFiles in C1, C2.
  assert (conf_candidates l1 = conf_candidates l2) as Hc.
  { apply conf_candidates_same; [done|done|]. intros p Hp. apply Hs. by rewrite (Hf p Hp). }
  assert (first_valid (conf_candidates l1) g1 = (Val (conf, None), g)) as Hv by (by destruct l1).
  assert ((first_valid (conf_candidates l2) g2).1 = Val (conf, None)) as Hv2.
  { rewrite <- Hc. erewrite <- first_valid_same; [by rewrite Hv|]. intros p Hp%conf_candidates_elem.
    rewrite C1, C2. apply Hf, Hp. }
  by destruct l2.
Qed.

(** C36: installing again after a restart (a process left with [os.Exit] does not
    clean up).  The first installation wrote the configuration it found with the
    plugin appended behind the configured ones, the CNI version set to 0.3.0 and
    every other key kept.  The second one, on the same files, picks the same
    configuration and not the one that was installed, so the plugin is not appended
    twice: unless writing fails it succeeds, the installed configuration stays as
    it is, and only the file with the type of inter-node links is rewritten, with
    the value of the environment. *)
Theorem Init_reinstalls `{!FilesRead F} (f f1 g : F) :
  Init f = (Val None, f1) -> fs g = fs f1 ->
  (exists conf plugins c bytes f2, loadConfList f = (Val (conf, None), f2) /\
     conf !! "plugins" = Some (JArr plugins) /\ json_MarshalIndent c = Ok bytes /\
     c !! "plugins" = Some (JArr (plugins ++ [JNetConf "kubedtn" "kubedtn"])%list) /\ c !! "cniVersion" = Some (JStr "0.3.0") /\
     (forall k, k <> "plugins" -> k <> "cniVersion" -> c !! k = conf !! k) /\
     fs f1 !! kubedtnCNIPath = Some bytes) /\
  exists r g', Init g = (Val r, g') /\
    match r with
    | None => exists v h h', os_Getenv "INTER_NODE_LINK_TYPE" h = (v, h') /\ fs g' = <[interNodeLinkConf := v]> (fs g)
    | Some er => exists p b h, os_WriteFile p b h = (Some er, g')
    end.
Proof.
  intros Hi Hg. destruct (Init_inv f f1 Hi) as (conf & plugins & v & bytes & f2 & f3 & f4 & Hl & Hp & Hv & Hw & Hm & Hw2 & Hf).
  assert (fs g !! kubedtnCNIPath = Some bytes) as Hb by (rewrite Hg, Hf; apply lookup_insert_eq). split.
  { exists conf, plugins, (with_plugin conf plugins), bytes, f2. rewrite <- Hg. unfold with_plugin.
    split_and!; [done|done|done|apply lookup_insert_eq|by rewrite lookup_insert_ne, lookup_insert_eq| |done].
    intros k Hk1 Hk2. by rewrite !lookup_insert_ne. }
  assert ((loadConfList g).1 = Val (conf, None)) as Hl2.
  { eapply loadConfList_same; [|exact Hl]. intros p Hc. rewrite Hg, Hf.
    rewrite !lookup_insert_ne; [done|intros <-; by vm_compute in Hc..]. }
  pose proof (loadConfList_leaves g) as Lg. unfold Init, bind. destruct (loadConfList g) as [o g2]. cbn in Hl2, Lg.
  subst o. rewrite Hp. unfold saveInterNodeLinkConf, bind, call.
  destruct (os_Getenv "INTER_NODE_LINK_TYPE" g2) as [v2 g3] eqn:Hv2. pose proof (law_Getenv _ _ _ _ Hv2) as L3.
  destruct (os_WriteFile interNodeLinkConf v2 g3) as [[er|] g4] eqn:Hw3.
  { exists (Some er), g4. split; [done|]. by exists interNodeLinkConf, v2, g3. }
  apply law_WriteFile in Hw3. unfold saveConfList. fold (with_plugin conf plugins). rewrite Hm.
  unfold call. destruct (os_WriteFile kubedtnCNIPath bytes g4) as [[er|] g5] eqn:Hw4.
  { exists (Some er), g5. split; [done|]. by exists kubedtnCNIPath, bytes, g4. }
  apply law_WriteFile in Hw4. eexists _, _. split; [done|]. exists v2, g2, g3. split; [done|].
  rewrite Hw4, Hw3, L3, Lg. apply insert_id. by rewrite lookup_insert_ne.
Qed.

(** *** The bypass *)

(** When [main] returns with the bypass enabled, nothing it attached is attached
    any more, unless taking it back failed; or the loading failed, in which case
    the program is not closed. *)
Theorem daemon_bypass_closed port (clk : nat -> Z) (n n' : N) :
  with_bypass (run_daemon port true clk) n = (Val tt, n') ->
  (attached (bview (nd_bpf n')) = attached (bview (nd_bpf n)) /\ cglinks (bview (nd_bpf n')) = cglinks (bview (nd_bpf n))) \/
  (exists p v1, program_closed p (bview (nd_bpf n)) v1 (bview (nd_bpf n'))) \/
  exists b p er, LoadProgram no_program b = (Val (p, Some er), nd_bpf n').
Proof.
  assert (forall A (m : go B A) r (n n1 : N), at_bpf m n = (Val r, n1) -> m (nd_bpf n) = (Val r, nd_bpf n1)) as Hat.
  { intros A m r a b. unfold at_bpf, zoom. destruct (m (nd_bpf a)). intros [= -> <-]. done. }
  unfold with_bypass. intros Hr. apply bind_Val in Hr as (r1 & n1 & E1%Hat & Hr).
  pose proof (wp_run _ _ _ _ _ (CheckOrMount_ensures _) E1) as V1. cbv beta in V1.
  destruct r1 as [er|]; [injection Hr as <-; left; by rewrite V1|]. destruct V1 as [_ V1].
  apply bind_Val in Hr as (r2 & n2 & E2%Hat & Hr). unfold SetLimit, call in E2.
  destruct (unix_Setrlimit_memlock _) as [? ?] eqn:V2. apply law_Setrlimit in V2. injection E2 as -> ->.
  destruct r2 as [er|]; [injection Hr as <-; left; by rewrite V2, V1|].
  apply bind_Val in Hr as ([p err] & n3 & E3%Hat & Hr).
  destruct err as [er|]; [injection Hr as <-; right; right; eauto|]. right. left.
  pose proof (wlp_run _ _ _ _ _ (LoadProgram_wlp _) E3) as L. cbn [fst] in L. rewrite V2, V1 in L.
  pose proof (run_daemon_leaves_bpf port true clk n3) as Hk. unfold defer in Hr.
  destruct (run_daemon port true clk n3) as [[[]|w|c] n4]; [..|done]; cbn in Hk.
  - apply bind_Val in Hr as ([] & n5 & E5%Hat & [= <-]). rewrite Hk in E5.
    apply (wp_run _ _ _ _ _ (CloseProgram_wp p (nd_bpf n3) _ L)) in E5. by exists p, (bview (nd_bpf n3)).
  - apply bind_Val in Hr as ([] & n5 & _ & Hr). done.
Qed.

(** *** The daemon *)

Lemma connect_listens (cfg : Config) (n n1 : N) rCfg kClient tClient lis :
  connect cfg n = (Val (Ok (rCfg, kClient, tClient, lis)), n1) ->
  exists c c', net_Listen "tcp" (":" ++ Sprint (Port cfg)) c = (Ok lis, c') /\ nd_cluster n1 = c'.
Proof.
  unfold connect. intros Hr.
  apply bind_Val in Hr as (r1 & m1 & _ & Hr). destruct r1 as [cf|]; [|done].
  apply bind_Val in Hr as (r2 & m2 & _ & Hr). destruct r2 as [kc|]; [|done].
  apply bind_Val in Hr as (r3 & m3 & _ & Hr). destruct r3 as [tc|]; [|done].
  apply bind_Val in Hr as (r4 & m4 & E4 & Hr). destruct r4 as [l|]; [|done]. injection Hr as -> -> -> -> ->.
  unfold at_cluster, zoom, call in E4. destruct (net_Listen _ _ _) as [? c4] eqn:L4. injection E4 as -> <-. eauto.
Qed.

(** C29: what [New] starts the daemon with, when it succeeds: a listener on the
    configured port, the address of the environment, the interface of the
    node that has this address, no wires, and a manager that holds under each name
    exactly the last topology of that name, of those the API server lists that run
    on this node, in an object of its own (names are not qualified here, so of
    topologies of one name in several namespaces only the last is registered). *)
Theorem New_initialises (cfg : Config) (clk : nat -> Z) (n n' : N) (d : Server) :
  New cfg NewTopologyManager clk n = (Val (Ok d), n') ->
  exists n1 n2 hostIP topologies i,
    connect cfg n = (Val (Ok (sv_rCfg d, sv_kClient d, sv_tClient d, sv_lis d)), n1) /\
    (exists c c', net_Listen "tcp" (":" ++ Sprint (Port cfg)) c = (Ok (sv_lis d), c') /\ nd_cluster n1 = c') /\
    Getenv "HOST_IP" n1 = (Val hostIP, n2) /\
    (exists c', topologyClient_List "" (nd_cluster n2) = (Val (topologies, None), c')) /\
    (exists k ifaces k', net_Interfaces k = (ifaces, k') /\ In i ifaces) /\
    (exists a, In a (if_Addrs i) /\ IP_Equal (ParseIP hostIP) a = true) /\
    sv_config d = cfg /\
    settings (sv_state d) = mkSettings (cfg_TCPIPBypass cfg) hostIP (if_Name i) /\
    wireState (sv_state d) = init_wires /\
    (forall name, (fun l => load l (heap (sv_state d))) <$> topologyManager (sv_state d) !! name
       = last (filter (fun t => SrcIP (Status t) = hostIP /\ Name t = name) topologies)) /\
    own_objects (heap (sv_state d)) (topologyManager (sv_state d)).
Proof.
  unfold New. intros Hr.
  apply bind_Val in Hr as (r1 & n1 & E1 & Hr). destruct r1 as [[[[rCfg kClient] tClient] lis]|]; [|done].
  apply bind_Val in Hr as (hostIP & n2 & E2 & Hr). apply bind_Val in Hr as (r3 & n3 & E3 & Hr).
  destruct r3 as [m|]; [|done]. apply bind_Val in Hr as (store & n7 & _ & Hr).
  apply bind_Val in Hr as (s & n8 & _ & [= <- <-]). cbn [sv_lis sv_config sv_state sv_rCfg sv_kClient sv_tClient].
  unfold at_network, zoom in E3. destruct (newState _ _ _ _ _) as [? s3] eqn:L3. injection E3 as -> _.
  apply newState_initialises in L3 as (ts & c & i & k & ifaces & k' & Hl & Hi & Hin & Ha & Hs & Hw & Hk & He).
  exists n1, n2, hostIP, ts, i. split_and!; eauto 6. by eapply connect_listens.
Qed.

End MainProofs.

(** The controller's process leaves with code 1 or ends after its manager
    stopped; the manager is started only with the reconciler and both checks
    in place. *)
Theorem controller_main_starts `{CtrlLib E} (e e' : E) :
  controller_main e = (Val tt, e') ->
  exists mgr e1 e2 e3 e4,
    builder_Complete mgr "Topology" 32 e1 = (None, e2) /\
    mgr_AddHealthzCheck mgr "healthz" e2 = (None, e3) /\
    mgr_AddReadyzCheck mgr "readyz" e3 = (None, e4) /\
    mgr_Start mgr e4 = (None, e').
Proof.
  unfold controller_main. intros Hr. apply bind_Val in Hr as ([[a b] c] & e1 & _ & Hr).
  apply bind_Val in Hr as (cfg & e2 & _ & Hr). apply bind_Val in Hr as (r & e3 & _ & Hr).
  destruct r as [mgr|]; [|done].
  assert (forall (m : eff E (option error)) e e', or_exit (call m) e = (Val tt, e') -> m e = (None, e')) as Ho.
  { intros m x y. unfold or_exit, bind, call, ret, exit. destruct (m x) as [[er|] z]; congruence. }
  apply bind_Val in Hr as ([] & e4 & E1%Ho & Hr). apply bind_Val in Hr as ([] & e5 & E2%Ho & Hr).
  apply bind_Val in Hr as ([] & e6 & E3%Ho & E4%Ho). by exists mgr, e3, e4, e5, e6.
Qed.

(** ** Instances and witnesses *)

(** A cluster whose libraries work, with a server that ends as [served] says. *)
Definition sim_start (served : option error) : StartLib SimC.State :=
  {| rest_InClusterConfig c := (Err (errorf "not in a cluster"), c);
     homedir_HomeDir c := ("/root/", c);
     clientcmd_BuildConfigFromFlags url path c :=
       (if String.eqb path "/root/.kube/config" then Ok (mkRestConfig "host" None "" "" "")
        else Err (errorf "no such file"), c);
     kubernetes_NewForConfig cfg c := (Ok 1%Z, c);
     dynamic_NewForConfig cfg c := (Ok 2%Z, c);
     rest_RESTClientFor cfg c :=
       (if String.eqb (rc_APIPath cfg) "/apis" then Ok 3%Z else Err (errorf "GroupVersion is required"), c);
     dynamic_Get d ns name subs c := (Err (errorf "not found"), c);
     rest_DefaultKubernetesUserAgent := "agent";
     scheme_Codecs := "codecs";
     net_Listen net addr c := (if String.eqb addr ":51111" then Ok 4%Z else Err (errorf "in use"), c);
     cache_NewInformer cl ns c := (5%Z, c);
     grpc_NewServer c := (6%Z, c);
     grpc_RegisterService s name c := (tt, c);
     reflection_Register s c := (tt, c);
     grpc_Serve s lis c := (served, c);
     grpc_Stop s c := (tt, c);
     flag_debug := ret false;
     http_metrics addr reg c := (tt, c) |}.

(** Files and environment. *)
Record sim_files := mkSimFiles { sf_env : list (string * string); sf_fs : gmap string string }.

Definition sf_getenv (v : string) (f : sim_files) : string :=
  match List.find (fun p => String.eqb p.1 v) (sf_env f) with Some p => p.2 | None => "" end.

#[export] Instance SimCniLib : CniLib sim_files :=
  {| json_NetConf s := Ok (mkNetConf "0.3.0" None None);
     version_ParsePrevResult n := Ok n;
     current_NewResult n := Ok None;
     types_LoadArgs s := Ok (mkK8sArgs "r1" "default");
     types_PrintResult r v e := (None, e);
     libcni_ConfFiles dir exts f := (Ok (map_to_list (sf_fs f)).*1, f);
     libcni_ConfListFromFile p f :=
       (match sf_fs f !! p with Some b => Ok (mkConfList 1 b) | None => Err (errorf "no such file") end, f);
     libcni_ConfFromFile p e := (Err (errorf "no file"), e);
     libcni_ConfListFromConf c e := (Err (errorf "no file"), e);
     json_Unmarshal s := (sample_conf, None);
     json_MarshalIndent m := Ok "conf with kubedtn";
     os_Getenv v f := (sf_getenv v f, f);
     os_WriteFile p b f := (None, mkSimFiles (sf_env f) (<[p := b]> (sf_fs f)));
     os_Remove p f :=
       match sf_fs f !! p with
       | Some _ => (None, mkSimFiles (sf_env f) (delete p (sf_fs f)))
       | None => (Some (errorf "no such file"), f)
       end;
     os_ReadFile p f := (match sf_fs f !! p with Some b => Ok b | None => Err (errorf "no such file") end, f);
     os_OpenAppend p f := (Ok 3%Z, f);
     file_Close h f := (None, f);
     skel_PluginMainWithError add check del := add (mkCmdArgs "" "" "/ns/a") |}.

#[export] Instance SimFilesLaws : FilesLaws sim_files.
Proof. refine {| fs := sf_fs |}; cbn; intros; repeat case_match; by simplify_eq. Defined.

#[export] Instance SimFilesRead : FilesRead sim_files.
Proof.
  split; cbn.
  - intros p f1 f2 Hp. by rewrite Hp.
  - done.
  - done.
  - intros d x f. eexists. split; [done|]. split; [apply NoDup_fst_map_to_list|].
    intros p ([k b] & -> & Hk%elem_of_map_to_list)%list_elem_of_fmap. by eexists.
  - assert (forall (m : gmap string string) p, p ∈ (map_to_list m).*1 <-> is_Some (m !! p)) as Hk.
    { intros m p. rewrite list_elem_of_fmap. split.
      - intros ([k b] & -> & Hk%elem_of_map_to_list). by eexists.
      - intros [b Hb]. exists (p, b). split; [done|]. by apply elem_of_map_to_list. }
    intros d x f1 f2 l1 l2 p [= <-] [= <-] Hp. by rewrite !Hk.
Qed.

Definition start_files : sim_files :=
  mkSimFiles [("HOST_IP", "192.168.0.2"); ("GRPC_PORT", "0"); ("INTER_NODE_LINK_TYPE", "VXLAN"); ("TCPIP_BYPASS", "1")]
    {[ "/etc/cni/net.d/10-flannel.conflist" := "conf" ]}.

Definition start_node : Node Sim.State SimC.State sim_files sim_bpf :=
  mkNode nodeB sample_cluster start_files (bpf_node []).

Definition installed : sim_files := (Init start_files).2.

(** A server that stops, and one that fails. *)
Lemma daemon_main_files_witness :
  let ends served := daemon_main (H1 := sim_start served) Z.of_nat start_node in
  fs (nd_files (ends None).2) !! kubedtnCNIPath = None /\
  fs (nd_files (ends None).2) !! "/etc/cni/net.d/10-flannel.conflist" = Some "conf" /\
  (ends None).1 = Val tt /\ (ends (Some (errorf "closed"))).1 = Exit 1 /\
  is_Some (fs (nd_files (ends (Some (errorf "closed"))).2) !! kubedtnCNIPath).
Proof.
  intros ends.
  pose proof (daemon_main_files (H1 := sim_start None) Z.of_nat start_node _ installed _ eq_refl
                (surjective_pairing (ends None))) as D1.
  pose proof (daemon_main_files (H1 := sim_start (Some (errorf "closed"))) Z.of_nat start_node _ installed _ eq_refl
                (surjective_pairing (ends (Some (errorf "closed"))))) as D2.
  assert ((ends None).1 = Val tt) as E1 by (vm_compute; reflexivity).
  assert ((ends (Some (errorf "closed"))).1 = Exit 1) as E2 by (vm_compute; reflexivity).
  rewrite E1 in D1. rewrite E2 in D2. destruct D1 as ([Hg|[_ (f & er & f' & Hs & Hr)]] & _ & Hp).
  - split_and!; [exact Hg|by rewrite Hp|exact E1|exact E2|apply D2].
  - cbn in Hs, Hr. rewrite Hs in Hr. vm_compute in Hr. discriminate Hr.
Defined.

(** The daemon is started again after it was left. *)
Lemma Init_reinstalls_witness :
  exists g', Init installed = (Val None, g') /\ fs g' !! kubedtnCNIPath = fs installed !! kubedtnCNIPath.
Proof.
  destruct (Init_reinstalls start_files installed installed) as [_ (r & g' & Hr & Hm)];
    [vm_compute; reflexivity|reflexivity|].
  pose proof (f_equal fst Hr) as Ho. vm_compute in Ho. injection Ho as <-.
  destruct Hm as (v & h & h' & _ & Hf). exists g'. split; [exact Hr|]. rewrite Hf. by apply lookup_insert_ne.
Defined.

Definition started : outcome (result Server) * Node Sim.State SimC.State sim_files sim_bpf :=
  New (H1 := sim_start None) (mkConfig 51111 true) NewTopologyManager Z.of_nat start_node.

Lemma New_initialises_witness :
  match started.1 with
  | Val (Ok d) =>
      (fun l => load l (heap (sv_state d))) <$> topologyManager (sv_state d) !! "r2" = Some (topo "r2" "192.168.0.2" "/ns/b" [])
      /\ vxlanIntf (settings (sv_state d)) = "ens3"
  | _ => False
  end.
Proof.
  assert (match started.1 with Val (Ok d) => vxlanIntf (settings (sv_state d)) = "ens3" | _ => False end) as Hv
    by (vm_compute; reflexivity).
  destruct started as [[[d|]| |] n'] eqn:Hr; [|done..]. split; [|exact Hv].
  destruct (New_initialises (H1 := sim_start None) (mkConfig 51111 true) Z.of_nat start_node n' d Hr)
    as (n1 & n2 & ip & ts & i & E1 & _ & E2 & (c' & Hl) & _ & _ & _ & _ & _ & Hk & _).
  rewrite Hk. apply (f_equal snd) in E1. cbn [snd] in E1. subst n1.
  pose proof (f_equal fst E2) as Ei. vm_compute in Ei. injection Ei as <-.
  apply (f_equal snd) in E2. cbn [snd] in E2. subst n2.
  vm_compute in Hl. injection Hl as <- _. vm_compute. reflexivity.
Defined.
