(* ===== verification/Network.v ===== *)
(** * Daemons that call each other

    The handlers of several nodes composed: the cluster that one daemon sees
    holds the other nodes, and a remote update runs the handler [Update] of
    the called daemon on its own node.  An error of the handler is the error
    of the call, and a handler that panics takes its daemon down. *)

From stdpp Require Import base strings gmap list.
From Stdlib Require Import ZArith Lia.
From S2P Require Import Prelude GoStr GoNum GoNet Proto ApiV1 K8s Kernel SimKernel Qdisc.
From S2P Require Import LinkUtil Vxlan Decode Wire Metrics Daemon Handler HandlerProps.
From S2P Require Import Invariant.

Local Open Scope string_scope.

(** ** The network *)

(** The API server, and the other nodes with their daemons by address. *)
Record Net (K A : Type) := mkNet { api : A; peers : gmap string (K * KubeDTN) }.
Arguments mkNet {K A}.
Arguments api {K A}.
Arguments peers {K A}.

Section Net.
  Context {K A : Type} `{UnicodeTables, ProtoLib, Kernel K}.

(** A node serving an update: its answer and its state, unless it crashes. *)
Definition serve_Update (p : pb_RemotePod) (n : K * KubeDTN) : option (result pb_BoolResponse * (K * KubeDTN)) :=
  match Update [] p (mkWorld n.1 tt n.2) with
  | (Val (r, None), w) => Some (Ok r, (kernel w, daemon w))
  | (Val (_, Some e), w) => Some (Err e, (kernel w, daemon w))
  | _ => None
  end.

#[export] Instance net_grpc : GrpcClient (Net K A) :=
  {| grpc_Dial target n := (None, n);
     grpc_Invoke target method req n :=
       match req, peers n !! target with
       | ReqUpdate p, Some node =>
           match serve_Update p node with
           | Some (r, node') => (r, mkNet (api n) (<[target := node']> (peers n)))
           | None => (Err (errorf "connection reset"), mkNet (api n) (delete target (peers n)))
           end
       | _, _ => (Err (errorf "unavailable"), n)
       end |}.

(** A call to the API server. *)
Definition on_api {X} (f : eff A X) : eff (Net K A) X :=
  fun n => let '(x, a) := f (api n) in (x, mkNet a (peers n)).

#[export] Instance net_rest `{!RestClient A} : RestClient (Net K A) :=
  {| rest_Into r := on_api (rest_Into r); rest_IntoList r := on_api (rest_IntoList r);
     rest_Error r := on_api (rest_Error r) |}.

#[export] Instance net_informer `{!Informer A} : Informer (Net K A) :=
  {| store_GetByKey key := on_api (store_GetByKey key) |}.

End Net.

(** [addLink] for a peer that reads as alive on another node: what it runs after the
    peer's topology was read, and where. *)
Lemma addLink_elsewhere {K C : Type} `{UnicodeTables, ProtoLib, Kernel K, RestClient C, Informer C, GrpcClient C}
    ctx pod link peer peerPod (w w' : World K C) v r :
  MakeVeth (pod_NetNs pod) (pb_LocalIntf link) (pb_LocalIp link) (pb_LocalMac link) = Ok v ->
  pb_PeerPod link <> Localhost -> HasPrefix (pb_PeerPod link) physical_prefix = false ->
  peer_read w (pb_PeerPod link) (pod_KubeNs pod) peer -> ToProtoPod peer = Ok peerPod ->
  is_alive (pod_SrcIp peerPod) (pod_NetNs peerPod) = true -> pod_SrcIp peerPod <> pod_SrcIp pod ->
  addLink ctx pod link w = (Val r, w') ->
  exists l w1 t h,
    getPod (pb_PeerPod link) (pod_KubeNs pod) (set_daemon (tick (daemon w)) w) = (Val (Ok l), w1) /\
    kernel w1 = kernel w /\ daemon w1 = set_heap h (tick (daemon w)) /\
    addLink_remote (WithCtxValue (WithLogger ctx) TCPIP_BYPASS (CtxBool (TCPIPBypass (settings (daemon w))))) t
      pod peerPod link w1 = (Val r, w').
Proof.
  intros Hv Hloc Hphy (l & w1 & Hg & Hpeer) Hp Halive Hdiff Ha. unfold addLink in Ha.
  apply bind_Val in Ha as (d & w0 & [= <- <-] & Ha). apply bind_Val in Ha as (t & w2 & [= <- <-] & Ha).
  rewrite Hv in Ha. apply String.eqb_neq in Hloc. rewrite Hloc, Hphy in Ha.
  apply bind_Val in Ha as (r1 & w3 & Hg' & Ha).
  pose proof (wlp_run _ _ _ _ _ (getPod_wlp _ _ _) Hg') as (Hk & h & Hd).
  rewrite Hg in Hg'. injection Hg' as <- <-. apply bind_Val in Ha as (t2 & w4 & [= <- <-] & Ha).
  rewrite Hpeer, Hp, Halive in Ha. cbn [negb] in Ha. apply String.eqb_neq in Hdiff. rewrite Hdiff in Ha.
  eauto 10.
Qed.

Section NetProofs.
  Context {K A : Type} `{UnicodeTables, ProtoLib, KernelLaws K, RestClient A, Informer A}.
  Local Abbreviation W := (World K (Net K A)).
  Implicit Types (w : W).

Definition the_peers w : gmap string (K * KubeDTN) := peers (cluster w).

Lemma getPod_keeps_peers name ns : keeps the_peers (getPod name ns : go W _).
Proof.
  assert (forall X (f : eff A X), keeps the_peers (on_cluster (call (on_api f)) : go W X)) as Hapi.
  { intros X f w. unfold wlp, on_cluster, zoom, call, on_api, the_peers. by destruct (f (api (cluster w))). }
  unfold getPod. apply keeps_bind; [apply Hapi|]. intros obj. destruct obj.
  1, 2: apply keeps_bind; [apply (Hapi _ (rest_Into _))|]; intros [t er]; destruct er; [apply keeps_ret|];
    apply keeps_bind; [by intros w|]; intros d; cbn [alloc]; apply keeps_bind; [by apply keeps_mod|];
    intros []; apply keeps_ret.
  apply keeps_bind; [by intros w|]. intros d. cbn [share]. apply keeps_bind; [by apply keeps_mod|].
  intros []. apply keeps_ret.
Qed.

(** A call that succeeds ran the handler of the called node, which accepted;
    no other node has changed. *)
Lemma UpdateRemote_runs pod peerPod link (n n' : Net K A) :
  UpdateRemote pod peerPod link n = (Val None, n') ->
  exists node r (w' : World K unit),
    peers n !! remote_url peerPod = Some node /\
    Update [] (remote_payload pod peerPod link) (mkWorld node.1 tt node.2) = (Val (r, None), w') /\
    peers n' = <[remote_url peerPod := (kernel w', daemon w')]> (peers n).
Proof.
  unfold UpdateRemote, remoteClient_Update, stub, bind, call, ret.
  cbn [grpc_Dial grpc_Invoke net_grpc]. destruct (peers n !! _) as [node|]; [|by cbn].
  unfold serve_Update. destruct (Update _ _ _) as [[[r [er|]]|w|c] w'] eqn:Hu; cbn; [done| |done..].
  case_match; cbn; intros [= <-]; exists node, r, w'; done.
Qed.

(** Both ends of a remote link: this node's with the daemon's setting of the
    bypass, the other's without the bypass. *)
Definition link_up w (bypass : bool) (pod peerPod : pb_Pod) (link : pb_Link) : Prop :=
  tunnel_end (view (kernel w)) (pod_NetNs pod) (pb_LocalIntf link) (GetVniFromUid (pb_Uid link)) (pod_SrcIp peerPod) /\
  shaped (view (kernel w)) (pod_NetNs pod, pb_LocalIntf link) bypass (pb_Properties link) /\
  exists node, the_peers w !! remote_url peerPod = Some node /\
    tunnel_end (view node.1) (pod_NetNs peerPod) (pb_PeerIntf link) (GetVniFromUid (pb_Uid link)) (pod_SrcIp pod) /\
    shaped (view node.1) (pod_NetNs peerPod, pb_PeerIntf link) false (pb_Properties link) /\
    recorded (vxlanManager node.2) (GetVniFromUid (pb_Uid link)) (pod_NetNs peerPod).

Lemma addLink_remote_net ctx t pod peerPod link w node :
  vxlanIntf (settings (daemon w)) <> "" -> the_peers w !! remote_url peerPod = Some node ->
  vxlanIntf (settings node.2) <> "" ->
  wlp (addLink_remote ctx t pod peerPod link) (fun r w' => r = None -> link_up w' (tcpIpBypass ctx) pod peerPod link) w.
Proof.
  intros Hv Hn Hvn. unfold addLink_remote. do 2 d_step. cbv zeta. do 3 d_step. apply wlp_kernel.
  eapply wlp_mono; [by apply wlp_SetupVxLan|]. intros [er|] k' Hk; [by repeat d_step|].
  unfold call_remote. do 7 d_step. apply wlp_cluster, wlp_intro. intros [er|] n' Hr; [by wp_step|].
  destruct (UpdateRemote_runs pod peerPod link _ n' Hr) as (node' & r & w' & Hn' & Hu & Hp).
  change (the_peers w !! remote_url peerPod = Some node') in Hn'. assert (node' = node) as -> by congruence.
  destruct (wlp_run _ _ _ _ _ (Update_wlp [] _ (mkWorld node.1 tt node.2) Hvn) Hu) as [[e He]|(_ & Ht & Hsh & Hrec)]; [done|].
  repeat d_step. intros _. split; [by apply Hk|]. split; [by apply Hk|]. exists (kernel w', daemon w').
  split; [|done]. unfold the_peers. cbn. by rewrite Hp, lookup_insert_eq.
Qed.

(** C5: one request on one node connects both nodes: when [addLink] succeeds for
    a peer that is alive on another node whose daemon is up, the pod's end is
    a VXLAN with the link's VNI towards the peer's node, and on the peer's
    node, whose handler ran within the call, the other end is a VXLAN with the
    same VNI back to this node, recorded for the peer's namespace; each end
    carries the shaping the link's properties ask for. *)
Theorem addLink_connects_nodes (ctx : Ctx) (pod : pb_Pod) (link : pb_Link) (peer : Topology) (peerPod : pb_Pod)
    (w w' : W) (node : K * KubeDTN) :
  vxlanIntf (settings (daemon w)) <> "" ->
  the_peers w !! remote_url peerPod = Some node -> vxlanIntf (settings node.2) <> "" ->
  pb_PeerPod link <> Localhost -> HasPrefix (pb_PeerPod link) physical_prefix = false ->
  peer_read w (pb_PeerPod link) (pod_KubeNs pod) peer -> ToProtoPod peer = Ok peerPod ->
  is_alive (pod_SrcIp peerPod) (pod_NetNs peerPod) = true -> pod_SrcIp peerPod <> pod_SrcIp pod ->
  addLink ctx pod link w = (Val None, w') ->
  link_up w' (TCPIPBypass (settings (daemon w))) pod peerPod link.
Proof.
  intros Hv Hn Hvn Hloc Hphy Hpeer Hp Halive Hdiff Ha.
  destruct (MakeVeth (pod_NetNs pod) (pb_LocalIntf link) (pb_LocalIp link) (pb_LocalMac link)) as [v|er] eqn:Hm.
  2: { unfold addLink in Ha. apply bind_Val in Ha as (d & w0 & [= <- <-] & Ha).
       apply bind_Val in Ha as (t & w2 & _ & Ha). by rewrite Hm in Ha. }
  destruct (addLink_elsewhere _ _ _ _ _ _ _ _ _ Hm Hloc Hphy Hpeer Hp Halive Hdiff Ha) as (l & w1 & t & h & Hg & Hk & Hd & Hr).
  pose proof (wlp_run _ _ _ _ _ (getPod_keeps_peers _ _ _) Hg) as Hps. cbv beta in Hps.
  refine (wlp_run _ _ _ _ _ (addLink_remote_net _ _ _ _ _ w1 node _ _ Hvn) Hr eq_refl).
  - by rewrite Hd.
  - by rewrite Hps.
Qed.

End NetProofs.

(** ** The two ways to make an end *)

(** The link as the peer's topology describes it. *)
Definition mirror (name : string) (link : pb_Link) : pb_Link :=
  mk_pb_Link name (pb_PeerIntf link) (pb_LocalIntf link) (pb_PeerIp link) (pb_LocalIp link) (pb_Uid link)
    (pb_Properties link) (pb_PeerMac link) (pb_LocalMac link).

Section Ends.
  Context {K C : Type} `{UnicodeTables, ProtoLib, Kernel K, RestClient C, Informer C, GrpcClient C}.
  Implicit Types (w : World K C).

(** Of a context, only the switch of the bypass matters. *)
Lemma SetupVxLan_ctx ctx ctx' v p :
  tcpIpBypass ctx = tcpIpBypass ctx' -> SetupVxLan (E := K) ctx v p = SetupVxLan ctx' v p.
Proof. intros Hc. unfold SetupVxLan, SetVethQdiscs. by rewrite Hc. Qed.

(** No other namespace is recorded for the update's VNI. *)
Lemma remove_stale_none pod w :
  (forall n, records w !! rp_Vni pod = Some n -> n = rp_NetNs pod) -> remove_stale_vxlan pod w = (Val tt, w).
Proof.
  intros Hn. unfold remove_stale_vxlan, vxlan_netns, bind, get_daemon, ret.
  unfold records, vxlan_abs in Hn. rewrite lookup_fmap in Hn. unfold VxlanManager_Get.
  destruct (vxlans (vxlanManager (daemon w)) !! rp_Vni pod) as [c|]; [|done]. cbn in Hn |- *.
  rewrite (Hn _ eq_refl), String.eqb_refl. done.
Qed.

Definition spec_of_update (pod : pb_RemotePod) (d : KubeDTN) : VxlanSpec :=
  {| vs_NetNs := rp_NetNs pod; vs_IntfName := rp_IntfName pod; vs_IntfIp := rp_IntfIp pod;
     vs_PeerVtep := rp_PeerVtep pod; vs_Vni := rp_Vni pod;
     vs_SrcIp := nodeIP (settings d); vs_SrcIntf := vxlanIntf (settings d) |}.

(** An update without a stale record: the interface, then the record. *)
Lemma Update_run ctx pod w :
  (forall n, records w !! rp_Vni pod = Some n -> n = rp_NetNs pod) ->
  exists w', Update ctx pod w =
    (match (SetupVxLan (WithLogger ctx) (spec_of_update pod (daemon w)) (rp_Properties pod) (kernel w)).1 with
     | Val (Some e) => Val (refuse e) | Val None => Val accept | Panic s => Panic s | Exit c => Exit c end, w') /\
    kernel w' = (SetupVxLan (WithLogger ctx) (spec_of_update pod (daemon w)) (rp_Properties pod) (kernel w)).2 /\
    records w' =
      (match (SetupVxLan (WithLogger ctx) (spec_of_update pod (daemon w)) (rp_Properties pod) (kernel w)).1 with
       | Val None => records (vxlan_add (rp_Vni pod) (rp_NetNs pod) w).2
       | _ => records w end).
Proof.
  intros Hn. unfold Update, time_Now, holding, Lock, get_daemon, mod_daemon, modify, bind, ret. cbn [daemon set_daemon settings tick].
  fold (spec_of_update pod (daemon w)). rewrite remove_stale_none by exact Hn.
  unfold update_vxlan, on_kernel, zoom, bind. cbn [kernel set_daemon].
  destruct (SetupVxLan _ _ _ _) as [[[e|]|s|c] k']; eexists; (split; [reflexivity|]); done.
Qed.

(** The same of the first half of [addLink] for a remote peer. *)
Lemma addLink_remote_run ctx t pod peerPod link w r w' :
  let v := mkVxlanSpec (pod_NetNs pod) (pb_LocalIntf link) (pb_LocalIp link) (pod_SrcIp peerPod)
             (GetVniFromUid (pb_Uid link)) (nodeIP (settings (daemon w))) (vxlanIntf (settings (daemon w))) in
  addLink_remote ctx t pod peerPod link w = (Val r, w') ->
  kernel w' = (SetupVxLan ctx v (pb_Properties link) (kernel w)).2 /\
  match (SetupVxLan ctx v (pb_Properties link) (kernel w)).1 with
  | Val (Some e) => r = Some e /\ records w' = records w
  | Val None => records w' = records (vxlan_add (GetVniFromUid (pb_Uid link)) (pod_NetNs pod) w).2 /\
      (r <> None -> exists c c', UpdateRemote pod peerPod link c = (Val r, c'))
  | _ => False
  end.
Proof.
  intros v Hr. unfold addLink_remote in Hr. unfold bind at 1, get_daemon in Hr. fold v in Hr.
  unfold bind at 1, Lock, mod_daemon, modify in Hr. unfold bind at 1, on_kernel, zoom in Hr. cbn [kernel set_daemon] in Hr.
  destruct (SetupVxLan ctx v (pb_Properties link) (kernel w)) as [[[e|]|s|c] k']; [| |done..].
  - injection Hr as <- <-. done.
  - unfold bind at 1, vxlan_add, mod_daemon, modify in Hr. unfold bind at 1, Unlock, mod_daemon, modify in Hr.
    apply bind_Val in Hr as (er & w1 & Hc & Hr). unfold call_remote, bind at 1, mod_daemon, modify, on_cluster, zoom in Hc.
    destruct (UpdateRemote _ _ _ _) as [o c'] eqn:Hcall. injection Hc as -> <-.
    destruct er as [er|]; injection Hr as <- <-; (split; [done|]); cbn [fst snd]; (split; [done|]);
      [intros _; by eexists _, _|done].
Qed.

(** C16: an end made for a remote daemon is the end the node makes for itself.  On a
    node that has no other namespace recorded for the VNI, and whose daemon's
    setting of the bypass is that of the update's context (off, for updates that come
    over the network), serving the update that [addLink] of pod [a] sends leaves
    the same interfaces and the same records as [addLink] of pod [b] for the
    mirrored link, when that reads [a] as alive on another node and its addresses can
    be parsed; where serving fails, [addLink] fails with the same error, and where
    [addLink] fails otherwise it is the call to the other node that failed. *)
Theorem Update_equals_own_addLink (ctx ctx' : Ctx) (a b : pb_Pod) (link : pb_Link) (peer : Topology) (v : VEth)
    (w w1 w2 : World K C) (resp : pb_BoolResponse) (err err' : option error) :
  tcpIpBypass ctx = TCPIPBypass (settings (daemon w)) ->
  (forall n, records w !! GetVniFromUid (pb_Uid link) = Some n -> n = pod_NetNs b) ->
  MakeVeth (pod_NetNs b) (pb_PeerIntf link) (pb_PeerIp link) (pb_PeerMac link) = Ok v ->
  pod_Name a <> Localhost -> HasPrefix (pod_Name a) physical_prefix = false ->
  peer_read w (pod_Name a) (pod_KubeNs b) peer -> ToProtoPod peer = Ok a ->
  is_alive (pod_SrcIp a) (pod_NetNs a) = true -> pod_SrcIp a <> pod_SrcIp b ->
  Update ctx (remote_payload a b link) w = (Val (resp, err), w1) ->
  addLink ctx' b (mirror (pod_Name a) link) w = (Val err', w2) ->
  kernel w1 = kernel w2 /\ records w1 = records w2 /\
  (err <> None -> err' = err) /\ Response resp = bool_decide (err = None) /\
  (err = None -> err' <> None -> exists c c', UpdateRemote b a (mirror (pod_Name a) link) c = (Val err', c')).
Proof.
  intros Hc Hn Hv Hloc Hphy Hpeer Hp Hal Hsrc Hu Ha.
  destruct (Update_run ctx (remote_payload a b link) w Hn) as (w1' & Hu' & Hk & Hr). rewrite Hu in Hu'.
  destruct (addLink_elsewhere ctx' b (mirror (pod_Name a) link) peer a w w2 v err' Hv Hloc Hphy Hpeer Hp Hal Hsrc Ha)
    as (l & w3 & t & h & _ & K3 & D3 & Hrem).
  apply addLink_remote_run in Hrem as [Hk2 Hrem].
  assert (forall vni s, records (vxlan_add vni s w3).2 = records (vxlan_add vni s w).2) as Hadd
    by (intros vni s; unfold records; cbn; by rewrite D3).
  assert (records w3 = records w) as Hrec by (unfold records; by rewrite D3).
  rewrite K3, D3, Hrec, Hadd in *. cbn [mirror pb_LocalIntf pb_LocalIp pb_Uid pb_Properties settings set_heap tick] in Hk2, Hrem.
  rewrite (SetupVxLan_ctx (WithCtxValue _ _ _) (WithLogger ctx)) in Hk2, Hrem by (symmetry; exact Hc).
  unfold spec_of_update in *. cbn [remote_payload rp_NetNs rp_IntfName rp_IntfIp rp_PeerVtep rp_Vni rp_Properties] in *.
  destruct (SetupVxLan _ _ _ _) as [[[e|]|s|c] k']; cbn [fst snd] in *; [| |done..]; injection Hu' as -> -> <-.
  - destruct Hrem as [-> Hrem]. split_and!; [congruence|congruence|done|done|done].
  - destruct Hrem as [Hrem Hcall]. split_and!; [congruence|congruence|done|done|]. intros _. exact Hcall.
Qed.

(** The same daemon with the bypass switched. *)
Definition switch_bypass (b : bool) (d : KubeDTN) : KubeDTN :=
  mkKubeDTN (mkSettings b (nodeIP (settings d)) (vxlanIntf (settings d))) (heap d) (topologyManager d)
    (vxlanManager d) (wireState d) (threads d) (histograms d) (clock d) (ticks d) (trace d).

(** Computations that do the same for both settings. *)
Definition bypass_blind {X} (b : bool) (m : go (World K C) X) : Prop :=
  forall w, m (set_daemon (switch_bypass b (daemon w)) w) =
            ((m w).1, set_daemon (switch_bypass b (daemon (m w).2)) (m w).2).

Lemma blind_ret {X} b (x : X) : bypass_blind b (ret x).
Proof. done. Qed.

Lemma blind_bind {X Y} b (m : go (World K C) X) (k : X -> go (World K C) Y) :
  bypass_blind b m -> (forall x, bypass_blind b (k x)) -> bypass_blind b (bind m k).
Proof.
  intros Hm Hk w. unfold bind. rewrite Hm. destruct (m w) as [[x| |] w1]; cbn; [apply Hk|done..].
Qed.

Lemma blind_get {Y} b (k : KubeDTN -> go (World K C) Y) :
  (forall d, k (switch_bypass b d) = k d) -> (forall d, bypass_blind b (k d)) -> bypass_blind b (bind get_daemon k).
Proof. intros Hd Hk w. unfold bind, get_daemon. cbn. by rewrite Hd, Hk. Qed.

Lemma blind_kernel {X} b (m : go K X) : bypass_blind b (on_kernel m).
Proof. intros w. unfold on_kernel, zoom. cbn. by destruct (m (kernel w)). Qed.

Lemma blind_mod b f : (forall d, f (switch_bypass b d) = switch_bypass b (f d)) -> bypass_blind b (mod_daemon f).
Proof. intros Hf w. unfold mod_daemon, modify. cbn. by rewrite Hf. Qed.

Lemma blind_holding {X} b uid (m : go (World K C) X) : bypass_blind b m -> bypass_blind b (holding uid m).
Proof.
  intros Hm. apply blind_bind; [by apply blind_mod|]. intros [] w. rewrite Hm. by destruct (m w).
Qed.

Ltac blind_step :=
  lazymatch goal with
  | |- bypass_blind _ (ret _) => apply blind_ret
  | |- bypass_blind _ (on_kernel _) => apply blind_kernel
  | |- bypass_blind _ (mod_daemon _) => by apply blind_mod
  | |- bypass_blind _ (holding _ _) => apply blind_holding
  | |- bypass_blind _ (bind get_daemon _) => apply blind_get; [done|intros ?]
  | |- bypass_blind _ (bind _ _) => apply blind_bind; [|intros ?]
  | |- bypass_blind _ (match ?x with _ => _ end) => destruct x
  end.


End Ends.

(** ** A lost link *)

(** An API server whose informers still hold what they first listed. *)
Record StaleApi := mkStaleApi { sa_server : SimC.State; sa_store : gmap string (Z * Topology) }.

Definition on_server {X} (f : eff SimC.State X) : eff StaleApi X :=
  fun a => let '(x, s) := f (sa_server a) in (x, mkStaleApi s (sa_store a)).

#[export] Instance stale_rest : RestClient StaleApi :=
  {| rest_Into r := on_server (rest_Into r); rest_IntoList r := on_server (rest_IntoList r);
     rest_Error r := on_server (rest_Error r) |}.

#[export] Instance stale_informer : Informer StaleApi :=
  {| store_GetByKey key a :=
       (match sa_store a !! key with Some (id, t) => Stored id t | None => StoreMissing end, a) |}.

#[local] Existing Instance ascii_tables.

Definition link21 : Link :=
  mkLink "eth1" "10.0.0.2/24" "" "eth1" "10.0.0.1/24" "" "r1" 1
    (mkLinkProperties "10ms" "" "" "" "" "" 0 "" "" "" "" "" "").

(** Two pods that are starting. *)
Definition starting : StaleApi :=
  mkStaleApi (SimC.mkState {[ ("default", "r1") := topo "r1" "" "" [link12];
                              ("default", "r2") := topo "r2" "" "" [link21] ]} [])
    {[ "default/r1" := (1%Z, topo "r1" "" "" [link12]); "default/r2" := (2%Z, topo "r2" "" "" [link21]) ]}.

Abbreviation NetWorld := (World Sim.State (Net Sim.State StaleApi)).

(** The first pod is set up on its node, then the second on its own: the API
    server and the nodes carry over. *)
Definition first_setup : outcome (pb_BoolResponse * option error) * NetWorld :=
  SetupPod [] (mk_pb_SetupPodQuery "r1" "default" "/ns/a")
    (mkWorld (HandlerProps.node ["/ns/a"])
       (mkNet starting {[ remote_url podB := (HandlerProps.node ["/ns/b"], daemon0 "192.168.0.2") ]})
       (daemon0 "192.168.0.1")).

Definition second_setup : outcome (pb_BoolResponse * option error) * NetWorld :=
  let w := first_setup.2 in
  match the_peers w !! remote_url podB with
  | Some (k, d) =>
      SetupPod [] (mk_pb_SetupPodQuery "r2" "default" "/ns/b")
        (mkWorld k (mkNet (api (cluster w)) {[ remote_url podA := (kernel w, daemon w) ]}) d)
  | None => (Panic "no node", w)
  end.

(** A link can be lost while both sides report success: two pods with a link
    between them are set up one after the other, each daemon answers true, the
    API server has both pods alive, and neither node has an interface, because
    each daemon read the other pod from an informer that had not yet seen it
    alive, and left the link to the other. *)
Theorem SetupPods_lose_link :
  first_setup.1 = Val accept /\ second_setup.1 = Val accept /\
  (forall name, name ∈ ["r1"; "r2"] ->
     exists t, SimC.db (sa_server (api (cluster second_setup.2))) !! ("default", name) = Some t /\
       is_alive (SrcIP (Status t)) (NetNs (Status t)) = true) /\
  links (Sim.sk_view (kernel second_setup.2)) = ∅ /\
  (forall node, the_peers second_setup.2 !! remote_url podA = Some node -> links (Sim.sk_view node.1) = ∅).
Proof.
  split; [vm_compute; reflexivity|]. split; [vm_compute; reflexivity|]. split; [|split].
  - intros name Hn. repeat (apply elem_of_cons in Hn as [->|Hn]; [eexists; split; [vm_compute; reflexivity|reflexivity]|]).
    by apply not_elem_of_nil in Hn.
  - vm_compute. reflexivity.
  - intros node Hn. assert (Some node = the_peers second_setup.2 !! remote_url podA) as E by (by symmetry).
    vm_compute in E. injection E as ->. reflexivity.
Qed.

(** ** Witnesses *)

Definition net_world : World Sim.State (Net Sim.State SimC.State) :=
  mkWorld (HandlerProps.node ["/ns/a"])
    (mkNet sample_cluster {[ remote_url podB := (HandlerProps.node ["/ns/b"], daemon0 "192.168.0.2") ]})
    (daemon0 "192.168.0.1").

Lemma addLink_connects_nodes_witness :
  exists w', addLink [] podA (Link_ToProto link12) net_world = (Val None, w') /\
    link_up w' true podA podB (Link_ToProto link12).
Proof.
  eexists. split; [vm_compute; reflexivity|].
  eapply (addLink_connects_nodes [] podA (Link_ToProto link12) (topo "r2" "192.168.0.2" "/ns/b" []) podB net_world).
  - discriminate.
  - vm_compute. reflexivity.
  - discriminate.
  - discriminate.
  - reflexivity.
  - eexists _, _. split; [vm_compute; reflexivity|]. vm_compute. reflexivity.
  - vm_compute. reflexivity.
  - reflexivity.
  - discriminate.
  - vm_compute. reflexivity.
Defined.

(** The node of the sample peer, without the bypass, from which the sample pod reads as alive. *)
Definition worldB_plain : World Sim.State SimC.State :=
  mkWorld (kernel worldB)
    (SimC.mkState {[ ("default", "r1") := topo "r1" "192.168.0.1" "/ns/a" [link12];
                     ("default", "r2") := topo "r2" "192.168.0.2" "/ns/b" [] ]} [])
    (switch_bypass false (daemon worldB)).

Lemma Update_equals_own_addLink_witness :
  exists w1 w2, Update [] (remote_payload podA podB (Link_ToProto link12)) worldB_plain = (Val accept, w1) /\
    addLink [] podB (mirror "r1" (Link_ToProto link12)) worldB_plain = (Val None, w2) /\
    kernel w1 = kernel w2 /\ records w1 = records w2.
Proof.
  destruct (Update [] (remote_payload podA podB (Link_ToProto link12)) worldB_plain) as [o1 w1] eqn:E1.
  destruct (addLink [] podB (mirror "r1" (Link_ToProto link12)) worldB_plain) as [o2 w2] eqn:E2.
  assert (o1 = Val accept) as -> by (apply (f_equal fst) in E1; vm_compute in E1; subst o1; reflexivity).
  assert (o2 = Val None) as -> by (apply (f_equal fst) in E2; vm_compute in E2; subst o2; reflexivity).
  exists w1, w2. split; [done|]. split; [done|].
  edestruct (Update_equals_own_addLink [] [] podA podB (Link_ToProto link12) (topo "r1" "192.168.0.1" "/ns/a" [link12])
      (mkVEth "/ns/b" "eth1" [mkIPNet (IPv4 10 0 0 2) [255; 255; 255; 0]%Z] []) worldB_plain w1 w2) as (Hk & Hr & _);
    [reflexivity|intros n Hn; vm_compute in Hn; discriminate Hn|vm_compute; reflexivity|discriminate|vm_compute; reflexivity
    |eexists _, _; split; [vm_compute; reflexivity|vm_compute; reflexivity]|vm_compute; reflexivity|vm_compute; reflexivity
    |discriminate|exact E1|exact E2|]. by split.
Defined.
