(* ===== verification/Batch.v ===== *)
(** * Whole batches of links

    [AddLinks] makes the links of a pod one after the other.  This file shows
    that later links leave the earlier ones alone, so that after a batch every
    link to another node stands at both ends at once, with its shaping: frame lemmas for
    [Update] and [addLink] on the tunnels that are there already, and an
    induction over the loop of the handler. *)

From stdpp Require Import base strings gmap list.
From Stdlib Require Import ZArith Lia.
From S2P Require Import Prelude GoStr GoNum GoNet Proto ApiV1 K8s Kernel SimKernel Qdisc.
From S2P Require Import LinkUtil Vxlan Decode Wire Metrics Daemon Handler HandlerProps.
From S2P Require Import Invariant Network.

Local Open Scope string_scope.

(** Two elements of a list whose images differ. *)
Lemma NoDup_fmap_apart {X Y} (f : X -> Y) (l r : list X) (x y : X) :
  NoDup (f <$> (l ++ x :: r)%list) -> y ∈ l -> f y <> f x.
Proof.
  rewrite fmap_app, fmap_cons. intros (_ & Hn & _)%NoDup_app Hy E.
  apply (Hn (f y)); [by apply list_elem_of_fmap_2|]. rewrite E. apply elem_of_cons. by left.
Qed.

(** ** Ends that stand *)

(** One end of a tunnel: where it is, its VNI, the address it points to, and the
    shaping asked for. *)
Record tunnel := mkTunnel {
  tn_ns : string; tn_intf : string; tn_vni : Z; tn_vtep : string; tn_props : option pb_LinkProperties
}.

(** Two ends of different links. *)
Definition apart (x y : tunnel) : Prop :=
  (tn_ns x, tn_intf x) <> (tn_ns y, tn_intf y) /\ tn_vni x <> tn_vni y.

Lemma recorded_add m vni vni' ns s :
  vni <> vni' -> recorded m vni ns -> recorded (let '(c, m) := new_cell s m in VxlanManager_Add vni' c m) vni ns.
Proof.
  intros Hv (c & Hc & Hlt & Hd). exists c. unfold VxlanManager_Get, deref in *. cbn.
  rewrite !lookup_insert_ne by (congruence || lia). split_and!; [done|lia|done].
Qed.

Section Frames.
  Context {K C : Type} `{UnicodeTables, ProtoLib, KernelLaws K, RestClient C, GrpcClient C, Informer C}.
  Implicit Types (w : World K C) (x : tunnel).

(** The interface is there, it is shaped (with or without the filter of the
    bypass, as the daemon that shaped it last has it), ... *)
Definition end_up x (v : net_view) : Prop :=
  tunnel_end v (tn_ns x) (tn_intf x) (tn_vni x) (tn_vtep x) /\
  exists b, shaped v (tn_ns x, tn_intf x) b (tn_props x).

(** ... and the daemon has its record. *)
Definition stands x (k : K) (d : KubeDTN) : Prop :=
  end_up x (view k) /\ recorded (vxlanManager d) (tn_vni x) (tn_ns x).

Definition stands_in x w : Prop := stands x (kernel w) (daemon w).

Lemma end_kept v v' x : keeps_vxlan (tn_ns x, tn_intf x) (tn_vni x) v v' -> end_up x v -> end_up x v'.
Proof.
  intros Hk [(grp & Hg & Hip) [b Hb]]. destruct (Hk grp Hg) as [Hg' Hu]. split; [by exists grp|].
  exists b. by eapply shaped_unmoved.
Qed.

(** VNIs are 32 bits wide. *)
Definition vni_ok x : Prop := int32 (tn_vni x) = tn_vni x.

Lemma SetupVxLan_stands ctx v p x k (d : KubeDTN) :
  vs_SrcIntf v <> "" -> vni_ok x -> (tn_ns x, tn_intf x) <> (vs_NetNs v, vs_IntfName v) -> tn_vni x <> vs_Vni v ->
  stands x k d -> wlp (SetupVxLan ctx v p) (fun _ k' => stands x k' d) k.
Proof.
  intros Hs Hok Hk Hv [Ht Hr]. apply wlp_wp. eapply wp_mono.
  { apply (SetupVxLan_keeps ctx v p (tn_ns x, tn_intf x) (tn_vni x)); [done|exact Hk|by rewrite Hok]. }
  intros r k' Hkeep. split; [exact (end_kept _ _ _ Hkeep Ht)|done].
Qed.

Lemma stands_add x w vni s :
  tn_vni x <> vni -> stands_in x w -> stands_in x (vxlan_add vni s w).2.
Proof. intros Hv [Ht Hr]. split; [exact Ht|]. by apply recorded_add. Qed.

(** The end an update asks for. *)
Definition update_end (pod : pb_RemotePod) : tunnel :=
  mkTunnel (rp_NetNs pod) (rp_IntfName pod) (rp_Vni pod) (rp_PeerVtep pod) (rp_Properties pod).

(** Serving an update leaves the ends of other links alone, whatever it
    answers. *)
Lemma Update_stands ctx pod x w :
  vxlanIntf (settings (daemon w)) <> "" -> vni_ok x -> apart x (update_end pod) -> stands_in x w ->
  wlp (Update ctx pod) (fun _ w' => stands_in x w') w.
Proof.
  intros Hi Hok [Hk Hv] Hx. unfold Update. cbv zeta. do 6 d_step.
  set (w1 := set_daemon _ _). assert (stands_in x w1) as Hx1 by exact Hx.
  assert (vxlanIntf (settings (daemon w1)) <> "") as Hi1 by exact Hi. clearbody w1.
  eapply (wlp_mono _ (fun _ w2 => stands_in x w2)).
  - unfold remove_stale_vxlan. d_step. d_step. d_step. destruct (deref _ <$> _) as [n|]; [|by wp_step].
    case_goal; [|by wp_step]. wp_step. apply wlp_kernel, wlp_wp. eapply wp_mono.
    { apply (RemoveLinkWithVni_keeps _ _ (tn_ns x, tn_intf x) (tn_vni x)). by rewrite Hok. }
    intros r k' Hkeep. wp_step. destruct Hx1 as [Ht Hr]. split; [exact (end_kept _ _ _ Hkeep Ht)|done].
  - intros [] w2 Hx2. unfold update_vxlan. wp_step. apply wlp_kernel. eapply wlp_mono.
    { apply (SetupVxLan_stands _ _ _ x _ (daemon w2)); [exact Hi1|exact Hok|exact Hk|exact Hv|exact Hx2]. }
    intros [er|] k' Hk'; [by wp_step|]. repeat d_step. exact (stands_add x (set_kernel k' w2) _ _ Hv Hk').
Qed.

(** The two halves of [addLink] that make interfaces. *)
Lemma addLink_local_stands ctx t pod peerPod link a x w :
  veth_key a <> (tn_ns x, tn_intf x) -> (pod_NetNs peerPod, pb_PeerIntf link) <> (tn_ns x, tn_intf x) ->
  stands_in x w -> wlp (addLink_local ctx t pod peerPod link a) (fun r w' => r = None -> stands_in x w') w.
Proof.
  intros Ha Hb Hx. unfold addLink_local. destruct (MakeVeth _ _ _ _) as [b|er] eqn:Hm; [|by wp_step].
  apply MakeVeth_key in Hm. d_step. wp_step. apply wlp_kernel.
  eapply wlp_mono.
  { apply wlp_wp, (SetupVeth_keeps _ _ _ _ _ (tn_ns x, tn_intf x) (tn_vni x)); [congruence|by rewrite Hm]. }
  intros [er|] k' Hkeep; [by wp_step|]. repeat d_step. intros _. destruct Hx as [He Hr].
  split; [exact (end_kept _ _ _ (Hkeep eq_refl) He)|exact Hr].
Qed.

Lemma addLink_remote_stands ctx t pod peerPod link x w :
  vxlanIntf (settings (daemon w)) <> "" -> vni_ok x ->
  (tn_ns x, tn_intf x) <> (pod_NetNs pod, pb_LocalIntf link) -> tn_vni x <> GetVniFromUid (pb_Uid link) ->
  stands_in x w -> wlp (addLink_remote ctx t pod peerPod link) (fun _ w' => stands_in x w') w.
Proof.
  intros Hi Hok Hk Hv Hx. unfold addLink_remote. do 2 d_step. cbv zeta. do 3 d_step. apply wlp_kernel. eapply wlp_mono.
  { apply (SetupVxLan_stands _ _ _ x _ (daemon w)); [exact Hi|exact Hok|exact Hk|exact Hv|exact Hx]. }
  intros [er|] k' Hk'; [by repeat d_step|]. unfold call_remote. do 7 d_step. apply wlp_cluster, wlp_any.
  assert (stands_in x (set_kernel k' w)) as Hx' by exact Hk'. apply (stands_add _ _ _ (pod_NetNs pod) Hv) in Hx'.
  intros [er|] c'; repeat d_step; exact Hx'.
Qed.

End Frames.

(** ** One link of a batch *)

Section Steps.
  Context {K A : Type} `{UnicodeTables, ProtoLib, KernelLaws K, RestClient A, Informer A}.
  Local Abbreviation W := (World K (Net K A)).
  Implicit Types (w : W) (x : tunnel).

(** The link's peer is alive on another node. *)
Definition elsewhere (pod : pb_Pod) (link : pb_Link) (p : pb_Pod) : Prop :=
  pb_PeerPod link <> Localhost /\ HasPrefix (pb_PeerPod link) physical_prefix = false /\
  is_alive (pod_SrcIp p) (pod_NetNs p) = true /\ pod_SrcIp p <> pod_SrcIp pod.

(** The two ends of a link between nodes. *)
Definition near_end (pod p : pb_Pod) (link : pb_Link) : tunnel :=
  mkTunnel (pod_NetNs pod) (pb_LocalIntf link) (GetVniFromUid (pb_Uid link)) (pod_SrcIp p) (pb_Properties link).

Definition far_end (pod p : pb_Pod) (link : pb_Link) : tunnel :=
  mkTunnel (pod_NetNs p) (pb_PeerIntf link) (GetVniFromUid (pb_Uid link)) (pod_SrcIp pod) (pb_Properties link).

(** An end on another node. *)
Definition stands_at x (url : string) w : Prop :=
  exists node, the_peers w !! url = Some node /\ stands x node.1 node.2.

(** A daemon that is up and knows its source interface. *)
Definition serving (url : string) w : Prop :=
  exists node, the_peers w !! url = Some node /\ vxlanIntf (settings node.2) <> "".

Definition link_stands (pod p : pb_Pod) (link : pb_Link) w : Prop :=
  stands_in (near_end pod p link) w /\ stands_at (far_end pod p link) (remote_url p) w.

(** What [addLink] ran once it had read the peer [p]. *)
Inductive add_run (pod : pb_Pod) (link : pb_Link) (p : pb_Pod) w w' : Prop :=
| RunMacvlan a m k :
    pb_PeerPod link = Localhost -> veth_key a = (pod_NetNs pod, pb_LocalIntf link) ->
    koko_MakeMacVLan a m (kernel w) = (None, k) -> w' = set_kernel k w -> add_run pod link p w w'
| RunPhysical ctx r :
    HasPrefix (pb_PeerPod link) physical_prefix = true ->
    Update ctx (physical_payload pod link) w = (Val r, w') -> add_run pod link p w w'
| RunPending : is_alive (pod_SrcIp p) (pod_NetNs p) = false -> w' = w -> add_run pod link p w w'
| RunLocal ctx t a :
    pod_SrcIp p = pod_SrcIp pod -> veth_key a = (pod_NetNs pod, pb_LocalIntf link) ->
    addLink_local ctx t pod p link a w = (Val None, w') -> add_run pod link p w w'
| RunRemote ctx t :
    elsewhere pod link p -> addLink_remote ctx t pod p link w = (Val None, w') -> add_run pod link p w w'.

(** The same node, records, settings and other nodes. *)
Definition same_place w w' : Prop := the_node w' = the_node w /\ the_peers w' = the_peers w.

Lemma addLink_run ctx pod link p w w' :
  (forall t, peer_read w (pb_PeerPod link) (pod_KubeNs pod) t -> ToProtoPod t = Ok p) ->
  addLink ctx pod link w = (Val None, w') ->
  exists w1, same_place w w1 /\ add_run pod link p w1 w'.
Proof.
  intros Hread Ha. unfold addLink in Ha.
  apply bind_Val in Ha as (d & w0 & [= <- <-] & Ha). apply bind_Val in Ha as (t & w1 & [= <- <-] & Ha).
  destruct (MakeVeth _ _ _ _) as [a|] eqn:Hm; [|done]. apply MakeVeth_key in Hm.
  destruct (String.eqb_spec (pb_PeerPod link) Localhost) as [Hloc|Hloc].
  { exists (set_daemon (tick (daemon w)) w). split; [done|].
    unfold on_kernel, zoom, call in Ha. destruct (koko_MakeMacVLan _ _ _) as [r k] eqn:Hk.
    injection Ha as Hr Hw. subst. by eapply RunMacvlan. }
  destruct (HasPrefix _ _) eqn:Hphy.
  { exists (set_daemon (tick (daemon w)) w). split; [done|]. apply bind_Val in Ha as ([resp err] & w2 & Hu & Ha).
    assert (w2 = w') as -> by (destruct (negb _), err; unfold ret in Ha; congruence). by eapply RunPhysical. }
  apply bind_Val in Ha as (r & w2 & Hg & Ha). exists w2.
  pose proof (wlp_run _ _ _ _ _ (getPod_wlp _ _ _) Hg) as (Hk & h & Hd).
  pose proof (wlp_run _ _ _ _ _ (getPod_keeps_peers _ _ _) Hg) as Hps.
  split; [split; [unfold the_node; by rewrite Hk, Hd|exact Hps]|].
  destruct r as [l|]; [|done]. apply bind_Val in Ha as (t2 & w3 & [= <- <-] & Ha).
  rewrite (Hread (load l (heap (daemon w2)))) in Ha by (by exists l, w2).
  destruct (is_alive _ _) eqn:Hal; cbn [negb] in Ha; [|injection Ha as <-; by apply RunPending].
  destruct (String.eqb_spec (pod_SrcIp p) (pod_SrcIp pod)); [by eapply RunLocal|]. by eapply RunRemote.
Qed.

(** The peer's daemon served the update of the link. *)
Definition served (pod p : pb_Pod) (link : pb_Link) w w' : Prop :=
  exists node r (u : World K unit),
    the_peers w !! remote_url p = Some node /\
    Update [] (remote_payload pod p link) (mkWorld node.1 tt node.2) = (Val (r, None), u) /\
    the_peers w' = <[remote_url p := (kernel u, daemon u)]> (the_peers w).

Lemma addLink_remote_served ctx t pod p link w w' :
  addLink_remote ctx t pod p link w = (Val None, w') -> served pod p link w w'.
Proof.
  intros Ha. refine (wlp_run _ (fun r w' => r = None -> served pod p link w w') w _ _ _ Ha eq_refl). clear Ha w'.
  unfold addLink_remote. do 2 d_step. cbv zeta. do 3 d_step. apply wlp_kernel, wlp_any.
  intros [er|] k'; [by repeat d_step|]. unfold call_remote. do 7 d_step. apply wlp_cluster, wlp_intro.
  intros [er|] n' Hr; [by wp_step|]. repeat d_step. intros _.
  destruct (UpdateRemote_runs pod p link _ n' Hr) as (node & r & u & Hn & Hu & Hp). by exists node, r, u.
Qed.

Lemma add_run_peers pod link p w w' :
  add_run pod link p w w' -> the_peers w' = the_peers w \/ elsewhere pod link p /\ served pod p link w w'.
Proof.
  unfold the_peers. intros [a m k Hloc Ha Hk ->|ctx r Hp Hu|Hp ->|ctx t a Hp Ha Hl|ctx t He Hr]; try by left.
  - left. by rewrite (wlp_run _ _ _ _ _ (Update_keeps_cluster _ _ _) Hu).
  - left. by rewrite (wlp_run _ _ _ _ _ (addLink_local_keeps_cluster _ _ _ _ _ _ _) Hl).
  - right. split; [done|]. by eapply addLink_remote_served.
Qed.

Lemma served_serving pod p link url w w' : served pod p link w w' -> serving url w -> serving url w'.
Proof.
  intros (node & r & u & Hn & Hu & Hp) (node' & Hn' & Hs). unfold serving. rewrite Hp.
  destruct (decide (url = remote_url p)) as [->|Hne]; [|exists node'; by rewrite lookup_insert_ne].
  exists (kernel u, daemon u). rewrite lookup_insert_eq. split; [done|].
  pose proof (wlp_run _ _ _ _ _ (Update_keeps_settings _ _ _) Hu) as Hst. unfold the_settings in Hst. cbn in Hst |- *.
  rewrite Hst. congruence.
Qed.

(** The far end of another link stays. *)
Lemma served_stands pod p link x url w w' :
  served pod p link w w' -> serving url w -> vni_ok x -> (url = remote_url p -> apart x (far_end pod p link)) ->
  stands_at x url w -> stands_at x url w'.
Proof.
  intros (node & r & u & Hn & Hu & Hp) (node' & Hn' & Hs) Hok Hapart (node'' & Hn'' & Hx). unfold stands_at. rewrite Hp.
  destruct (decide (url = remote_url p)) as [->|Hne]; [|exists node''; by rewrite lookup_insert_ne].
  assert (node' = node) as -> by congruence. assert (node'' = node) as -> by congruence.
  exists (kernel u, daemon u). rewrite lookup_insert_eq. split; [done|].
  refine (wlp_run _ _ _ _ _ (Update_stands [] (remote_payload pod p link) x (mkWorld node.1 tt node.2) Hs Hok (Hapart eq_refl) Hx) Hu).
Qed.

(** The near end of another link stays. *)
Lemma add_run_stands pod link p x w w' :
  add_run pod link p w w' -> vxlanIntf (settings (daemon w)) <> "" -> vni_ok x ->
  (tn_ns x, tn_intf x) <> (pod_NetNs pod, pb_LocalIntf link) -> tn_vni x <> GetVniFromUid (pb_Uid link) ->
  tn_ns x <> pod_NetNs p -> stands_in x w -> stands_in x w'.
Proof.
  intros [a m k Hloc Ha Hk ->|ctx r Hp Hu|Hp ->|ctx t a Hp Ha Hl|ctx t He Hr] Hi Hok Hkey Hv Hns Hx; [| |done| |].
  - apply law_MakeMacVLan in Hk as [Hk St]. destruct Hx as [Ht Hr]. split; [|exact Hr]. eapply end_kept; [|exact Ht].
    apply (keeps_vxlan_insert _ _ _ _ _ _ Hk St). congruence.
  - refine (wlp_run _ _ _ _ _ (Update_stands _ _ x w Hi Hok _ Hx) Hu). by split.
  - refine (wlp_run _ _ _ _ _ (addLink_local_stands _ _ _ _ _ _ x w _ _ Hx) Hl eq_refl); congruence.
  - refine (wlp_run _ _ _ _ _ (addLink_remote_stands _ _ _ _ _ x w Hi Hok Hkey Hv Hx) Hr).
Qed.

(** The link itself stands. *)
Lemma add_run_link pod link p w w' :
  add_run pod link p w w' -> vxlanIntf (settings (daemon w)) <> "" -> serving (remote_url p) w ->
  elsewhere pod link p -> link_stands pod p link w'.
Proof.
  intros Hrun Hi (node & Hn & Hs) (Hloc & Hphy & Hal & Hsrc).
  destruct Hrun as [| | | |ctx t _ Hr]; try congruence.
  destruct (wlp_run _ _ _ _ _ (addLink_remote_net _ _ _ _ _ w node Hi Hn Hs) Hr eq_refl) as (Ht & Hs1 & node' & Hn' & Ht' & Hs2 & Hrec').
  destruct (wlp_run _ _ _ _ _ (addLink_remote_wlp _ _ _ _ _ w Hi) Hr eq_refl) as (_ & _ & Hrec & _).
  split; [split; [split; eauto|done]|]. exists node'. split; [done|]. split; [split; eauto|done].
Qed.

End Steps.

(** ** The loop *)

Section Loop.
  Context {K A : Type} `{UnicodeTables, ProtoLib, KernelLaws K, RestClient A, Informer A}.
  Local Abbreviation W := (World K (Net K A)).
  Implicit Types (w : W).
  Context (ctx : Ctx) (pod : pb_Pod) (peer : pb_Link -> pb_Pod).

Lemma links_loop_app (f : pb_Link -> go W (option error)) pre suf w w0 :
  links_loop f pre w = (Val accept, w0) -> links_loop f (pre ++ suf) w = links_loop f suf w0.
Proof.
  revert w. induction pre as [|l pre IH]; cbn [links_loop app]; intros w Hl; [by injection Hl as ->|].
  unfold bind in Hl |- *. destruct (f l w) as [[[er|]| |] w1]; [done|by apply IH|done..].
Qed.

(** The loops of the handlers refuse with an error, or accept. *)
Lemma links_loop_accepts (f : pb_Link -> go W (option error)) ls w r w' :
  links_loop f ls w = (Val (r, None), w') -> links_loop f ls w = (Val accept, w').
Proof.
  revert w. induction ls as [|l ls IH]; cbn [links_loop]; intros w Hr; [by injection Hr as <- <-|].
  unfold bind in Hr |- *. destruct (f l w) as [[[e|]| |] w1]; [done|by apply IH|done..].
Qed.

(** The loop over [links] came to [l] with the state [w1]. *)
Definition reached (links : list pb_Link) w (l : pb_Link) w1 : Prop :=
  exists pre post, links = (pre ++ l :: post)%list /\ links_loop (addLink ctx pod) pre w = (Val accept, w1).

(** Whatever the loop reads for the peer of a link is the pod [peer] gives. *)
Definition reads_peers (links : list pb_Link) w : Prop :=
  forall l w1 t, reached links w l w1 -> peer_read w1 (pb_PeerPod l) (pod_KubeNs pod) t -> ToProtoPod t = Ok (peer l).

(** Different links have different interfaces in the pod, different VNIs and
    different interfaces at their peers; no peer shares the pod's namespace. *)
Record well_laid (links : list pb_Link) : Prop := {
  laid_near : NoDup (pb_LocalIntf <$> links);
  laid_vni : NoDup ((fun l => GetVniFromUid (pb_Uid l)) <$> links);
  laid_far l l' : l ∈ links -> l' ∈ links -> elsewhere pod l (peer l) -> elsewhere pod l' (peer l') ->
    (remote_url (peer l), pod_NetNs (peer l), pb_PeerIntf l)
    = (remote_url (peer l'), pod_NetNs (peer l'), pb_PeerIntf l') -> l = l';
  laid_ns l : l ∈ links -> pod_NetNs (peer l) <> pod_NetNs pod
}.

(** Between two links: what is made stands, and the daemons are up. *)
Record standing (links made : list pb_Link) w : Prop := {
  std_intf : vxlanIntf (settings (daemon w)) <> "";
  std_serving l : l ∈ links -> elsewhere pod l (peer l) -> serving (remote_url (peer l)) w;
  std_links l : l ∈ made -> elsewhere pod l (peer l) -> link_stands pod (peer l) l w
}.

Lemma standing_place links made w w' : same_place w w' -> standing links made w -> standing links made w'.
Proof.
  intros [Hn Hp] [Hi Hs Hl]. injection Hn as Hk Hm Hc. split.
  - by rewrite Hc.
  - intros l Hin He. unfold serving. rewrite Hp. by apply Hs.
  - intros l Hin He. destruct (Hl l Hin He) as [[Ht Hr] Hat]. split; [split; by rewrite ?Hk, ?Hm|].
    unfold stands_at. by rewrite Hp.
Qed.

(** Two links of the batch at different places. *)
Lemma laid_differ links made l rest l' :
  well_laid links -> links = (made ++ l :: rest)%list -> l' ∈ made ->
  pb_LocalIntf l' <> pb_LocalIntf l /\ GetVniFromUid (pb_Uid l') <> GetVniFromUid (pb_Uid l).
Proof.
  intros [Hn Hv _ _] -> Hin. split; [by eapply (NoDup_fmap_apart pb_LocalIntf)|].
  by eapply (NoDup_fmap_apart (fun l => GetVniFromUid (pb_Uid l))).
Qed.

Lemma near_vni_ok p l : vni_ok (near_end pod p l).
Proof. apply wrapS_small; [lia|]. apply wrapS_range. lia. Qed.

Lemma standing_step links made l rest w w' :
  well_laid links -> links = (made ++ l :: rest)%list -> add_run pod l (peer l) w w' ->
  vxlanIntf (settings (daemon w')) = vxlanIntf (settings (daemon w)) ->
  standing links made w -> standing links (made ++ [l]) w'.
Proof.
  intros Hlaid Hlinks Hrun Hset [Hi Hs Hl].
  assert (l ∈ links) as Hin by (rewrite Hlinks; set_solver).
  assert (forall url, serving url w -> serving url w') as Hserve.
  { intros url Hu. destruct (add_run_peers _ _ _ _ _ Hrun) as [Hp|[_ Hsv]]; [|by eapply served_serving].
    unfold serving. by rewrite Hp. }
  split; [congruence|by auto|].
  intros l' [Hl'| ->%list_elem_of_singleton]%elem_of_app He; [|exact (add_run_link _ _ _ _ _ Hrun Hi (Hs l Hin He) He)].
  destruct (laid_differ _ _ _ _ _ Hlaid Hlinks Hl') as [Hd Hv].
  assert (l' ∈ links) as Hin' by (rewrite Hlinks; set_solver).
  destruct (Hl l' Hl' He) as [Hnear Hfar]. split.
  - eapply add_run_stands; [exact Hrun|exact Hi|apply near_vni_ok| |exact Hv| |exact Hnear]; cbn; [congruence|].
    intros E. by apply (laid_ns _ Hlaid l Hin).
  - destruct (add_run_peers _ _ _ _ _ Hrun) as [Hp|[Hel Hsv]]; [unfold stands_at; by rewrite Hp|].
    eapply served_stands; [exact Hsv|by apply Hs|exact (near_vni_ok (peer l') l')| |exact Hfar].
    intros Hurl. split; [|exact Hv]. cbn. intros E. apply Hd. f_equal.
    apply (laid_far _ Hlaid); [done..|]. congruence.
Qed.

(** The links [kept] stand before the loop starts. *)
Lemma AddLinks_standing links kept made rest w w0 w' :
  well_laid links -> reads_peers (made ++ rest) w -> links = (kept ++ made ++ rest)%list ->
  links_loop (addLink ctx pod) made w = (Val accept, w0) -> standing links (kept ++ made) w0 ->
  links_loop (addLink ctx pod) rest w0 = (Val accept, w') -> standing links links w'.
Proof.
  intros Hlaid. revert made w0. induction rest as [|l rest IH]; intros made w0 Hread Hlinks Hmade Hst Hrun.
  { injection Hrun as <-. rewrite app_nil_r in Hlinks. by rewrite Hlinks at 2. }
  cbn [links_loop] in Hrun. apply bind_Val in Hrun as (r & w1 & Ha & Hrun). destruct r as [er|]; [done|].
  destruct (addLink_run ctx pod l (peer l) w0 w1) as (w2 & Hsame & Hadd); [|exact Ha|].
  { intros t Ht. apply (Hread l w0 t); [|exact Ht]. by exists made, rest. }
  apply (IH (made ++ [l])%list w1); [by rewrite <- app_assoc|by rewrite <- app_assoc| | |exact Hrun].
  - rewrite (links_loop_app _ _ _ _ _ Hmade). cbn [links_loop]. unfold bind. by rewrite Ha.
  - rewrite app_assoc. eapply standing_step; [done|by rewrite <- app_assoc|exact Hadd| |by eapply standing_place].
    pose proof (wlp_run _ _ _ _ _ (addLink_keeps_settings ctx pod l w0) Ha) as Hc. unfold the_settings in Hc.
    destruct Hsame as [Hn _]. injection Hn as _ _ Hn. by rewrite Hc, Hn.
Qed.

(** All that the loop over [links] needs from the state it starts in, besides
    the links [kept] that it is to leave alone. *)
Record ready (kept links : list pb_Link) w : Prop := {
  rd_intf : vxlanIntf (settings (daemon w)) <> "";
  rd_serving l : l ∈ (kept ++ links)%list -> elsewhere pod l (peer l) -> serving (remote_url (peer l)) w;
  rd_laid : well_laid (kept ++ links);
  rd_reads : reads_peers links w
}.

(** The handler, from its start. *)
Lemma AddLinks_stand kept q w w' :
  lbq_LocalPod q = Some pod -> ready kept (lbq_Links q) w ->
  (forall l, l ∈ kept -> elsewhere pod l (peer l) -> link_stands pod (peer l) l w) ->
  with_pod q (fun localPod => links_loop (addLink ctx localPod) (lbq_Links q)) w = (Val accept, w') ->
  forall l, l ∈ (kept ++ lbq_Links q)%list -> elsewhere pod l (peer l) -> link_stands pod (peer l) l w'.
Proof.
  intros Hp [Hi Hs Hlaid Hread] Hkept Hrun. unfold with_pod in Hrun. rewrite Hp in Hrun.
  apply (std_links (kept ++ lbq_Links q)). eapply (AddLinks_standing _ kept [] _ w w); [done|done|done|done| |exact Hrun].
  split; [done|done|]. by rewrite app_nil_r.
Qed.

(** No link stands before. *)
Lemma AddLinks_stand_all q w w' :
  lbq_LocalPod q = Some pod -> ready [] (lbq_Links q) w ->
  with_pod q (fun localPod => links_loop (addLink ctx localPod) (lbq_Links q)) w = (Val accept, w') ->
  forall l, l ∈ lbq_Links q -> elsewhere pod l (peer l) -> link_stands pod (peer l) l w'.
Proof. intros Hp Hr. apply (AddLinks_stand [] q w w' Hp Hr). by intros l Hl%elem_of_nil. Qed.

End Loop.

(** The set-up of a pod: when [SetupPod] answers true for a pod that has a
    topology, every link of the topology whose peer is alive on another node
    when it is read stands at both ends, shaped.  The pod that is set up last thus
    makes its links to the pods set up before it. *)
Lemma SetupPod_connects {K A : Type} `{UnicodeTables, ProtoLib, KernelLaws K, RestClient A, Informer A, RetryLaws}
    (ctx : Ctx) (q : pb_SetupPodQuery) (p : pb_Pod) (peer : pb_Link -> pb_Pod) (w w1 w2 w' : World K (Net K A)) :
  Get (mk_pb_PodQuery (spq_Name q) (spq_KubeNs q)) w = (Val (Ok p), w1) ->
  SetAlive (marked_pod w q p) w1 = (Val accept, w2) ->
  ready (WithLogger (WithLogger ctx)) (marked_pod w q p) peer [] (pod_Links p) w2 ->
  SetupPod ctx q w = (Val accept, w') ->
  forall l, l ∈ pod_Links p -> elsewhere (marked_pod w q p) l (peer l) -> link_stands (marked_pod w q p) (peer l) l w'.
Proof.
  intros Hg Hs Hready Hr. apply (AddLinks_stand_all (WithLogger (WithLogger ctx)) (marked_pod w q p) peer
    (mk_pb_LinksBatchQuery (Some (marked_pod w q p)) (pod_Links p)) w2 w' eq_refl Hready).
  by eapply SetupPod_batch.
Qed.

(** ** Properties *)

(** C2: a whole batch of links: when [AddLinks] answers true, every link of the
    batch whose peer is alive on another node stands at both ends when the
    handler returns: the pod's end and the peer's end are VXLANs with the
    link's VNI that point to each other's node, each recorded by its daemon
    and carrying the shaping of the link's properties, and no later link of the
    batch has taken an earlier one down or changed it.  Other kinds
    of links (local, macvlan, physical hosts, pods that are not alive) may be
    mixed in.  The links have different names, VNIs and far ends, no peer
    shares the pod's namespace, and the topologies read do not change on the
    way. *)
Theorem AddLinks_connects_all {K A : Type} `{UnicodeTables, ProtoLib, KernelLaws K, RestClient A, Informer A}
    (ctx : Ctx) (q : pb_LinksBatchQuery) (pod : pb_Pod) (peer : pb_Link -> pb_Pod) (w w' : World K (Net K A)) :
  lbq_LocalPod q = Some pod ->
  vxlanIntf (settings (daemon w)) <> "" ->
  (forall l, l ∈ lbq_Links q -> elsewhere pod l (peer l) -> serving (remote_url (peer l)) w) ->
  well_laid pod peer (lbq_Links q) ->
  reads_peers (WithLogger ctx) pod peer (lbq_Links q) w ->
  AddLinks ctx q w = (Val accept, w') ->
  forall l, l ∈ lbq_Links q -> elsewhere pod l (peer l) -> link_stands pod (peer l) l w'.
Proof. intros Hp Hi Hs Hlaid Hread. by apply (AddLinks_stand_all (WithLogger ctx) pod peer q w w'). Qed.

#[local] Existing Instance ascii_tables.

Definition link13 : Link :=
  mkLink "eth2" "10.0.1.1/24" "" "eth1" "10.0.1.3/24" "" "r3" 2
    (mkLinkProperties "" "" "" "" "" "1Gbit" 0 "" "" "" "" "" "").

Definition podC : pb_Pod := mk_pb_Pod "r3" "192.168.0.2" "/ns/c" "default" [].

(** Two peers on the second node. *)
Definition batch_world : World Sim.State (Net Sim.State SimC.State) :=
  mkWorld (HandlerProps.node ["/ns/a"])
    (mkNet (SimC.mkState {[ ("default", "r2") := topo "r2" "192.168.0.2" "/ns/b" [];
                            ("default", "r3") := topo "r3" "192.168.0.2" "/ns/c" [] ]} [])
       {[ remote_url podB := (HandlerProps.node ["/ns/b"; "/ns/c"], daemon0 "192.168.0.2") ]})
    (daemon0 "192.168.0.1").

Definition batch : pb_LinksBatchQuery := mk_pb_LinksBatchQuery (Some podA) [Link_ToProto link12; Link_ToProto link13].

Definition batch_peer (l : pb_Link) : pb_Pod := if String.eqb (pb_PeerPod l) "r2" then podB else podC.

(** What a read of the peer gives. *)
Definition read_peer (w : World Sim.State (Net Sim.State SimC.State)) (l : pb_Link) : option pb_Pod :=
  match getPod (pb_PeerPod l) "default" (set_daemon (tick (daemon w)) w) with
  | (Val (Ok l), w1) => match ToProtoPod (load l (heap (daemon w1))) with Ok p => Some p | Err _ => None end
  | _ => None
  end.

Lemma read_peer_reads w l t p :
  read_peer w l = Some p -> peer_read w (pb_PeerPod l) "default" t -> ToProtoPod t = Ok p.
Proof.
  unfold read_peer. intros Hr (c & w1 & Hg & <-). rewrite Hg in Hr.
  destruct (ToProtoPod _); [by injection Hr as ->|done].
Qed.

Lemma batch_reads : reads_peers (WithLogger []) podA batch_peer (lbq_Links batch) batch_world.
Proof.
  intros l w1 t (pre & post & Hl & Hrun) Ht. apply (f_equal snd) in Hrun. cbn [snd] in Hrun.
  destruct pre as [|l1 [|l2 [|l3 pre]]]; injection Hl as; subst; try discriminate.
  - eapply read_peer_reads; [|exact Ht]. vm_compute. reflexivity.
  - eapply read_peer_reads; [|exact Ht]. vm_compute. reflexivity.
Qed.

Lemma batch_cases (P : pb_Link -> Prop) :
  P (Link_ToProto link12) -> P (Link_ToProto link13) -> forall l, l ∈ lbq_Links batch -> P l.
Proof. intros H1 H2 l [->|[->|Hl%elem_of_nil]%elem_of_cons]%elem_of_cons; done. Qed.

Lemma batch_laid : well_laid podA batch_peer (lbq_Links batch).
Proof.
  split; [refine (bool_decide_unpack _ _); vm_compute; exact I|refine (bool_decide_unpack _ _); vm_compute; exact I| |].
  - intros a b Ha Hb _ _. revert a Ha b Hb.
    refine (batch_cases _ _ _); refine (batch_cases _ _ _); intros E; first [reflexivity|vm_compute in E; discriminate E].
  - refine (batch_cases _ _ _); discriminate.
Qed.

Lemma batch_elsewhere l : l ∈ lbq_Links batch -> elsewhere podA l (batch_peer l).
Proof.
  revert l. refine (batch_cases _ _ _); (split_and!; [discriminate|reflexivity|reflexivity|discriminate]).
Qed.

Lemma batch_serving l : l ∈ lbq_Links batch -> serving (remote_url (batch_peer l)) batch_world.
Proof.
  intros _. exists (HandlerProps.node ["/ns/b"; "/ns/c"], daemon0 "192.168.0.2").
  split; [|discriminate]. unfold batch_peer. destruct (String.eqb _ _); vm_compute; reflexivity.
Qed.

Lemma AddLinks_connects_all_witness :
  exists w', AddLinks [] batch batch_world = (Val accept, w') /\
    link_stands podA podB (Link_ToProto link12) w' /\ link_stands podA podC (Link_ToProto link13) w'.
Proof.
  destruct (AddLinks [] batch batch_world) as [o w'] eqn:E. exists w'.
  assert (o = Val accept) as -> by (apply (f_equal fst) in E; vm_compute in E; subst o; reflexivity).
  assert (forall l, l ∈ lbq_Links batch -> link_stands podA (batch_peer l) l w') as Hst.
  { intros l Hl. apply (AddLinks_connects_all [] batch podA batch_peer batch_world w' eq_refl);
      [discriminate|by intros l' Hl' _; apply batch_serving|apply batch_laid|apply batch_reads|exact E|exact Hl|
       by apply batch_elsewhere]. }
  split; [reflexivity|]. split; [apply (Hst (Link_ToProto link12))|apply (Hst (Link_ToProto link13))];
    apply elem_of_cons; [by left|right; apply elem_of_cons; by left].
Defined.

(** Two pods that are starting, and an API server that is read as it is. *)
Definition fresh_api : SimC.State :=
  SimC.mkState {[ ("default", "r1") := topo "r1" "" "" [link12]; ("default", "r2") := topo "r2" "" "" [link21] ]} [].

Definition setup_r1 : outcome (pb_BoolResponse * option error) * World Sim.State (Net Sim.State SimC.State) :=
  SetupPod [] (mk_pb_SetupPodQuery "r1" "default" "/ns/a")
    (mkWorld (HandlerProps.node ["/ns/a"])
       (mkNet fresh_api {[ remote_url podB := (HandlerProps.node ["/ns/b"], daemon0 "192.168.0.2") ]})
       (daemon0 "192.168.0.1")).

Definition q2 : pb_SetupPodQuery := mk_pb_SetupPodQuery "r2" "default" "/ns/b".

(** The node of [r2] once [r1] is set up. *)
Definition world_r2 : World Sim.State (Net Sim.State SimC.State) :=
  mkWorld (HandlerProps.node ["/ns/b"])
    (mkNet (api (cluster setup_r1.2)) {[ remote_url podA := (kernel setup_r1.2, daemon setup_r1.2) ]})
    (daemon0 "192.168.0.2").

Definition pod2 : pb_Pod := mk_pb_Pod "r2" "" "" "default" [Link_ToProto link21].

(** [r2] marked alive. *)
Definition world_r2_alive : World Sim.State (Net Sim.State SimC.State) :=
  (SetAlive (marked_pod world_r2 q2 pod2) (Get (mk_pb_PodQuery "r2" "default") world_r2).2).2.

Definition pod1_alive : pb_Pod := mk_pb_Pod "r1" "192.168.0.1" "/ns/a" "default" [Link_ToProto link12].

Lemma r2_ready : ready (WithLogger (WithLogger [])) (marked_pod world_r2 q2 pod2) (fun _ => pod1_alive) [] (pod_Links pod2) world_r2_alive.
Proof.
  split.
  - vm_compute. discriminate.
  - intros l _ _. exists (kernel setup_r1.2, daemon setup_r1.2). split; [vm_compute; reflexivity|vm_compute; discriminate].
  - split; [decide_now|decide_now| |discriminate].
    intros a b Ha%list_elem_of_singleton Hb%list_elem_of_singleton _ _ _. congruence.
  - intros l w1 t (pre & post & Hl & Hrun) Ht. apply (f_equal snd) in Hrun. cbn [snd] in Hrun.
    destruct pre as [|l1 [|l2 pre]]; injection Hl as; subst; [|discriminate..].
    eapply read_peer_reads; [|exact Ht]. vm_compute. reflexivity.
Qed.

Lemma r2_read : (Get (mk_pb_PodQuery "r2" "default") world_r2).1 = Val (Ok pod2).
Proof. vm_compute. reflexivity. Qed.

Lemma r2_marked :
  (SetAlive (marked_pod world_r2 q2 pod2) (Get (mk_pb_PodQuery "r2" "default") world_r2).2).1 = Val accept.
Proof. vm_compute. reflexivity. Qed.

Lemma r2_set_up : (SetupPod [] q2 world_r2).1 = Val accept.
Proof. vm_compute. reflexivity. Qed.
