(* ===== verification/Concurrent.v ===== *)
(** * Handlers that add links at the same time

    Pods start together, so the daemons of both nodes of a link often add it at
    once, and each calls the other.  Here the handlers of any number of links
    and nodes are interleaved: a handler that adds a link to another node makes
    its own end under the link's lock ([near_section], the first half of
    [addLink_remote]), and then the other node serves [Update], under the lock
    of the link there; between the two anything may happen.  Each of the two
    is one step here, from the locking to the unlocking, and can be taken only
    while no handler holds the link's lock on that node ([lock_held], read off the
    daemon's trace of locking and unlocking): a lock that a handler did not
    release would block the later ones.  For links that have nothing in common
    the steps are taken to be atomic too; [LinkLock] interleaves the lock
    operations themselves.  A batch of links of one handler is a set of jobs whose
    order is fixed: its runs are among the runs considered. *)

From stdpp Require Import base strings gmap list relations.
From Stdlib Require Import ZArith Lia.
From S2P Require Import Prelude GoStr GoNum GoNet Proto ApiV1 K8s Kernel SimKernel Qdisc.
From S2P Require Import LinkUtil Vxlan Decode Wire Metrics Daemon Handler HandlerProps.
From S2P Require Import Invariant Network Batch.

Local Open Scope string_scope.

(** ** The two halves of a handler *)

Section Halves.
  Context {K C : Type} `{UnicodeTables, ProtoLib, Kernel K}.
  Local Open Scope go_scope.

(** The tunnel [addLink] asks for. *)
Definition near_spec (pod peerPod : pb_Pod) (link : pb_Link) (d : KubeDTN) : VxlanSpec :=
  {| vs_NetNs := pod_NetNs pod; vs_IntfName := pb_LocalIntf link; vs_IntfIp := pb_LocalIp link;
     vs_PeerVtep := pod_SrcIp peerPod; vs_Vni := GetVniFromUid (pb_Uid link);
     vs_SrcIp := nodeIP (settings d); vs_SrcIntf := vxlanIntf (settings d) |}.

(** [addLink_remote] from the locking to the unlocking. *)
Definition near_section (ctx : Ctx) (pod peerPod : pb_Pod) (link : pb_Link) : go (World K C) (option error) :=
  d <- get_daemon ;;
  Lock (pb_Uid link) ;;
  err <- on_kernel (SetupVxLan ctx (near_spec pod peerPod link d) (pb_Properties link)) ;;
  match err with
  | Some e => Unlock (pb_Uid link) ;; ret (Some e)
  | None => vxlan_add (GetVniFromUid (pb_Uid link)) (pod_NetNs pod) ;; Unlock (pb_Uid link) ;; ret None
  end.

(** The handler is this section, then the call and the latency. *)
Lemma addLink_remote_halves `{GrpcClient C} ctx t pod peerPod link (w : World K C) :
  addLink_remote ctx t pod peerPod link w =
  (err <- near_section ctx pod peerPod link ;;
   match err with
   | Some e => ret (Some e)
   | None =>
       err <- call_remote pod peerPod link ;;
       match err with Some e => ret (Some e) | None => link_added t end
   end) w.
Proof.
  unfold addLink_remote, near_section, near_spec, bind, get_daemon, Lock, mod_daemon, modify, on_kernel, zoom.
  cbn [daemon kernel set_daemon]. by destruct (SetupVxLan _ _ _ _) as [[[e|]|s|c] k'].
Qed.

End Halves.

(** ** The locks *)

(** The lock of a link after the events of a trace, oldest first. *)
Definition lock_after (uid : Z) (held : bool) (e : event) : bool :=
  match e with
  | Locked u => if (u =? uid)%Z then true else held
  | Unlocked u => if (u =? uid)%Z then false else held
  | RemoteCall _ _ => held
  end.

Definition lock_held (uid : Z) (d : KubeDTN) : bool := foldl (lock_after uid) false (trace d).

(** No lock is held. *)
Definition unlocked (d : KubeDTN) : Prop := forall uid, lock_held uid d = false.

Lemma disciplined_unlocks uid t : disciplined t -> foldl (lock_after uid) false t = false.
Proof. induction 1 as [|u t _ IH|url p t _ IH]; cbn; [done| |done]. by destruct (u =? uid)%Z. Qed.

Lemma follows_unlocked {K C} (w w' : World K C) : follows w w' -> unlocked (daemon w) -> unlocked (daemon w').
Proof.
  intros (t & Ht & Hd) Hu uid. unfold lock_held. rewrite Ht, foldl_app. unfold unlocked, lock_held in Hu.
  rewrite Hu. by apply disciplined_unlocks.
Qed.

Section HalfProofs.
  Context {K C : Type} `{UnicodeTables, ProtoLib, KernelLaws K}.
  Implicit Types (w : World K C) (x : tunnel).

(** Both halves return, whatever the node answers. *)
Definition returns {X} (m : go (World K C) X) w : Prop := wp m (fun _ _ => True) w.

Lemma returns_bind {X Y} (m : go (World K C) X) (k : X -> go (World K C) Y) w :
  returns m w -> (forall (v : X) w', returns (k v) w') -> returns (bind m k) w.
Proof. intros Hm Hk. apply wp_bind. eapply wp_mono; [exact Hm|]. intros v w' _. apply Hk. Qed.

Lemma returns_kernel {X} (m : go K X) (Q : X -> K -> Prop) w : wp m Q (kernel w) -> returns (on_kernel m) w.
Proof. intros Hm. apply wp_zoom. by eapply wp_mono. Qed.

Lemma returns_holding {X} uid (m : go (World K C) X) w : (forall w', returns m w') -> returns (holding uid m) w.
Proof.
  intros Hm. apply wp_bind. unfold returns, wp in Hm |- *. cbn. set (w1 := set_daemon _ w). specialize (Hm w1).
  by destruct (m w1) as [[v| |] w'].
Qed.

Ltac returns_step :=
  lazymatch goal with
  | |- returns (ret _) _ => exact I
  | |- returns get_daemon _ => exact I
  | |- returns (mod_daemon _) _ => exact I
  | |- returns (bind _ _) _ => apply returns_bind; [|intros ? ?]
  | |- returns (holding _ _) _ => apply returns_holding; intros ?
  | |- returns (on_kernel (SetupVxLan _ _ _)) _ => eapply returns_kernel, SetupVxLan_wp
  | |- returns (on_kernel (RemoveLinkWithVni _ _)) _ => eapply returns_kernel, RemoveLinkWithVni_wp
  | |- returns (match ?x with _ => _ end) _ => destruct x
  | |- returns ?m _ => let h := head_of m in unfold h
  end.

Lemma returns_get {Y} (k : KubeDTN -> go (World K C) Y) w : returns (k (daemon w)) w -> returns (bind get_daemon k) w.
Proof. done. Qed.

Lemma returns_now {Y} (k : Z -> go (World K C) Y) w :
  (forall t, returns (k t) (set_daemon (tick (daemon w)) w)) -> returns (bind time_Now k) w.
Proof. intros Hk. apply (Hk (clock (daemon w) (ticks (daemon w)))). Qed.

Lemma near_section_returns ctx pod p link w :
  vxlanIntf (settings (daemon w)) <> "" -> returns (near_section ctx pod p link) w.
Proof. intros Hi. apply returns_get. repeat returns_step. all: exact Hi. Qed.

Lemma Update_returns ctx pod w : vxlanIntf (settings (daemon w)) <> "" -> returns (Update ctx pod) w.
Proof. intros Hi. apply returns_now. intros t. apply returns_get. cbv zeta. repeat returns_step. all: exact Hi. Qed.

(** The near end of another link is left alone; the link's own is made. *)
Lemma near_section_stands ctx pod p link x w :
  vxlanIntf (settings (daemon w)) <> "" -> vni_ok x -> apart x (near_end pod p link) -> stands_in x w ->
  wlp (near_section ctx pod p link) (fun _ w' => stands_in x w') w.
Proof.
  intros Hi Hok [Hk Hv] Hx. unfold near_section. do 4 d_step. apply wlp_bind, wlp_kernel. eapply wlp_mono.
  { apply (SetupVxLan_stands _ _ _ x _ (daemon w)); [exact Hi|exact Hok|exact Hk|exact Hv|exact Hx]. }
  intros [er|] k' Hk'; repeat d_step; [exact Hk'|]. exact (stands_add x (set_kernel k' w) _ _ Hv Hk').
Qed.

Lemma near_section_makes ctx pod p link w :
  vxlanIntf (settings (daemon w)) <> "" ->
  wlp (near_section ctx pod p link) (fun r w' => r = None -> stands_in (near_end pod p link) w') w.
Proof.
  intros Hi. unfold near_section. do 4 d_step. apply wlp_bind, wlp_kernel. eapply wlp_mono; [by apply wlp_SetupVxLan|].
  intros [er|] k' Hk'; [by repeat d_step|]. repeat d_step. intros _. destruct (Hk' eq_refl) as [Ht Hs].
  split; [split; [exact Ht|eexists; exact Hs]|apply recorded_new].
Qed.

Lemma near_section_settings ctx pod p link w :
  wlp (near_section ctx pod p link) (fun _ w' => settings (daemon w') = settings (daemon w)) w.
Proof.
  unfold near_section. do 4 d_step. apply wlp_bind, wlp_kernel, wlp_any. intros [er|] k'; by repeat d_step.
Qed.

(** Both halves release the lock they take, on every path. *)
Lemma near_section_orderly ctx pod p link w : wlp (near_section ctx pod p link) (fun _ w' => follows w w') w.
Proof.
  unfold near_section. do 4 d_step. apply wlp_bind, wlp_kernel, wlp_any. intros [er|] k'; repeat d_step;
    apply (follows_lock _ _ (pb_Uid link)); cbn; by rewrite <- app_assoc.
Qed.

Lemma Update_orderly ctx pod w : wlp (Update ctx pod) (fun _ w' => follows w w') w.
Proof. apply orderly_Update. Qed.

Lemma Update_makes ctx pod w :
  vxlanIntf (settings (daemon w)) <> "" ->
  wlp (Update ctx pod) (fun r w' => r.2 = None -> stands_in (update_end pod) w') w.
Proof.
  intros Hi. eapply wlp_mono; [by apply Update_wlp|]. intros r w' [[e ->]|(-> & Ht & Hs & Hr)] Hn; [done|].
  split; [split; [exact Ht|eexists; exact Hs]|exact Hr].
Qed.

End HalfProofs.

(** ** The system *)

(** A handler that adds a link: the node it runs on, and its arguments. *)
Record job := mkJob { j_url : string; j_ctx : Ctx; j_pod : pb_Pod; j_peer : pb_Pod; j_link : pb_Link }.

(** Where a handler is: before its own end, before the other, done; or it has
    returned an error. *)
Inductive phase := Waiting | Made | Finished | Failed.

#[export] Instance phase_eq_dec : EqDecision phase.
Proof. solve_decision. Defined.

(** An end and the node it is on. *)
Definition place : Type := string * tunnel.

Definition near_place (j : job) : place := (j_url j, near_end (j_pod j) (j_peer j) (j_link j)).
Definition far_place (j : job) : place := (remote_url (j_peer j), far_end (j_pod j) (j_peer j) (j_link j)).

(** Two jobs for one link, from the same side or from both. *)
Definition same_link (a b : job) : Prop :=
  near_place a = near_place b /\ far_place a = far_place b \/ near_place a = far_place b /\ far_place a = near_place b.

(** Ends that can be told apart on their node. *)
Definition clear_of (x y : place) : Prop := x.1 = y.1 -> apart x.2 y.2.

Definition distinct_links (a b : job) : Prop :=
  clear_of (near_place a) (near_place b) /\ clear_of (near_place a) (far_place b) /\
  clear_of (far_place a) (near_place b) /\ clear_of (far_place a) (far_place b).

Section System.
  Context {K : Type} `{UnicodeTables, ProtoLib, KernelLaws K}.
  Context (jobs : list job).

Record sys := mkSys { nodes : gmap string (K * KubeDTN); phases : list phase }.

Definition node_world (n : K * KubeDTN) : World K unit := mkWorld n.1 tt n.2.

Definition store (url : string) (w : World K unit) (ns : gmap string (K * KubeDTN)) : gmap string (K * KubeDTN) :=
  <[url := (kernel w, daemon w)]> ns.

Definition after (ok : option error) (p : phase) : phase := match ok with None => p | Some _ => Failed end.

(** The lock each half takes. *)
Definition near_lock (j : job) : Z := pb_Uid (j_link j).
Definition far_lock (j : job) : Z := GetUidFromVni (rp_Vni (remote_payload (j_pod j) (j_peer j) (j_link j))).

(** One handler makes its end, or has the other made, once the link's lock is free
    on the node; a peer that cannot be reached is an error. *)
Inductive step (s : sys) : sys -> Prop :=
| step_near i j node r w :
    jobs !! i = Some j -> phases s !! i = Some Waiting -> nodes s !! j_url j = Some node ->
    lock_held (near_lock j) node.2 = false ->
    near_section (j_ctx j) (j_pod j) (j_peer j) (j_link j) (node_world node) = (Val r, w) ->
    step s (mkSys (store (j_url j) w (nodes s)) (<[i := after r Made]> (phases s)))
| step_far i j node resp r w :
    jobs !! i = Some j -> phases s !! i = Some Made -> nodes s !! remote_url (j_peer j) = Some node ->
    lock_held (far_lock j) node.2 = false ->
    Update [] (remote_payload (j_pod j) (j_peer j) (j_link j)) (node_world node) = (Val (resp, r), w) ->
    step s (mkSys (store (remote_url (j_peer j)) w (nodes s)) (<[i := after r Finished]> (phases s)))
| step_unreachable i j :
    jobs !! i = Some j -> phases s !! i = Some Made -> nodes s !! remote_url (j_peer j) = None ->
    step s (mkSys (nodes s) (<[i := Failed]> (phases s))).

(** All handlers as they start. *)
Definition start (ns : gmap string (K * KubeDTN)) : sys := mkSys ns ((fun _ => Waiting) <$> jobs).

(** Daemons know their source interface. *)
Definition configured (ns : gmap string (K * KubeDTN)) : Prop :=
  map_Forall (fun _ n => vxlanIntf (settings n.2) <> "") ns.

(** Any two jobs are for one link or for links that can be told apart, and the
    ends of a link are on two nodes. *)
Record compatible : Prop := {
  comp_pairs a b : a ∈ jobs -> b ∈ jobs -> same_link a b \/ distinct_links a b;
  comp_nodes a : a ∈ jobs -> j_url a <> remote_url (j_peer a)
}.

Definition stands_on (x : place) (s : sys) : Prop := exists node, nodes s !! x.1 = Some node /\ stands x.2 node.1 node.2.

(** No handler of the link has failed. *)
Definition unspoilt (a : job) (s : sys) : Prop :=
  forall k b, jobs !! k = Some b -> same_link a b -> phases s !! k <> Some Failed.

Record inv (s : sys) : Prop := {
  inv_conf : configured (nodes s);
  inv_len : length (phases s) = length jobs;
  inv_near i a : jobs !! i = Some a -> unspoilt a s ->
    phases s !! i = Some Made \/ phases s !! i = Some Finished -> stands_on (near_place a) s;
  inv_far i a : jobs !! i = Some a -> unspoilt a s -> phases s !! i = Some Finished -> stands_on (far_place a) s
}.

(** ** Invariance *)

Lemma inv_at_start ns : configured ns -> inv (start ns).
Proof.
  intros Hc. split; [done|apply length_fmap|..]; intros i a _ _ Hp; cbn in Hp; rewrite list_lookup_fmap in Hp;
    destruct (jobs !! i); naive_solver.
Qed.

Lemma near_ok j : vni_ok (near_place j).2.
Proof. apply near_vni_ok. Qed.

Lemma far_ok j : vni_ok (far_place j).2.
Proof. exact (near_vni_ok (j_pod j) (j_peer j) (j_link j)). Qed.

Lemma configured_store url node w ns :
  configured ns -> ns !! url = Some node -> settings (daemon w) = settings node.2 -> configured (store url w ns).
Proof. intros Hc Hn Hs. apply map_Forall_insert_2; [|done]. cbn. rewrite Hs. by apply (Hc url). Qed.

(** A step of job [j] at [y]: the ends of other links there stay, and its own is
    made if it succeeds. *)
Definition writes (y : place) (ok : option error) (node : K * KubeDTN) (w : World K unit) : Prop :=
  (forall x, vni_ok x -> apart x y.2 -> stands x node.1 node.2 -> stands_in x w) /\ (ok = None -> stands_in y.2 w).

(** What stands after it. *)
Lemma writes_stands y ok node w s ps x :
  nodes s !! y.1 = Some node -> writes y ok node w -> vni_ok x.2 ->
  (x = y /\ ok = None) \/ (clear_of x y /\ stands_on x s) ->
  stands_on x (mkSys (store y.1 w (nodes s)) ps).
Proof.
  intros Hn [Hkeep Hmake] Hok Hx. unfold stands_on, store. cbn.
  destruct (decide (x.1 = y.1)) as [E|E].
  - rewrite E, lookup_insert_eq. eexists. split; [done|]. cbn.
    destruct Hx as [[-> Hr]|[Hc (node' & Hn' & Hst)]]; [by apply Hmake|].
    apply Hkeep; [done|by apply Hc|]. congruence.
  - rewrite lookup_insert_ne by done. destruct Hx as [[-> _]|[_ Hst]]; done.
Qed.

Definition end_of (x : place) (a : job) : Prop := x = near_place a \/ x = far_place a.

Lemma end_ok x a : end_of x a -> vni_ok x.2.
Proof. intros [->| ->]; [apply near_ok|apply far_ok]. Qed.

(** An end of [a] and an end of [j] are the same or clear of each other. *)
Lemma ends_clear x y a j :
  compatible -> a ∈ jobs -> j ∈ jobs -> end_of x a -> end_of y j -> x = y /\ same_link a j \/ clear_of x y.
Proof.
  intros Hcomp Ha Hj Hx Hy. pose proof (comp_nodes Hcomp j Hj) as Hne.
  destruct (comp_pairs Hcomp a j Ha Hj) as [Hs|(D1 & D2 & D3 & D4)].
  - pose proof Hs as [[En Ef]|[En Ef]]; destruct Hx as [->| ->], Hy as [->| ->]; rewrite ?En, ?Ef;
      first [left; split; [reflexivity|exact Hs]|right; intros E; by destruct Hne].
  - right. destruct Hx as [->| ->], Hy as [->| ->]; done.
Qed.

Lemma place_kept a j x y ok node w s ps :
  compatible -> a ∈ jobs -> j ∈ jobs -> end_of x a -> end_of y j -> (same_link a j -> ok = None) ->
  nodes s !! y.1 = Some node -> writes y ok node w -> stands_on x s \/ x = y /\ ok = None ->
  stands_on x (mkSys (store y.1 w (nodes s)) ps).
Proof.
  intros Hcomp Ha Hj Hx Hy Hspoil Hn Hw Hst. eapply writes_stands; [exact Hn|exact Hw|by eapply end_ok|].
  destruct Hst as [Hst|]; [|by left].
  destruct (ends_clear x y a j Hcomp Ha Hj Hx Hy) as [[-> Hs]|Hc]; [left; auto|by right].
Qed.

(** A step of one job keeps the invariant. *)
Lemma inv_write s i j y ok p node w :
  compatible -> inv s -> jobs !! i = Some j -> (phases s !! i = Some Waiting /\ p = Made /\ y = near_place j \/
     phases s !! i = Some Made /\ p = Finished /\ y = far_place j) ->
  nodes s !! y.1 = Some node -> writes y ok node w -> settings (daemon w) = settings node.2 ->
  inv (mkSys (store y.1 w (nodes s)) (<[i := after ok p]> (phases s))).
Proof.
  intros Hcomp [Hconf Hlen Hnear Hfar] Hj Hp Hn Hw Hset.
  set (s' := mkSys _ _).
  assert (i < length (phases s))%nat as Hi by (rewrite Hlen; by eapply lookup_lt_Some).
  assert (end_of y j) as Hy by (destruct Hp as [(_ & _ & ->)|(_ & _ & ->)]; [by left|by right]).
  assert (phases s !! i <> Some Failed) as Hnf by (destruct Hp as [[-> _]|[-> _]]; done).
  assert (forall a, unspoilt a s' -> unspoilt a s /\ (same_link a j -> ok = None)) as Hun.
  { intros a Hu. split.
    - intros k b Hb Hs. destruct (decide (k = i)) as [->|Hk]; [done|].
      pose proof (Hu k b Hb Hs) as Hu'. cbn in Hu'. by rewrite list_lookup_insert_ne in Hu'.
    - intros Hs. pose proof (Hu i j Hj Hs) as Hu'. cbn in Hu'. rewrite list_lookup_insert_eq in Hu' by done.
      by destruct ok. }
  assert (forall k a x, jobs !! k = Some a -> unspoilt a s' -> end_of x a -> stands_on x s \/ x = y /\ ok = None ->
            stands_on x s') as Hkept.
  { intros k a x Ha Hu Hx Hst. destruct (Hun a Hu) as [_ Hok].
    eapply (place_kept a j); [exact Hcomp|by eapply list_elem_of_lookup_2|by eapply list_elem_of_lookup_2|
      exact Hx|exact Hy|exact Hok|exact Hn|exact Hw|exact Hst]. }
  split; [by eapply configured_store|cbn; by rewrite length_insert|..].
  - intros k a Ha Hu Hph. apply (Hkept k a); [done|done|by left|]. destruct (Hun a Hu) as [Hu0 Hok].
    cbn in Hph. destruct (decide (k = i)) as [->|Hk]; [|rewrite !list_lookup_insert_ne in Hph by done; left; by eapply Hnear].
    rewrite Hj in Ha. injection Ha as <-. rewrite list_lookup_insert_eq in Hph by done.
    destruct ok; [destruct Hph; done|]. destruct Hp as [(_ & -> & ->)|(Hm & -> & ->)]; [by right|left].
    eapply Hnear; eauto.
  - intros k a Ha Hu Hph. apply (Hkept k a); [done|done|by right|]. destruct (Hun a Hu) as [Hu0 Hok].
    cbn in Hph. destruct (decide (k = i)) as [->|Hk]; [|rewrite !list_lookup_insert_ne in Hph by done; left; by eapply Hfar].
    rewrite Hj in Ha. injection Ha as <-. rewrite list_lookup_insert_eq in Hph by done.
    destruct ok; [done|]. destruct Hp as [(_ & -> & ->)|(Hm & -> & ->)]; [done|by right].
Qed.

Lemma near_writes j node r w :
  vxlanIntf (settings node.2) <> "" ->
  near_section (j_ctx j) (j_pod j) (j_peer j) (j_link j) (node_world node) = (Val r, w) ->
  writes (near_place j) r node w /\ settings (daemon w) = settings node.2.
Proof.
  intros Hi Hr. split; [split|by apply (wlp_run _ _ _ _ _ (near_section_settings _ _ _ _ _) Hr)].
  - intros x Hok Hap Hx. by apply (wlp_run _ _ _ _ _ (near_section_stands _ _ _ _ x (node_world node) Hi Hok Hap Hx) Hr).
  - by apply (wlp_run _ _ _ _ _ (near_section_makes _ _ _ _ (node_world node) Hi) Hr).
Qed.

Lemma far_writes j node resp r w :
  vxlanIntf (settings node.2) <> "" ->
  Update [] (remote_payload (j_pod j) (j_peer j) (j_link j)) (node_world node) = (Val (resp, r), w) ->
  writes (far_place j) r node w /\ settings (daemon w) = settings node.2.
Proof.
  intros Hi Hr. split; [split|by apply (wlp_run _ _ _ _ _ (Update_keeps_settings _ _ _) Hr)].
  - intros x Hok Hap Hx.
    by apply (wlp_run _ _ _ _ _ (Update_stands [] (remote_payload (j_pod j) (j_peer j) (j_link j)) x (node_world node) Hi Hok Hap Hx) Hr).
  - by apply (wlp_run _ _ _ _ _ (Update_makes [] _ (node_world node) Hi) Hr).
Qed.

Lemma unspoilt_fail a s i :
  phases s !! i = Some Made -> unspoilt a (mkSys (nodes s) (<[i := Failed]> (phases s))) ->
  unspoilt a s /\ forall j, jobs !! i = Some j -> ~ same_link a j.
Proof.
  intros Hi Hu. assert (i < length (phases s))%nat as Hlt by (by eapply lookup_lt_Some). split.
  - intros k b Hb Hs. destruct (decide (k = i)) as [->|Hk]; [by rewrite Hi|].
    pose proof (Hu k b Hb Hs) as Hu'. cbn in Hu'. by rewrite list_lookup_insert_ne in Hu'.
  - intros j Hj Hs. apply (Hu i j Hj Hs). cbn. by rewrite list_lookup_insert_eq.
Qed.

Lemma inv_kept s s' : compatible -> inv s -> step s s' -> inv s'.
Proof.
  intros Hcomp Hinv Hs. pose proof (inv_conf s Hinv) as Hconf.
  destruct Hs as [i j node r w Hj Hp Hn _ Hr|i j node resp r w Hj Hp Hn _ Hr|i j Hj Hp Hn].
  - destruct (near_writes j node r w) as [Hw Hset]; [by apply (Hconf (j_url j))|done|].
    apply (inv_write s i j (near_place j) r Made node w); [done..| |done|done|done]. by left.
  - destruct (far_writes j node resp r w) as [Hw Hset]; [by apply (Hconf (remote_url (j_peer j)))|done|].
    apply (inv_write s i j (far_place j) r Finished node w); [done..| |done|done|done]. by right.
  - assert (i < length (phases s))%nat as Hlt by (by eapply lookup_lt_Some).
    destruct Hinv as [_ Hlen Hnear Hfar]. split; [done|cbn; by rewrite length_insert|..];
      intros k a Ha Hu Hph; destruct (unspoilt_fail a s i Hp Hu) as [Hu0 _];
      (destruct (decide (k = i)) as [->|Hk]; cbn in Hph;
        [rewrite !list_lookup_insert_eq in Hph by done; naive_solver|rewrite !list_lookup_insert_ne in Hph by done]);
      [by apply (Hnear k a)|by apply (Hfar k a)].
Qed.

Lemma inv_reach s s' : compatible -> inv s -> rtc step s s' -> inv s'.
Proof. intros Hcomp Hi Hr. induction Hr; [done|]. eauto using inv_kept. Qed.

(** ** Progress *)

Definition over (p : phase) : Prop := p = Finished \/ p = Failed.

(** Steps a handler has left. *)
Definition left_of (p : phase) : nat := match p with Waiting => 2 | Made => 1 | _ => 0 end.

Fixpoint work (ps : list phase) : nat :=
  match ps with [] => 0 | p :: ps' => left_of p + work ps' end.

Lemma work_insert ps i p q : ps !! i = Some p -> work (<[i := q]> ps) + left_of p = work ps + left_of q.
Proof.
  revert i. induction ps as [|p' ps IH]; intros [|i] Hi; [done..| |].
  - injection Hi as ->. cbn. lia.
  - specialize (IH i Hi). change (<[S i := q]> (p' :: ps)) with (p' :: <[i := q]> ps). cbn [work]. lia.
Qed.

Lemma step_work s s' : step s s' -> work (phases s') < work (phases s).
Proof.
  intros Hs. destruct Hs as [i j node r w _ Hp _ _ _|i j node resp r w _ Hp _ _ _|i j _ Hp _]; cbn.
  - pose proof (work_insert _ _ _ (after r Made) Hp). destruct r; cbn in *; lia.
  - pose proof (work_insert _ _ _ (after r Finished) Hp). destruct r; cbn in *; lia.
  - pose proof (work_insert _ _ _ Failed Hp). cbn in *; lia.
Qed.

(** Every job's own node is there, and no lock is held. *)
Record hosted (s : sys) : Prop := {
  hosted_nodes j : j ∈ jobs -> is_Some (nodes s !! j_url j);
  hosted_locks : map_Forall (fun _ n => unlocked n.2) (nodes s)
}.

Lemma hosted_store s ps url node w :
  hosted s -> nodes s !! url = Some node -> follows (node_world node) w -> hosted (mkSys (store url w (nodes s)) ps).
Proof.
  intros [Hh Hl] Hn Hw. split.
  - intros j Hj. cbn. unfold store. apply lookup_insert_is_Some'. right. by apply Hh.
  - apply map_Forall_insert_2; [|exact Hl]. exact (follows_unlocked _ _ Hw (Hl _ _ Hn)).
Qed.

Lemma hosted_step s s' : hosted s -> step s s' -> hosted s'.
Proof.
  intros Hh Hs. destruct Hs as [i j node r w Hj _ Hn _ Hr|i j node resp r w Hj _ Hn _ Hr|i j Hj _ Hn].
  - eapply hosted_store; [exact Hh|exact Hn|]. exact (wlp_run _ _ _ _ _ (near_section_orderly _ _ _ _ _) Hr).
  - eapply hosted_store; [exact Hh|exact Hn|]. exact (wlp_run _ _ _ _ _ (Update_orderly _ _ _) Hr).
  - by destruct Hh.
Qed.

(** A handler that has not returned can go on. *)
Lemma enabled s i p : inv s -> hosted s -> phases s !! i = Some p -> over p \/ exists s', step s s' /\ phases s' !! i <> Some p.
Proof.
  intros [Hconf Hlen _ _] [Hh Hl] Hi. assert (i < length (phases s))%nat as Hlt by (by eapply lookup_lt_Some).
  destruct (lookup_lt_is_Some_2 jobs i) as [j Hj]; [by rewrite <- Hlen|].
  assert (forall ok q, p <> Failed -> p <> q -> <[i := after ok q]> (phases s) !! i <> Some p) as Hmoved.
  { intros ok q Hf Hq. rewrite list_lookup_insert_eq by done. destruct ok; cbn; congruence. }
  destruct p; [right|right|by left; left|by left; right].
  - destruct (Hh j) as [node Hn]; [by eapply list_elem_of_lookup_2|].
    destruct (wp_exists _ _ _ (near_section_returns (j_ctx j) (j_pod j) (j_peer j) (j_link j) (node_world node)
      (Hconf _ _ Hn))) as (r & w & Hr & _).
    eexists. split; [eapply step_near; [exact Hj|exact Hi|exact Hn|apply (Hl _ _ Hn)|exact Hr]|by apply Hmoved].
  - destruct (nodes s !! remote_url (j_peer j)) as [node|] eqn:Hn.
    2: { eexists. split; [by eapply step_unreachable|by apply (Hmoved (Some (errorf "")) Finished)]. }
    destruct (wp_exists _ _ _ (Update_returns [] (remote_payload (j_pod j) (j_peer j) (j_link j)) (node_world node)
      (Hconf _ _ Hn))) as ([resp r] & w & Hr & _).
    eexists. split; [eapply step_far; [exact Hj|exact Hi|exact Hn|apply (Hl _ _ Hn)|exact Hr]|by apply Hmoved].
Qed.

Lemma progress s : inv s -> hosted s -> Forall over (phases s) \/ exists s', step s s'.
Proof.
  intros Hi Hh. destruct (decide (Exists (fun p => p = Waiting \/ p = Made) (phases s))) as [He|He].
  - right. apply Exists_exists in He as (p & Hin & Hp). apply list_elem_of_lookup in Hin as [i Hin].
    destruct (enabled s i p Hi Hh Hin) as [Ho|(s' & Hs & _)]; [|by exists s'].
    destruct Hp as [->| ->], Ho; done.
  - left. apply not_Exists_Forall in He; [|solve_decision]. eapply Forall_impl; [exact He|].
    intros [] Hp; unfold over; naive_solver.
Qed.

Lemma inv_hosted s s' : compatible -> inv s -> hosted s -> rtc step s s' -> inv s' /\ hosted s'.
Proof. intros Hcomp Hi Hh Hr. induction Hr; [done|]. eauto using inv_kept, hosted_step. Qed.

(** Any state can be run to the end. *)
Lemma runs_out s : compatible -> inv s -> hosted s -> exists s', rtc step s s' /\ Forall over (phases s').
Proof.
  intros Hcomp. remember (work (phases s)) as n eqn:Hn. revert s Hn.
  induction (lt_wf n) as [n _ IH]. intros s -> Hi Hh.
  destruct (progress s Hi Hh) as [Ho|[s1 Hs]]; [by exists s|].
  destruct (IH (work (phases s1)) (step_work s s1 Hs) s1 eq_refl) as (s2 & Hr & Ho);
    [by eapply inv_kept|by eapply hosted_step|]. exists s2. split; [by eapply rtc_l|done].
Qed.

Lemma nsteps_work n s s' : nsteps step n s s' -> n + work (phases s') <= work (phases s).
Proof. induction 1 as [|n s1 s2 s3 Hs _ IH]; [lia|]. pose proof (step_work _ _ Hs). lia. Qed.

Lemma work_start : work ((fun _ => Waiting) <$> jobs) = 2 * length jobs.
Proof. induction jobs as [|j js IH]; cbn [fmap list_fmap work left_of length]; lia. Qed.

(** ** A scheduler *)

(** The step of the handler the scheduler picks. *)
Definition turn (i : nat) (s : sys) : option sys :=
  j ← jobs !! i;
  p ← phases s !! i;
  match p with
  | Waiting =>
      node ← nodes s !! j_url j;
      if lock_held (near_lock j) node.2 then None else
      match near_section (j_ctx j) (j_pod j) (j_peer j) (j_link j) (node_world node) with
      | (Val r, w) => Some (mkSys (store (j_url j) w (nodes s)) (<[i := after r Made]> (phases s)))
      | _ => None
      end
  | Made =>
      match nodes s !! remote_url (j_peer j) with
      | Some node =>
          if lock_held (far_lock j) node.2 then None else
          match Update [] (remote_payload (j_pod j) (j_peer j) (j_link j)) (node_world node) with
          | (Val (_, r), w) => Some (mkSys (store (remote_url (j_peer j)) w (nodes s)) (<[i := after r Finished]> (phases s)))
          | _ => None
          end
      | None => Some (mkSys (nodes s) (<[i := Failed]> (phases s)))
      end
  | _ => None
  end.

Fixpoint schedule (picks : list nat) (s : sys) : option sys :=
  match picks with
  | [] => Some s
  | i :: rest => s' ← turn i s; schedule rest s'
  end.

Lemma turn_step i s s' : turn i s = Some s' -> step s s'.
Proof.
  unfold turn. intros (j & Hj & (p & Hp & Ht)%bind_Some)%bind_Some. destruct p; [| |done..].
  - apply bind_Some in Ht as (node & Hn & Ht). destruct (lock_held _ _) eqn:Hl; [done|].
    destruct (near_section _ _ _ _ _) as [[r| |] w] eqn:Hr; [|done..].
    injection Ht as <-. by eapply step_near.
  - destruct (nodes s !! _) as [node|] eqn:Hn; [|injection Ht as <-; by eapply step_unreachable].
    destruct (lock_held _ _) eqn:Hl; [done|]. destruct (Update _ _ _) as [[[resp r]| |] w] eqn:Hr; [|done..]. injection Ht as <-. by eapply step_far.
Qed.

Lemma schedule_run picks s s' : schedule picks s = Some s' -> rtc step s s'.
Proof.
  revert s. induction picks as [|i picks IH]; intros s Hs; cbn in Hs; [by injection Hs as ->|].
  apply bind_Some in Hs as (s1 & Ht & Hs). eapply rtc_l; [by eapply turn_step|by apply IH].
Qed.

End System.

Arguments mkSys {K}.

(** ** Properties *)

(** C3: handlers that add links at the same time: whatever the order in which the
    daemons of any number of nodes make their ends and serve each other's
    updates, a link whose handler has finished stands at both ends with its
    shaping, also when the daemon of the other node was adding the same link; only another
    handler of the same link that fails can spoil it. *)
Theorem concurrent_links_stand {K : Type} `{UnicodeTables, ProtoLib, KernelLaws K}
    (jobs : list job) (ns : gmap string (K * KubeDTN)) (s : sys) (i : nat) (j : job) :
  compatible jobs -> configured ns -> rtc (step jobs) (start jobs ns) s ->
  jobs !! i = Some j -> phases s !! i = Some Finished -> unspoilt jobs j s ->
  stands_on (near_place j) s /\ stands_on (far_place j) s.
Proof.
  intros Hcomp Hconf Hr Hj Hp Hu. destruct (inv_reach jobs _ s Hcomp (inv_at_start jobs ns Hconf) Hr) as [_ _ Hn Hf].
  split; [by eapply Hn; eauto|by eapply Hf].
Qed.

(** C10: concurrent handlers do not wait for each other for ever: in every state the
    daemons reach from one in which no lock is held, whatever failed on the way,
    every handler that has not returned can take its next step, the link's lock
    being free on the node it runs on or calls; every run is finite, and the
    handlers can all be brought to return.  A handler that kept its lock on some
    path would block the later handlers of the link. *)
Theorem concurrent_links_end {K : Type} `{UnicodeTables, ProtoLib, KernelLaws K}
    (jobs : list job) (ns : gmap string (K * KubeDTN)) (n : nat) (s : sys) :
  compatible jobs -> configured ns -> hosted jobs (start jobs ns) -> nsteps (step jobs) n (start jobs ns) s ->
  (forall i p, phases s !! i = Some p -> over p \/ exists s', step jobs s s' /\ phases s' !! i <> Some p) /\
  n <= 2 * length jobs /\ exists s', rtc (step jobs) s s' /\ Forall over (phases s').
Proof.
  intros Hcomp Hconf Hh Hr.
  destruct (inv_hosted jobs _ s Hcomp (inv_at_start jobs ns Hconf) Hh (rtc_nsteps_2 _ _ _ Hr)) as [Hi Hh'].
  split_and!; [intros i p; by apply enabled| |by apply runs_out].
  pose proof (nsteps_work jobs n _ _ Hr) as Hw. cbn in Hw. rewrite work_start in Hw. lia.
Qed.

(** ** Witnesses *)

#[local] Existing Instance ascii_tables.

(** Both daemons add the link of the two pods. *)
Definition job_a : job := mkJob (remote_url podA) [] podA podB (Link_ToProto link12).
Definition job_b : job := mkJob (remote_url podB) [] podB podA (mirror "r1" (Link_ToProto link12)).

Definition two_nodes : gmap string (Sim.State * KubeDTN) :=
  {[ remote_url podA := (HandlerProps.node ["/ns/a"], daemon0 "192.168.0.1");
     remote_url podB := (HandlerProps.node ["/ns/b"], daemon0 "192.168.0.2") ]}.

Lemma both_compatible : compatible [job_a; job_b].
Proof.
  split.
  - intros a b [->|[->|Ha%elem_of_nil]%elem_of_cons]%elem_of_cons [->|[->|Hb%elem_of_nil]%elem_of_cons]%elem_of_cons;
      try done; left; [by left|by right|by right|by left].
  - intros a [->|[->|Ha%elem_of_nil]%elem_of_cons]%elem_of_cons; [discriminate|discriminate|done].
Qed.

Lemma two_configured : configured two_nodes.
Proof.
  apply map_Forall_insert_2; [discriminate|]. apply map_Forall_insert_2; [discriminate|]. apply map_Forall_empty.
Qed.

Lemma two_hosted : hosted [job_a; job_b] (start [job_a; job_b] two_nodes).
Proof.
  split.
  - intros j [->|[->|Hj%elem_of_nil]%elem_of_cons]%elem_of_cons; [by eexists|by eexists|done].
  - apply map_Forall_insert_2; [done|]. apply map_Forall_insert_2; [done|]. apply map_Forall_empty.
Qed.

(** Each makes its own end, then each has the other's made. *)
Definition crossing : option sys := schedule [job_a; job_b] [0; 1; 1; 0] (start [job_a; job_b] two_nodes).

Lemma crossing_phases : phases <$> crossing = Some [Finished; Finished].
Proof. vm_compute. reflexivity. Qed.

Lemma crossing_run : exists s, crossing = Some s /\ phases s = [Finished; Finished].
Proof. pose proof crossing_phases as H. apply fmap_Some in H as (s & Hs & Hp). exists s. exact (conj Hs (eq_sym Hp)). Qed.

Lemma concurrent_links_stand_witness :
  exists s, crossing = Some s /\ stands_on (near_place job_a) s /\ stands_on (far_place job_a) s.
Proof.
  destruct crossing_run as (s & Hs & Hp). exists s. split; [exact Hs|].
  apply (concurrent_links_stand [job_a; job_b] two_nodes s 0 job_a both_compatible two_configured);
    [exact (schedule_run _ _ _ _ Hs)|reflexivity|by rewrite Hp|].
  intros k b _ _. rewrite Hp. destruct k as [|[|k]]; discriminate.
Defined.

Lemma concurrent_links_end_witness :
  exists s', rtc (step [job_a; job_b]) (start [job_a; job_b] two_nodes) s' /\ Forall over (phases s').
Proof.
  apply (concurrent_links_end [job_a; job_b] two_nodes 0 (start [job_a; job_b] two_nodes) both_compatible two_configured two_hosted).
  constructor.
Defined.
