(* ===== verification/EndToEnd.v ===== *)
(** * From the spec to the interfaces

    The controller over daemons that run: a cluster is the API server and the
    nodes with their daemons; a request of the controller runs the handler of
    the daemon it names, whose calls to other daemons run theirs
    (see [Network]).  When [Reconcile] succeeds, the links a spec adds stand at
    both ends, the links it keeps still stand, and the links it changes carry
    their new properties. *)

From stdpp Require Import base strings gmap list.
From Stdlib Require Import ZArith Lia.
From S2P Require Import Controller.
From S2P Require Import Prelude GoStr GoNum GoNet Proto ApiV1 K8s Kernel SimKernel Qdisc.
From S2P Require Import LinkUtil Vxlan Decode Wire Metrics Daemon Handler HandlerProps.
From S2P Require Import Invariant Network Batch.

Local Open Scope string_scope.

(** ** The cluster *)

Record Cluster (K A : Type) := mkCluster { c_api : A; c_nodes : gmap string (K * KubeDTN) }.
Arguments mkCluster {K A}.
Arguments c_api {K A}.
Arguments c_nodes {K A}.

Section Cluster.
  Context {K A : Type} `{UnicodeTables, ProtoLib, Kernel K, RestClient A, Informer A, K8sClient A}.
  Local Abbreviation W := (World K (Net K A)).

(** The node at [target] as its daemon sees the cluster, and back. *)
Definition world_at (target : string) (node : K * KubeDTN) (c : Cluster K A) : W :=
  mkWorld node.1 (mkNet (c_api c) (delete target (c_nodes c))) node.2.

Definition back (target : string) (w : W) : Cluster K A :=
  mkCluster (api (cluster w)) (<[target := (kernel w, daemon w)]> (the_peers w)).

(** A daemon serving a request; one that panics is gone. *)
Definition serve_at (target : string) (h : go W (pb_BoolResponse * option error)) (c : Cluster K A)
  : result pb_BoolResponse * Cluster K A :=
  match c_nodes c !! target with
  | None => (Err (errorf "unavailable"), c)
  | Some node =>
      match h (world_at target node c) with
      | (Val (r, None), w) => (Ok r, back target w)
      | (Val (_, Some e), w) => (Err e, back target w)
      | (_, w) => (Err (errorf "connection reset"), mkCluster (api (cluster w)) (the_peers w))
      end
  end.

(** The requests the controller makes. *)
#[export] Instance cluster_grpc : GrpcClient (Cluster K A) :=
  {| grpc_Dial target c := (None, c);
     grpc_Invoke target method req :=
       match req with
       | ReqAddLinks q => serve_at target (AddLinks [] q)
       | ReqDelLinks q => serve_at target (DelLinks [] q)
       | ReqUpdateLinks q => serve_at target (UpdateLinks [] q)
       | _ => fun c => (Err (errorf "unknown method"), c)
       end |}.

Definition on_c_api {X} (f : eff A X) : eff (Cluster K A) X :=
  fun c => let '(x, a) := f (c_api c) in (x, mkCluster a (c_nodes c)).

#[export] Instance cluster_client : K8sClient (Cluster K A) :=
  {| client_Get ns name := on_c_api (client_Get ns name);
     client_StatusUpdate t := on_c_api (client_StatusUpdate t) |}.

End Cluster.

(** ** What a run leaves *)

Section Runs.
  Context {K A : Type} `{UnicodeTables, ProtoLib, KernelLaws K, RestClient A, Informer A, K8sClient A, RetryLaws}.
  Local Abbreviation W := (World K (Net K A)).
  Implicit Types (w : W) (c : Cluster K A).

(** Different nodes have different addresses. *)
Lemma remote_url_inj (p : pb_Pod) ip : remote_url p = daemonAddr ip -> pod_SrcIp p = ip.
Proof. unfold remote_url, daemonAddr. intros E%(inj (String.append _)). by eapply append_cancel_r. Qed.

Lemma serve_at_ok target h c r c' :
  serve_at target h c = (Ok r, c') ->
  exists node w, c_nodes c !! target = Some node /\ h (world_at target node c) = (Val (r, None), w) /\ c' = back target w.
Proof.
  unfold serve_at. destruct (c_nodes c !! target) as [node|]; [|done].
  destruct (h _) as [[[r' [e|]]| |] w] eqn:Hh; intros [= <- <-]. by exists node, w.
Qed.

(** A request that the controller takes for granted was served. *)
Lemma sendLinks_served (rpc : string -> pb_LinksBatchQuery -> go (Cluster K A) (option pb_BoolResponse * option error))
    method req t ls c c' :
  (forall target q, rpc target q = stub target method (req q)) -> ls <> [] ->
  sendLinks rpc t ls c = (Val None, c') ->
  exists r, grpc_Invoke (daemonAddr (SrcIP (Status t))) method (req (linksQuery t ls)) c = (Ok r, c').
Proof.
  intros Hrpc Hne. destruct ls as [|l ls]; [done|]. unfold sendLinks, ConnectDaemon, bind, call, ret.
  cbn [grpc_Dial cluster_grpc]. rewrite Hrpc. unfold stub, bind, call, ret.
  destruct (grpc_Invoke _ _ _ c) as [[r|e] c1]; cbn; [|done].
  destruct (Response r); cbn; intros [= <-]; by exists r.
Qed.

(** An end on a node of the cluster. *)
Definition stands_in_cluster (x : tunnel) (url : string) c : Prop :=
  exists node, c_nodes c !! url = Some node /\ stands x node.1 node.2.

Definition connected (pod p : pb_Pod) (link : pb_Link) c : Prop :=
  stands_in_cluster (near_end pod p link) (daemonAddr (pod_SrcIp pod)) c /\
  stands_in_cluster (far_end pod p link) (remote_url p) c.

Lemma connected_back pod p link w :
  elsewhere pod link p -> link_stands pod p link w -> connected pod p link (back (daemonAddr (pod_SrcIp pod)) w).
Proof.
  intros (_ & _ & _ & Hsrc) [Hnear (node & Hn & Hfar)]. split.
  - exists (kernel w, daemon w). cbn. by rewrite lookup_insert_eq.
  - exists node. cbn. rewrite lookup_insert_ne; [done|]. intros E. by apply Hsrc, remote_url_inj.
Qed.

Lemma connected_at pod p link c node :
  elsewhere pod link p -> c_nodes c !! daemonAddr (pod_SrcIp pod) = Some node -> connected pod p link c ->
  link_stands pod p link (world_at (daemonAddr (pod_SrcIp pod)) node c).
Proof.
  intros (_ & _ & _ & Hsrc) Hnode [(n & Hn & Hnear) (n' & Hn' & Hfar)]. split.
  - assert (n = node) as -> by congruence. exact Hnear.
  - exists n'. split; [|done]. unfold the_peers, world_at. cbn. rewrite lookup_delete_ne; [done|].
    intros E. by apply Hsrc, remote_url_inj.
Qed.

(** *** Requests of the controller *)

(** The pod of the controller's requests. *)
Definition request_pod (t : Topology) : pb_Pod :=
  mk_pb_Pod (Name t) (SrcIP (Status t)) (NetNs (Status t)) (Namespace t) [].

(** The daemon of the pod's node is up. *)
Definition has_daemon (t : Topology) c : Prop := is_Some (c_nodes c !! daemonAddr (SrcIP (Status t))).

(** A sender that succeeds has run the handler on the pod's node; with nothing to
    send that is no run at all. *)
Lemma sender_run rpc method req (h : pb_LinksBatchQuery -> go W (pb_BoolResponse * option error)) t ls c c' :
  (forall target q, rpc target q = stub target method (req q)) ->
  (forall target q, grpc_Invoke target method (req q) = serve_at target (h q)) ->
  (forall w, h (linksQuery t []) w = (Val accept, w)) ->
  sendLinks rpc t ls c = (Val None, c') -> has_daemon t c \/ has_daemon t c' ->
  exists node r w, c_nodes c !! daemonAddr (SrcIP (Status t)) = Some node /\
    h (linksQuery t ls) (world_at (daemonAddr (SrcIP (Status t))) node c) = (Val (r, None), w) /\
    c' = back (daemonAddr (SrcIP (Status t))) w.
Proof.
  intros Hrpc Hinv Hnil Hrun Hup. destruct (decide (ls = [])) as [->|Hne].
  - injection Hrun as <-. assert (has_daemon t c) as [n Hn] by (by destruct Hup). exists n, accept.1, (world_at (daemonAddr (SrcIP (Status t))) n c).
    split; [done|]. split; [apply Hnil|]. destruct c as [a ns], n as [k d]. unfold back, world_at, the_peers. cbn.
    by rewrite insert_delete_id.
  - destruct (sendLinks_served rpc method req t ls c c' Hrpc Hne Hrun) as [r Hr]. rewrite Hinv in Hr.
    apply serve_at_ok in Hr as (node & w & Hnode & Hh & ->). by exists node, r, w.
Qed.

(** An interface of the pod keeps standing, and the other nodes are as before. *)
Definition keeps_end x w w' : Prop := (stands_in x w -> stands_in x w') /\ cluster w' = cluster w.

Lemma links_loop_keeps (f : pb_Link -> go W (option error)) x ls w :
  (forall l w0, l ∈ ls -> wlp (f l) (fun _ w' => keeps_end x w0 w') w0) ->
  wlp (links_loop f ls) (fun _ w' => keeps_end x w w') w.
Proof.
  revert w. induction ls as [|l ls IH]; intros w Hf; cbn [links_loop]; [by wp_step|].
  wp_step. eapply wlp_mono; [apply Hf, elem_of_cons; by left|]. intros [er|] w1 [K1 C1]; [by wp_step|].
  eapply wlp_mono; [apply IH; intros l' w0 Hl'; apply Hf, elem_of_cons; by right|].
  intros r w2 [K2 C2]. split; [by auto|congruence].
Qed.

(** *** Deletions *)

Lemma delLink_keeps ctx pod l x w :
  (tn_ns x, tn_intf x) <> (pod_NetNs pod, pb_LocalIntf l) -> tn_vni x <> GetVniFromUid (pb_Uid l) ->
  wlp (delLink ctx pod l) (fun _ w' => keeps_end x w w') w.
Proof.
  intros Hk Hv. unfold delLink. do 2 d_step. destruct (MakeVeth _ _ _ _) as [v|er] eqn:Hm; [|by wp_step].
  apply MakeVeth_key in Hm. wp_step. apply wlp_kernel, wlp_wp, wp_call. intros r k Hr. cbv zeta.
  cbn [set_daemon kernel] in Hr. apply (RemoveVethLink_keeps v (tn_ns x, tn_intf x) (tn_vni x)) in Hr; [|by rewrite Hm].
  assert (stands_in x w -> end_up x (view k)) as He by (intros [He _]; exact (end_kept _ _ _ Hr He)).
  do 3 d_step. destruct (deref _ <$> _) as [n|]; [destruct (String.eqb n (pod_NetNs pod))|]; repeat d_step;
    (split; [intros Hs; split; [by apply He|]; destruct Hs as [_ (c0 & Hc & Hlt & Hd)]; exists c0|done]); [|done..].
  unfold VxlanManager_Get in *. cbn. by rewrite lookup_delete_ne.
Qed.

(** *** Changes of properties *)

(** What a change of properties leaves: interfaces, records, settings, the cluster,
    and the shaping of the interfaces that are not asked for. *)
Record reshapes_only (pod : pb_Pod) (ls : list pb_Link) w w' : Prop := {
  ro_links : links (view (kernel w')) = links (view (kernel w));
  ro_others : others (fun j => exists l, l ∈ ls /\ j = (pod_NetNs pod, pb_LocalIntf l)) (view (kernel w)) (view (kernel w'));
  ro_records : vxlanManager (daemon w') = vxlanManager (daemon w);
  ro_settings : settings (daemon w') = settings (daemon w);
  ro_cluster : cluster w' = cluster w
}.

Lemma reshapes_same pod ls w w' :
  kernel w' = kernel w -> vxlanManager (daemon w') = vxlanManager (daemon w) ->
  settings (daemon w') = settings (daemon w) -> cluster w' = cluster w -> reshapes_only pod ls w w'.
Proof. intros Hk Hm Hs Hc. split; [by rewrite Hk|by apply others_refl; rewrite Hk|done|done|done]. Qed.

Lemma reshapes_trans pod ls1 ls2 w1 w2 w3 :
  reshapes_only pod ls1 w1 w2 -> reshapes_only pod ls2 w2 w3 -> reshapes_only pod (ls1 ++ ls2) w1 w3.
Proof.
  intros [L1 O1 M1 S1 C1] [L2 O2 M2 S2 C2]. split; [congruence| |congruence..].
  eapply others_trans; (eapply others_weaken; [|eassumption]); intros j (l & Hl & ->); exists l; set_solver.
Qed.

(** One link: it is shaped when nothing failed. *)
Lemma updateLink_frame ctx pod l w :
  wlp (updateLink ctx pod l)
    (fun r w' => reshapes_only pod [l] w w' /\
       (r = None -> shaped (view (kernel w')) (pod_NetNs pod, pb_LocalIntf l) (tcpIpBypass ctx) (pb_Properties l))) w.
Proof.
  unfold updateLink. do 2 d_step. destruct (MakeVeth _ _ _ _) as [v|er] eqn:Hv; [|wp_step; split; [by apply reshapes_same|done]].
  apply MakeVeth_key in Hv. destruct (MakeQdiscs _) as [qs|er] eqn:Hq; [|wp_step; split; [by apply reshapes_same|done]].
  apply wlp_bind, wlp_kernel, wlp_wp. eapply wp_mono.
  { apply (wp_and _ _ _ _ (SetVethQdiscs_links _ _ _ _ _ Hq)
      (wp_and _ _ _ _ (SetVethQdiscs_others _ _ _ _ _ Hq) (SetVethQdiscs_shaped ctx v _ _ _ Hq))). }
  intros r k (HL & Ho & Hsh). rewrite Hv in Hsh.
  apply (others_weaken _ (fun j => exists l', l' ∈ [l] /\ j = (pod_NetNs pod, pb_LocalIntf l'))) in Ho.
  - destruct r; repeat d_step; (split; [by split|]); [done|]. intros _. by apply Hsh.
  - intros j ->. exists l. split; [by apply list_elem_of_singleton|exact Hv].
Qed.

Lemma updateLinks_frame ctx pod ls w : wlp (links_loop (updateLink ctx pod) ls) (fun _ w' => reshapes_only pod ls w w') w.
Proof.
  revert w. induction ls as [|l ls IH]; intros w; cbn [links_loop]; [wp_step; by apply reshapes_same|].
  wp_step. eapply wlp_mono; [apply updateLink_frame|]. intros [er|] w1 [Hf _].
  - wp_step. apply (reshapes_trans pod [l] ls w w1 w1 Hf). by apply reshapes_same.
  - eapply wlp_mono; [apply IH|]. intros r w2. by apply (reshapes_trans pod [l] ls).
Qed.

(** All links of the batch: an interface that is there is shaped as the last of
    its changes asks. *)
Lemma updateLinks_shaped ctx pod ls l w :
  (forall l', l' ∈ ls -> pb_LocalIntf l' = pb_LocalIntf l -> l' = l) ->
  is_Some (links (view (kernel w)) !! (pod_NetNs pod, pb_LocalIntf l)) ->
  l ∈ ls \/ shaped (view (kernel w)) (pod_NetNs pod, pb_LocalIntf l) (tcpIpBypass ctx) (pb_Properties l) ->
  wlp (links_loop (updateLink ctx pod) ls)
    (fun r w' => r = accept ->
       shaped (view (kernel w')) (pod_NetNs pod, pb_LocalIntf l) (tcpIpBypass ctx) (pb_Properties l)) w.
Proof.
  revert w. induction ls as [|l1 ls IH]; intros w Huniq Hex Hl; cbn [links_loop].
  { wp_step. intros _. by destruct Hl as [Hl%elem_of_nil|Hl]. }
  wp_step. eapply wlp_mono; [apply updateLink_frame|]. intros [er|] w1 [Hf Hsh]; [by wp_step|].
  apply IH; [intros l' Hl'; apply Huniq, elem_of_cons; by right|by rewrite (ro_links _ _ _ _ Hf)|].
  destruct (decide (pb_LocalIntf l1 = pb_LocalIntf l)) as [E|E].
  { rewrite <- (Huniq l1); [right; by apply Hsh|apply elem_of_cons; by left|done]. }
  destruct Hl as [[->|Hl]%elem_of_cons|Hl]; [done|by left|]. right. eapply shaped_unmoved; [|exact Hl].
  apply (ro_others _ _ _ _ Hf); [|by rewrite (ro_links _ _ _ _ Hf)].
  intros (l' & ->%list_elem_of_singleton & [= E']). by apply E.
Qed.

(** *** The senders, over running daemons *)

Lemma proto_link t (ls : list Link) l : l ∈ lbq_Links (linksQuery t ls) <-> exists l0, l = Link_ToProto l0 /\ l0 ∈ ls.
Proof. cbn [lbq_Links linksQuery]. rewrite Map_map. apply list_elem_of_fmap. Qed.

Lemma sender_DelLinks t ls c c' :
  Controller.DelLinks t ls c = (Val None, c') -> has_daemon t c \/ has_daemon t c' ->
  exists node r w, c_nodes c !! daemonAddr (SrcIP (Status t)) = Some node /\
    links_loop (delLink (WithLogger []) (request_pod t)) (lbq_Links (linksQuery t ls))
      (world_at (daemonAddr (SrcIP (Status t))) node c) = (Val (r, None), w) /\ c' = back (daemonAddr (SrcIP (Status t))) w.
Proof. by apply (sender_run localClient_DelLinks "/proto.v1.Local/DelLinks" ReqDelLinks (DelLinks [])). Qed.

Lemma sender_AddLinks t ls c c' :
  Controller.AddLinks t ls c = (Val None, c') -> has_daemon t c \/ has_daemon t c' ->
  exists node r w, c_nodes c !! daemonAddr (SrcIP (Status t)) = Some node /\
    links_loop (addLink (WithLogger []) (request_pod t)) (lbq_Links (linksQuery t ls))
      (world_at (daemonAddr (SrcIP (Status t))) node c) = (Val (r, None), w) /\ c' = back (daemonAddr (SrcIP (Status t))) w.
Proof. by apply (sender_run localClient_AddLinks "/proto.v1.Local/AddLinks" ReqAddLinks (AddLinks [])). Qed.

(** The context of the handler carries the daemon's setting. *)
Definition update_ctx (b : bool) : Ctx := WithCtxValue (WithLogger []) TCPIP_BYPASS (CtxBool b).

Lemma sender_UpdateLinks t ls c c' :
  Controller.UpdateLinks t ls c = (Val None, c') -> has_daemon t c \/ has_daemon t c' ->
  exists node r w, c_nodes c !! daemonAddr (SrcIP (Status t)) = Some node /\
    links_loop (updateLink (update_ctx (TCPIPBypass (settings node.2))) (request_pod t)) (lbq_Links (linksQuery t ls))
      (world_at (daemonAddr (SrcIP (Status t))) node c) = (Val (r, None), w) /\ c' = back (daemonAddr (SrcIP (Status t))) w.
Proof. by apply (sender_run localClient_UpdateLinks "/proto.v1.Local/UpdateLinks" ReqUpdateLinks (UpdateLinks [])). Qed.

Lemma back_up t w : has_daemon t (back (daemonAddr (SrcIP (Status t))) w).
Proof. eexists. apply lookup_insert_eq. Qed.

(** Deleting other links of the pod leaves a link alone. *)
Lemma DelLinks_connected t ls p link c c' :
  Controller.DelLinks t ls c = (Val None, c') -> has_daemon t c' -> elsewhere (request_pod t) link p ->
  (forall d, d ∈ ls -> pb_LocalIntf link <> LocalIntf d /\ GetVniFromUid (pb_Uid link) <> GetVniFromUid (pb_Uid (Link_ToProto d))) ->
  connected (request_pod t) p link c -> connected (request_pod t) p link c'.
Proof.
  intros Hrun Hup He Hd Hc. destruct (sender_DelLinks t ls c c' Hrun (or_intror Hup)) as (node & r & w & Hn & Hw & ->).
  destruct (connected_at _ _ _ _ node He Hn Hc) as [Hnear Hfar].
  assert (keeps_end (near_end (request_pod t) p link) (world_at (daemonAddr (SrcIP (Status t))) node c) w) as [Hk Hcl].
  { refine (wlp_run _ _ _ _ _ (links_loop_keeps _ _ _ _ _) Hw). intros l w0 (d & -> & Hin)%proto_link.
    destruct (Hd d Hin) as [Hi Hv]. apply delLink_keeps; [cbn; congruence|exact Hv]. }
  apply (connected_back (request_pod t)); [done|]. split; [by apply Hk|].
  unfold stands_at, the_peers in Hfar |- *. by rewrite Hcl.
Qed.

(** Adding links: they stand, and so do the links that stood. *)
Lemma AddLinks_connected t kept ls peer c c' node :
  c_nodes c !! daemonAddr (SrcIP (Status t)) = Some node ->
  ready (WithLogger []) (request_pod t) peer kept (lbq_Links (linksQuery t ls))
    (world_at (daemonAddr (SrcIP (Status t))) node c) ->
  Controller.AddLinks t ls c = (Val None, c') ->
  (forall l, l ∈ kept -> elsewhere (request_pod t) l (peer l) -> connected (request_pod t) (peer l) l c) ->
  has_daemon t c' /\
  forall l, l ∈ (kept ++ lbq_Links (linksQuery t ls))%list -> elsewhere (request_pod t) l (peer l) ->
    connected (request_pod t) (peer l) l c'.
Proof.
  intros Hn Hready Hrun Hkept.
  destruct (sender_AddLinks t ls c c' Hrun) as (node' & r & w & Hn' & Hw & ->); [left; by eexists|].
  assert (node' = node) as -> by congruence. apply links_loop_accepts in Hw. split; [apply back_up|]. intros l Hl He.
  apply (connected_back (request_pod t)); [done|].
  apply (AddLinks_stand (WithLogger []) (request_pod t) peer kept (linksQuery t ls) _ w eq_refl Hready); [|exact Hw|done|done].
  intros l' Hl' He'. by apply connected_at; [..|apply Hkept].
Qed.

(** Changing properties: the ends of other links stay as they are, ... *)
Lemma UpdateLinks_keeps t ls x url c c' :
  Controller.UpdateLinks t ls c = (Val None, c') -> has_daemon t c ->
  (url = daemonAddr (SrcIP (Status t)) -> forall l, l ∈ ls -> (tn_ns x, tn_intf x) <> (NetNs (Status t), LocalIntf l)) ->
  stands_in_cluster x url c -> stands_in_cluster x url c'.
Proof.
  intros Hrun Hup Hx (n & Hn & Hst). destruct (sender_UpdateLinks t ls c c' Hrun (or_introl Hup)) as (node & r & w & Hn' & Hw & ->).
  apply (wlp_run _ _ _ _ _ (updateLinks_frame _ _ _ _)) in Hw as [HL HO HM _ HC].
  unfold stands_in_cluster, back, the_peers. rewrite HC. cbn [c_nodes world_at cluster Network.peers].
  destruct (decide (url = daemonAddr (SrcIP (Status t)))) as [->|Hu]; [|exists n; by rewrite lookup_insert_ne, lookup_delete_ne].
  exists (kernel w, daemon w). rewrite lookup_insert_eq. split; [done|]. assert (node = n) as -> by congruence.
  destruct Hst as [He Hr]. cbn [fst snd]. split; [|by rewrite HM]. eapply end_kept; [|exact He].
  intros grp Hg. rewrite HL. split; [done|]. apply HO; [|rewrite HL; by eexists].
  intros (l & (l0 & -> & Hl0)%proto_link & E). by apply (Hx eq_refl l0).
Qed.

(** ... and the changed links carry what their new properties ask for. *)
Definition reshaped_at (t : Topology) (l : Link) (node : K * KubeDTN) : Prop :=
  shaped (view node.1) (NetNs (Status t), LocalIntf l) (TCPIPBypass (settings node.2)) (pb_Properties (Link_ToProto l)).

Lemma UpdateLinks_shaped t ls l c c' :
  Controller.UpdateLinks t ls c = (Val None, c') -> has_daemon t c -> l ∈ ls ->
  (forall l', l' ∈ ls -> LocalIntf l' = LocalIntf l -> l' = l) ->
  exists node node', c_nodes c !! daemonAddr (SrcIP (Status t)) = Some node /\
    c_nodes c' !! daemonAddr (SrcIP (Status t)) = Some node' /\
    links (view node'.1) = links (view node.1) /\ vxlanManager node'.2 = vxlanManager node.2 /\
    (is_Some (links (view node'.1) !! (NetNs (Status t), LocalIntf l)) -> reshaped_at t l node').
Proof.
  intros Hrun Hup Hl Huniq. destruct (sender_UpdateLinks t ls c c' Hrun (or_introl Hup)) as (node & r & w & Hn & Hw & ->).
  exists node, (kernel w, daemon w). split; [done|]. split; [apply lookup_insert_eq|].
  pose proof (wlp_run _ _ _ _ _ (updateLinks_frame _ _ _ _) Hw) as [HL _ HM HS _]. split; [exact HL|]. split; [exact HM|].
  cbn [fst snd]. rewrite HL. intros Hex. unfold reshaped_at. cbn [fst snd]. rewrite HS.
  apply links_loop_accepts in Hw.
  refine (wlp_run _ _ _ _ _ (updateLinks_shaped (update_ctx (TCPIPBypass (settings node.2))) (request_pod t) _ (Link_ToProto l) _ _ _ _) Hw eq_refl).
  - intros l' (l0 & -> & Hl0)%proto_link E. by rewrite (Huniq l0).
  - exact Hex.
  - left. apply proto_link. by exists l.
Qed.

(** Writing the status touches no node. *)
Lemma updateStatusLinks_nodes ns name c : c_nodes (updateStatusLinks ns name c).2 = c_nodes c.
Proof.
  unfold updateStatusLinks, bind, call. cbn [client_Get cluster_client]. unfold on_c_api.
  destruct (client_Get ns name (c_api c)) as [[t|e] a]; [|done]. cbn [client_StatusUpdate cluster_client].
  unfold on_c_api. cbn [c_api c_nodes].
  by destruct (client_StatusUpdate (set_status_links (spec_Links (Spec t)) t) a) as [r a'].
Qed.

Lemma retry_nodes ns name c : c_nodes (RetryOnConflict (updateStatusLinks ns name) c).2 = c_nodes c.
Proof.
  pose proof (retry_attempts (Cluster K A) (updateStatusLinks ns name) c) as Ha.
  apply (attempts_invariant (updateStatusLinks ns name) (fun c' => c_nodes c' = c_nodes c)
           (fun x => c_nodes x.2 = c_nodes c) c) in Ha; [done| | |done].
  - intros s Hs. by rewrite updateStatusLinks_nodes.
  - intros s er s1 Hs Hr. rewrite <- Hs. change s1 with (Val (Some er), s1).2. rewrite <- Hr. apply updateStatusLinks_nodes.
Qed.

End Runs.

(** ** Links of a spec *)

Definition link_vni (l : Link) : Z := GetVniFromUid (pb_Uid (Link_ToProto l)).

Lemma id_name (l l' : Link) : link_id l = link_id l' -> LocalIntf l = LocalIntf l'.
Proof. unfold link_id. congruence. Qed.

Lemma id_properties (l l' : Link) : link_id l = link_id l' -> Properties l = Properties l' -> l = l'.
Proof. destruct l, l'. unfold link_id. cbn. congruence. Qed.

Lemma NoDup_ids (ls : list Link) : NoDup (LocalIntf <$> ls) -> NoDup (link_id <$> ls).
Proof.
  intros Hnd. induction ls as [|l ls IH]; [constructor|]. cbn in *. apply NoDup_cons in Hnd as [Hl Hnd].
  apply NoDup_cons. split; [|by apply IH]. intros (l' & E & Hl')%list_elem_of_fmap. apply Hl.
  rewrite (id_name _ _ E). by apply list_elem_of_fmap_2.
Qed.

Section Diff.
  Context (old new add del changed : list Link) (Hdiff : CalcDiff old new = (add, del, changed)).
  Context (Hnew : NoDup (LocalIntf <$> new)).

(** An added link and one whose properties changed are two links of the spec. *)
Lemma add_changed_differ l l' : l ∈ add -> l' ∈ changed -> LocalIntf l <> LocalIntf l'.
Proof.
  rewrite CalcDiff_eq in Hdiff. injection Hdiff as <- <- <-. intros [Hl Hf]%filter_elem (o & Ho & Hl' & Hid & _)%changed_elem E.
  rewrite fresh_in_spec in Hf. apply (Hf o Ho). rewrite Hid. f_equal. symmetry. by eapply NoDup_fmap_eq.
Qed.

(** A deleted link is an old one that the spec does not have. *)
Lemma deleted_link d : d ∈ del -> d ∈ old /\ forall l, l ∈ new -> link_id d <> link_id l.
Proof. rewrite CalcDiff_eq in Hdiff. injection Hdiff as <- <- <-. rewrite filter_elem, dropped_spec. done. Qed.

Lemma changed_link l : l ∈ changed -> l ∈ new /\ exists o, o ∈ old /\ link_id o = link_id l /\ Properties o <> Properties l.
Proof. rewrite CalcDiff_eq in Hdiff. injection Hdiff as <- <- <-. intros (o & Ho & Hl & Hid & Hp)%changed_elem. eauto 6. Qed.

Lemma kept_link o l : o ∈ old -> l ∈ new -> link_id o = link_id l -> o = l \/ l ∈ changed.
Proof.
  intros Ho Hl Hid. destruct (decide (Properties o = Properties l)) as [Hp|Hp]; [left; by apply id_properties|right].
  rewrite CalcDiff_eq in Hdiff. injection Hdiff as <- <- <-. eapply changed_complete; [by apply NoDup_ids|done..].
Qed.

End Diff.

(** *** The property changes of a diff *)

Section Changes.
  Context {K A : Type} `{UnicodeTables, ProtoLib, KernelLaws K, RestClient A, Informer A, K8sClient A}.
  Context (t : Topology) (old add del changed : list Link) (c c' : Cluster K A).
  Local Abbreviation new := (slice (spec_Links (Spec t))).
  Local Abbreviation addr := (daemonAddr (SrcIP (Status t))).
  Context (Hdiff : CalcDiff old new = (add, del, changed)) (Hnew : NoDup (LocalIntf <$> new)).
  Context (Hrun : Controller.UpdateLinks t changed c = (Val None, c')) (Hup : has_daemon t c).

Lemma changed_unique l l' : l ∈ changed -> l' ∈ changed -> LocalIntf l' = LocalIntf l -> l' = l.
Proof. intros [Hl _]%(changed_link _ _ _ _ _ Hdiff) [Hl' _]%(changed_link _ _ _ _ _ Hdiff). by apply (NoDup_fmap_eq _ new). Qed.

Lemma changed_shaped l node :
  l ∈ changed -> c_nodes c' !! addr = Some node ->
  is_Some (links (view node.1) !! (NetNs (Status t), LocalIntf l)) -> reshaped_at t l node.
Proof.
  intros Hl Hn Hex. destruct (UpdateLinks_shaped t changed l c c' Hrun Hup Hl) as (n & n' & _ & Hn' & _ & _ & Hsh).
  - intros l' Hl' E. by apply changed_unique.
  - assert (n' = node) as -> by congruence. by apply Hsh.
Qed.

(** Ends at other nodes, and of links that are not changed. *)
Lemma far_unchanged p x : pod_SrcIp p <> SrcIP (Status t) -> stands_in_cluster x (remote_url p) c -> stands_in_cluster x (remote_url p) c'.
Proof. intros Hs. eapply UpdateLinks_keeps; [exact Hrun|done|]. intros E. by apply remote_url_inj in E. Qed.

Lemma near_unchanged p l :
  (forall l', l' ∈ changed -> LocalIntf l <> LocalIntf l') ->
  stands_in_cluster (near_end (request_pod t) p (Link_ToProto l)) addr c ->
  stands_in_cluster (near_end (request_pod t) p (Link_ToProto l)) addr c'.
Proof. intros Hl. eapply UpdateLinks_keeps; [exact Hrun|done|]. intros _ l' Hl' [= E]. by apply (Hl l'). Qed.

(** The pod's end of a link that stays, with the properties of the spec. *)
Lemma near_updated p o l :
  NoDup (LocalIntf <$> old) -> o ∈ old -> l ∈ new -> link_id o = link_id l ->
  stands_in_cluster (near_end (request_pod t) p (Link_ToProto o)) addr c ->
  stands_in_cluster (near_end (request_pod t) p (Link_ToProto l)) addr c'.
Proof.
  intros Hold Ho Hl Hid Hst. destruct (decide (l ∈ changed)) as [Hc|Hc].
  - destruct (UpdateLinks_shaped t changed l c c' Hrun Hup Hc) as (n & n' & Hn & Hn' & HL & HM & Hsh);
      [intros l' Hl' E; by apply changed_unique|].
    destruct Hst as (n0 & Hn0 & [(grp & Hg & Hip) _] & Hr). assert (n0 = n) as -> by congruence.
    unfold link_id in Hid. injection Hid as Hi _ _ _ _ _ _ Hu. cbn in Hg, Hr. rewrite Hi, Hu in Hg. rewrite Hu in Hr.
    exists n'. split; [done|]. split; [split|].
    + exists grp. cbn. by rewrite HL.
    + exists (TCPIPBypass (settings n'.2)). apply Hsh. rewrite HL, Hg. by eexists.
    + cbn. by rewrite HM.
  - destruct (kept_link _ _ _ _ _ Hdiff Hnew o l Ho Hl Hid) as [->|]; [|done].
    eapply near_unchanged; [|exact Hst]. intros l' Hl' E. apply Hc.
    replace l with l'; [done|]. destruct (changed_link _ _ _ _ _ Hdiff l' Hl') as [Hin _]. by eapply (NoDup_fmap_eq LocalIntf new).
Qed.

End Changes.

(** ** Properties *)

(** What [Reconcile] did when it reports success. *)
Lemma Reconcile_stages {K A : Type}
    `{UnicodeTables, ProtoLib, KernelLaws K, RestClient A, Informer A, K8sClient A, RetryLaws}
    ns name t a1 old add del changed (c c1 c' : Cluster K A) :
  client_Get ns name (c_api c) = (Ok t, a1) ->
  status_Links (Status t) = Some old -> spec_Links (Spec t) <> Some old ->
  CalcDiff old (slice (spec_Links (Spec t))) = (add, del, changed) ->
  Controller.DelLinks t del (mkCluster a1 (c_nodes c)) = (Val None, c1) ->
  Reconcile ns name c = (Val None, c') ->
  exists c2 c3, Controller.AddLinks t add c1 = (Val None, c2) /\ Controller.UpdateLinks t changed c2 = (Val None, c3) /\
    c_nodes c' = c_nodes c3.
Proof.
  intros Hget Hold Hnew Hdiff Hdel Hrun. unfold Reconcile in Hrun.
  unfold bind at 1, call in Hrun. cbn [client_Get cluster_client] in Hrun. unfold on_c_api in Hrun. rewrite Hget in Hrun.
  rewrite Hold, bool_decide_false in Hrun by congruence. unfold applyDiff in Hrun. rewrite Hdiff in Hrun.
  apply bind_Val in Hrun as (err & c3 & Hrun & Hst). unfold bind at 1 in Hrun. rewrite Hdel in Hrun.
  apply bind_Val in Hrun as (err2 & c2 & Hadd & Hrun). destruct err2 as [er|]; [by injection Hrun as <- <-|].
  destruct err as [er|]; [done|]. exists c2, c3. split_and!; [done|done|].
  by rewrite <- (retry_nodes ns name c3), Hst.
Qed.

(** C1: from the spec to the interfaces: when [Reconcile] reports success for a
    topology whose spec has changed, the links of the new spec stand.  [t] is the
    topology as [Reconcile] read it.  Every added link to a pod that is alive on another node stands at both
    ends, shaped: the controller sent it to the daemon of the pod's node, which
    made its end and called the peer's daemon for the other.  Every link
    [kept] from before that stood still stands: neither the deletions nor the
    additions have taken an end of it down, and its end at the pod carries the
    properties of the new spec.  Every changed link, of whatever kind, whose
    interface exists carries its new properties ([fits]): the disciplines and the
    filter they ask for, and, on a node where requests fail only for cause, none of
    the old ones that they do not ask for.  The daemons are up when
    the additions arrive, and read the peers' topologies as they are; links are
    told apart by their interfaces and VNIs. *)
Theorem Reconcile_realises {K A : Type}
    `{UnicodeTables, ProtoLib, KernelLaws K, RestClient A, Informer A, K8sClient A, RetryLaws}
    (ns name : string) (t : Topology) (a1 : A) (old add del changed kept : list Link) (peer : string -> pb_Pod)
    (c c1 c' : Cluster K A) (node : K * KubeDTN) :
  let new := slice (spec_Links (Spec t)) in
  let addr := daemonAddr (SrcIP (Status t)) in
  let pod := request_pod t in
  let remote l := elsewhere pod (Link_ToProto l) (peer (PeerPod l)) in
  client_Get ns name (c_api c) = (Ok t, a1) ->
  status_Links (Status t) = Some old -> spec_Links (Spec t) <> Some old ->
  CalcDiff old new = (add, del, changed) ->
  NoDup (LocalIntf <$> new) -> NoDup (LocalIntf <$> old) -> NoDup (link_vni <$> old) ->
  (forall o, o ∈ kept -> o ∈ old /\ (exists l, l ∈ new /\ link_id o = link_id l) /\
     (remote o -> connected pod (peer (PeerPod o)) (Link_ToProto o) c)) ->
  Controller.DelLinks t del (mkCluster a1 (c_nodes c)) = (Val None, c1) ->
  c_nodes c1 !! addr = Some node ->
  ready (WithLogger []) pod (fun l => peer (pb_PeerPod l)) (Link_ToProto <$> kept) (lbq_Links (linksQuery t add))
    (world_at addr node c1) ->
  Reconcile ns name c = (Val None, c') ->
  (forall l, l ∈ add -> remote l -> connected pod (peer (PeerPod l)) (Link_ToProto l) c') /\
  (forall o l, o ∈ kept -> l ∈ new -> link_id o = link_id l -> remote o ->
     stands_in_cluster (near_end pod (peer (PeerPod l)) (Link_ToProto l)) addr c' /\
     stands_in_cluster (far_end pod (peer (PeerPod o)) (Link_ToProto o)) (remote_url (peer (PeerPod o))) c') /\
  (forall l node', l ∈ changed -> c_nodes c' !! addr = Some node' ->
     is_Some (links (view node'.1) !! (NetNs (Status t), LocalIntf l)) -> reshaped_at t l node').
Proof.
  intros new addr pod remote Hget Hst Hspec Hdiff Hnn Hno Hnv Hkept Hdel Hnode Hready Hrun.
  destruct (Reconcile_stages ns name t a1 old add del changed c c1 c' Hget Hst Hspec Hdiff Hdel Hrun)
    as (c2 & c3 & Hadd & Hupd & Hnodes).
  destruct (AddLinks_connected t (Link_ToProto <$> kept) add (fun l => peer (pb_PeerPod l)) c1 c2 node Hnode Hready Hadd) as [Hup Hc2].
  { intros l (o & -> & Ho)%list_elem_of_fmap He. destruct (Hkept o Ho) as (Hoo & (n & Hn & Hid) & Hstood).
    eapply (DelLinks_connected t del); [exact Hdel|by eexists|exact He| |exact (Hstood He)].
    intros d (Hd & Hgone)%(deleted_link _ _ _ _ _ Hdiff). assert (o <> d) as Hne by (intros ->; by apply (Hgone n)).
    split; intros E; apply Hne; [by eapply (NoDup_fmap_eq LocalIntf)|by eapply (NoDup_fmap_eq link_vni)]. }
  unfold connected, stands_in_cluster. rewrite Hnodes. split_and!.
  - intros l Hl He. destruct (Hc2 (Link_ToProto l)) as [Hn Hf]; [|exact He|].
    { apply elem_of_app. right. apply proto_link. by exists l. }
    split; [eapply near_unchanged; [exact Hupd|done| |exact Hn]|eapply far_unchanged; [exact Hupd|done| |exact Hf]].
    + intros l' Hl'. by eapply add_changed_differ.
    + apply He.
  - intros o l Ho Hl Hid He. destruct (Hc2 (Link_ToProto o)) as [Hn Hf]; [|exact He|].
    { apply elem_of_app. left. by apply list_elem_of_fmap_2. }
    split; [|eapply far_unchanged; [exact Hupd|done|apply He|exact Hf]].
    eapply near_updated; [exact Hdiff|exact Hnn|exact Hupd|done|exact Hno|by apply Hkept|exact Hl|exact Hid|].
    unfold link_id in Hid. injection Hid as _ _ _ _ _ _ Hp _. rewrite <- Hp. exact Hn.
  - intros l node' Hl Hn. by eapply changed_shaped.
Qed.

#[local] Existing Instance ascii_tables.

(** An API server for both the controller and the daemons. *)
#[local] Instance simc_client : K8sClient SimC.State :=
  {| client_Get ns name s :=
       (match SimC.db s !! (ns, name) with Some t => Ok t | None => Err SimC.missing end, s);
     client_StatusUpdate t s :=
       match SimC.db s !! (Namespace t, Name t) with
       | Some old => (None, SimC.mkState (<[(Namespace t, Name t) := set_status (Status t) old]> (SimC.db s)) (SimC.calls s))
       | None => (Some SimC.missing, s)
       end |}.

(** [r1] runs on the first node, [r2] and [r3] on the second, [r5] is not alive. *)
Definition link15 : Link :=
  mkLink "eth5" "10.0.5.1/24" "" "eth5" "10.0.5.2/24" "" "r5" 5 (mkLinkProperties "" "" "" "" "" "" 0 "" "" "" "" "" "").

Definition link12_slow : Link :=
  mkLink "eth1" "10.0.0.1/24" "" "eth1" "10.0.0.2/24" "" "r2" 1 (mkLinkProperties "20ms" "" "" "" "" "" 0 "" "" "" "" "" "").

Definition peer_named (name : string) : pb_Pod :=
  if String.eqb name "r2" then podB else if String.eqb name "r3" then podC else mk_pb_Pod "r5" "" "" "default" [].

Definition topo1 (spec status : list Link) : Topology :=
  mkTopology "r1" "default" [] 1 (mkTopologySpec (Some spec)) (mkTopologyStatus None "192.168.0.1" "/ns/a" (Some status)).

Definition live_api (spec status : list Link) : SimC.State :=
  SimC.mkState {[ ("default", "r1") := topo1 spec status; ("default", "r2") := topo "r2" "192.168.0.2" "/ns/b" [];
                  ("default", "r3") := topo "r3" "192.168.0.2" "/ns/c" []; ("default", "r5") := topo "r5" "" "" [] ]} [].

(** Two links are added, then one of them is slowed down, the other replaced. *)
Definition specs : list (list Link) := [[]; [link12; link15]; [link12_slow; link13]].
Definition spec_at (i : nat) : list Link := default [] (specs !! i).

Fixpoint cluster_at (i : nat) : Cluster Sim.State SimC.State :=
  mkCluster (live_api (spec_at (S i)) (spec_at i))
    (match i with
     | O => {[ daemonAddr "192.168.0.1" := (HandlerProps.node ["/ns/a"], daemon0 "192.168.0.1");
               daemonAddr "192.168.0.2" := (HandlerProps.node ["/ns/b"; "/ns/c"], daemon0 "192.168.0.2") ]}
     | S i => c_nodes (Reconcile "default" "r1" (cluster_at i)).2
     end).

(** The cluster, and the pod's node, after the deletions of a round. *)
Definition deleted_at (i : nat) (del : list Link) : Cluster Sim.State SimC.State :=
  (Controller.DelLinks (topo1 (spec_at (S i)) (spec_at i)) del (mkCluster (c_api (cluster_at i)) (c_nodes (cluster_at i)))).2.

Definition node_at (i : nat) (del : list Link) : Sim.State * KubeDTN :=
  default (HandlerProps.node [], daemon0 "") (c_nodes (deleted_at i del) !! daemonAddr "192.168.0.1").

Definition world_round (i : nat) (del : list Link) : World Sim.State (Net Sim.State SimC.State) :=
  world_at (daemonAddr "192.168.0.1") (node_at i del) (deleted_at i del).

Definition peer_of (l : pb_Link) : pb_Pod := peer_named (pb_PeerPod l).

Lemma peer_up l : elsewhere podA l (peer_of l) -> forall i del,
  is_Some (the_peers (world_round i del) !! daemonAddr "192.168.0.2") ->
  (forall n, the_peers (world_round i del) !! daemonAddr "192.168.0.2" = Some n -> vxlanIntf (settings n.2) <> "") ->
  serving (remote_url (peer_of l)) (world_round i del).
Proof.
  intros (_ & _ & Hal & _) i del [n Hn] Hi. exists n. split; [|by apply Hi]. rewrite <- Hn. f_equal.
  unfold peer_of, peer_named in *. destruct (String.eqb _ "r2"); [done|]. by destruct (String.eqb _ "r3").
Qed.

(** Both lists of links are laid well. *)
Lemma laid_two a b :
  NoDup [LocalIntf a; LocalIntf b] -> NoDup [link_vni a; link_vni b] ->
  pod_NetNs (peer_named (PeerPod a)) <> "/ns/a" -> pod_NetNs (peer_named (PeerPod b)) <> "/ns/a" ->
  (pod_NetNs (peer_named (PeerPod a)), PeerIntf a) <> (pod_NetNs (peer_named (PeerPod b)), PeerIntf b) ->
  forall t, NetNs (Status t) = "/ns/a" -> well_laid (request_pod t) peer_of [Link_ToProto a; Link_ToProto b].
Proof.
  intros Hn Hv Ha Hb Hab t Ht. split; [exact Hn|exact Hv| |].
  - intros x y [->|[->|Hx%elem_of_nil]%elem_of_cons]%elem_of_cons [->|[->|Hy%elem_of_nil]%elem_of_cons]%elem_of_cons _ _ E;
      try done; exfalso; apply Hab; apply (f_equal (fun x => (x.1.2, x.2))) in E; [exact E|symmetry; exact E].
  - intros x [->|[->|Hx%elem_of_nil]%elem_of_cons]%elem_of_cons; cbn; rewrite ?Ht; done.
Qed.

Lemma round0_ready :
  ready (WithLogger []) (request_pod (topo1 (spec_at 1) [])) peer_of [] (lbq_Links (linksQuery (topo1 (spec_at 1) []) [link12; link15]))
    (world_round 0 []).
Proof.
  split; [vm_compute; discriminate| |apply (laid_two link12 link15); [decide_now|decide_now|discriminate..|reflexivity]|].
  - intros l _ He. apply peer_up; [exact He|vm_compute; by eexists|intros n; vm_compute; by intros [= <-]].
  - intros l w1 t (pre & post & Hl & Hrun) Ht. apply (f_equal snd) in Hrun. cbn [snd] in Hrun.
    destruct pre as [|l1 [|l2 [|l3 pre]]]; injection Hl as; subst; try discriminate;
      (eapply read_peer_reads; [|exact Ht]; vm_compute; reflexivity).
Qed.

Lemma round1_ready :
  ready (WithLogger []) (request_pod (topo1 (spec_at 2) (spec_at 1))) peer_of [Link_ToProto link12]
    (lbq_Links (linksQuery (topo1 (spec_at 2) (spec_at 1)) [link13])) (world_round 1 [link15]).
Proof.
  split; [vm_compute; discriminate| |apply (laid_two link12 link13); [decide_now|decide_now|discriminate..|reflexivity]|].
  - intros l _ He. apply peer_up; [exact He|vm_compute; by eexists|intros n; vm_compute; by intros [= <-]].
  - intros l w1 t (pre & post & Hl & Hrun) Ht. apply (f_equal snd) in Hrun. cbn [snd] in Hrun.
    destruct pre as [|l1 [|l2 pre]]; injection Hl as; subst; try discriminate.
    eapply read_peer_reads; [|exact Ht]. vm_compute. reflexivity.
Qed.

Lemma link12_remote t : SrcIP (Status t) = "192.168.0.1" -> elsewhere (request_pod t) (Link_ToProto link12) podB.
Proof. intros Ht. split_and!; [discriminate|reflexivity|reflexivity|]. cbn. by rewrite Ht. Qed.

Lemma connected_nodes pod p l (c c' : Cluster Sim.State SimC.State) :
  c_nodes c' = c_nodes c -> connected pod p l c -> connected pod p l c'.
Proof. unfold connected, stands_in_cluster. by intros ->. Qed.

Lemma round_next pod p l i :
  connected pod p l (Reconcile "default" "r1" (cluster_at i)).2 -> connected pod p l (cluster_at (S i)).
Proof. by apply connected_nodes. Qed.

Lemma round_runs i : i <= 1 -> (Reconcile "default" "r1" (cluster_at i)).1 = Val None.
Proof. intros Hi. destruct i as [|[|i]]; [vm_compute; reflexivity|vm_compute; reflexivity|lia]. Qed.

Lemma round_deletes i del : i <= 1 -> del = [] \/ del = [link15] ->
  Controller.DelLinks (topo1 (spec_at (S i)) (spec_at i)) del (mkCluster (c_api (cluster_at i)) (c_nodes (cluster_at i)))
  = (Val None, deleted_at i del).
Proof.
  intros Hi Hd. apply fst_pair. destruct Hd as [->| ->]; (destruct i as [|[|i]]; [vm_compute; reflexivity|vm_compute; reflexivity|lia]).
Qed.

Lemma round_node i del : i <= 1 -> del = [] \/ del = [link15] ->
  c_nodes (deleted_at i del) !! daemonAddr "192.168.0.1" = Some (node_at i del).
Proof.
  intros Hi Hd. unfold node_at. assert (is_Some (c_nodes (deleted_at i del) !! daemonAddr "192.168.0.1")) as [n ->]; [|done].
  destruct Hd as [->| ->]; (destruct i as [|[|i]]; [vm_compute; by eexists|vm_compute; by eexists|lia]).
Qed.

(** The first round connects [link12]; after the second it stands with its new
    latency, and so does the link that replaced the other one. *)
Lemma Reconcile_realises_witness :
  let c' := (Reconcile "default" "r1" (cluster_at 1)).2 in
  let pod := request_pod (topo1 (spec_at 2) (spec_at 1)) in
  connected pod podC (Link_ToProto link13) c' /\
  stands_in_cluster (near_end pod podB (Link_ToProto link12_slow)) (daemonAddr "192.168.0.1") c'.
Proof.
  assert (connected (request_pod (topo1 (spec_at 1) [])) podB (Link_ToProto link12) (Reconcile "default" "r1" (cluster_at 0)).2) as Hstood.
  { destruct (Reconcile_realises "default" "r1" (topo1 (spec_at 1) []) (c_api (cluster_at 0)) [] [link12; link15] [] [] [] peer_named
      (cluster_at 0) (deleted_at 0 []) (Reconcile "default" "r1" (cluster_at 0)).2 (node_at 0 [])) as (Hadd & _);
      [reflexivity|reflexivity|discriminate|reflexivity|decide_now|constructor|constructor|by intros o Ho%elem_of_nil|
       apply (round_deletes 0 []); [lia|by left]|apply (round_node 0 []); [lia|by left]|exact round0_ready|
       apply fst_pair, round_runs; lia|].
    apply (Hadd link12); [apply elem_of_cons; by left|by apply link12_remote]. }
  pose proof (round_next (request_pod (topo1 (spec_at 1) [])) podB (Link_ToProto link12) 0 Hstood) as Hstood1.
  destruct (Reconcile_realises "default" "r1" (topo1 (spec_at 2) (spec_at 1)) (c_api (cluster_at 1)) (spec_at 1) [link13] [link15]
      [link12_slow] [link12] peer_named
      (cluster_at 1) (deleted_at 1 [link15]) (Reconcile "default" "r1" (cluster_at 1)).2 (node_at 1 [link15])) as (Hadd & Hkept & _);
    [reflexivity|reflexivity|discriminate|reflexivity|decide_now|decide_now|decide_now| |
     apply (round_deletes 1 [link15]); [lia|by right]|apply (round_node 1 [link15]); [lia|by right]|exact round1_ready|
     apply fst_pair, round_runs; lia|].
  - intros o ->%list_elem_of_singleton. split; [apply elem_of_cons; by left|]. split; [|intros _; exact Hstood1].
    exists link12_slow. split; [apply elem_of_cons; by left|reflexivity].
  - split.
    + apply (Hadd link13); [by apply list_elem_of_singleton|]. split_and!; [discriminate|reflexivity|reflexivity|discriminate].
    + apply (Hkept link12 link12_slow); [by apply list_elem_of_singleton|apply elem_of_cons; by left|reflexivity|by apply link12_remote].
Defined.
