(* ===== verification/WireNet.v ===== *)
(** * Frames over a wire

    The two halves of a gRPC wire on two nodes: [AddGRPCWireRemote] made the one,
    [AddGRPCWireLocal] the other, and the receive thread of each
    ([RecvFrmLocalPodThread] in [daemon/grpcwire/grpcwire.go]) sends what it
    captures to the handler [SendToOnce] of the other node's daemon, which writes
    it to the handle of the wire's interface. *)

From stdpp Require Import base strings gmap list.
From Stdlib Require Import ZArith Lia.
From S2P Require Import Prelude GoStr GoNum GoNet Proto ApiV1 K8s Kernel SimKernel Qdisc.
From S2P Require Import LinkUtil Vxlan Decode Wire Metrics Daemon Handler HandlerProps.

Local Open Scope string_scope.

(** What was written to a capture handle, oldest first.  A write that fails has
    sent nothing. *)
Class PcapLaws (E : Type) `{Pcap E} := {
  written : E -> Z -> list (list Z);
  law_Write h f e r e' :
    pcap_WritePacketData h f e = (r, e') ->
    written e' h = (if r then written e h else written e h ++ [f])%list /\
    forall h', h' <> h -> written e' h' = written e h'
}.

(** ** A sending node and the nodes it reaches *)

Record Line (K : Type) := mkLine { ln_kernel : K; ln_nodes : gmap string (K * KubeDTN) }.
Arguments mkLine {K}.
Arguments ln_kernel {K}.
Arguments ln_nodes {K}.

Section Line.
  Context {K : Type} `{Kernel K, Pcap K}.

Definition on_near {X} (f : eff K X) : eff (Line K) X :=
  fun l => let '(x, k) := f (ln_kernel l) in (x, mkLine k (ln_nodes l)).

#[export] Instance line_pcap : Pcap (Line K) :=
  {| pcap_OpenLive name len := on_near (pcap_OpenLive name len);
     pcap_SetDirectionIn h := on_near (pcap_SetDirectionIn h);
     pcap_Close h := on_near (pcap_Close h);
     pcap_WritePacketData h f := on_near (pcap_WritePacketData h f) |}.

(** A node that gets a packet. *)
Definition serve_packet (pkt : pb_Packet) (n : K * KubeDTN) : result pb_BoolResponse * (K * KubeDTN) :=
  match SendToOnce pkt (mkWorld n.1 tt n.2) with
  | (Val (r, None), w) => (Ok r, (kernel w, daemon w))
  | (Val (_, Some e), w) => (Err e, (kernel w, daemon w))
  | (_, w) => (Err (errorf "connection reset"), (kernel w, daemon w))
  end.

#[export] Instance line_grpc : GrpcClient (Line K) :=
  {| grpc_Dial target l := (None, l);
     grpc_Invoke target method req l :=
       match req, ln_nodes l !! target with
       | ReqSendToOnce pkt, Some n =>
           let '(r, n') := serve_packet pkt n in (r, mkLine (ln_kernel l) (<[target := n']> (ln_nodes l)))
       | _, _ => (Err (errorf "unavailable"), l)
       end |}.

(** The daemon has the handle [h] for packets to the interface [id]. *)
Definition receives (id h : Z) (d : KubeDTN) : Prop := wireMap_GetHandle id (wires (wireState d)) = Some h.

(** The handler writes the frame to that handle, and changes nothing else. *)
Lemma serve_packet_writes id h f (n : K * KubeDTN) :
  receives id h n.2 ->
  exists r k', pcap_WritePacketData h f n.1 = (r, k') /\
    serve_packet (mk_pb_Packet id f) n = (match r with Some e => Err e | None => Ok (mk_pb_BoolResponse true) end, (k', n.2)).
Proof.
  destruct n as [k d]. unfold receives, wireMap_GetHandle. cbn [fst snd]. intros Hh.
  unfold serve_packet, SendToOnce, GetHostIntfHndl, on_wires, on_kernel, zoom, bind, ret, get_st, call. cbn [fst snd kernel daemon].
  destruct (pcap_WritePacketData h f k) as [r k'] eqn:Hw. exists r, k'. split; [done|].
  cbn. unfold wireMap_GetHandle. rewrite Hh. cbn. rewrite Hw. destruct d. by destruct r.
Qed.

End Line.

(** ** The thread *)

Section Thread.
  Context {K : Type} `{UnicodeTables, GopacketLaws, Kernel K, PcapLaws K}.

(** The panic a captured frame ends the daemon with: one of more than 1518 bytes, for
    which the thread runs the decoder for the log, if the decoder panics.  (That
    it does not run out of fuel is proved with the decoder.) *)
Definition crash (f : list Z) : option string :=
  if (1518 <? Z.of_nat (length f))%Z then
    match DecodeFrame f with Done _ => None | Panics why => Some why | NoFuel => Some "no fuel" end
  else None.

(** What the other node has written after the thread captured [frames]. *)
Record delivered (h : Z) (frames got : list (list Z)) (k k' : K) : Prop := {
  dl_written : written k' h = (written k h ++ got)%list;
  dl_order : got `sublist_of` frames;
  dl_all : (forall k0 f, (pcap_WritePacketData h f k0).1 = None) -> got = frames
}.

(** How far the thread gets: to the stop signal after all frames, or to the first
    frame that ends the daemon. *)
Inductive carried (frames : list (list Z)) : list (list Z) -> outcome thread_end -> Prop :=
| carried_all : Forall (fun f => crash f = None) frames -> carried frames frames (Val Stopped)
| carried_crash pre f post why :
    frames = (pre ++ f :: post)%list -> Forall (fun f => crash f = None) pre -> crash f = Some why ->
    carried frames pre (Panic why).

Lemma carried_cons f frames pre o : crash f = None -> carried frames pre o -> carried (f :: frames) (f :: pre) o.
Proof.
  intros Hf Hc. destruct Hc as [Ha|pre g post why -> Ha Hg].
  - apply carried_all. by apply Forall_cons.
  - by eapply (carried_crash _ (f :: pre)); [done|apply Forall_cons|].
Qed.

Lemma recv_loop_delivers wire url h (near : K) k d frames rest :
  receives (PeerIfaceID wire) h d ->
  exists o pre k' got, carried frames pre o /\ delivered h pre got k k' /\
    recv_loop wire url ((Data <$> frames) ++ Stop :: rest)%list (mkLine near {[ url := (k, d) ]})
    = (o, mkLine near {[ url := (k', d) ]}).
Proof.
  intros Hh. revert k. induction frames as [|f frames IH]; intros k; cbn [fmap list_fmap app recv_loop].
  { exists (Val Stopped), [], k, []. split_and!; [by apply carried_all| |done]. by split; [rewrite app_nil_r|..]. }
  destruct (crash f) as [why|] eqn:Hf.
  { exists (Panic why), [], k, []. split_and!; [by eapply (carried_crash _ [])|by split; [rewrite app_nil_r|..]|].
    unfold crash in Hf. destruct (1518 <? _)%Z; [|done]. unfold bind. by destruct (DecodeFrame f); simplify_eq. }
  match goal with |- context [bind ?m _] => assert (forall l : Line K, m l = (Val tt, l)) as Hlog end.
  { intros l. unfold crash in Hf. destruct (1518 <? _)%Z; [|done]. by destruct (DecodeFrame f). }
  unfold bind at 1. rewrite Hlog.
  unfold wireProtocolClient_SendToOnce, stub, bind, call, ret. cbn [grpc_Invoke line_grpc ln_nodes ln_kernel].
  rewrite lookup_singleton_eq. destruct (serve_packet_writes _ h f (k, d) Hh) as (r & k1 & Hw & ->).
  rewrite insert_singleton_eq. cbn [fst snd] in *. destruct (IH k1) as (o & pre & k' & got & Hc & [Hwr Hsub Hall] & Hrun).
  apply law_Write in Hw as Hl. destruct Hl as [Hl _].
  exists o, (f :: pre), k', (if r then got else f :: got).
  split; [by apply carried_cons|]. split; [|destruct r; exact Hrun]. split.
  - rewrite Hwr, Hl. destruct r; [done|]. by rewrite <- app_assoc.
  - destruct r; [by apply sublist_cons|by apply sublist_skip].
  - intros Hok. rewrite Hall by done. specialize (Hok k f). rewrite Hw in Hok. cbn in Hok. by rewrite Hok.
Qed.

(** The thread of [wire] carries frames to [node]: once its capture is open,
    the other node writes what was captured to [h], in order, until the thread is
    told to stop, or captures a frame on which the decoder panics; only frames
    whose write fails are missing, and the capture is closed. *)
Definition carries (wire : GRPCWire) (h : Z) (node : K * KubeDTN) : Prop :=
  forall (near near1 near2 : K) (hr : Z) (frames : list (list Z)) (rest : list wire_event),
  pcap_OpenLive (LocalNodeIfaceName wire) (1024 * 64 * 10) near = (Ok hr, near1) ->
  pcap_SetDirectionIn hr near1 = (None, near2) ->
  exists o pre k' got, carried frames pre o /\ delivered h pre got node.1 k' /\
    RecvFrmLocalPodThread wire ((Data <$> frames) ++ Stop :: rest)%list (mkLine near {[ wire_url wire := node ]})
    = (o, mkLine (pcap_Close hr near2).2 {[ wire_url wire := (k', node.2) ]}).

Lemma receives_carries wire h node : receives (PeerIfaceID wire) h node.2 -> carries wire h node.
Proof.
  destruct node as [k d]. intros Hh near near1 near2 hr frames rest Ho Hd. unfold RecvFrmLocalPodThread, defer, bind, call, ret.
  cbn [pcap_OpenLive pcap_Close line_pcap pcap_SetDirectionIn grpc_Dial line_grpc]. unfold on_near. cbn [ln_kernel ln_nodes].
  rewrite Ho. cbn [ln_kernel ln_nodes]. rewrite Hd.
  destruct (recv_loop_delivers wire (wire_url wire) h near2 k d frames rest Hh) as (o & pre & k' & got & Hc & Hdel & ->).
  exists o, pre, k', got. split_and!; [done|done|]. cbn [ln_kernel ln_nodes].
  destruct Hc; by destruct (pcap_Close hr near2) as [[] near3].
Qed.

End Thread.

(** ** Both ends *)

Section Ends.
  Context {K C : Type} `{UnicodeTables, GopacketLaws, Kernel K, PcapLaws K}.
  Implicit Types (w : World K C).

Lemma AddGRPCWireLocal_end d i k1 w w' :
  net_InterfaceByName (wd_VethNameLocalHost d) (kernel w) = (Ok i, k1) -> AddGRPCWireLocal d w = (Val accept, w') ->
  exists wire h, threads (daemon w') = wire :: threads (daemon w) /\ receives (if_Index i) h (daemon w') /\
    PeerIfaceID wire = wd_PeerIntfId d /\ PeerNodeIP wire = wd_PeerIp d /\ LocalNodeIfaceName wire = wd_VethNameLocalHost d /\
    exists k2, pcap_OpenLive (wd_VethNameLocalHost d) 65365 k1 = (Ok h, k2).
Proof.
  destruct w as [k c dm]. cbn [kernel]. intros Hi.
  unfold AddGRPCWireLocal, on_kernel, on_wires, mod_daemon, zoom, call, bind, ret, modify. cbn. rewrite Hi. cbn.
  destruct (pcap_OpenLive _ _ k1) as [[h|er] k2] eqn:Ho; cbn; [|by intros [=]].
  intros [= <-]. eexists _, h. split_and!; [reflexivity| |done..|by exists k2].
  unfold receives, wireMap_GetHandle. cbn. apply lookup_insert_eq.
Qed.

Lemma AddGRPCWireRemote_end d id w w' :
  (forall w0 : GRPCWire, wm_wires (wires (wireState (daemon w))) !! (wd_LocalPodNetNs d, wd_LinkUid d) = Some w0 -> IsReady w0 = false) ->
  AddGRPCWireRemote d w = (Val (mk_pb_WireCreateResponse true id, None), w') ->
  exists wire h, threads (daemon w') = wire :: threads (daemon w) /\ receives id h (daemon w') /\
    PeerIfaceID wire = wd_PeerIntfId d /\ PeerNodeIP wire = wd_PeerIp d /\
    exists k1 k2, pcap_OpenLive (LocalNodeIfaceName wire) 65365 k1 = (Ok h, k2).
Proof.
  destruct w as [k c dm]. cbn [daemon]. intros Hnew Hrun. unfold AddGRPCWireRemote in Hrun.
  apply bind_Val in Hrun as (stopC & w1 & Hc & Hrun). apply bind_Val in Hrun as (r & w2 & Hr & Hrun).
  injection Hc as <- <-. destruct r as [wire|er]; [|by injection Hrun].
  unfold on_wires, zoom in Hr. destruct (CreateGRPCWireRemoteTriggered _ _ _) as [o s'] eqn:Hcr. injection Hr as -> <-.
  match type of Hcr with CreateGRPCWireRemoteTriggered _ ?c ?s = _ => pose proof (CreateGRPCWire_wlp d c s Hnew) as Hw end.
  destruct (wlp_run _ _ _ _ _ Hw Hcr wire eq_refl) as (Hready & _ & _ & (Hp & Hip) & h & Hmap & Ho).
  injection Hrun as <- <-. exists wire, h. split_and!; [reflexivity| |done..].
  unfold receives, wireMap_GetHandle. cbn. rewrite Hmap. cbn. apply lookup_insert_eq.
Qed.

End Ends.

(** ** Properties *)


(** ** Witness *)

#[local] Existing Instance ascii_tables.
#[local] Existing Instance eth_only.
#[local] Existing Instance eth_only_laws.

(** The simulated node with a tape of what is written. *)
Definition Tape : Type := Sim.State * list (Z * list Z).

Definition on_sim {X} (f : eff Sim.State X) : eff Tape X :=
  fun t => let '(x, s) := f t.1 in (x, (s, t.2)).

#[local] Instance tape_kernel : Kernel Tape :=
  {| koko_MakeVeth a b := on_sim (koko_MakeVeth a b); koko_MakeVxLan v x := on_sim (koko_MakeVxLan v x);
     koko_MakeMacVLan v m := on_sim (koko_MakeMacVLan v m); koko_RemoveVethLink v := on_sim (koko_RemoveVethLink v);
     koko_IsExistLinkInNS ns n := on_sim (koko_IsExistLinkInNS ns n); ns_GetCurrentNS := on_sim ns_GetCurrentNS;
     ns_GetNS n := on_sim (ns_GetNS n); ns_Set n := on_sim (ns_Set n);
     nl_LinkByName n x := on_sim (nl_LinkByName n x); nl_LinkList n := on_sim (nl_LinkList n);
     nl_LinkDel n l := on_sim (nl_LinkDel n l); nl_LinkByIndex i := on_sim (nl_LinkByIndex i);
     nl_RouteGet d := on_sim (nl_RouteGet d); nl_QdiscList n l := on_sim (nl_QdiscList n l);
     nl_QdiscAdd n q := on_sim (nl_QdiscAdd n q); nl_QdiscDel n q := on_sim (nl_QdiscDel n q);
     exec_tc n args := on_sim (exec_tc n args); net_Interfaces := on_sim net_Interfaces;
     net_InterfaceByName n := on_sim (net_InterfaceByName n); net_InterfaceByIndex i := on_sim (net_InterfaceByIndex i);
     HANDLE_ROOT := @HANDLE_ROOT Sim.State _; MakeHandle := @MakeHandle Sim.State _;
     MACVLAN_MODE_BRIDGE := @MACVLAN_MODE_BRIDGE Sim.State _; IP_String := @IP_String Sim.State _ |}.

(** Writing an empty frame fails. *)
#[local] Instance tape_pcap : Pcap Tape :=
  {| pcap_OpenLive name len := on_sim (pcap_OpenLive name len);
     pcap_SetDirectionIn h := on_sim (pcap_SetDirectionIn h);
     pcap_Close h := on_sim (pcap_Close h);
     pcap_WritePacketData h f t :=
       match f with [] => (Some (errorf "empty packet"), t) | _ => (None, (t.1, (t.2 ++ [(h, f)])%list)) end |}.

#[local] Program Instance tape_laws : PcapLaws Tape :=
  {| written t h := snd <$> List.filter (fun x => (x.1 =? h)%Z) t.2 |}.
Next Obligation.
  intros h [|b f] [s t] r e'; cbn; intros [= <- <-]; [done|]. cbn. rewrite List.filter_app, fmap_app. cbn.
  rewrite Z.eqb_refl. split; [done|]. intros h' Hh. rewrite List.filter_app, fmap_app. cbn.
  destruct (Z.eqb_spec h h'); [congruence|]. by rewrite app_nil_r.
Qed.

Definition wireA : World Tape unit := mkWorld (wire_node, []) tt (daemon0 "192.168.0.1").

Definition wireB : World Tape unit :=
  mkWorld (Sim.mkState Sim.empty_view ["/ns/b"] [mkInterface "r2eth1-0001" 9 []], []) tt (daemon0 "192.168.0.2").

Definition wiredef_far : pb_WireDef := mk_pb_WireDef 7 "192.168.0.1" "eth1" "/ns/b" 1 "r2" "" "default" "".

