(* ===== verification/PluginRun.v ===== *)
(** * From the container runtime to the interfaces

    The CNI plugin ([plugin/kube_dtn.go]) over the daemon of its node: the
    request of [cmdAdd] runs the handler [SetupPod], whose calls to other daemons
    run theirs (see [Network]). *)

From stdpp Require Import base strings gmap list.
From Stdlib Require Import ZArith Lia.
From S2P Require Import Prelude GoStr GoNum GoNet Proto ApiV1 K8s Kernel SimKernel Qdisc.
From S2P Require Import LinkUtil Vxlan Decode Wire Metrics Daemon Handler HandlerProps.
From S2P Require Import Invariant Plugin Network Batch.

Local Open Scope string_scope.

Section PluginRun.
  Context {K A : Type} `{UnicodeTables, ProtoLib, KernelLaws K, RestClient A, Informer A, RetryLaws}.
  Local Abbreviation W := (World K (Net K A)).
  Implicit Types (w : W).

(** The daemon at [LocalDaemon] is the one of the node. *)
#[export] Instance node_grpc : GrpcClient W :=
  {| grpc_Dial target w := (None, w);
     grpc_Invoke target method req w :=
       match req with
       | ReqSetupPod q =>
           if String.eqb target LocalDaemon then
             match SetupPod [] q w with
             | (Val (r, None), w') => (Ok r, w')
             | (Val (_, Some e), w') => (Err e, w')
             | (_, w') => (Err (errorf "connection reset"), w')
             end
           else (Err (errorf "unavailable"), w)
       | _ => (Err (errorf "unknown method"), w)
       end |}.

(** [SetupPod] says no only with an error. *)
Lemma SetAlive_answers p w r w' : SetAlive p w = (Val (r, None), w') -> r = accept.1.
Proof.
  unfold SetAlive. intros Hr. apply bind_Val in Hr as (e1 & w1 & _ & Hr). destruct e1 as [er|]; [done|].
  apply bind_Val in Hr as (e2 & w2 & _ & Hr). by injection Hr as <- _.
Qed.

Lemma SetupPod_answers ctx q w r w' : SetupPod ctx q w = (Val (r, None), w') -> r = accept.1.
Proof.
  unfold SetupPod. cbv zeta. intros Hr. apply bind_Val in Hr as (g & w1 & _ & Hr). destruct g as [p|er]; [|by injection Hr as <- _].
  apply bind_Val in Hr as (d & w2 & _ & Hr). apply bind_Val in Hr as ([ok err] & w3 & Hs & Hr).
  destruct (bool_decide (err <> None) || negb (Response ok)) eqn:Hb.
  { injection Hr as <- -> _. apply SetAlive_answers in Hs as ->. by cbn in Hb. }
  apply bind_Val in Hr as ([resp err'] & w4 & Ha & Hr).
  destruct (bool_decide (err' <> None) || negb (Response resp)) eqn:Hb'; [|by injection Hr as <- _].
  injection Hr as <- -> _. unfold AddLinks, with_pod in Ha. cbn [lbq_LocalPod lbq_Links] in Ha.
  pose proof (links_loop_accepts _ _ _ _ _ Ha) as Ha'. rewrite Ha in Ha'. injection Ha' as ->. by cbn in Hb'.
Qed.

(** What [cmdAdd] did when it returns nil. *)
Lemma cmdAdd_run `{CniLib W} args a w w' :
  types_LoadArgs (Args args) = Ok a -> cmdAdd args w = (Val None, w') ->
  exists n res w1, loadConf (StdinData args) = Ok (n, res) /\
    SetupPod [] (mk_pb_SetupPodQuery (K8S_POD_NAME a) (K8S_POD_NAMESPACE a) (Netns args)) w = (Val accept, w1) /\
    types_PrintResult res (CNIVersion n) w1 = (None, w').
Proof.
  intros Ha. unfold cmdAdd. rewrite Ha. destruct (loadConf _) as [[n res]|er] eqn:Hc; [|by intros [=]].
  unfold localClient_SetupPod, stub, bind, call, ret. cbn [grpc_Dial grpc_Invoke node_grpc]. rewrite String.eqb_refl.
  destruct (SetupPod [] _ w) as [[[r [er|]]|y|z] w1] eqn:Hs; cbn; [by intros [=]| |by intros [=]..].
  pose proof (SetupPod_answers _ _ _ _ _ Hs) as ->. cbn.
  destruct (types_PrintResult res (CNIVersion n) w1) as [e2 w2] eqn:Hp. intros [= -> ->].
  by exists n, res, w1.
Qed.

Lemma cmdAdd_returns `{CniLib W} args a n res w w1 w' :
  types_LoadArgs (Args args) = Ok a -> loadConf (StdinData args) = Ok (n, res) ->
  SetupPod [] (mk_pb_SetupPodQuery (K8S_POD_NAME a) (K8S_POD_NAMESPACE a) (Netns args)) w = (Val accept, w1) ->
  types_PrintResult res (CNIVersion n) w1 = (None, w') -> cmdAdd args w = (Val None, w').
Proof.
  intros Ha Hc Hs Hp. unfold cmdAdd. rewrite Ha, Hc.
  unfold localClient_SetupPod, stub, bind, call, ret. cbn [grpc_Dial grpc_Invoke node_grpc].
  rewrite String.eqb_refl, Hs. cbn. by rewrite Hp.
Qed.

End PluginRun.

(** ** Properties *)

(** C4: from the container runtime to the interfaces: when the plugin's ADD returns
    without an error for a pod that has a topology, the pod's daemon has
    marked it alive in the namespace the runtime gave, and every link of the
    topology whose peer is alive on another node when it is read stands at both
    ends, shaped.  The pod that is set up last thus makes its links to the pods
    set up before it. *)
Theorem cmdAdd_connects {K A : Type}
    `{UnicodeTables, ProtoLib, KernelLaws K, RestClient A, Informer A, RetryLaws, CniLib (World K (Net K A))}
    (args : CmdArgs) (a : K8sArgs) (p : pb_Pod) (peer : pb_Link -> pb_Pod) (w w1 w2 w' : World K (Net K A)) :
  let q := mk_pb_SetupPodQuery (K8S_POD_NAME a) (K8S_POD_NAMESPACE a) (Netns args) in
  (forall res v w0, (types_PrintResult res v w0).2 = w0) ->
  types_LoadArgs (Args args) = Ok a ->
  Get (mk_pb_PodQuery (K8S_POD_NAME a) (K8S_POD_NAMESPACE a)) w = (Val (Ok p), w1) ->
  SetAlive (marked_pod w q p) w1 = (Val accept, w2) ->
  ready (WithLogger (WithLogger [])) (marked_pod w q p) peer [] (pod_Links p) w2 ->
  cmdAdd args w = (Val None, w') ->
  forall l, l ∈ pod_Links p -> elsewhere (marked_pod w q p) l (peer l) -> link_stands (marked_pod w q p) (peer l) l w'.
Proof.
  intros q Hprint Ha Hg Hs Hready Hr. apply (cmdAdd_run args a w w' Ha) in Hr as (n & res & w3 & _ & Hset & Hp).
  pose proof (Hprint res (CNIVersion n) w3) as E. rewrite Hp in E. cbn in E. subst w3.
  exact (SetupPod_connects [] q p peer w w1 w2 w' Hg Hs Hready Hset).
Qed.

(** ** Witness *)

#[local] Existing Instance ascii_tables.

Definition node_lib : CniLib (World Sim.State (Net Sim.State SimC.State)) :=
  {| json_NetConf s := Ok (mkNetConf "0.3.0" None None);
     version_ParsePrevResult n := Ok n;
     current_NewResult n := Ok None;
     types_LoadArgs s := Ok (mkK8sArgs "r2" "default");
     types_PrintResult r v w := (None, w);
     libcni_ConfFiles dir exts w := (Ok [], w);
     libcni_ConfListFromFile f w := (Err (errorf "no file"), w);
     libcni_ConfFromFile f w := (Err (errorf "no file"), w);
     libcni_ConfListFromConf c w := (Err (errorf "no file"), w);
     json_Unmarshal s := (∅, None);
     json_MarshalIndent m := Ok "";
     os_Getenv v w := ("VXLAN", w);
     os_WriteFile p b w := (None, w);
     os_Remove p w := (None, w);
     os_ReadFile p w := (Err (errorf "no file"), w);
     os_OpenAppend p w := (Ok 3%Z, w);
     file_Close f w := (None, w);
     skel_PluginMainWithError add check del := add (mkCmdArgs "" "" "/ns/b") |}.

(** [r2] is added after [r1]. *)
Lemma cmdAdd_connects_witness :
  exists w', @cmdAdd _ node_lib _ (mkCmdArgs "" "" "/ns/b") world_r2 = (Val None, w') /\
    link_stands (marked_pod world_r2 q2 pod2) pod1_alive (Link_ToProto link21) w'.
Proof.
  assert (@cmdAdd _ node_lib _ (mkCmdArgs "" "" "/ns/b") world_r2 = (Val None, (SetupPod [] q2 world_r2).2)) as Hr.
  { apply (@cmdAdd_returns _ _ _ _ _ _ _ _ node_lib (mkCmdArgs "" "" "/ns/b") (mkK8sArgs "r2" "default") (mkNetConf "0.3.0" None None) None
      world_r2 (SetupPod [] q2 world_r2).2); [reflexivity|reflexivity|exact (fst_pair _ _ r2_set_up)|reflexivity]. }
  exists (SetupPod [] q2 world_r2).2. split; [exact Hr|].
  refine (@cmdAdd_connects _ _ _ _ _ _ _ _ _ _ node_lib (mkCmdArgs "" "" "/ns/b") (mkK8sArgs "r2" "default") pod2 (fun _ => pod1_alive)
    world_r2 (Get (mk_pb_PodQuery "r2" "default") world_r2).2 world_r2_alive _ (fun _ _ _ => eq_refl) eq_refl
    (fst_pair _ _ r2_read) (fst_pair _ _ r2_marked) r2_ready Hr (Link_ToProto link21) _ _).
  - apply elem_of_cons. by left.
  - split_and!; [discriminate|reflexivity|reflexivity|discriminate].
Defined.
