(* ===== verification/Rpc.v ===== *)
(** * Requests and their handlers

    [proto/v1/kube_dtn_grpc.pb.go]: the tables of the three services, the
    handlers that decode a request and call the server's method, the servers
    that implement nothing, and the client stubs that [Proto] does not have.  The
    codec of messages and the routing of a call by its name are those of the
    protobuf and gRPC libraries: the classes [Codec] and [GrpcLib]. *)

From stdpp Require Import base strings gmap list.
From Stdlib Require Import ZArith Lia Ascii.
From S2P Require Import Prelude GoStr GoNum GoNet Proto ApiV1 K8s Kernel SimKernel Qdisc.
From S2P Require Import LinkUtil Vxlan Decode Wire Metrics Daemon Handler HandlerProps.

Local Open Scope string_scope.

(** ** Messages as [interface{}] values *)

Inductive message :=
| MPod (m : pb_Pod) | MPodQuery (m : pb_PodQuery) | MLinksBatchQuery (m : pb_LinksBatchQuery)
| MSetupPodQuery (m : pb_SetupPodQuery) | MBoolResponse (m : pb_BoolResponse) | MRemotePod (m : pb_RemotePod)
| MWireDef (m : pb_WireDef) | MWireCreateResponse (m : pb_WireCreateResponse) | MPacket (m : pb_Packet)
| MGenRequest (m : pb_GenerateNodeInterfaceNameRequest) | MGenResponse (m : pb_GenerateNodeInterfaceNameResponse).

Inductive msg_type :=
| TPod | TPodQuery | TLinksBatchQuery | TSetupPodQuery | TBoolResponse | TRemotePod
| TWireDef | TWireCreateResponse | TPacket | TGenRequest | TGenResponse.

Definition type_of (m : message) : msg_type :=
  match m with
  | MPod _ => TPod | MPodQuery _ => TPodQuery | MLinksBatchQuery _ => TLinksBatchQuery
  | MSetupPodQuery _ => TSetupPodQuery | MBoolResponse _ => TBoolResponse | MRemotePod _ => TRemotePod
  | MWireDef _ => TWireDef | MWireCreateResponse _ => TWireCreateResponse | MPacket _ => TPacket
  | MGenRequest _ => TGenRequest | MGenResponse _ => TGenResponse
  end.

(** [proto.Marshal], and [proto.Unmarshal] into a new message of a type. *)
Class Codec := {
  Marshal : message -> result (list Z);
  Unmarshal : msg_type -> list Z -> result message
}.

Class CodecLaws `{Codec} := {
  Unmarshal_Marshal m b : Marshal m = Ok b -> Unmarshal (type_of m) b = Ok m
}.

(** ** Handlers *)

Section Handlers.
  Context {S : Type}.

(** What a method of a server returns: a pointer and an error. *)
Definition method_result : Type := option message * option error.
Definition typed (T : Type) : Type := option T * option error.

(** [grpc.UnaryServerInterceptor]: the context, the request, the full name of the
    method, and the rest of the call. *)
Definition Interceptor : Type := Ctx -> message -> string -> (Ctx -> message -> go S method_result) -> go S method_result.

(** A handler gets the context, [dec] (which fills a new message of a type) and the
    interceptor, which may be nil. *)
Definition MethodHandler : Type := Ctx -> (msg_type -> result message) -> option Interceptor -> go S method_result.

(** The body that the generated unary handlers share: [method] is the method of the
    server behind the type assertion on the request. *)
Definition unary (t : msg_type) (FullMethod : string) (method : Ctx -> message -> go S method_result) : MethodHandler :=
  fun ctx dec interceptor =>
    match dec t with
    | Err e => ret (None, Some e)
    | Ok m =>
        match interceptor with
        | None => method ctx m
        | Some intercept => intercept ctx m FullMethod method
        end
    end.

(** [req.( *T)] of another message. *)
Definition bad_type {A} : go S A := panic "interface conversion".

(** A method's result as an [interface{}]. *)
Definition boxed {T} (box : T -> message) (m : go S (typed T)) : go S method_result :=
  ('(out, err) <- m ;; ret (box <$> out, err))%go.

(** *** The servers *)

Record LocalServer := mkLocalServer {
  srv_Get : Ctx -> pb_PodQuery -> go S (typed pb_Pod);
  srv_SetAlive : Ctx -> pb_Pod -> go S (typed pb_BoolResponse);
  srv_AddLinks : Ctx -> pb_LinksBatchQuery -> go S (typed pb_BoolResponse);
  srv_DelLinks : Ctx -> pb_LinksBatchQuery -> go S (typed pb_BoolResponse);
  srv_UpdateLinks : Ctx -> pb_LinksBatchQuery -> go S (typed pb_BoolResponse);
  srv_SetupPod : Ctx -> pb_SetupPodQuery -> go S (typed pb_BoolResponse);
  srv_DestroyPod : Ctx -> pb_PodQuery -> go S (typed pb_BoolResponse);
  srv_GRPCWireExists : Ctx -> pb_WireDef -> go S (typed pb_WireCreateResponse);
  srv_AddGRPCWireLocal : Ctx -> pb_WireDef -> go S (typed pb_BoolResponse);
  srv_RemGRPCWire : Ctx -> pb_WireDef -> go S (typed pb_BoolResponse);
  srv_GenerateNodeInterfaceName :
    Ctx -> pb_GenerateNodeInterfaceNameRequest -> go S (typed pb_GenerateNodeInterfaceNameResponse)
}.

Record RemoteServer := mkRemoteServer {
  srv_Update : Ctx -> pb_RemotePod -> go S (typed pb_BoolResponse);
  srv_AddGRPCWireRemote : Ctx -> pb_WireDef -> go S (typed pb_WireCreateResponse)
}.

(** The packets of a stream are received through its handle. *)
Record WireProtocolServer := mkWireProtocolServer {
  srv_SendToOnce : Ctx -> pb_Packet -> go S (typed pb_BoolResponse);
  srv_SendToStream : Z -> go S (option error)
}.

(** [status.Errorf(codes.Unimplemented, "method %s not implemented")]. *)
Definition not_implemented (name : string) : error :=
  errorf ("rpc error: code = Unimplemented desc = method " ++ name ++ " not implemented").

Definition unimplemented {Q T} (name : string) (ctx : Ctx) (q : Q) : go S (typed T) :=
  ret (None, Some (not_implemented name)).

Definition UnimplementedLocalServer : LocalServer :=
  {| srv_Get := unimplemented "Get"; srv_SetAlive := unimplemented "SetAlive";
     srv_AddLinks := unimplemented "AddLinks"; srv_DelLinks := unimplemented "DelLinks";
     srv_UpdateLinks := unimplemented "UpdateLinks"; srv_SetupPod := unimplemented "SetupPod";
     srv_DestroyPod := unimplemented "DestroyPod"; srv_GRPCWireExists := unimplemented "GRPCWireExists";
     srv_AddGRPCWireLocal := unimplemented "AddGRPCWireLocal"; srv_RemGRPCWire := unimplemented "RemGRPCWire";
     srv_GenerateNodeInterfaceName := unimplemented "GenerateNodeInterfaceName" |}.

Definition UnimplementedRemoteServer : RemoteServer :=
  {| srv_Update := unimplemented "Update"; srv_AddGRPCWireRemote := unimplemented "AddGRPCWireRemote" |}.

Definition UnimplementedWireProtocolServer : WireProtocolServer :=
  {| srv_SendToOnce := unimplemented "SendToOnce";
     srv_SendToStream := fun _ => ret (Some (not_implemented "SendToStream")) |}.

(** *** The handlers *)

Definition Local_Get_Handler (srv : LocalServer) : MethodHandler :=
  unary TPodQuery "/proto.v1.Local/Get"
    (fun ctx req => match req with MPodQuery q => boxed MPod (srv_Get srv ctx q) | _ => bad_type end).

Definition Local_SetAlive_Handler (srv : LocalServer) : MethodHandler :=
  unary TPod "/proto.v1.Local/SetAlive"
    (fun ctx req => match req with MPod q => boxed MBoolResponse (srv_SetAlive srv ctx q) | _ => bad_type end).

Definition Local_AddLinks_Handler (srv : LocalServer) : MethodHandler :=
  unary TLinksBatchQuery "/proto.v1.Local/AddLinks"
    (fun ctx req => match req with MLinksBatchQuery q => boxed MBoolResponse (srv_AddLinks srv ctx q) | _ => bad_type end).

Definition Local_DelLinks_Handler (srv : LocalServer) : MethodHandler :=
  unary TLinksBatchQuery "/proto.v1.Local/DelLinks"
    (fun ctx req => match req with MLinksBatchQuery q => boxed MBoolResponse (srv_DelLinks srv ctx q) | _ => bad_type end).

Definition Local_UpdateLinks_Handler (srv : LocalServer) : MethodHandler :=
  unary TLinksBatchQuery "/proto.v1.Local/UpdateLinks"
    (fun ctx req => match req with MLinksBatchQuery q => boxed MBoolResponse (srv_UpdateLinks srv ctx q) | _ => bad_type end).

Definition Local_SetupPod_Handler (srv : LocalServer) : MethodHandler :=
  unary TSetupPodQuery "/proto.v1.Local/SetupPod"
    (fun ctx req => match req with MSetupPodQuery q => boxed MBoolResponse (srv_SetupPod srv ctx q) | _ => bad_type end).

Definition Local_DestroyPod_Handler (srv : LocalServer) : MethodHandler :=
  unary TPodQuery "/proto.v1.Local/DestroyPod"
    (fun ctx req => match req with MPodQuery q => boxed MBoolResponse (srv_DestroyPod srv ctx q) | _ => bad_type end).

Definition Local_GRPCWireExists_Handler (srv : LocalServer) : MethodHandler :=
  unary TWireDef "/proto.v1.Local/GRPCWireExists"
    (fun ctx req => match req with MWireDef q => boxed MWireCreateResponse (srv_GRPCWireExists srv ctx q) | _ => bad_type end).

Definition Local_AddGRPCWireLocal_Handler (srv : LocalServer) : MethodHandler :=
  unary TWireDef "/proto.v1.Local/AddGRPCWireLocal"
    (fun ctx req => match req with MWireDef q => boxed MBoolResponse (srv_AddGRPCWireLocal srv ctx q) | _ => bad_type end).

Definition Local_RemGRPCWire_Handler (srv : LocalServer) : MethodHandler :=
  unary TWireDef "/proto.v1.Local/RemGRPCWire"
    (fun ctx req => match req with MWireDef q => boxed MBoolResponse (srv_RemGRPCWire srv ctx q) | _ => bad_type end).

Definition Local_GenerateNodeInterfaceName_Handler (srv : LocalServer) : MethodHandler :=
  unary TGenRequest "/proto.v1.Local/GenerateNodeInterfaceName"
    (fun ctx req =>
       match req with MGenRequest q => boxed MGenResponse (srv_GenerateNodeInterfaceName srv ctx q) | _ => bad_type end).

Definition Remote_Update_Handler (srv : RemoteServer) : MethodHandler :=
  unary TRemotePod "/proto.v1.Remote/Update"
    (fun ctx req => match req with MRemotePod q => boxed MBoolResponse (srv_Update srv ctx q) | _ => bad_type end).

Definition Remote_AddGRPCWireRemote_Handler (srv : RemoteServer) : MethodHandler :=
  unary TWireDef "/proto.v1.Remote/AddGRPCWireRemote"
    (fun ctx req => match req with MWireDef q => boxed MWireCreateResponse (srv_AddGRPCWireRemote srv ctx q) | _ => bad_type end).

Definition WireProtocol_SendToOnce_Handler (srv : WireProtocolServer) : MethodHandler :=
  unary TPacket "/proto.v1.WireProtocol/SendToOnce"
    (fun ctx req => match req with MPacket q => boxed MBoolResponse (srv_SendToOnce srv ctx q) | _ => bad_type end).

Definition WireProtocol_SendToStream_Handler (srv : WireProtocolServer) (stream : Z) : go S (option error) :=
  srv_SendToStream srv stream.

(** *** The tables *)

(** [grpc.ServiceDesc] with the server it is registered for. *)
Record ServiceDesc := mkServiceDesc {
  ServiceName : string;
  Methods : list (string * MethodHandler);
  Streams : list (string * (Z -> go S (option error)))
}.

Definition Local_ServiceDesc (srv : LocalServer) : ServiceDesc :=
  mkServiceDesc "proto.v1.Local"
    [("Get", Local_Get_Handler srv); ("SetAlive", Local_SetAlive_Handler srv); ("AddLinks", Local_AddLinks_Handler srv);
     ("DelLinks", Local_DelLinks_Handler srv); ("UpdateLinks", Local_UpdateLinks_Handler srv);
     ("SetupPod", Local_SetupPod_Handler srv); ("DestroyPod", Local_DestroyPod_Handler srv);
     ("GRPCWireExists", Local_GRPCWireExists_Handler srv); ("AddGRPCWireLocal", Local_AddGRPCWireLocal_Handler srv);
     ("RemGRPCWire", Local_RemGRPCWire_Handler srv);
     ("GenerateNodeInterfaceName", Local_GenerateNodeInterfaceName_Handler srv)] [].

Definition Remote_ServiceDesc (srv : RemoteServer) : ServiceDesc :=
  mkServiceDesc "proto.v1.Remote"
    [("Update", Remote_Update_Handler srv); ("AddGRPCWireRemote", Remote_AddGRPCWireRemote_Handler srv)] [].

Definition WireProtocol_ServiceDesc (srv : WireProtocolServer) : ServiceDesc :=
  mkServiceDesc "proto.v1.WireProtocol" [("SendToOnce", WireProtocol_SendToOnce_Handler srv)]
    [("SendToStream", WireProtocol_SendToStream_Handler srv)].

End Handlers.

Arguments Interceptor : clear implicits.
Arguments MethodHandler : clear implicits.
Arguments ServiceDesc : clear implicits.
Arguments LocalServer : clear implicits.
Arguments RemoteServer : clear implicits.
Arguments WireProtocolServer : clear implicits.

(** ** The library *)

Class GrpcLib (S : Type) := {
  (** The interceptors of [newServerWithLogging]. *)
  interceptor : Interceptor S;
  (** What a client gets for an error of a handler. *)
  status_error : error -> error;
  (** [cc.Invoke(ctx, method, in, out)] over a connection to a server with these
      services: the request, the type of [out]. *)
  grpc_call : list (ServiceDesc S) -> string -> message -> msg_type -> eff S (result message)
}.

(** Routing takes what follows the last slash as the method's name. *)
Definition plain_name (name : string) : bool := all_bytes (fun c => negb (Ascii.eqb c "/"%char)) name.

Definition full_name {S} (d : ServiceDesc S) (name : string) : string := "/" ++ ServiceName d ++ "/" ++ name.

(** Logging and tagging pass the request on.  A call runs the handler that is
    registered under its name, with the request as it was encoded; the client
    decodes the encoded reply, or gets the error's status.  A name that is
    not registered runs nothing. *)
Class GrpcLibLaws (S : Type) `{Codec, GrpcLib S} := {
  law_interceptor ctx m full (h : Ctx -> message -> go S method_result) s : interceptor ctx m full h s = h ctx m s;
  law_call services (d : ServiceDesc S) name h m t b s :
    NoDup (ServiceName <$> services) -> d ∈ services -> NoDup (fst <$> Methods d) -> (name, h) ∈ Methods d ->
    plain_name name = true -> Marshal m = Ok b ->
    match h [] (fun t => Unmarshal t b) (Some interceptor) s with
    | (Val (_, Some e), s') => grpc_call services (full_name d name) m t s = (Err (status_error e), s')
    | (Val (Some o, None), s') => forall b', Marshal o = Ok b' -> grpc_call services (full_name d name) m t s = (Unmarshal t b', s')
    | _ => True
    end;
  law_unknown services full m t s :
    (forall (d : ServiceDesc S) name h, d ∈ services -> (name, h) ∈ Methods d -> full_name d name <> full) ->
    exists e, grpc_call services full m t s = (Err e, s)
}.

(** ** Clients *)

(** The message of a request of [Proto]. *)
Definition message_of (req : rpc_request) : message :=
  match req with
  | ReqAddLinks q | ReqDelLinks q | ReqUpdateLinks q => MLinksBatchQuery q
  | ReqSetupPod q => MSetupPodQuery q
  | ReqDestroyPod q => MPodQuery q
  | ReqUpdate q => MRemotePod q
  | ReqSendToOnce q => MPacket q
  end.

Section Clients.
  Context {S : Type} `{GrpcLib S} (services : list (ServiceDesc S)).
  Local Open Scope go_scope.

(** The stubs of [Proto] over this library. *)
Definition service_client : GrpcClient S :=
  {| grpc_Dial target s := (None, s);
     grpc_Invoke target method req s :=
       match grpc_call services method (message_of req) TBoolResponse s with
       | (Ok (MBoolResponse r), s') => (Ok r, s')
       | (Ok _, s') => (Err (errorf "mismatched message type"), s')
       | (Err e, s') => (Err e, s')
       end |}.

(** The other stubs, of the same shape. *)
Definition client_stub {T} (method : string) (req : message) (t : msg_type) (unbox : message -> option T) : go S (typed T) :=
  r <- call (grpc_call services method req t) ;;
  match r with
  | Err e => ret (None, Some e)
  | Ok m => match unbox m with Some out => ret (Some out, None) | None => bad_type end
  end.

Definition localClient_Get (q : pb_PodQuery) : go S (typed pb_Pod) :=
  client_stub "/proto.v1.Local/Get" (MPodQuery q) TPod (fun m => match m with MPod r => Some r | _ => None end).

Definition localClient_SetAlive (q : pb_Pod) : go S (typed pb_BoolResponse) :=
  client_stub "/proto.v1.Local/SetAlive" (MPod q) TBoolResponse (fun m => match m with MBoolResponse r => Some r | _ => None end).

Definition localClient_GRPCWireExists (q : pb_WireDef) : go S (typed pb_WireCreateResponse) :=
  client_stub "/proto.v1.Local/GRPCWireExists" (MWireDef q) TWireCreateResponse
    (fun m => match m with MWireCreateResponse r => Some r | _ => None end).

Definition localClient_AddGRPCWireLocal (q : pb_WireDef) : go S (typed pb_BoolResponse) :=
  client_stub "/proto.v1.Local/AddGRPCWireLocal" (MWireDef q) TBoolResponse
    (fun m => match m with MBoolResponse r => Some r | _ => None end).

Definition localClient_RemGRPCWire (q : pb_WireDef) : go S (typed pb_BoolResponse) :=
  client_stub "/proto.v1.Local/RemGRPCWire" (MWireDef q) TBoolResponse
    (fun m => match m with MBoolResponse r => Some r | _ => None end).

Definition localClient_GenerateNodeInterfaceName (q : pb_GenerateNodeInterfaceNameRequest)
  : go S (typed pb_GenerateNodeInterfaceNameResponse) :=
  client_stub "/proto.v1.Local/GenerateNodeInterfaceName" (MGenRequest q) TGenResponse
    (fun m => match m with MGenResponse r => Some r | _ => None end).

Definition remoteClient_AddGRPCWireRemote (q : pb_WireDef) : go S (typed pb_WireCreateResponse) :=
  client_stub "/proto.v1.Remote/AddGRPCWireRemote" (MWireDef q) TWireCreateResponse
    (fun m => match m with MWireCreateResponse r => Some r | _ => None end).

End Clients.

(** *** Streams *)

(** [cc.NewStream] gives the handle of a stream; the other calls are those of
    [grpc.ClientStream] and [grpc.ServerStream]. *)
Class GrpcStream (S : Type) := {
  NewStream : string -> string -> eff S (result Z);
  SendMsg : Z -> message -> eff S (option error);
  RecvMsg : Z -> msg_type -> eff S (result message);
  CloseSend : Z -> eff S (option error)
}.

Section Streams.
  Context {S : Type} `{GrpcStream S}.
  Local Open Scope go_scope.

Definition wireProtocolClient_SendToStream : go S (typed Z) :=
  r <- call (NewStream "SendToStream" "/proto.v1.WireProtocol/SendToStream") ;;
  match r with
  | Err e => ret (None, Some e)
  | Ok stream => ret (Some stream, None)
  end.

Definition SendToStreamClient_Send (x : Z) (m : pb_Packet) : go S (option error) := call (SendMsg x (MPacket m)).

Definition SendToStreamClient_CloseAndRecv (x : Z) : go S (typed pb_BoolResponse) :=
  err <- call (CloseSend x) ;;
  match err with
  | Some e => ret (None, Some e)
  | None =>
      r <- call (RecvMsg x TBoolResponse) ;;
      match r with
      | Err e => ret (None, Some e)
      | Ok (MBoolResponse m) => ret (Some m, None)
      | Ok _ => bad_type
      end
  end.

Definition SendToStreamServer_SendAndClose (x : Z) (m : pb_BoolResponse) : go S (option error) :=
  call (SendMsg x (MBoolResponse m)).

Definition SendToStreamServer_Recv (x : Z) : go S (typed pb_Packet) :=
  r <- call (RecvMsg x TPacket) ;;
  match r with
  | Err e => ret (None, Some e)
  | Ok (MPacket m) => ret (Some m, None)
  | Ok _ => bad_type
  end.

End Streams.

(** ** The daemon as a server *)

Section Daemon.
  Context {K C : Type} `{UnicodeTables, ProtoLib, Kernel K, Pcap K, MapIter K}
    `{RestClient C, GrpcClient C, Informer C, Retry}.
  Local Open Scope go_scope.
  Local Abbreviation W := (World K C).

(** A method that returns a pointer to a new message. *)
Definition pointer {T} (m : go W (T * option error)) : go W (typed T) := '(r, err) <- m ;; ret (Some r, err).

(** [KubeDTN] has all methods of the three services but [SendToStream], which is that
    of the embedded server. *)
Definition kubedtn_Local : LocalServer W :=
  {| srv_Get ctx q := r <- Get q ;; match r with Ok p => ret (Some p, None) | Err e => ret (None, Some e) end;
     srv_SetAlive ctx q := pointer (SetAlive q);
     srv_AddLinks ctx q := pointer (AddLinks ctx q);
     srv_DelLinks ctx q := pointer (DelLinks ctx q);
     srv_UpdateLinks ctx q := pointer (UpdateLinks ctx q);
     srv_SetupPod ctx q := pointer (SetupPod ctx q);
     srv_DestroyPod ctx q := pointer (DestroyPod ctx q);
     srv_GRPCWireExists ctx q := pointer (GRPCWireExists q);
     srv_AddGRPCWireLocal ctx q := pointer (AddGRPCWireLocal q);
     srv_RemGRPCWire ctx q := pointer (RemGRPCWire q);
     srv_GenerateNodeInterfaceName ctx q := pointer (GenerateNodeInterfaceName q) |}.

Definition kubedtn_Remote : RemoteServer W :=
  {| srv_Update ctx q := pointer (Update ctx q); srv_AddGRPCWireRemote ctx q := pointer (AddGRPCWireRemote q) |}.

Definition kubedtn_WireProtocol : WireProtocolServer W :=
  {| srv_SendToOnce ctx q := pointer (SendToOnce q); srv_SendToStream := srv_SendToStream UnimplementedWireProtocolServer |}.

(** The registrations of [New]. *)
Definition daemon_services : list (ServiceDesc W) :=
  [Local_ServiceDesc kubedtn_Local; Remote_ServiceDesc kubedtn_Remote; WireProtocol_ServiceDesc kubedtn_WireProtocol].

End Daemon.

(** The daemon serves no stream: every method of the services is its own, but the
    stream of packets is refused. *)
Lemma SendToStream_refused {K C : Type}
    `{UnicodeTables, ProtoLib, Kernel K, Pcap K, MapIter K, RestClient C, GrpcClient C, Informer C, Retry}
    (d : ServiceDesc (World K C)) name h stream w :
  d ∈ daemon_services -> (name, h) ∈ Streams d -> h stream w = (Val (Some (not_implemented "SendToStream")), w).
Proof.
  unfold daemon_services. intros [->|[->|[->|Hd%elem_of_nil]%elem_of_cons]%elem_of_cons]%elem_of_cons; cbn; [..|done];
    [by intros Hh%elem_of_nil|by intros Hh%elem_of_nil|]. by intros [= -> ->]%list_elem_of_singleton.
Qed.

(** ** What a call does *)

Section Calls.
  Context {S : Type} `{CodecLaws, GL : GrpcLib S, GLL : !GrpcLibLaws S}.

(** The stub of a request answers as the method does: the same effect and the same
    reply, or the status of the error.  A request that cannot be encoded is
    not sent, and a method that panics takes the server down. *)
Definition answers {T} (box : T -> message) (req : message) (stub method : go S (typed T)) : Prop :=
  forall b s, Marshal req = Ok b ->
  match method s with
  | (Val (_, Some e), s') => stub s = (Val (None, Some (status_error e)), s')
  | (Val (Some o, None), s') => forall b', Marshal (box o) = Ok b' -> stub s = (Val (Some o, None), s')
  | _ => True
  end.

(** One method of a table. *)
Lemma call_runs {T} services d name full t (box : T -> message) (req : message) (method : Ctx -> message -> go S method_result)
    (m : go S (typed T)) s b t' :
  NoDup (ServiceName <$> services) -> d ∈ services -> NoDup (fst <$> Methods d) ->
  (name, unary t full method) ∈ Methods d -> plain_name name = true -> type_of req = t -> method [] req = boxed box m ->
  (forall o, type_of (box o) = t') -> Marshal req = Ok b ->
  match m s with
  | (Val (_, Some e), s') => grpc_call services (full_name d name) req t' s = (Err (status_error e), s')
  | (Val (Some o, None), s') =>
      forall b', Marshal (box o) = Ok b' -> grpc_call services (full_name d name) req t' s = (Ok (box o), s')
  | _ => True
  end.
Proof.
  intros Hs Hd Hm Hin Hp Ht Hmeth Hbox Hb. pose proof (law_call services d name _ req t' b s Hs Hd Hm Hin Hp Hb) as Hc.
  unfold unary in Hc. rewrite <- Ht, (Unmarshal_Marshal _ _ Hb) in Hc. rewrite law_interceptor, Hmeth in Hc.
  unfold boxed, bind, ret in Hc. destruct (m s) as [[[[o|] [e|]]|?|?] s']; cbn [fmap option_fmap option_map] in Hc; [exact Hc| |exact Hc|done..]. intros b' Hb'. rewrite (Hc b' Hb'), <- (Hbox o). by rewrite (Unmarshal_Marshal _ _ Hb').
Qed.

(** The stubs of this file, and those of [Proto]. *)
Lemma client_stub_answers {T} services full req t (unbox : message -> option T) (box : T -> message) (m : go S (typed T)) :
  (forall o, unbox (box o) = Some o) ->
  (forall s b, Marshal req = Ok b ->
   match m s with
   | (Val (_, Some e), s') => grpc_call services full req t s = (Err (status_error e), s')
   | (Val (Some o, None), s') => forall b', Marshal (box o) = Ok b' -> grpc_call services full req t s = (Ok (box o), s')
   | _ => True
   end) ->
  answers box req (client_stub services full req t unbox) m.
Proof.
  intros Hbox Hrun b s Hb. specialize (Hrun s b Hb). unfold client_stub, bind, call, ret.
  destruct (m s) as [[[[o|] [e|]]|?|?] s']; [by rewrite Hrun| |by rewrite Hrun|done..].
  intros b' Hb'. by rewrite (Hrun b' Hb'), Hbox.
Qed.

Lemma proto_stub_answers services target full (req : rpc_request) (m : go S (typed pb_BoolResponse)) :
  (forall s b, Marshal (message_of req) = Ok b ->
   match m s with
   | (Val (_, Some e), s') => grpc_call services full (message_of req) TBoolResponse s = (Err (status_error e), s')
   | (Val (Some o, None), s') =>
       forall b', Marshal (MBoolResponse o) = Ok b' ->
         grpc_call services full (message_of req) TBoolResponse s = (Ok (MBoolResponse o), s')
   | _ => True
   end) ->
  answers MBoolResponse (message_of req) (@stub S (service_client services) target full req) m.
Proof.
  intros Hrun b s Hb. specialize (Hrun s b Hb). unfold stub, bind, call, ret. cbn [grpc_Invoke service_client].
  destruct (m s) as [[[[o|] [e|]]|?|?] s']; [by rewrite Hrun| |by rewrite Hrun|done..].
  intros b' Hb'. by rewrite (Hrun b' Hb').
Qed.

End Calls.

(** Finds an entry of a table. *)
Ltac in_table := repeat first [apply elem_of_cons; left; reflexivity | apply elem_of_cons; right].

(** The stub of the method [name] of the service [d]. *)
Ltac table_entry d name :=
  unfold localClient_AddLinks, localClient_DelLinks, localClient_UpdateLinks, localClient_SetupPod, localClient_DestroyPod,
    remoteClient_Update, wireProtocolClient_SendToOnce;
  lazymatch goal with
  | |- answers _ _ (stub ?target ?full ?req) _ => apply (proto_stub_answers _ target full req)
  | _ => apply client_stub_answers; [done|]
  end;
  intros s b Hb; eapply (call_runs daemon_services d name); [decide_now|in_table|decide_now|in_table|reflexivity|reflexivity|reflexivity|done|exact Hb].

(** ** Properties *)

(** C24: a request reaches its handler: for every unary method of the three
    services, calling the client's stub on a daemon with the services that
    [New] registers runs the daemon's method of that name on the request
    that was sent, and the stub returns what the method returned, or the
    status of its error: the names, types and tables of the generated code
    agree. *)
Theorem stubs_reach_handlers {K C : Type}
    `{UnicodeTables, ProtoLib, Kernel K, Pcap K, MapIter K, RestClient C, GrpcClient C, Informer C, Retry}
    `{CodecLaws, GL : GrpcLib (World K C), GLL : !GrpcLibLaws (World K C)} (target : string) :
  let services := daemon_services (K := K) (C := C) in
  let client := service_client services in
  (forall q, answers MPod (MPodQuery q) (localClient_Get services q) (srv_Get kubedtn_Local [] q)) /\
  (forall q, answers MBoolResponse (MPod q) (localClient_SetAlive services q) (pointer (SetAlive q))) /\
  (forall q, answers MBoolResponse (MLinksBatchQuery q) (@localClient_AddLinks _ client target q) (pointer (AddLinks [] q))) /\
  (forall q, answers MBoolResponse (MLinksBatchQuery q) (@localClient_DelLinks _ client target q) (pointer (DelLinks [] q))) /\
  (forall q, answers MBoolResponse (MLinksBatchQuery q) (@localClient_UpdateLinks _ client target q) (pointer (UpdateLinks [] q))) /\
  (forall q, answers MBoolResponse (MSetupPodQuery q) (@localClient_SetupPod _ client target q) (pointer (SetupPod [] q))) /\
  (forall q, answers MBoolResponse (MPodQuery q) (@localClient_DestroyPod _ client target q) (pointer (DestroyPod [] q))) /\
  (forall q, answers MWireCreateResponse (MWireDef q) (localClient_GRPCWireExists services q) (pointer (GRPCWireExists q))) /\
  (forall q, answers MBoolResponse (MWireDef q) (localClient_AddGRPCWireLocal services q) (pointer (AddGRPCWireLocal q))) /\
  (forall q, answers MBoolResponse (MWireDef q) (localClient_RemGRPCWire services q) (pointer (RemGRPCWire q))) /\
  (forall q, answers MGenResponse (MGenRequest q) (localClient_GenerateNodeInterfaceName services q)
               (pointer (GenerateNodeInterfaceName q))) /\
  (forall q, answers MBoolResponse (MRemotePod q) (@remoteClient_Update _ client target q) (pointer (Update [] q))) /\
  (forall q, answers MWireCreateResponse (MWireDef q) (remoteClient_AddGRPCWireRemote services q) (pointer (AddGRPCWireRemote q))) /\
  (forall q, answers MBoolResponse (MPacket q) (@wireProtocolClient_SendToOnce _ client target q) (pointer (SendToOnce q))).
Proof.
  intros services client. split_and!; intros q.
  - table_entry (Local_ServiceDesc kubedtn_Local) "Get".
  - table_entry (Local_ServiceDesc kubedtn_Local) "SetAlive".
  - table_entry (Local_ServiceDesc kubedtn_Local) "AddLinks".
  - table_entry (Local_ServiceDesc kubedtn_Local) "DelLinks".
  - table_entry (Local_ServiceDesc kubedtn_Local) "UpdateLinks".
  - table_entry (Local_ServiceDesc kubedtn_Local) "SetupPod".
  - table_entry (Local_ServiceDesc kubedtn_Local) "DestroyPod".
  - table_entry (Local_ServiceDesc kubedtn_Local) "GRPCWireExists".
  - table_entry (Local_ServiceDesc kubedtn_Local) "AddGRPCWireLocal".
  - table_entry (Local_ServiceDesc kubedtn_Local) "RemGRPCWire".
  - table_entry (Local_ServiceDesc kubedtn_Local) "GenerateNodeInterfaceName".
  - table_entry (Remote_ServiceDesc (kubedtn_Remote (C := C))) "Update".
  - table_entry (Remote_ServiceDesc (kubedtn_Remote (C := C))) "AddGRPCWireRemote".
  - table_entry (WireProtocol_ServiceDesc (kubedtn_WireProtocol (C := C))) "SendToOnce".
Qed.

(** ** Witness *)

(** A codec for two of the messages: a length and the bytes of two strings, and one
    byte. *)
Definition string_bytes (s : string) : list Z := (fun c => Z.of_N (Ascii.N_of_ascii c)) <$> String.list_ascii_of_string s.
Definition bytes_string (l : list Z) : string :=
  String.string_of_list_ascii ((fun b => Ascii.ascii_of_N (Z.to_N b)) <$> l).

Lemma bytes_string_bytes s : bytes_string (string_bytes s) = s.
Proof.
  unfold bytes_string, string_bytes. rewrite <- list_fmap_compose.
  rewrite (list_fmap_ext _ (fun c => c)); [by rewrite list_fmap_id, String.string_of_list_ascii_of_string|].
  intros i c _. cbn. by rewrite N2Z.id, Ascii.ascii_N_embedding.
Qed.

#[local] Instance two_codec : Codec :=
  {| Marshal m :=
       match m with
       | MPodQuery q => Ok (Z.of_nat (length (string_bytes (pq_Name q))) :: string_bytes (pq_Name q) ++ string_bytes (pq_KubeNs q))%list
       | MBoolResponse r => Ok [if Response r then 1%Z else 0%Z]
       | _ => Err (errorf "string field contains invalid UTF-8")
       end;
     Unmarshal t b :=
       match t, b with
       | TPodQuery, n :: l =>
           Ok (MPodQuery (mk_pb_PodQuery (bytes_string (take (Z.to_nat n) l)) (bytes_string (drop (Z.to_nat n) l))))
       | TBoolResponse, [n] => Ok (MBoolResponse (mk_pb_BoolResponse (negb (n =? 0)%Z)))
       | _, _ => Err (errorf "proto: cannot parse invalid wire-format data")
       end |}.

#[local] Instance two_codec_laws : CodecLaws.
Proof.
  split. intros m b. destruct m as [|[name ns]| | |[r]| | | | | |]; cbn [Marshal Unmarshal two_codec type_of pq_Name pq_KubeNs Response];
    try done; intros [= <-].
  - by rewrite Nat2Z.id, take_app_length, drop_app_length, !bytes_string_bytes.
  - by destruct r.
Qed.

(** A library that looks a method up by its full name. *)
Definition method_table {S} (services : list (ServiceDesc S)) : list (string * MethodHandler S) :=
  d ← services; (fun x => (full_name d x.1, x.2)) <$> List.filter (fun x => plain_name x.1) (Methods d).

Definition run_method {S} `{Codec} (h : MethodHandler S) (m : message) (t : msg_type) (s : S) : result message * S :=
  match Marshal m with
  | Err e => (Err e, s)
  | Ok b =>
      match h [] (fun t => Unmarshal t b) (Some (fun ctx m full rest => rest ctx m)) s with
      | (Val (_, Some e), s') => (Err (errorf ("rpc error: code = Unknown desc = " ++ err_msg e)), s')
      | (Val (Some o, None), s') => (match Marshal o with Ok b' => Unmarshal t b' | Err e => Err e end, s')
      | (_, s') => (Err (errorf "connection reset"), s')
      end
  end.

#[local] Instance table_lib {S} `{Codec} : GrpcLib S :=
  {| interceptor ctx m full h := h ctx m;
     status_error e := errorf ("rpc error: code = Unknown desc = " ++ err_msg e);
     grpc_call services full m t s :=
       match List.find (fun x => String.eqb x.1 full) (method_table services) with
       | Some (_, h) => run_method h m t s
       | None => (Err (errorf "rpc error: code = Unimplemented desc = unknown method"), s)
       end |}.

Lemma full_name_inj {S} (d d' : ServiceDesc S) name name' :
  plain_name name = true -> plain_name name' = true -> full_name d name = full_name d' name' ->
  ServiceName d = ServiceName d' /\ name = name'.
Proof.
  intros Hn Hn' E. unfold full_name in E. cbn in E. injection E as E.
  assert (name = name') as <- by (by eapply (sep_suffix (fun c => negb (Ascii.eqb c "/"%char)) "/"%char); [done|..]).
  split; [|done]. by apply append_cancel_r in E.
Qed.

Lemma elem_of_method_table {S} services full (h : MethodHandler S) :
  (full, h) ∈ method_table services <->
  exists d name, d ∈ services /\ (name, h) ∈ Methods d /\ plain_name name = true /\ full = full_name d name.
Proof.
  unfold method_table. rewrite list_elem_of_bind. split.
  - intros (d & (x & [= -> ->] & Hx)%list_elem_of_fmap & Hd). apply list_elem_of_In, filter_In in Hx as [Hx Hp].
    destruct x as [name h0]. exists d, name. split_and!; [done|by apply list_elem_of_In|done|done].
  - intros (d & name & Hd & Hm & Hp & ->). exists d. split; [|done].
    apply list_elem_of_fmap. exists (name, h). split; [done|].
    apply list_elem_of_In, filter_In. split; [by apply list_elem_of_In|done].
Qed.

#[local] Instance table_laws {S} `{Codec} : GrpcLibLaws S.
Proof.
  split; [done|..].
  - intros services d name h m t b s Hs Hd Hm Hin Hp Hb. cbn [grpc_call table_lib].
    destruct (List.find _ _) as [[full h']|] eqn:Hf.
    + apply find_some in Hf as [Hf Heq]. cbn [fst] in Heq. apply String.eqb_eq in Heq as ->. rewrite <- list_elem_of_In, elem_of_method_table in Hf.
      destruct Hf as (d' & name' & Hd' & Hin' & Hp' & E). apply full_name_inj in E as [E <-]; [|done..].
      apply (NoDup_fmap_eq ServiceName services d d' Hs Hd Hd') in E as <-.
      pose proof (NoDup_fmap_eq fst (Methods d) (name, h) (name, h') Hm Hin Hin' eq_refl) as [= <-].
      unfold run_method. rewrite Hb. cbn [interceptor table_lib].
      destruct (h _ _ _ s) as [[[[o|] [e|]]|?|?] s']; [done| |done..]. intros b' ->. done.
    + assert (((full_name d name, h).1 =? full_name d name)%string = false) as Hne.
      { apply (find_none _ _ Hf). apply list_elem_of_In, elem_of_method_table. by exists d, name. }
      cbn [fst] in Hne. by rewrite String.eqb_refl in Hne.
  - intros services full m t s Hno. cbn [grpc_call table_lib]. destruct (List.find _ _) as [[full' h]|] eqn:Hf; [|by eexists].
    apply find_some in Hf as [Hf Heq]. cbn [fst] in Heq. apply String.eqb_eq in Heq as ->. rewrite <- list_elem_of_In, elem_of_method_table in Hf.
    destruct Hf as (d & name & Hd & Hin & _ & ->). by destruct (Hno d name h).
Qed.

#[local] Existing Instance ascii_tables.

(** The pod [r1] is destroyed over the wire. *)
Lemma stubs_reach_handlers_witness :
  let q := mk_pb_PodQuery "r1" "default" in
  @localClient_DestroyPod _ (service_client daemon_services) "node" q worldA_pod
  = (Val (Some (mk_pb_BoolResponse true), None), (DestroyPod [] q worldA_pod).2).
Proof.
  intros q. assert ((DestroyPod [] q worldA_pod).1 = Val accept) as Hr by (vm_compute; reflexivity).
  pose proof (stubs_reach_handlers (K := Sim.State) (C := SimC.State) "node") as (_ & _ & _ & _ & _ & _ & Hd & _).
  specialize (Hd q _ worldA_pod eq_refl). unfold pointer, bind, ret in Hd.
  destruct (DestroyPod [] q worldA_pod) as [o w']. cbn [fst snd] in *. subst o. exact (Hd _ eq_refl).
Defined.
